(* ===== verification/_CoqProject ===== *)
-Q . S2P
Prelude.v
IODevice.v
Keyboard.v
VgaController.v
ConsoleOutput.v
Terminal.v
SerialPort.v
DiskManager.v
HardDisk.v
PCIDevice.v
PciHost.v
GdbServer.v
Elf.v
Bootloader.v
ConsoleInput.v
Machine.v
Display.v
IniReader.v
GuestKeyboard.v
GuestLine.v
GuestDisk.v
Startup.v
GuestBoot.v
Debugging.v
Supervisor.v
Sessions.v
DebugServer.v
DebugClient.v
ConsoleLog.v
GuestPrograms.v
Listener.v
