(* ===== verification/Prelude.v ===== *)
(** * Endless-fault: a verification development of the KVM supervisor

** The program

The supervisor (src/kvm.cpp) runs a guest program in a virtual machine of the Linux
interface KVM and emulates its devices.  [main] reads the configuration, allocates the
guest's memory, copies an executable into it (src/elf), prepares page tables, descriptors
and registers (src/bootloader), attaches a debugger if it is asked to (src/gdbserver),
connects the devices (src/frontend) to the terminal and the disk file (src/backend), and
then serves the exits of the virtual CPU until one of them ends the run.  A second thread
types the characters of the terminal on the keyboard, a third paints the text page of the
guest, and a server shows the guest's memory to a client (src/debug-server,
src/debug-client).

** The method

Each component is a shallow embedding: its state is a record, each function of the code
an executable definition in the monad [io] of this file, with the name it has in the code.
A step of [io S A] takes a state of type [S] and gives [Done] with a result, the new
state and the events it caused, or [Halt] with what stopped it.  An event is what the
world outside sees: a request on an interrupt line, a character sent, registers given to
the virtual CPU.  A [halt] is undefined behaviour of the C++ code (an access out of
bounds, a null pointer, an overflow of an int), the end of the process, or a read that
waits for input that does not come.  Integers are [Z] with the wrap of their C++ type
written out ([u8], [u16], [u32], [u64], [i32]).  The memory of the guest is [mem], a
size and a total map of bytes; an access outside it is a [halt].

** The files

- Prelude.v: the notations (scope [endless_scope] and record update), the monad, integers
  and bits, lists and arrays, memory, tactics and the hint database [endless].
- IODevice.v: the base class (frontend/IODevice) and the typeclass [IODeviceOps] of its
  virtual methods, with [dev_access], an access of any width and direction.
- Keyboard.v, VgaController.v, SerialPort.v: the small devices (frontend/keyboard,
  vgaController, serial_port), each with its abstract device.
- DiskManager.v, HardDisk.v: the disk image (backend/DiskManager) and the ATA drive on
  top of it (frontend/HardDisk).
- PCIDevice.v: configuration space, and the ATA and APIC bridges (frontend/PCIDevice,
  PCI_ATA, PCI_APIC); the ATA bridge is proved against [IODeviceOps], so for any drive.
- PciHost.v: the host bridge (frontend/pci_host); its table points to shared device
  objects, which are a store next to it.
- GdbServer.v: the debug stub (gdbserver/gdbserver): packets, codecs, commands, loop, and
  the functions of kvm.cpp that it calls.
- Elf.v: the executable loader (src/elf), once for both formats, and the choice of the
  interpreter (elf/estrattore), with the test program of the loader (elf/main).
- Bootloader.v: descriptors, page tables, entry routines (bootloader/Bootloader), with a
  model of the processor's address translation ([walk]) and descriptor decoding.
- ConsoleInput.v, ConsoleOutput.v: the terminal threads (backend/ConsoleInput,
  ConsoleOutput); ConsoleOutput.v has a reference terminal that interprets the output.
- Terminal.v: the attributes of the terminal, which the two consoles save and restore.
- Machine.v: the global objects and the exit loop of kvm.cpp, the port map, the
  debugger's register cache, [initIO].
- Display.v: the ports, the video memory and the painting thread together.
- IniReader.v: the reader of the configuration (INIReader.h), with the grammar of the
  files that it reads.
- GuestKeyboard.v, GuestLine.v, GuestDisk.v: guests of the machine, whose exits it serves:
  a keyboard program by polling (target/keyboard_program.s), a line reader by interrupts
  and two disk programs (target-sources).
- Startup.v: [main] up to the first entry of the virtual CPU, with its settings read from
  the text of the configuration.
- GuestBoot.v: the boot sequence (bootloader/boot64.S), instruction by instruction on the
  processor, from what Startup.v leaves to the program in 64-bit mode.
- Debugging.v: the abstract debug target, and whole debug sessions.
- Supervisor.v: [main] from its first line to its last.
- Sessions.v: the disk programs as guests of [main]; a simulation shows that a guest whose
  exits are recorded is the list of exits that the exit loop is given.
- DebugServer.v: messages, framing and server thread (debug-server).
- DebugClient.v: the client (debug-client), from its command line to what it prints.
- ConsoleLog.v: the log (backend/ConsoleLog) and what kvm.cpp writes to it.
- GuestPrograms.v: the library and the two programs of target that end with a result
  (lib.s, prog_prova.c, ricorsivo.c), on top of GuestBoot.v and ConsoleLog.v.
- Listener.v: the sockets of the debug server and of the stub, with the descriptors of
  the process, and the thread that accepts the clients of the debug server.

A component calls another through [zoom], which runs a step of the inner state in the
outer one; the whole machine [kvm.t] is the record of the devices' states.

** What the theorems show

- The whole program: [supervisor_serves] and [supervisor_debugged] run [main] from the
  command line to its return value, without and with a debugger; [program_entered]
  goes on through the boot sequence to the entry of the program; [start_program],
  [configuration], [start_failures], [memory_size] describe its start, its settings as a
  function of the text of the configuration, and how each failure ends it.
- The machine: [io_routes] gives the chain of port tests as a table; [io_safe] that no exit
  of the guest stops the supervisor, but for the named faults of the disk;
  [machine_keyboard], [machine_displays] and [hdd_moves] carry the contracts of the
  keyboard, the display and the disk to the guest's ports.
- Guests: [keyboard_program_echoes] and [line_typed] give what the two keyboard programs
  have done at any point of any interleaving with the keystrokes, and that they catch up;
  [disk_write_program] what the first disk program leaves on the disk, [disk_sessions] what
  the second goes on to show in another run of [main] on the same disk file, and
  [second_command_waits] where such a program waits for ever; [outputb_exit], [inputb_exit],
  [prova_needs_memory], [ricorsiva_sum], [ricorsivo_logged] the test programs and their
  results.
- The configuration: [config_read] (a file of the grammar gives its values, a round trip),
  [config_typed] (any bytes give a well-typed reader), [integer_notations].
- Refinement of an abstract device: [keyboard_refines_queue] (a bounded queue, with
  [keyboard_fifo] and [keyboard_irq_line]), [vga_refines_cursor], [serial_port_run],
  [breakpoint_session] (a debug target), [boot_identity_map] and [boot_environment] (the
  processor's translation), [console_shows] (a terminal).
- The disk: [disk_write_read], [hdd_round_trip], [hdd_write_command],
  [hdd_read_command], [hdd_step_safe], [hdd_irq_line].
- PCI: [config_access_total], [ata_relocation], [host_safe], [host_cycle],
  [host_constructed].
- The debug protocol: [packet_round_trip], [packet_damaged],
  [gdb_registers_round_trip], [gdb_read_memory], [gdb_terminates]; [gdb_stale_sequence] and
  [gdb_damaged_reaches] show what the buffer of the stub keeps between two packets.
- The debug server: [debug_session] end to end, [dump_memory], [worker_terminates],
  [clients_served].
- The debug client: [printed_numbers], [client_gives_up]; the log: [log_file],
  [memory_logged], [result_logged], [ioapic_line_fields], [trace_stops], [listing_agrees], [base_sticks]; the descriptors:
  [open_server_sockets], [stub_server_sockets], [stub_released].
- The loader: [elf_load]; the console: [console_types], [terminal_restored], [raw_mode].

Theorems that show a defect say so in their comment; where a defect is part of the
behaviour, the model has it and the theorem states what the code does.

** Fuel

Loops without a structural measure take fuel, and no result depends on its choice.
[getpacket] and [putpacket] take one more than the characters left, each turn consumes
one, and the end of the input is [NeedInput] before the fuel is; so does the command
loop.  The server thread takes one more than the bytes of its stream
([worker_terminates]).  The interpreters of an executable are a finite list and its
segments a finite table, the length of which is the fuel.  The loop that builds the disk
image takes the number of its blocks.  The shift loop of the number parser takes the size
of its buffer.  The reader of the configuration takes the number of characters of the file,
each line of which consumes one.  A poll of a disk program takes any positive fuel: one turn
is enough, or it waits for ever and is [NeedInput] for every fuel.  The digits of a printed
number take 20 for base 10 and 16 for base 16, enough for 64 bits.
The boot sequence takes its 23 instructions, since it has no loop; the recursion of
ricorsivo.c takes any fuel from its argument on.

** Abstractions

- Threads: the keyboard and the controller are guarded by mutexes, so a run is a sequence
  of whole operations in any order ([kvm.op]); the painting thread is observed between
  the exits.
- Files, sockets and requests to KVM: what they return is an argument (records
  [startup.host] and [supervisor.world], the lists of inputs); what is sent is an event or
  a list of characters.  A send takes all it is given; a stream arrives in segments.
- The virtual CPU: a run of the guest is the list of the exits it reports.  The guest's
  memory is what the loader leaves and the debugger changes; what the guest itself writes
  in it between two exits is not followed, except that the display is stated for any page.
  The guests of GuestBoot.v, GuestKeyboard.v, GuestLine.v and GuestDisk.v are programs on an abstract
  processor that has the registers, the memory and the interrupts that they use.  The
  functions of their library libce are arguments: in GuestLine.v the fields of a record,
  with what is documented of them as a second one ([documented]: the counter of the
  semaphore, the characters shown), and in GuestDisk.v those that read the configuration
  space, with the configuration mechanism as a hypothesis, and those that write and wait,
  of which nothing is assumed: what a program shows is the calls that are left of it.  The
  function pause is where each program is followed to.  The disk
  programs are parametric in what serves their exits: the machine, or the machine and a
  record of them.  An instruction
  is a constructor of the listing, not its encoding; the addresses the linker chooses are
  arguments, and the accessed and dirty bits of the page tables are left out.
- The stub calls back into kvm.cpp to load the registers and to set the bit for single
  steps: these functions are in GdbServer.v, on the state of the stub, whose list
  [requests] gives the result of each of their requests to KVM in order (those beyond its
  end succeed); [load_result] is what two of them give a load of the registers.
- Uninitialised members and memory are arguments.

** Not modelled

- stampa_indirizzo of the client, which nothing calls, and the constants of elf/costanti.h
  that nothing uses.
- The texts of the log other than those of ConsoleLog.v: they are messages without a value
  that is computed.
- The creation of threads, the call of the exit handler by the C library (the handler is
  [endIO]), destructors that only release memory.
- The set-up of the gates and of the interrupt controller by [ini] of
  int-tastiera/mod_tas.cpp, which is calls of libce; what pause does in the guests.
- The compiled examples of esempi-io, which are there without their sources. *)

From stdpp Require Export base numbers list option strings.
From Stdlib Require Export ZArith Lia.

#[global] Open Scope Z_scope.

(** ** Notations *)

(** The notations of the development live in a scope of their own. *)
Declare Scope endless_scope.
Delimit Scope endless_scope with endless.

(** ** Functional record update

    A C++ assignment [obj.field = v] is the record update [s <| field := v |>].
    [Update] is the interface; its instances are derived by [derive_update] from
    the eta expansion of the record, which each component declares once. *)
Class Eta (R : Type) : Type := eta : R → R.

Class Update {R T : Type} (f : R → T) : Type := upd : (T → T) → R → R.
#[global] Arguments upd {R T} f {_} g x /.
#[global] Hint Mode Update - - ! : typeclass_instances.

Ltac derive_update :=
  lazymatch goal with
  | |- @Update ?R ?T ?f =>
      let g := fresh "g" in let x := fresh "x" in intros g x;
      let inst := constr:(_ : Eta R) in
      let e := (eval hnf in (inst x)) in
      lazymatch eval pattern (f x) in e with
      | ?k _ => let r := (eval cbv beta in (k (g (f x)))) in exact r
      end
  end.

#[export] Hint Extern 0 (Update _) => derive_update : typeclass_instances.

Notation "x <| f := v |>" := (upd f (λ _, v) x)
  (at level 1, f at next level, left associativity,
   format "x  <|  f  :=  v  |>") : endless_scope.

#[global] Open Scope endless_scope.

(** ** Machine integers

    A w-bit unsigned C++ value is a [Z] in [0, 2^w); a conversion to such a type
    is the reduction modulo [2^w].  [i32] is the conversion to [int]. *)
Definition u8 (x : Z) : Z := x mod 256.
Definition u16 (x : Z) : Z := x mod 65536.
Definition u32 (x : Z) : Z := x mod 4294967296.
Definition u64 (x : Z) : Z := x mod 18446744073709551616.
Definition i32 (x : Z) : Z := (x + 2147483648) mod 4294967296 - 2147483648.

Definition INT_MAX : Z := 2147483647.

Definition is_u8 (x : Z) : Prop := 0 ≤ x < 256.
Definition is_u16 (x : Z) : Prop := 0 ≤ x < 65536.
Definition is_u32 (x : Z) : Prop := 0 ≤ x < 4294967296.
Definition is_u64 (x : Z) : Prop := 0 ≤ x < 18446744073709551616.

#[export] Instance is_u8_dec x : Decision (is_u8 x).
Proof. unfold is_u8. apply _. Defined.
#[export] Instance is_u16_dec x : Decision (is_u16 x).
Proof. unfold is_u16. apply _. Defined.
#[export] Instance is_u32_dec x : Decision (is_u32 x).
Proof. unfold is_u32. apply _. Defined.
#[export] Instance is_u64_dec x : Decision (is_u64 x).
Proof. unfold is_u64. apply _. Defined.

(** A test [x & m] used as a condition. *)
Definition has_bits (x m : Z) : bool := negb (Z.land x m =? 0).

(** [width_lia] is [lia] after the width conversions and bounds are unfolded and
    every division or remainder by a constant is replaced by its equations. *)
Ltac width_lia :=
  unfold is_u8, is_u16, is_u32, is_u64, u8, u16, u32, u64, i32, INT_MAX in *;
  Z.div_mod_to_equations; lia.

Lemma u8_range x : is_u8 (u8 x).
Proof. width_lia. Qed.
Lemma u16_range x : is_u16 (u16 x).
Proof. width_lia. Qed.
Lemma u32_range x : is_u32 (u32 x).
Proof. width_lia. Qed.
Lemma u64_range x : is_u64 (u64 x).
Proof. width_lia. Qed.
Lemma u8_id x : is_u8 x → u8 x = x.
Proof. width_lia. Qed.
Lemma u16_id x : is_u16 x → u16 x = x.
Proof. width_lia. Qed.
Lemma u32_id x : is_u32 x → u32 x = x.
Proof. width_lia. Qed.
Lemma u64_id x : is_u64 x → u64 x = x.
Proof. width_lia. Qed.

Create HintDb endless.
Create Rewrite HintDb endless.
#[export] Hint Resolve u8_range u16_range u32_range u64_range : endless.
#[export] Hint Rewrite u8_id u16_id u32_id u64_id using (width_lia || assumption) : endless.

(** *** Bit operations as arithmetic *)

Lemma land_ones_mod x w : 0 ≤ w → Z.land x (2 ^ w - 1) = x mod 2 ^ w.
Proof.
  intros. rewrite <- Z.land_ones by done. by rewrite Z.ones_equiv.
Qed.

(** The disjunction of a value below [2^w] with a multiple of [2^w] is a sum. *)
Lemma lor_shiftl_add x y w :
  0 ≤ w → 0 ≤ x < 2 ^ w → Z.lor x (Z.shiftl y w) = x + y * 2 ^ w.
Proof.
  intros Hw Hx. rewrite Z.shiftl_mul_pow2 by done.
  assert (Z.land x (y * 2 ^ w) = 0) as Hl.
  { apply Z.bits_inj'. intros i Hi. rewrite Z.land_spec, Z.bits_0.
    destruct (Z.lt_ge_cases i w).
    - rewrite Z.mul_pow2_bits_low by lia. apply andb_false_r.
    - rewrite <- (Z.mod_small x (2 ^ w)) by done.
      rewrite Z.mod_pow2_bits_high by lia. done. }
  rewrite <- Z.lxor_lor by done. symmetry. by apply Z.add_nocarry_lxor.
Qed.


(** *** Little-endian encodings

    [le_bytes n x] is the memory image of the low [n] bytes of [x] on the
    little-endian host and guest; [le_val] reads it back. *)
Fixpoint le_bytes (n : nat) (x : Z) : list Z :=
  match n with
  | O => []
  | S n => u8 x :: le_bytes n (x / 256)
  end.

Fixpoint le_val (bs : list Z) : Z :=
  match bs with
  | [] => 0
  | b :: bs => b + 256 * le_val bs
  end.

Lemma length_le_bytes n x : length (le_bytes n x) = n.
Proof. revert x. induction n; simpl; auto. Qed.

Lemma le_bytes_u8 n x : Forall is_u8 (le_bytes n x).
Proof. revert x. induction n; simpl; auto using u8_range. Qed.

Lemma le_val_bytes n x : le_val (le_bytes n x) = x mod 256 ^ Z.of_nat n.
Proof.
  revert x. induction n as [|n IH]; intros x; [by rewrite Z.mod_1_r|].
  simpl le_bytes. simpl le_val.
  rewrite IH, Nat2Z.inj_succ, Z.pow_succ_r by lia.
  rewrite Z.rem_mul_r by lia. unfold u8. lia.
Qed.

Lemma le_val_bound bs : Forall is_u8 bs → 0 ≤ le_val bs < 256 ^ Z.of_nat (length bs).
Proof.
  induction 1 as [|b bs Hb _ IH]; [done|].
  simpl length. simpl le_val. rewrite Nat2Z.inj_succ, Z.pow_succ_r by lia.
  unfold is_u8 in Hb. lia.
Qed.

Lemma le_val_app bs1 bs2 :
  le_val (bs1 ++ bs2) = le_val bs1 + 256 ^ Z.of_nat (length bs1) * le_val bs2.
Proof.
  induction bs1 as [|b bs1 IH]; [by rewrite Z.mul_1_l|].
  cbn [app length]. simpl le_val.
  rewrite IH, Nat2Z.inj_succ, Z.pow_succ_r by lia. lia.
Qed.

Lemma le_bytes_val bs : Forall is_u8 bs → le_bytes (length bs) (le_val bs) = bs.
Proof.
  induction 1 as [|b bs Hb _ IH]; [done|]. simpl.
  replace (u8 (b + 256 * le_val bs)) with b by width_lia.
  replace ((b + 256 * le_val bs) / 256) with (le_val bs) by width_lia.
  by rewrite IH.
Qed.

Lemma le_bytes_mod n x : le_bytes n (x mod 256 ^ Z.of_nat n) = le_bytes n x.
Proof.
  rewrite <- le_val_bytes. rewrite <- (length_le_bytes n x) at 1.
  apply le_bytes_val, le_bytes_u8.
Qed.

#[export] Hint Rewrite length_le_bytes : endless.
#[export] Hint Resolve le_bytes_u8 : endless.

Lemma lookup_map {A B} (f : A → B) (l : list A) i : map f l !! i = f <$> l !! i.
Proof. apply list_lookup_fmap. Qed.

(** ** Byte arrays

    A C array is a list.  [slice] is a read of [n] elements from offset [off],
    stdpp's [list_inserts] the write of a run of elements at an offset; both are
    used inside the bounds only, an access outside them is the [halt] value
    [OutOfBounds] below. *)
Definition slice {A} (off n : nat) (l : list A) : list A := take n (drop off l).

Section slices.
Context {A : Type}.
Implicit Types (l bs : list A) (off n i : nat).

Lemma length_slice off n l : (off + n ≤ length l)%nat → length (slice off n l) = n.
Proof. intros. unfold slice. rewrite length_take, length_drop. lia. Qed.

Lemma slice_split off n m l : slice off (n + m) l = slice off n l ++ slice (off + n) m l.
Proof. unfold slice. by rewrite <- (drop_drop l n off), take_take_drop. Qed.

Lemma lookup_slice off n l i : (i < n)%nat → slice off n l !! i = l !! (off + i)%nat.
Proof. intros. unfold slice. by rewrite lookup_take_lt, lookup_drop by done. Qed.

Lemma slice_app l1 bs l2 : slice (length l1) (length bs) (l1 ++ bs ++ l2) = bs.
Proof. unfold slice. by rewrite drop_app_length, take_app_length. Qed.

Lemma slice_ext off n l1 l2 :
  (∀ i, (i < n)%nat → l1 !! (off + i)%nat = l2 !! (off + i)%nat) →
  slice off n l1 = slice off n l2.
Proof.
  intros H. apply list_eq. intros i. destruct (decide (i < n)%nat).
  - by rewrite !lookup_slice by done; apply H.
  - unfold slice. by rewrite !lookup_take_ge by lia.
Qed.

(** Reading back what was written, and nothing else. *)
Lemma slice_inserts_eq off bs l :
  (off + length bs ≤ length l)%nat →
  slice off (length bs) (list_inserts off bs l) = bs.
Proof.
  intros. apply list_eq. intros i. destruct (decide (i < length bs)%nat).
  - rewrite lookup_slice by done.
    rewrite list_lookup_inserts by lia. f_equal. lia.
  - unfold slice. rewrite lookup_take_ge by lia.
    symmetry. apply lookup_ge_None. lia.
Qed.

Lemma slice_inserts_ne off bs off' n l :
  (off' + n ≤ off ∨ off + length bs ≤ off')%nat →
  slice off' n (list_inserts off bs l) = slice off' n l.
Proof.
  intros H. apply slice_ext. intros i Hi.
  destruct H.
  - rewrite list_lookup_inserts_lt by lia. done.
  - rewrite list_lookup_inserts_ge by lia. done.
Qed.

Lemma slice_slice off n off' n' l :
  (off' + n' ≤ n)%nat → slice off' n' (slice off n l) = slice (off + off') n' l.
Proof.
  intros. apply list_eq. intros i. destruct (decide (i < n')%nat).
  - rewrite !lookup_slice by lia. f_equal. lia.
  - unfold slice. by rewrite !lookup_take_ge by lia.
Qed.
End slices.

(** A write to a file at a position inside it, or at its end. *)
Definition overwrite {A} (off : nat) (bs l : list A) : list A :=
  take off l ++ bs ++ drop (off + length bs) l.

Lemma overwrite_inserts {A} off (bs l : list A) :
  (off + length bs ≤ length l)%nat → overwrite off bs l = list_inserts off bs l.
Proof.
  intros H. unfold overwrite. apply list_eq. intros i.
  destruct (decide (i < off)%nat).
  { rewrite list_lookup_inserts_lt by lia.
    rewrite lookup_app_l by (rewrite length_take; lia). by apply lookup_take_lt. }
  rewrite lookup_app_r by (rewrite length_take; lia). rewrite length_take_le by lia.
  destruct (decide (i < off + length bs)%nat).
  { rewrite list_lookup_inserts by lia. by rewrite lookup_app_l by lia. }
  rewrite list_lookup_inserts_ge by lia. rewrite lookup_app_r by lia.
  rewrite lookup_drop. f_equal. lia.
Qed.

Lemma length_overwrite {A} off (bs l : list A) :
  (off + length bs ≤ length l)%nat → length (overwrite off bs l) = length l.
Proof. intros. rewrite overwrite_inserts by done. apply length_inserts. Qed.

(** The characters of a literal. *)
Definition chars (s : string) : list Z :=
  map (λ a, Z.of_N (Ascii.N_of_ascii a)) (String.list_ascii_of_string s).

(** ** The memory of the guest

    [guest_physical_memory] is an array of [msize] bytes, most of them never
    touched: it is a function on offsets.  Accesses outside it are undefined. *)
Record mem : Type := mk_mem { msize : Z; mget : Z → Z }.

Definition mem_wf (m : mem) : Prop := 0 ≤ msize m ∧ ∀ a, is_u8 (mget m a).

Definition mem_slice (a : Z) (n : nat) (m : mem) : list Z :=
  map (λ i, mget m (a + Z.of_nat i)) (seq 0 n).

Definition mem_put (a : Z) (bs : list Z) (m : mem) : mem := {|
  msize := msize m;
  mget := λ x, if (a <=? x) && (x <? a + Z.of_nat (length bs))
               then nth (Z.to_nat (x - a)) bs 0 else mget m x |}.

(** [memset]. *)
Definition mem_fill (a n v : Z) (m : mem) : mem := {|
  msize := msize m;
  mget := λ x, if (a <=? x) && (x <? a + n) then v else mget m x |}.

(** Checked accesses. *)
Definition in_mem (a : Z) (n : nat) (m : mem) : Prop :=
  0 ≤ a ∧ a + Z.of_nat n ≤ msize m.

#[export] Instance in_mem_dec a n m : Decision (in_mem a n m).
Proof. unfold in_mem. apply _. Defined.

Lemma length_mem_slice a n m : length (mem_slice a n m) = n.
Proof. unfold mem_slice. by rewrite length_map, length_seq. Qed.

Lemma lookup_mem_slice a n m i :
  (i < n)%nat → mem_slice a n m !! i = Some (mget m (a + Z.of_nat i)).
Proof.
  intros Hi. unfold mem_slice. rewrite lookup_map, lookup_seq_lt by done. done.
Qed.

Lemma mget_put_in a bs m x :
  a ≤ x < a + Z.of_nat (length bs) → mget (mem_put a bs m) x = nth (Z.to_nat (x - a)) bs 0.
Proof.
  intros Hx. cbn. by rewrite (proj2 (Z.leb_le _ _)), (proj2 (Z.ltb_lt _ _)) by lia.
Qed.

Lemma mget_put_out a bs m x :
  ¬ (a ≤ x < a + Z.of_nat (length bs)) → mget (mem_put a bs m) x = mget m x.
Proof.
  intros Hx. cbn. destruct (Z.leb_spec a x), (Z.ltb_spec x (a + Z.of_nat (length bs)));
    cbn [andb]; done || lia.
Qed.

Lemma mget_fill a n v m x :
  mget (mem_fill a n v m) x = if decide (a ≤ x < a + n) then v else mget m x.
Proof.
  cbn. destruct (Z.leb_spec a x), (Z.ltb_spec x (a + n)); cbn [andb]; case_decide; done || lia.
Qed.

Lemma mem_slice_put_eq a bs m : mem_slice a (length bs) (mem_put a bs m) = bs.
Proof.
  apply list_eq_same_length with (length bs); [done|apply length_mem_slice|].
  intros i x y Hi Hx Hy. rewrite lookup_mem_slice in Hx by done.
  rewrite mget_put_in in Hx by lia. injection Hx as <-.
  replace (Z.to_nat (a + Z.of_nat i - a)) with i by lia.
  exact (nth_lookup_Some _ _ _ _ Hy).
Qed.

Lemma mem_slice_put_ne a bs m a' n :
  a' + Z.of_nat n ≤ a ∨ a + Z.of_nat (length bs) ≤ a' →
  mem_slice a' n (mem_put a bs m) = mem_slice a' n m.
Proof.
  intros H. unfold mem_slice. apply map_ext_in. intros i Hi%in_seq.
  apply mget_put_out. lia.
Qed.

Lemma mem_put_wf a bs m : mem_wf m → Forall is_u8 bs → mem_wf (mem_put a bs m).
Proof.
  intros [Hs Hm] Hb. split; [done|]. intros x. cbn.
  destruct (Z.leb_spec a x), (Z.ltb_spec x (a + Z.of_nat (length bs)));
    cbn [andb]; try done. apply Forall_nth; [done|lia].
Qed.

(** ** Observable events and abnormal ends

    What a component does to the outside of the process is a list of events:
    a request on a line of the interrupt controller emulated by KVM
    ([set_IRQline] of kvm.cpp), a character a serial port prints, a character sent
    to the debugger, the registers and the single-step mode given to the virtual
    CPU on its behalf, and the end of its connection. *)
Inductive event : Type :=
  | IRQLine (irq_id level : Z)
  | SerialChar (c : Z)
  | DebugChar (c : Z)
  | VcpuRegisters (regs : list Z)
  | VcpuStep (enable_step : bool)
  | GdbClosed.

#[export] Instance event_eq_dec : EqDecision event.
Proof. solve_decision. Defined.

(** A step that does not return: undefined behaviour of the C++ code, or the end
    of the process, or a read that waits for input. *)
Inductive halt : Type :=
  | OutOfBounds
  | NullDeref
  | IntOverflow
  | ExitProcess (code : Z)
  | NeedInput.

#[export] Instance halt_eq_dec : EqDecision halt.
Proof. solve_decision. Defined.

Inductive outcome (A : Type) : Type :=
  | Done (a : A)
  | Halt (h : halt).
Arguments Done {A} a.
Arguments Halt {A} h.

(** The monad of the operations: a state of type [S] is threaded, the events are
    appended in order, and a step may halt. *)
Definition io (S A : Type) : Type := S → outcome (A * S * list event).

#[export] Instance io_ret {S} : MRet (io S) := λ A a s, Done (a, s, []).
#[export] Instance io_bind {S} : MBind (io S) := λ A B f m s,
  match m s with
  | Done (a, s', ev) =>
      match f a s' with
      | Done (b, s'', ev') => Done (b, s'', ev ++ ev')
      | Halt h => Halt h
      end
  | Halt h => Halt h
  end.

Definition get {S} : io S S := λ s, Done (s, s, []).
Definition modify {S} (f : S → S) : io S unit := λ s, Done (tt, f s, []).
Definition emit {S} (e : event) : io S unit := λ s, Done (tt, s, [e]).
Definition crash {S A} (h : halt) : io S A := λ s, Halt h.
Definition when {S} (b : bool) (m : io S unit) : io S unit :=
  if b then m else mret tt.

(** [arr[i]] and [arr[i] = v] of a C array, the index being any integer. *)
Definition array_get {S A} (l : list A) (i : Z) : io S A :=
  if decide (0 ≤ i)
  then match l !! Z.to_nat i with Some x => mret x | None => crash OutOfBounds end
  else crash OutOfBounds.

Definition array_set {S A} (l : list A) (i : Z) (v : A) : io S (list A) :=
  if decide (0 ≤ i < Z.of_nat (length l))
  then mret (<[Z.to_nat i := v]> l) else crash OutOfBounds.

(** [x++] on an [int]: an overflow is undefined. *)
Definition int_incr {S} (x : Z) : io S Z :=
  if decide (x < INT_MAX) then mret (x + 1) else crash IntOverflow.

(** An operation on a part of the state, such as a call on a member object. *)
Definition zoom {S T A} (view : S → T) (put : T → S → S) (m : io T A) : io S A :=
  λ s, match m (view s) with
       | Done (a, t, ev) => Done (a, put t s, ev)
       | Halt h => Halt h
       end.

(** Unfolding of the monad: [io_simpl] executes the straight-line part of an
    operation. *)
Ltac io_unfold :=
  cbv beta delta [mbind mret io_bind io_ret get modify emit crash when zoom] in *.
Ltac io_simpl := io_unfold; cbn [upd negb andb orb fst snd app] in *; cbn in *.

(** [io_cases] executes an operation, splitting on each condition it meets. *)
Ltac io_cases :=
  io_simpl;
  repeat (case_match; io_simpl; simplify_eq/=; try done).

Section io_lemmas.
Context {S : Type}.

Lemma bind_done {A B} (m : io S A) (f : A → io S B) s a s' ev :
  m s = Done (a, s', ev) →
  (m ≫= f) s = match f a s' with
               | Done (b, s'', ev') => Done (b, s'', ev ++ ev')
               | Halt h => Halt h
               end.
Proof. intros H. unfold mbind, io_bind. by rewrite H. Qed.

(** A step without events leaves the rest of the operation on the new state. *)
(** An outcome after events that came before it. *)
Definition emitting {A} (ev : list event) (r : outcome (A * S * list event)) :
    outcome (A * S * list event) :=
  match r with
  | Done (a, s, ev') => Done (a, s, ev ++ ev')
  | Halt h => Halt h
  end.

Lemma bind_cong {A B} (m m' : io S A) (f g : A → io S B) s :
  m s = m' s → (∀ a s, f a s = g a s) → (m ≫= f) s = (m' ≫= g) s.
Proof.
  intros H Hf. unfold mbind, io_bind. rewrite H. destruct (m' s) as [[[a s'] ev]|]; [|done].
  by rewrite Hf.
Qed.

Lemma bind_emits {A B} (m : io S A) (f : A → io S B) s a s' ev :
  m s = Done (a, s', ev) → (m ≫= f) s = emitting ev (f a s').
Proof. apply bind_done. Qed.

Lemma emitting_quiet {A} (r : outcome (A * S * list event)) : emitting [] r = r.
Proof. by destruct r as [[[a s] ev]|]. Qed.

Lemma bind_quiet {A B} (m : io S A) (f : A → io S B) s a s' :
  m s = Done (a, s', []) → (m ≫= f) s = f a s'.
Proof.
  intros H. unfold mbind, io_bind. rewrite H. by destruct (f a s') as [[[b s''] ev]|].
Qed.

Lemma bind_halt {A B} (m : io S A) (f : A → io S B) s h :
  m s = Halt h → (m ≫= f) s = Halt h.
Proof. intros H. unfold mbind, io_bind. by rewrite H. Qed.

Lemma bind_assoc {A B C} (m : io S A) (f : A → io S B) (g : B → io S C) s :
  ((m ≫= f) ≫= g) s = (m ≫= λ a, f a ≫= g) s.
Proof.
  unfold mbind, io_bind. destruct (m s) as [[[a s1] ev1]|]; [|done].
  destruct (f a s1) as [[[b s2] ev2]|]; [|done].
  destruct (g b s2) as [[[c s3] ev3]|]; [|done]. by rewrite app_assoc.
Qed.

Lemma bind_inv {A B} (m : io S A) (f : A → io S B) s b s'' ev :
  (m ≫= f) s = Done (b, s'', ev) →
  ∃ a s' ev1 ev2, m s = Done (a, s', ev1) ∧ f a s' = Done (b, s'', ev2) ∧
                  ev = ev1 ++ ev2.
Proof.
  unfold mbind, io_bind. destruct (m s) as [[[a s'] ev1]|] eqn:Hm; [|done].
  destruct (f a s') as [[[b' s2] ev2]|] eqn:Hf; [|done].
  intros [= -> -> <-]. eauto 10.
Qed.

Lemma zoom_bind_done {T A B} (view : S → T) (put : T → S → S) (m : io T A)
    (f : A → io S B) s a t ev :
  m (view s) = Done (a, t, ev) →
  (zoom view put m ≫= f) s =
  match f a (put t s) with
  | Done (b, s'', ev') => Done (b, s'', ev ++ ev')
  | Halt h => Halt h
  end.
Proof. intros H. unfold zoom, mbind, io_bind. by rewrite H. Qed.

Lemma array_get_in {A} (l : list A) i x (s : S) :
  0 ≤ i → l !! Z.to_nat i = Some x → array_get l i s = Done (x, s, []).
Proof. intros Hi Hx. unfold array_get. rewrite decide_True, Hx by done. done. Qed.

Lemma array_get_out {A} (l : list A) i (s : S) :
  i < 0 ∨ Z.of_nat (length l) ≤ i → array_get l i s = Halt OutOfBounds.
Proof.
  intros Hi. unfold array_get. case_decide; [|done].
  rewrite lookup_ge_None_2 by lia. done.
Qed.

Lemma array_set_in {A} (l : list A) i x (s : S) :
  0 ≤ i < Z.of_nat (length l) →
  array_set l i x s = Done (<[Z.to_nat i := x]> l, s, []).
Proof. intros Hi. unfold array_set. by rewrite decide_True. Qed.

Lemma array_set_out {A} (l : list A) i x (s : S) :
  ¬ (0 ≤ i < Z.of_nat (length l)) → array_set l i x s = Halt OutOfBounds.
Proof. intros Hi. unfold array_set. by rewrite decide_False. Qed.
End io_lemmas.

(** ** Loops

    [for_each] runs the body of a counting loop on its indices. *)
Fixpoint for_each {S : Type} (idx : list Z) (body : Z → io S unit) : io S unit :=
  match idx with
  | [] => mret tt
  | i :: idx => body i;; for_each idx body
  end.

(** A loop of [n] turns without events keeps an invariant on the turns done. *)
Lemma for_each_invariant {St} (body : Z → io St unit) (I : Z → St → Prop) n s :
  0 ≤ n → I 0 s →
  (∀ i s, 0 ≤ i < n → I i s → ∃ s', body i s = Done (tt, s', []) ∧ I (i + 1) s') →
  ∃ s', for_each (seqZ 0 n) body s = Done (tt, s', []) ∧ I n s'.
Proof.
  intros Hn H0 Hbody.
  assert (∀ k i s, i + Z.of_nat k = n → 0 ≤ i → I i s →
    ∃ s', for_each (seqZ i (Z.of_nat k)) body s = Done (tt, s', []) ∧ I n s') as Hk.
  { intros k. induction k as [|k IH]; intros i s1 Hi H1 HI.
    - exists s1. replace n with i by lia. done.
    - rewrite seqZ_cons by lia. replace (Z.pred (Z.of_nat (S k))) with (Z.of_nat k) by lia.
      destruct (Hbody i s1) as (s2 & Hrun & HI2); [lia|done|].
      destruct (IH (Z.succ i) s2) as (s' & Hrun' & HI'); [lia|lia|done|].
      exists s'. cbn [for_each]. rewrite (bind_quiet _ _ _ _ _ Hrun). done. }
  destruct (Hk (Z.to_nat n) 0 s) as (s' & Hrun & HI); [lia|lia|done|].
  rewrite Z2Nat.id in Hrun by done. eauto.
Qed.

(** ** Runs

    [run step ops s] executes a sequence of operations, collecting the results
    and the events.  The operations of different threads on one device are
    serialised by its mutex, so an interleaving is such a sequence. *)
Fixpoint run {S Op R : Type} (step : Op → io S R) (ops : list Op) : io S (list R) :=
  match ops with
  | [] => mret []
  | op :: ops => r ← step op; rs ← run step ops; mret (r :: rs)
  end.

Section run_lemmas.
Context {S Op R : Type} (step : Op → io S R).

Lemma run_cons op ops s :
  run step (op :: ops) s =
  match step op s with
  | Done (r, s', ev) =>
      match run step ops s' with
      | Done (rs, s'', ev') => Done (r :: rs, s'', ev ++ ev')
      | Halt h => Halt h
      end
  | Halt h => Halt h
  end.
Proof.
  simpl. unfold mbind, io_bind. destruct (step op s) as [[[r s'] ev]|]; [|done].
  destruct (run step ops s') as [[[rs s''] ev']|]; [|done].
  simpl. by rewrite app_nil_r.
Qed.

Lemma run_app ops1 ops2 s :
  run step (ops1 ++ ops2) s =
  match run step ops1 s with
  | Done (rs1, s', ev) =>
      match run step ops2 s' with
      | Done (rs2, s'', ev') => Done (rs1 ++ rs2, s'', ev ++ ev')
      | Halt h => Halt h
      end
  | Halt h => Halt h
  end.
Proof.
  revert s. induction ops1 as [|op ops1 IH]; intros s.
  - cbn. by destruct (run step ops2 s) as [[[? ?] ?]|].
  - rewrite <- app_comm_cons, !run_cons. destruct (step op s) as [[[r s1] ev1]|]; [|done].
    rewrite IH. destruct (run step ops1 s1) as [[[rs1 s2] ev2]|]; [|done].
    destruct (run step ops2 s2) as [[[rs2 s3] ev3]|]; [|done]. by rewrite app_assoc.
Qed.

(** An invariant that every operation keeps, and under which none halts, holds
    at the end of every run, which does not halt either. *)
Lemma run_invariant (I : S → Prop) (ok : Op → Prop) :
  (∀ op s, ok op → I s → ∃ r s' ev, step op s = Done (r, s', ev) ∧ I s') →
  ∀ ops s, Forall ok ops → I s →
  ∃ rs s' ev, run step ops s = Done (rs, s', ev) ∧ I s' ∧ length rs = length ops.
Proof.
  intros Hstep ops. induction ops as [|op ops IH]; intros s Hok Hs.
  - exists [], s, []. done.
  - apply Forall_cons in Hok as [Hop Hok].
    destruct (Hstep op s Hop Hs) as (r & s' & ev & Hr & Hs').
    destruct (IH s' Hok Hs') as (rs & s'' & ev' & Hrs & Hs'' & Hlen).
    exists (r :: rs), s'', (ev ++ ev'). rewrite run_cons, Hr, Hrs.
    simpl. auto with lia.
Qed.
End run_lemmas.

(** ** Interrupt lines

    The level of a line after a trace is the level of the last request on it. *)
Fixpoint line_level (irq_id : Z) (level : Z) (tr : list event) : Z :=
  match tr with
  | [] => level
  | IRQLine i l :: tr => line_level irq_id (if i =? irq_id then l else level) tr
  | _ :: tr => line_level irq_id level tr
  end.

Lemma line_level_app irq_id level tr1 tr2 :
  line_level irq_id level (tr1 ++ tr2) =
  line_level irq_id (line_level irq_id level tr1) tr2.
Proof.
  revert level. induction tr1 as [|[] tr1 IH]; intros lv; simpl; auto.
Qed.

(** The characters printed by a trace. *)
Fixpoint serial_output (tr : list event) : list Z :=
  match tr with
  | [] => []
  | SerialChar c :: tr => c :: serial_output tr
  | _ :: tr => serial_output tr
  end.

Lemma serial_output_app tr1 tr2 :
  serial_output (tr1 ++ tr2) = serial_output tr1 ++ serial_output tr2.
Proof. induction tr1 as [|[] tr1 IH]; simpl; congruence. Qed.

#[export] Hint Rewrite line_level_app serial_output_app : endless.

(** ** The events of an operation

    [emits P m]: every event of [m] satisfies [P], whatever the state. *)
Definition emits {S A} (P : event → Prop) (m : io S A) : Prop :=
  ∀ s a s' ev, m s = Done (a, s', ev) → Forall P ev.

Section emits.
Context {S : Type} (P : event → Prop).

Lemma emits_ret {A} (a : A) : emits P (mret a : io S A).
Proof. intros s b s' ev [= <- <- <-]. constructor. Qed.

Lemma emits_get : emits P (get : io S S).
Proof. intros s b s' ev [= <- <- <-]. constructor. Qed.

Lemma emits_modify (f : S → S) : emits P (modify f).
Proof. intros s b s' ev [= <- <- <-]. constructor. Qed.

Lemma emits_emit e : P e → emits P (emit e : io S unit).
Proof. intros He s b s' ev [= <- <- <-]. by constructor. Qed.

Lemma emits_crash {A} h : emits P (crash h : io S A).
Proof. by intros s b s' ev. Qed.

Lemma emits_bind {A B} (m : io S A) (f : A → io S B) :
  emits P m → (∀ a, emits P (f a)) → emits P (m ≫= f).
Proof.
  intros Hm Hf s b s' ev. unfold mbind, io_bind.
  destruct (m s) as [[[a s1] ev1]|] eqn:E1; [|done].
  destruct (f a s1) as [[[b' s2] ev2]|] eqn:E2; [|done].
  intros [= <- <- <-]. apply Forall_app. split; [by eapply Hm|by eapply Hf].
Qed.

Lemma emits_zoom {T A} (view : S → T) (put : T → S → S) (m : io T A) :
  emits P m → emits P (zoom view put m).
Proof.
  intros Hm s b s' ev. unfold zoom. destruct (m (view s)) as [[[a t] ev1]|] eqn:E; [|done].
  intros [= <- <- <-]. by eapply Hm.
Qed.
End emits.

#[export] Hint Resolve emits_ret emits_get emits_modify emits_emit emits_crash emits_bind
  emits_zoom : endless.

(** [emits_tac] follows the structure of an operation down to its events. *)
Ltac emits_tac :=
  repeat first
    [ assumption
    | match goal with H : ∀ _, emits _ _ |- _ => apply H end
    | progress intros
    | apply emits_bind | apply emits_ret | apply emits_get | apply emits_modify
    | apply emits_crash | apply emits_zoom | apply emits_emit; reflexivity
    | progress unfold when, array_get, array_set, int_incr
    | case_match
    | progress eauto with endless ].

(** The requests on one interrupt line. *)
Definition is_line (irq_id : Z) (e : event) : bool :=
  match e with IRQLine i _ => i =? irq_id | _ => false end.
Definition off_line (irq_id : Z) (e : event) : Prop := is_line irq_id e = false.
Definition line_events (irq_id : Z) (tr : list event) : list event :=
  filter (λ e, is_line irq_id e = true) tr.

Lemma line_events_app irq_id tr1 tr2 :
  line_events irq_id (tr1 ++ tr2) = line_events irq_id tr1 ++ line_events irq_id tr2.
Proof. apply filter_app. Qed.

Lemma line_events_off irq_id tr : Forall (off_line irq_id) tr → line_events irq_id tr = [].
Proof.
  induction 1 as [|e tr He _ IH]; [done|]. unfold line_events in *. rewrite filter_cons.
  unfold off_line in He. by rewrite He.
Qed.

Lemma line_level_events irq_id lv tr : line_level irq_id lv (line_events irq_id tr) =
  line_level irq_id lv tr.
Proof.
  revert lv. induction tr as [|e tr IH]; intros lv; [done|]. unfold line_events in *.
  rewrite filter_cons. destruct e as [i l| | | | |]; cbn [is_line line_level]; try done.
  destruct (i =? irq_id) eqn:Hi; case_decide; try done; cbn [line_level]; rewrite ?Hi; apply IH.
Qed.

(** The characters sent to the debugger. *)
Fixpoint debug_output (tr : list event) : list Z :=
  match tr with
  | [] => []
  | DebugChar c :: tr => c :: debug_output tr
  | _ :: tr => debug_output tr
  end.

Lemma debug_output_app tr1 tr2 :
  debug_output (tr1 ++ tr2) = debug_output tr1 ++ debug_output tr2.
Proof. induction tr1 as [|[] tr1 IH]; simpl; congruence. Qed.

#[export] Hint Rewrite debug_output_app : endless.

(** A boolean as the level of a line. *)
Definition level_of (b : bool) : Z := if b then 1 else 0.
