(* ===== verification/IODevice.v ===== *)
(** * The device base class (frontend/IODevice.h, frontend/IODevice.cpp)

The bodies of the base class and the interface of its virtual methods, against
which the PCI bridge is modelled (PCIDevice.v). *)

From S2P Require Import Prelude.

(** [io_addr] is [uint16_t]. *)
Definition io_addr : Type := Z.

(** The base class ignores writes and reads 0; a subclass inherits what it does
    not override. *)
Module IODevice.
Section bodies.
Context {D : Type}.

Definition write_reg_byte (addr : io_addr) (val : Z) : io D unit := mret tt.
Definition write_reg_word (addr : io_addr) (val : Z) : io D unit := mret tt.
Definition write_reg_long (addr : io_addr) (val : Z) : io D unit := mret tt.
Definition read_reg_byte (addr : io_addr) : io D Z := mret 0.
Definition read_reg_word (addr : io_addr) : io D Z := mret 0.
Definition read_reg_long (addr : io_addr) : io D Z := mret 0.
End bodies.

(** A device that is not connected. *)
Definition vendorID : Z := 0xFFFF.
End IODevice.

(** The virtual methods, as seen through an [IODevice] reference. *)
Class IODeviceOps (D : Type) : Type := {
  dev_write_byte : io_addr → Z → io D unit;
  dev_write_word : io_addr → Z → io D unit;
  dev_write_long : io_addr → Z → io D unit;
  dev_read_byte : io_addr → io D Z;
  dev_read_word : io_addr → io D Z;
  dev_read_long : io_addr → io D Z;
}.

(** One access by the guest, as a value, and its execution on any device. *)
Inductive access : Type :=
  | WriteByte (addr val : Z) | WriteWord (addr val : Z) | WriteLong (addr val : Z)
  | ReadByte (addr : Z) | ReadWord (addr : Z) | ReadLong (addr : Z).

#[export] Instance access_eq_dec : EqDecision access.
Proof. solve_decision. Defined.

Definition dev_access {D} `{IODeviceOps D} (a : access) : io D Z :=
  match a with
  | WriteByte addr v => dev_write_byte addr v;; mret 0
  | WriteWord addr v => dev_write_word addr v;; mret 0
  | WriteLong addr v => dev_write_long addr v;; mret 0
  | ReadByte addr => dev_read_byte addr
  | ReadWord addr => dev_read_word addr
  | ReadLong addr => dev_read_long addr
  end.
