(* ===== verification/Keyboard.v ===== *)
(** * The emulated keyboard (frontend/keyboard.h, frontend/keyboard.cpp)

[keyboard.t] is the object; every method is an operation on it.  The second
half gives the abstract device, a bounded queue of keycodes, and proves that
the ring buffer with its status and interrupt registers implements it. *)

From S2P Require Import Prelude IODevice.

Module keyboard.

(** ** Constants *)

Definition INTERNAL_BUFFER_SIZE : Z := 16.
Definition INT_KEYBOARD : Z := 1.

Definition RBR_addr : io_addr := 0x0060.
Definition TBR_addr : io_addr := 0x0060.
Definition STR_addr : io_addr := 0x0064.
Definition CMR_addr : io_addr := 0x0064.

Definition FI_MASK : Z := 1.
Definition FO_MASK : Z := 2.

(** ** State *)

Record t : Type := mk {
  RBR : Z;
  TBR : Z;
  STR : Z;
  CMR : Z;
  enabled : bool;
  interrupt_enabled : bool;
  internal_buffer : list Z;
  buffer_head_pointer : Z;
  buffer_tail_pointer : Z;
  buffer_element_count : Z;
  interrupt_raised : bool;
}.

#[export] Instance eta_t : Eta t := λ s,
  mk (RBR s) (TBR s) (STR s) (CMR s) (enabled s) (interrupt_enabled s)
     (internal_buffer s) (buffer_head_pointer s) (buffer_tail_pointer s)
     (buffer_element_count s) (interrupt_raised s).

(** The constructor; the buffer of the global object [keyb] is zero-initialised. *)
Definition init : t := {|
  RBR := 0; TBR := 0; STR := 0; CMR := 0; enabled := false;
  interrupt_enabled := false; internal_buffer := replicate 16 0;
  buffer_head_pointer := 0; buffer_tail_pointer := 0; buffer_element_count := 0;
  interrupt_raised := false |}.

(** ** Methods *)

Definition set_IRQline (level : Z) : io t unit := emit (IRQLine INT_KEYBOARD level).

Definition process_cmd : io t unit :=
  s ← get;
  if CMR s =? 0x60 then
    modify (λ s, s <| enabled := negb (has_bits (TBR s) 0x10) |>);;
    if has_bits (TBR s) 0x01 then
      modify (λ s, s <| interrupt_enabled := true |>);;
      when (negb (buffer_element_count s =? 0) && negb (interrupt_raised s))
        (set_IRQline 1;; modify (λ s, s <| interrupt_raised := true |>))
    else modify (λ s, s <| interrupt_enabled := false |>)
  else mret tt.

Definition next_RBR : io t unit :=
  s ← get;
  when (negb (buffer_element_count s =? 0))
    (c ← array_get (internal_buffer s) (buffer_tail_pointer s);
     modify (λ s, s <| RBR := c |>
       <| buffer_tail_pointer := (buffer_tail_pointer s + 1) mod INTERNAL_BUFFER_SIZE |>
       <| buffer_element_count := buffer_element_count s - 1 |>)).

Definition update_FI (insert : bool) : io t unit :=
  when (negb insert)
    (set_IRQline 0;; modify (λ s, s <| interrupt_raised := false |>));;
  s ← get;
  if negb (buffer_element_count s =? 0) then
    modify (λ s, s <| STR := Z.lor (STR s) FI_MASK |>);;
    when (interrupt_enabled s)
      (set_IRQline 1;; modify (λ s, s <| interrupt_raised := true |>))
  else
    modify (λ s, s <| STR := Z.land (STR s) (Z.lnot FI_MASK) |>);;
    when (interrupt_raised s)
      (set_IRQline 0;; modify (λ s, s <| interrupt_raised := false |>)).

Definition write_reg_byte (addr : io_addr) (val : Z) : io t unit :=
  if addr =? CMR_addr then modify (λ s, s <| CMR := val |>)
  else if addr =? TBR_addr then
    modify (λ s, s <| TBR := val |>);; process_cmd
  else mret tt.

Definition read_reg_byte (addr : io_addr) : io t Z :=
  if addr =? RBR_addr then
    next_RBR;;
    s ← get;
    update_FI false;;
    mret (RBR s)
  else if addr =? STR_addr then
    s ← get; mret (STR s)
  else mret 0.

(** Called by the console thread for every keycode. *)
Definition insert_keycode_event (keycode : Z) : io t unit :=
  s ← get;
  if negb (enabled s) then mret tt
  else if buffer_element_count s =? INTERNAL_BUFFER_SIZE then mret tt
  else
    buf ← array_set (internal_buffer s) (buffer_head_pointer s) keycode;
    modify (λ s, s <| internal_buffer := buf |>
      <| buffer_head_pointer := (buffer_head_pointer s + 1) mod INTERNAL_BUFFER_SIZE |>
      <| buffer_element_count := buffer_element_count s + 1 |>);;
    update_FI true.

#[global] Instance ops : IODeviceOps t := {|
  dev_write_byte := write_reg_byte;
  dev_write_word := IODevice.write_reg_word;
  dev_write_long := IODevice.write_reg_long;
  dev_read_byte := read_reg_byte;
  dev_read_word := IODevice.read_reg_word;
  dev_read_long := IODevice.read_reg_long |}.

#[global] Arguments process_cmd : simpl never.
#[global] Arguments next_RBR : simpl never.
#[global] Arguments update_FI : simpl never.

(** ** The operations as data

    The vCPU thread reads and writes registers, the console thread inserts
    keycodes; each locks the mutex of the object for its whole body. *)
Inductive op : Type :=
  | Write (addr val : Z)
  | Read (addr : Z)
  | Insert (keycode : Z).

Definition step (o : op) : io t Z :=
  match o with
  | Write addr val => write_reg_byte addr val;; mret 0
  | Read addr => read_reg_byte addr
  | Insert k => insert_keycode_event k;; mret 0
  end.

(** ** The ring buffer *)

(** The keycodes in the buffer, oldest first. *)
Definition ring (buf : list Z) (tail : Z) (n : nat) : list Z :=
  (λ i : nat, default 0 (buf !! Z.to_nat ((tail + Z.of_nat i) mod 16))) <$> seq 0 n.

Definition contents (s : t) : list Z :=
  ring (internal_buffer s) (buffer_tail_pointer s)
       (Z.to_nat (buffer_element_count s)).

Lemma length_ring buf tail n : length (ring buf tail n) = n.
Proof. unfold ring. by rewrite length_fmap, length_seq. Qed.

Lemma ring_pop buf tail n :
  0 ≤ tail < 16 →
  ring buf tail (S n) =
  default 0 (buf !! Z.to_nat tail) :: ring buf ((tail + 1) mod 16) n.
Proof.
  intros Ht. unfold ring. rewrite <- cons_seq, <- fmap_S_seq. csimpl.
  rewrite <- list_fmap_compose. f_equal.
  - do 3 f_equal. rewrite Z.mod_small by lia. lia.
  - apply list_fmap_ext. intros _ i _. unfold compose. do 3 f_equal.
    rewrite Z.add_mod_idemp_l by lia. f_equal. lia.
Qed.

Lemma ring_push buf tail n k :
  length buf = 16%nat → 0 ≤ tail < 16 → (n < 16)%nat →
  ring (<[Z.to_nat ((tail + Z.of_nat n) mod 16) := k]> buf) tail (S n) =
  ring buf tail n ++ [k].
Proof.
  intros Hb Ht Hn. unfold ring. rewrite seq_S, fmap_app. f_equal.
  - apply list_fmap_ext. intros j i [-> Hj]%lookup_seq. cbn. f_equal. apply list_lookup_insert_ne. Z.div_mod_to_equations. lia.
  - simpl. rewrite list_lookup_insert_eq by (Z.div_mod_to_equations; lia). done.
Qed.

(** ** Well-formedness *)
Record wf (s : t) : Prop := {
  wf_length : length (internal_buffer s) = 16%nat;
  wf_tail : 0 ≤ buffer_tail_pointer s < 16;
  wf_count : 0 ≤ buffer_element_count s ≤ 16;
  wf_head : buffer_head_pointer s =
            (buffer_tail_pointer s + buffer_element_count s) mod 16;
  wf_STR : STR s = if buffer_element_count s =? 0 then 0 else 1;
  wf_raised : interrupt_raised s = true → buffer_element_count s ≠ 0;
  wf_not_lost : interrupt_enabled s = true → buffer_element_count s ≠ 0 →
                interrupt_raised s = true;
}.

Lemma init_wf : wf init.
Proof. split; simpl; done || lia. Qed.

(** ** The abstract device: a queue of at most 16 keycodes *)
Record queue_state : Type := mk_queue {
  queue : list Z;
  q_last : Z;
  q_data : Z;
  q_cmd : Z;
  q_on : bool;
  q_int : bool;
  q_raised : bool;
}.

#[export] Instance eta_queue_state : Eta queue_state := λ q,
  mk_queue (queue q) (q_last q) (q_data q) (q_cmd q) (q_on q) (q_int q) (q_raised q).

Definition abs (s : t) : queue_state := {|
  queue := contents s; q_last := RBR s; q_data := TBR s; q_cmd := CMR s;
  q_on := enabled s; q_int := interrupt_enabled s; q_raised := interrupt_raised s |}.

Definition nonempty (l : list Z) : bool := match l with [] => false | _ => true end.

Definition irq1 (level : Z) : event := IRQLine INT_KEYBOARD level.

Definition spec_configure (val : Z) (q : queue_state) : queue_state * list event :=
  let on := negb (has_bits val 0x10) in
  let int := has_bits val 0x01 in
  let rise := int && nonempty (queue q) && negb (q_raised q) in
  (q <| q_data := val |> <| q_on := on |> <| q_int := int |>
     <| q_raised := q_raised q || rise |>,
   if rise then [irq1 1] else []).

Definition spec_write (addr val : Z) (q : queue_state) : queue_state * list event :=
  if addr =? CMR_addr then (q <| q_cmd := val |>, [])
  else if addr =? TBR_addr then
    if q_cmd q =? 0x60 then spec_configure val q else (q <| q_data := val |>, [])
  else (q, []).

Definition spec_read (addr : Z) (q : queue_state) : Z * queue_state * list event :=
  if addr =? RBR_addr then
    let k := hd (q_last q) (queue q) in
    let rest := tl (queue q) in
    let again := nonempty rest && q_int q in
    (k, q <| q_last := k |> <| queue := rest |> <| q_raised := again |>,
     irq1 0 :: if again then [irq1 1] else [])
  else if addr =? STR_addr then (level_of (nonempty (queue q)), q, [])
  else (0, q, []).

Definition spec_insert (k : Z) (q : queue_state) : queue_state * list event :=
  if q_on q && (Z.of_nat (length (queue q)) <? 16) then
    (q <| queue := queue q ++ [k] |> <| q_raised := q_raised q || q_int q |>,
     if q_int q then [irq1 1] else [])
  else (q, []).

Definition spec_step (o : op) (q : queue_state) : Z * queue_state * list event :=
  match o with
  | Write addr val => let '(q', ev) := spec_write addr val q in (0, q', ev)
  | Read addr => spec_read addr q
  | Insert k => let '(q', ev) := spec_insert k q in (0, q', ev)
  end.

Fixpoint spec_run (os : list op) (q : queue_state)
    : list Z * queue_state * list event :=
  match os with
  | [] => ([], q, [])
  | o :: os =>
      let '(r, q', ev) := spec_step o q in
      let '(rs, q'', ev') := spec_run os q' in
      (r :: rs, q'', ev ++ ev')
  end.

(** ** Refinement *)

Lemma nonempty_contents s :
  wf s → nonempty (contents s) = negb (buffer_element_count s =? 0).
Proof.
  intros Hs. pose proof (wf_count s Hs) as Hc. unfold contents.
  destruct (Z.to_nat (buffer_element_count s)) as [|n] eqn:Hn.
  - destruct (Z.eqb_spec (buffer_element_count s) 0); simpl; lia || done.
  - destruct (Z.eqb_spec (buffer_element_count s) 0); [lia|].
    rewrite ring_pop by apply Hs. done.
Qed.

Lemma length_contents s : wf s → Z.of_nat (length (contents s)) = buffer_element_count s.
Proof. intros Hs. unfold contents. rewrite length_ring. pose proof (wf_count s Hs). lia. Qed.

(** The registers that [update_FI] sets, as functions of the number of keycodes. *)
Lemma update_FI_run insert s :
  update_FI insert s =
  let raised := interrupt_raised s && insert in
  let some := negb (buffer_element_count s =? 0) in
  let rise := some && interrupt_enabled s in
  Done (tt,
    s <| STR := if some then Z.lor (STR s) FI_MASK
                else Z.land (STR s) (Z.lnot FI_MASK) |>
      <| interrupt_raised := if some then raised || rise else false |>,
    (if insert then [] else [irq1 0]) ++
    (if rise then [irq1 1] else if negb some && raised then [irq1 0] else [])).
Proof.
  destruct s as [r1 r2 r3 r4 en ie buf h tl c ra].
  unfold update_FI, set_IRQline. io_simpl.
  destruct insert, ie, ra; io_cases.
Qed.

Lemma next_RBR_run s :
  wf s →
  next_RBR s =
  Done (tt,
    if buffer_element_count s =? 0 then s
    else s <| RBR := hd (RBR s) (contents s) |>
           <| buffer_tail_pointer := (buffer_tail_pointer s + 1) mod 16 |>
           <| buffer_element_count := buffer_element_count s - 1 |>, []).
Proof.
  intros Hs. unfold next_RBR. io_simpl.
  destruct (Z.eqb_spec (buffer_element_count s) 0) as [|Hc]; io_simpl; [done|].
  pose proof (wf_tail s Hs). pose proof (wf_length s Hs). pose proof (wf_count s Hs).
  destruct (lookup_lt_is_Some_2 (internal_buffer s)
              (Z.to_nat (buffer_tail_pointer s))) as [c Hlk]; [lia|].
  rewrite (array_get_in _ _ c) by (lia || done). cbn.
  unfold contents. destruct (Z.to_nat (buffer_element_count s)) eqn:Hn; [lia|].
  rewrite ring_pop by done. rewrite Hlk. done.
Qed.

Lemma contents_pop s n :
  wf s → buffer_element_count s = Z.of_nat (S n) →
  contents s = hd (RBR s) (contents s) ::
    ring (internal_buffer s) ((buffer_tail_pointer s + 1) mod 16) n.
Proof.
  intros Hs Hn. unfold contents. rewrite Hn, Nat2Z.id, ring_pop by apply Hs. done.
Qed.

(** [wf_solve] proves the fields of [wf] of an updated state from those of the
    state [s] it was computed from. *)
Ltac wf_solve :=
  match goal with
  | Hs : wf ?s |- _ =>
      let head := fresh "Hhead" in let str := fresh "HSTR" in
      destruct Hs as [? ? ? head str ? ?];
      split; cbn in *; rewrite ?length_insert, ?head, ?str; intros
  end;
  repeat match goal with
         | |- context [Z.eqb ?a ?b] => destruct (Z.eqb_spec a b)
         | H : context [Z.eqb ?a ?b] |- _ => destruct (Z.eqb_spec a b)
         end;
  first [ done | lia | by apply orb_true_intro; auto | Z.div_mod_to_equations; lia
        | repeat case_match; simplify_eq/=; naive_solver lia ].

Lemma read_refines addr s :
  wf s →
  let '(r, q, ev) := spec_read addr (abs s) in
  ∃ s', read_reg_byte addr s = Done (r, s', ev) ∧ wf s' ∧ abs s' = q.
Proof.
  intros Hs. pose proof (nonempty_contents s Hs) as Hne.
  unfold spec_read, read_reg_byte.
  destruct (addr =? RBR_addr); [|destruct (addr =? STR_addr)].
  - erewrite bind_done by by apply next_RBR_run.
    unfold get at 1. erewrite bind_done by reflexivity.
    erewrite bind_done by apply update_FI_run.
    pose proof (wf_count s Hs) as Hc.
    destruct (Z.eqb_spec (buffer_element_count s) 0) as [Hz|Hz]; cbn.
    + assert (contents s = []) as -> by (unfold contents; rewrite Hz; done).
      rewrite Hz. cbn. rewrite !andb_false_r. cbn. eexists. split; [done|].
      split; [wf_solve|]. done.
    + destruct (Z.to_nat (buffer_element_count s)) as [|n] eqn:Hn; [lia|].
      pose proof (contents_pop s n Hs ltac:(lia)) as Hpop.
      rewrite !andb_false_r. cbn.
      replace (nonempty (tl (contents s))) with
        (negb (buffer_element_count s - 1 =? 0)).
      2: { rewrite Hpop. cbn. destruct n; cbn.
           - by replace (buffer_element_count s) with 1 by lia.
           - destruct (Z.eqb_spec (buffer_element_count s - 1) 0); [lia|done]. }
      eexists. split; [by rewrite app_nil_r|]. split; [wf_solve|].
      unfold abs. cbn. f_equal; [|by destruct (_ =? 0)].
      unfold contents at 1. cbn. rewrite Hpop. cbn. f_equal. lia.
  - exists s. io_simpl. split; [|done]. do 3 f_equal.
    rewrite Hne, (wf_STR s Hs). by destruct (_ =? 0).
  - by exists s.
Qed.

Lemma write_refines addr val s :
  wf s →
  let '(q, ev) := spec_write addr val (abs s) in
  ∃ s', write_reg_byte addr val s = Done (tt, s', ev) ∧ wf s' ∧ abs s' = q.
Proof.
  intros Hs. pose proof (nonempty_contents s Hs) as Hne.
  unfold spec_write, spec_configure, write_reg_byte, process_cmd, set_IRQline.
  destruct (addr =? CMR_addr); [|destruct (addr =? TBR_addr)]; io_simpl;
    [eexists; split; [done|]; split; [wf_solve|done]| |by exists s].
  destruct (CMR s =? 0x60); cbn;
    [|eexists; split; [done|]; split; [wf_solve|done]].
  rewrite Hne.
  destruct (has_bits val 1), (interrupt_raised s) eqn:Hr,
    (buffer_element_count s =? 0) eqn:Hc; cbn;
    (eexists; split; [done|]; split; [wf_solve|]; unfold abs; cbn; first [reflexivity | congruence]).
Qed.

Lemma insert_refines k s :
  wf s →
  let '(q, ev) := spec_insert k (abs s) in
  ∃ s', insert_keycode_event k s = Done (tt, s', ev) ∧ wf s' ∧ abs s' = q.
Proof.
  intros Hs. pose proof (length_contents s Hs) as Hlen.
  pose proof (wf_count s Hs). pose proof (wf_tail s Hs). pose proof (wf_length s Hs).
  unfold spec_insert, insert_keycode_event. cbn [abs q_on queue q_int q_raised].
  unfold get. erewrite bind_done by reflexivity.
  destruct (enabled s); cbn; [|by exists s].
  rewrite Hlen. change INTERNAL_BUFFER_SIZE with 16.
  destruct (Z.eqb_spec (buffer_element_count s) 16) as [Hf|Hf].
  - rewrite Hf. by exists s.
  - rewrite (proj2 (Z.ltb_lt _ _)) by lia.
    erewrite bind_done by
      (apply array_set_in; rewrite (wf_head s Hs); Z.div_mod_to_equations; lia).
    erewrite bind_done by reflexivity. rewrite update_FI_run. cbn.
    destruct (Z.eqb_spec (buffer_element_count s + 1) 0); [lia|]. cbn.
    rewrite !andb_true_r.
    eexists. split; [reflexivity|].
    split; [wf_solve|].
    unfold abs. cbn. f_equal. unfold contents. cbn.
    rewrite (wf_head s Hs), Z2Nat.inj_add by lia. rewrite Nat.add_1_r.
    rewrite <- (Z2Nat.id (buffer_element_count s)) at 1 by lia.
    apply ring_push; lia.
Qed.

(** The whole device against the queue, one operation and any run. *)
Lemma step_refines o s :
  wf s →
  let '(r, q, ev) := spec_step o (abs s) in
  ∃ s', step o s = Done (r, s', ev) ∧ wf s' ∧ abs s' = q.
Proof.
  intros Hs. destruct o as [addr val|addr|k]; unfold spec_step, step.
  - pose proof (write_refines addr val s Hs) as H.
    destruct (spec_write addr val (abs s)) as [q ev]. destruct H as (s' & H & ? & ?).
    exists s'. rewrite (bind_done _ _ _ _ _ _ H). cbn. by rewrite app_nil_r.
  - by apply read_refines.
  - pose proof (insert_refines k s Hs) as H.
    destruct (spec_insert k (abs s)) as [q ev]. destruct H as (s' & H & ? & ?).
    exists s'. rewrite (bind_done _ _ _ _ _ _ H). cbn. by rewrite app_nil_r.
Qed.

Lemma run_refines_from os s :
  wf s →
  let '(rs, q, ev) := spec_run os (abs s) in
  ∃ s', run step os s = Done (rs, s', ev) ∧ wf s' ∧ abs s' = q.
Proof.
  revert s. induction os as [|o os IH]; intros s Hs; [by exists s|].
  cbn [spec_run]. pose proof (step_refines o s Hs) as Hstep.
  destruct (spec_step o (abs s)) as [[r q] ev]. destruct Hstep as (s' & Ho & Hs' & <-).
  specialize (IH s' Hs'). destruct (spec_run os (abs s')) as [[rs q'] ev'].
  destruct IH as (s'' & Hr & Hs'' & ?). exists s''. by rewrite run_cons, Ho, Hr.
Qed.

(** ** What goes through the queue *)

(** The keycodes a run accepts and those it hands to the guest, in order: a
    keycode is accepted when the keyboard is enabled and the buffer is not full,
    and delivered by a read of RBR when the buffer is not empty. *)
Fixpoint history (os : list op) (s : t) : list Z * list Z :=
  match os with
  | [] => ([], [])
  | o :: os =>
      match step o s with
      | Halt _ => ([], [])
      | Done (r, s', _) =>
          let '(accepted, delivered) := history os s' in
          match o with
          | Write _ _ => (accepted, delivered)
          | Read addr =>
              (accepted,
               if (addr =? RBR_addr) && negb (buffer_element_count s =? 0)
               then r :: delivered else delivered)
          | Insert k =>
              (if enabled s && (buffer_element_count s <? INTERNAL_BUFFER_SIZE)
               then k :: accepted else accepted, delivered)
          end
      end
  end.

Lemma history_conserves os s :
  wf s →
  ∃ rs s' ev, run step os s = Done (rs, s', ev) ∧
    contents s ++ (history os s).1 = (history os s).2 ++ contents s'.
Proof.
  revert s. induction os as [|o os IH]; intros s Hs.
  { exists [], s, []. split; [done|]. apply app_nil_r. }
  pose proof (step_refines o s Hs) as Hstep.
  destruct (spec_step o (abs s)) as [[r q] ev] eqn:Hspec.
  destruct Hstep as (s' & Ho & Hs' & Habs).
  destruct (IH s' Hs') as (rs & s'' & ev' & Hrun & Hcons).
  exists (r :: rs), s'', (ev ++ ev'). rewrite run_cons, Ho, Hrun. split; [done|].
  cbn [history]. rewrite Ho. destruct (history os s') as [acc del]. cbn in Hcons.
  replace (contents s') with (queue q) in Hcons by (by rewrite <- Habs).
  pose proof (nonempty_contents s Hs) as Hne.
  pose proof (length_contents s Hs) as Hlen.
  clear Habs Hs' Ho Hrun. rewrite <- Hlen. change INTERNAL_BUFFER_SIZE with 16.
  destruct o as [addr val|addr|k]; cbn in Hspec.
  - unfold spec_write, spec_configure in Hspec. cbn in Hspec.
    repeat case_match; simplify_eq/=; done.
  - unfold spec_read in Hspec. cbn in Hspec.
    destruct (addr =? RBR_addr); [|repeat case_match; simplify_eq/=; done].
    simplify_eq/=. rewrite Hlen, <- Hne.
    destruct (contents s); cbn in *; [done|]. by rewrite Hcons.
  - unfold spec_insert in Hspec. cbn in Hspec.
    destruct (enabled s && (Z.of_nat (length (contents s)) <? 16));
      simplify_eq/=; rewrite <- Hcons; by rewrite <- ?app_assoc.
Qed.

(** The level of line 1 of the interrupt controller is [interrupt_raised]. *)
Lemma spec_step_line o q :
  let '(_, q', ev) := spec_step o q in
  line_level INT_KEYBOARD (level_of (q_raised q)) ev = level_of (q_raised q').
Proof.
  destruct o as [addr val|addr|k]; cbn;
    unfold spec_write, spec_configure, spec_read, spec_insert.
  - destruct (addr =? CMR_addr), (addr =? TBR_addr), (q_cmd q =? 0x60); try done.
    by destruct (has_bits val 0x01), (nonempty (queue q)), (q_raised q) eqn:Hr;
      cbn; rewrite ?Hr.
  - destruct (addr =? RBR_addr), (addr =? STR_addr); try done;
      by destruct (nonempty (tl (queue q)) && q_int q).
  - destruct (q_on q && _); [|done]. by destruct (q_raised q), (q_int q).
Qed.

Lemma spec_run_line os q :
  let '(_, q', ev) := spec_run os q in
  line_level INT_KEYBOARD (level_of (q_raised q)) ev = level_of (q_raised q').
Proof.
  revert q. induction os as [|o os IH]; intros q; [done|]. cbn.
  pose proof (spec_step_line o q) as Ho. destruct (spec_step o q) as [[r q'] ev].
  specialize (IH q'). destruct (spec_run os q') as [[rs q''] ev'].
  by rewrite line_level_app, Ho.
Qed.

(** ** Properties *)

(** The state of the abstract device at reset. *)
Definition queue_init : queue_state := {|
  queue := []; q_last := 0; q_data := 0; q_cmd := 0;
  q_on := false; q_int := false; q_raised := false |}.

(** C16. The keyboard with its ring buffer, head, tail and flag bits refines a bounded
    queue: every sequence of port accesses and keystrokes gives the results and interrupt
    events of the specification and ends in a well-formed state that represents the
    specified queue. *)
Theorem keyboard_refines_queue os :
  let '(rs, q, ev) := spec_run os queue_init in
  ∃ s, run step os init = Done (rs, s, ev) ∧ wf s ∧ abs s = q.
Proof. exact (run_refines_from os init init_wf). Qed.

(** C17. After any sequence of operations the accepted scan codes are, in order, those the
    guest has read followed by those still buffered, and at most 16 are buffered: no code is
    lost, duplicated or reordered. *)
Theorem keyboard_fifo os :
  ∃ rs s ev, run step os init = Done (rs, s, ev) ∧
    (history os init).1 = (history os init).2 ++ contents s ∧
    (length (contents s) ≤ 16)%nat.
Proof.
  destruct (history_conserves os init init_wf) as (rs & s & ev & Hrun & Hc).
  exists rs, s, ev. split; [done|]. split; [done|].
  pose proof (run_refines_from os init init_wf) as Hr.
  destruct (spec_run os (abs init)) as [[rs' q] ev'].
  destruct Hr as (s' & Hr & Hs' & _). rewrite Hr in Hrun.
  injection Hrun as _ <- _. pose proof (length_contents s' Hs'). pose proof (wf_count s' Hs'). lia.
Qed.

(** C18. After any sequence of operations the level of interrupt line 1 is the device's
    record of it; the line is high when interrupts are enabled and a code waits, and low
    when none waits. *)
Theorem keyboard_irq_line os :
  ∃ rs s ev, run step os init = Done (rs, s, ev) ∧
    let level := line_level INT_KEYBOARD 0 ev in
    level = level_of (interrupt_raised s) ∧
    (interrupt_enabled s = true → contents s ≠ [] → level = 1) ∧
    (contents s = [] → level = 0).
Proof.
  pose proof (run_refines_from os init init_wf) as Hr.
  pose proof (spec_run_line os (abs init)) as Hl.
  destruct (spec_run os (abs init)) as [[rs q] ev].
  destruct Hr as (s & Hr & Hs & <-). exists rs, s, ev. split; [done|].
  cbn in Hl. rewrite Hl. cbn.
  pose proof (wf_raised s Hs) as Hra. pose proof (wf_not_lost s Hs) as Hnl.
  pose proof (length_contents s Hs) as Hlen.
  split; [done|]. split.
  - intros Hi Hne. rewrite Hnl; [done..|]. intros Hz.
    apply Hne, nil_length_inv. lia.
  - intros He. rewrite He in Hlen. destruct (interrupt_raised s); [|done].
    exfalso. by apply Hra.
Qed.

End keyboard.
