(* ===== verification/VgaController.v ===== *)
(** * The VGA controller (frontend/vgaController.h, frontend/vgaController.cpp)

The index and data ports of the text-mode controller, and the cursor position
that the console output thread reads. *)

From S2P Require Import Prelude IODevice.

Module VGAController.

Definition IND_addr : io_addr := 0x03D4.
Definition DAT_addr : io_addr := 0x03D5.
Definition CUR_HIGH_ind : Z := 0x0e.
Definition CUR_LOW_ind : Z := 0x0f.

Record t : Type := mk {
  IND : Z;
  DAT : Z;
  CUR_HIGH : Z;
  CUR_LOW : Z;
  (** The offset in the guest memory of the text buffer, once it is set. *)
  memoryStart : option Z;
}.

#[export] Instance eta_t : Eta t := λ s,
  mk (IND s) (DAT s) (CUR_HIGH s) (CUR_LOW s) (memoryStart s).

Definition init : t := {|
  IND := 0; DAT := 0; CUR_HIGH := 0; CUR_LOW := 0; memoryStart := None |}.

Definition write_reg_byte (addr : io_addr) (val : Z) : io t unit :=
  if addr =? IND_addr then modify (λ s, s <| IND := val |>)
  else if addr =? DAT_addr then
    modify (λ s, s <| DAT := val |>);;
    s ← get;
    if IND s =? CUR_HIGH_ind then modify (λ s, s <| CUR_HIGH := DAT s |>)
    else if IND s =? CUR_LOW_ind then modify (λ s, s <| CUR_LOW := DAT s |>)
    else mret tt
  else mret tt.

Definition read_reg_byte (addr : io_addr) : io t Z :=
  if addr =? IND_addr then s ← get; mret (IND s)
  else if addr =? DAT_addr then
    s ← get;
    if IND s =? CUR_HIGH_ind then
      modify (λ s, s <| DAT := CUR_HIGH s |>);; s ← get; mret (DAT s)
    else if IND s =? CUR_LOW_ind then
      modify (λ s, s <| DAT := CUR_LOW s |>);; s ← get; mret (DAT s)
    else mret 0
  else mret 0.

Definition cursorPosition (s : t) : Z :=
  u16 (Z.shiftl (CUR_HIGH s) 8 + CUR_LOW s).

Definition setVMem (mem : Z) : io t unit := modify (λ s, s <| memoryStart := Some mem |>).
Definition getVMem (s : t) : option Z := memoryStart s.

#[global] Instance ops : IODeviceOps t := {|
  dev_write_byte := write_reg_byte;
  dev_write_word := IODevice.write_reg_word;
  dev_write_long := IODevice.write_reg_long;
  dev_read_byte := read_reg_byte;
  dev_read_word := IODevice.read_reg_word;
  dev_read_long := IODevice.read_reg_long |}.

Inductive op : Type := Write (addr val : Z) | Read (addr : Z).

Definition step (o : op) : io t Z :=
  match o with
  | Write addr val => write_reg_byte addr val;; mret 0
  | Read addr => read_reg_byte addr
  end.

Record wf (s : t) : Prop := {
  wf_high : is_u8 (CUR_HIGH s);
  wf_low : is_u8 (CUR_LOW s);
}.

(** ** The abstract controller

    An index and one 16-bit cursor position, of which the data port reads and
    writes the byte that the index selects. *)
Record cursor : Type := mk_cursor { index : Z; position : Z }.

Definition abs (s : t) : cursor := mk_cursor (IND s) (cursorPosition s).

Definition spec_write (addr val : Z) (c : cursor) : cursor :=
  if addr =? IND_addr then mk_cursor val (position c)
  else if addr =? DAT_addr then
    mk_cursor (index c)
      (if index c =? CUR_HIGH_ind then val * 256 + position c mod 256
       else if index c =? CUR_LOW_ind then position c / 256 * 256 + val
       else position c)
  else c.

Definition spec_read (addr : Z) (c : cursor) : Z :=
  if addr =? IND_addr then index c
  else if addr =? DAT_addr then
    if index c =? CUR_HIGH_ind then position c / 256
    else if index c =? CUR_LOW_ind then position c mod 256 else 0
  else 0.

Definition spec_step (o : op) (c : cursor) : Z * cursor :=
  match o with
  | Write addr val => (0, spec_write addr val c)
  | Read addr => (spec_read addr c, c)
  end.

Fixpoint spec_run (os : list op) (c : cursor) : list Z * cursor :=
  match os with
  | [] => ([], c)
  | o :: os =>
      let '(r, c') := spec_step o c in
      let '(rs, c'') := spec_run os c' in (r :: rs, c'')
  end.

(** The guest writes bytes. *)
Definition valid (o : op) : Prop :=
  match o with Write _ val => is_u8 val | Read _ => True end.

Lemma cursorPosition_val s : wf s → cursorPosition s = CUR_HIGH s * 256 + CUR_LOW s.
Proof.
  intros [Hh Hl]. unfold cursorPosition. rewrite Z.shiftl_mul_pow2 by lia. width_lia.
Qed.


Lemma cursor_step_refines o s :
  wf s → valid o →
  ∃ s', step o s = Done ((spec_step o (abs s)).1, s', []) ∧ wf s' ∧
    abs s' = (spec_step o (abs s)).2.
Proof.
  intros Hs Hv. unfold abs. rewrite (cursorPosition_val s Hs).
  destruct Hs as [Hh Hl]. destruct o as [addr val|addr]; cbn in Hv;
    unfold step, write_reg_byte, read_reg_byte, spec_step, spec_write, spec_read;
    (destruct (addr =? IND_addr); [|destruct (addr =? DAT_addr)]); io_simpl;
    try (destruct (IND s =? CUR_HIGH_ind); [|destruct (IND s =? CUR_LOW_ind)]; cbn).
  all: eexists; split; [do 3 f_equal; try reflexivity; width_lia|].
  all: split; [by split|].
  all: rewrite ?cursorPosition_val by (by split); cbn; f_equal; width_lia.
Qed.

(** ** Property *)

(** The display controller refines a cursor: the index and the two halves of a 16-bit
    position, set and read through its two ports. *)
Theorem vga_refines_cursor os :
  Forall valid os →
  ∃ s', run step os init = Done ((spec_run os (mk_cursor 0 0)).1, s', []) ∧
    abs s' = (spec_run os (mk_cursor 0 0)).2 ∧ is_u16 (cursorPosition s').
Proof.
  assert (wf init) as Hs by done. change (mk_cursor 0 0) with (abs init).
  generalize dependent init. induction os as [|o os IH]; intros s Hs Hos.
  - exists s. split; [done|]. split; [done|]. apply u16_range.
  - apply Forall_cons in Hos as [Ho Hos].
    destruct (cursor_step_refines o s Hs Ho) as (s' & Hstep & Hs' & Habs).
    destruct (IH s' Hs' Hos) as (s'' & Hrun & Habs' & Hpos).
    cbn [spec_run]. destruct (spec_step o (abs s)) as [r c].
    cbn [fst snd] in *. subst c.
    destruct (spec_run os (abs s')) as [rs c]. cbn [fst snd] in *.
    exists s''. by rewrite run_cons, Hstep, Hrun.
Qed.

Lemma vga_refines_cursor_witness :
  Forall valid [Write 0x3D4 0x0e; Write 0x3D5 0x12; Write 0x3D4 0x0f;
                Write 0x3D5 0x34; Read 0x3D5] ∧
  ∃ s', run step [Write 0x3D4 0x0e; Write 0x3D5 0x12; Write 0x3D4 0x0f;
                  Write 0x3D5 0x34; Read 0x3D5] init = Done ([0; 0; 0; 0; 0x34], s', []) ∧
    abs s' = mk_cursor 0x0f 0x1234 ∧ is_u16 (cursorPosition s').
Proof.
  assert (Forall valid [Write 0x3D4 0x0e; Write 0x3D5 0x12; Write 0x3D4 0x0f;
                Write 0x3D5 0x34; Read 0x3D5]) as H.
  { repeat constructor; cbn; lia. }
  split; [exact H|]. exact (vga_refines_cursor _ H).
Defined.

End VGAController.
