(* ===== verification/ConsoleOutput.v ===== *)
(** * The console output (backend/ConsoleOutput.h, backend/ConsoleOutput.cpp)

The thread that paints the text page of the guest on the terminal, and the thread
that makes the cursor blink.  What the first one prints for a refresh is a list of
characters; what a terminal shows when it receives them is [run_terminal], a reference
interpreter of the control sequences that occur. *)

From S2P Require Import Prelude IODevice VgaController.

Module ConsoleOutput.

(** ** Constants *)
Definition COLS : Z := 80.
Definition ROWS : Z := 25.

Definition ESC : Z := 27.
(** A literal that starts with the escape character and a bracket. *)
Definition csi (s : string) : list Z := ESC :: 91 :: chars s.

Definition CLEAR : list Z := csi "2J".
Definition STANDARD_BACKGROUND : list Z := csi "30;40m".
Definition CURSOR_START : list Z := csi "0;0H".
Definition HIDE_CURSOR : list Z := csi "?25l".
Definition UNDERLINED : list Z := csi "4m".
Definition RESTORE : list Z := csi "0m".
Definition RESET_CONSOLE : list Z := [ESC; 99].

(** [color_t]. *)
Definition supportedTextColor : list string :=
  [ "30"; "34"; "32"; "36"; "31"; "35"; "33"; "37";
    "1;30"; "1;34"; "1;32"; "1;36"; "1;31"; "1;35"; "1;33"; "1;37" ]%string.
Definition supportedBackgroundColor : list string :=
  [ "40"; "44"; "42"; "46"; "41"; "45"; "43"; "47" ]%string.
Definition TEXT_SIZE : Z := 16.
Definition BACKGROUND_SIZE : Z := 8.

Definition _getTextColor (code : Z) : list Z :=
  if TEXT_SIZE <=? code then chars (nth 0 supportedTextColor "")
  else chars (nth (Z.to_nat code) supportedTextColor "").
Definition _getBackgroundColor (code : Z) : list Z :=
  if BACKGROUND_SIZE <=? code then chars (nth 0 supportedBackgroundColor "")
  else chars (nth (Z.to_nat code) supportedBackgroundColor "").

(** ** State *)
Record t : Type := mk {
  _videoThread : bool;            (* the threads were created *)
  _cursorBlink : bool;
  _vga : bool;                    (* the pointer is not null *)
  _isBlinking : bool;
  _videoMatrix : option Z;        (* an offset in the guest's memory *)
}.

#[export] Instance eta_t : Eta t := λ s,
  mk (_videoThread s) (_cursorBlink s) (_vga s) (_isBlinking s) (_videoMatrix s).

(** The console and the controller it is attached to. *)
Record world : Type := mk_world { out : t; vga : VGAController.t }.

#[export] Instance eta_world : Eta world := λ w, mk_world (out w) (vga w).

(** The constructor of the static object, whose other members are zero. *)
Definition init : t := mk false false false true None.

(** ** Methods

    [None] is the end of the body of a function that should return a value. *)
Definition attachVGA : io t bool :=
  s ← get;
  if _vga s then mret false else modify (λ s, s <| _vga := true |>);; mret true.

Definition startThread : io world (option bool) :=
  w ← get;
  if _videoThread (out w) || _cursorBlink (out w) || negb (_vga (out w)) then mret (Some false)
  else
    modify (λ w, w <| out := (out w) <| _videoMatrix := VGAController.getVMem (vga w) |> |>);;
    modify (λ w, w <| out := (out w) <| _videoThread := true |> |>);;
    modify (λ w, w <| out := (out w) <| _cursorBlink := true |> |>);;
    mret None.

(** A turn of [_blinkThread]. *)
Definition _blinkThread : io t unit := modify (λ s, s <| _isBlinking := negb (_isBlinking s) |>).

Definition _min (one two : Z) : Z := if one <? two then one else two.

(** What the painting thread reads during a refresh: the size of the terminal, the
    cursor of the controller, the cells of [_videoMatrix], and for each cell the value
    of [_isBlinking] at the two places where the mutex is taken, which the other
    thread may change in between. *)
Record refresh : Type := mk_refresh {
  ws_row : Z;
  ws_col : Z;
  cursorIndex : Z;
  video : Z → Z;
  blink_char : Z → bool;
  blink_cursor : Z → bool;
}.

Definition cursorX (r : refresh) : Z := cursorIndex r mod COLS.
Definition cursorY (r : refresh) : Z := cursorIndex r / COLS.
Definition minRows (r : refresh) : Z := _min ROWS (ws_row r).
Definition minCols (r : refresh) : Z := _min COLS (ws_col r).

(** The body of the loop on the columns. *)
Definition draw_cell (r : refresh) (i j : Z) : list Z :=
  let k := i * COLS + j in
  let temp := video r k in
  let c := u8 temp in
  let textC := Z.land (Z.shiftr temp 8) 0x000f in
  let backg := Z.shiftr (Z.land temp 0x7000) 12 in
  let blinkC := Z.shiftr (Z.land temp 0x8000) 15 in
  let toPrint := ESC :: 91 :: _getTextColor textC ++ 59 :: _getBackgroundColor backg ++ [109] in
  let toPrint := toPrint ++
    [if negb (blinkC =? 0) then (if blink_char r k then c else 32) else c] in
  if cursorY r * COLS + cursorX r =? k then
    if blink_cursor r k then UNDERLINED ++ toPrint ++ RESTORE else toPrint
  else toPrint.

(** The body of the loop on the rows. *)
Definition draw_row (r : refresh) (i : Z) : list Z :=
  concat (map (draw_cell r i) (seqZ 0 (minCols r))) ++
  (if negb (i =? minRows r - 1) then STANDARD_BACKGROUND ++ [10] else STANDARD_BACKGROUND).

(** A turn of the endless loop of [_mainThread], and the thread on the refreshes it
    makes. *)
Definition draw (r : refresh) : list Z :=
  CURSOR_START ++ concat (map (draw_row r) (seqZ 0 (minRows r))).

Definition _mainThread (rs : list refresh) : list Z :=
  HIDE_CURSOR ++ CLEAR ++ concat (map draw rs).

(** What [resetConsole] prints. *)
Definition resetConsole : list Z := RESET_CONSOLE.

(** The console that paints the page at [base]. *)
Definition painting_at (base : option Z) : t := mk true true true true base.

(** ** A terminal

    The part of ECMA-48 that occurs: characters, line feeds (which the line discipline
    turns into a return and a feed), the cursor position, the erasure of the display,
    and the rendition.  [outside] is set when a terminal would do something this model
    does not have: wrap or scroll, or obey another control. *)
Record rendition : Type := mk_rend { fg : Z; bg : Z; bold : bool; under : bool }.
Definition plain : rendition := mk_rend 37 40 false false.

#[export] Instance rendition_eq_dec : EqDecision rendition.
Proof. solve_decision. Defined.

Inductive pstate : Type := Ground | Escape | Control (params : list Z).

Record terminal : Type := mk_term {
  parser : pstate;
  row : Z;
  col : Z;
  rend : rendition;
  screen : Z → Z → Z * rendition;
  outside : bool;
}.

#[export] Instance eta_terminal : Eta terminal := λ s,
  mk_term (parser s) (row s) (col s) (rend s) (screen s) (outside s).

(** The parameters of a control sequence: numbers between semicolons. *)
Fixpoint split_params (ps : list Z) (n : Z) : list Z :=
  match ps with
  | [] => [n]
  | p :: ps => if p =? 59 then n :: split_params ps 0 else split_params ps (10 * n + (p - 48))
  end.

Definition select_rendition (r : rendition) (n : Z) : rendition :=
  if n =? 0 then plain
  else if n =? 1 then mk_rend (fg r) (bg r) true (under r)
  else if n =? 4 then mk_rend (fg r) (bg r) (bold r) true
  else if (30 <=? n) && (n <=? 37) then mk_rend n (bg r) (bold r) (under r)
  else if (40 <=? n) && (n <=? 47) then mk_rend (fg r) n (bold r) (under r)
  else r.

Section terminal.
(** The size of the window. *)
Context (rows cols : Z).

Definition put (c : Z) (s : terminal) : terminal :=
  mk_term Ground (row s) (col s + 1) (rend s)
    (λ i j, if (i =? row s) && (j =? col s) then (c, rend s) else screen s i j)
    (outside s || negb ((0 <=? row s) && (row s <? rows) && (0 <=? col s) && (col s <? cols))).

Definition line_feed (s : terminal) : terminal :=
  mk_term Ground (row s + 1) 0 (rend s) (screen s) (outside s || (rows <=? row s + 1)).

Definition home (n : Z) : Z := if n =? 0 then 0 else n - 1.

(** The end of a control sequence. *)
Definition control (ps : list Z) (final : Z) (s : terminal) : terminal :=
  let s := s <| parser := Ground |> in
  if final =? 109 (* m *) then s <| rend := foldl select_rendition (rend s) (split_params ps 0) |>
  else if final =? 72 (* H *) then
    s <| row := home (nth 0 (split_params ps 0) 0) |>
      <| col := home (nth 1 (split_params ps 0) 0) |>
  else if (final =? 74 (* J *)) && bool_decide (ps = chars "2") then
    s <| screen := λ _ _, (32, rend s) |>
  else if (final =? 108 (* l *)) && bool_decide (ps = chars "?25") then s
  else s <| outside := true |>.

Definition printable (c : Z) : Prop := 32 ≤ c < 127.

Definition term_step (s : terminal) (c : Z) : terminal :=
  match parser s with
  | Ground =>
      if c =? ESC then s <| parser := Escape |>
      else if c =? 10 then line_feed s
      else if (32 <=? c) && (c <? 127) then put c s
      else s <| outside := true |>
  | Escape =>
      if c =? 91 then s <| parser := Control [] |>
      else s <| parser := Ground |> <| outside := true |>
  | Control ps =>
      if (48 <=? c) && (c <? 64) then s <| parser := Control (ps ++ [c]) |>
      else control ps c s
  end.

Definition run_terminal (bs : list Z) (s : terminal) : terminal := foldl term_step s bs.

Lemma run_terminal_app bs1 bs2 s :
  run_terminal (bs1 ++ bs2) s = run_terminal bs2 (run_terminal bs1 s).
Proof. apply foldl_app. Qed.

Definition parameter (c : Z) : Prop := 48 ≤ c < 64.

Lemma run_parameters ps0 ps s :
  parser s = Control ps0 → Forall parameter ps →
  run_terminal ps s = s <| parser := Control (ps0 ++ ps) |>.
Proof.
  intros Hs Hps. revert ps0 s Hs. induction Hps as [|p ps Hp _ IH]; intros ps0 s Hs.
  { rewrite app_nil_r. destruct s. by cbn in *; subst. }
  cbn [run_terminal foldl]. unfold term_step at 2. rewrite Hs.
  unfold parameter in Hp. destruct (Z.leb_spec 48 p), (Z.ltb_spec p 64); try lia. cbn [andb].
  fold (run_terminal ps (s <| parser := Control (ps0 ++ [p]) |>)).
  rewrite (IH (ps0 ++ [p])) by done. by rewrite <- app_assoc.
Qed.

(** A whole control sequence. *)
Lemma run_control ps final s :
  parser s = Ground → Forall parameter ps → 64 ≤ final →
  run_terminal (ESC :: 91 :: ps ++ [final]) s = control ps final s.
Proof.
  intros Hs Hps Hf. change (ESC :: 91 :: ps ++ [final]) with ([ESC; 91] ++ ps ++ [final]).
  rewrite !run_terminal_app.
  assert (run_terminal [ESC; 91] s = s <| parser := Control [] |>) as ->.
  { unfold run_terminal, foldl, term_step. by rewrite Hs. }
  rewrite (run_parameters [] ps); [|reflexivity|done].
  cbn [run_terminal foldl app]. unfold term_step. cbn.
  destruct (Z.leb_spec 48 final), (Z.ltb_spec final 64); try lia; cbn [andb]; by destruct s.
Qed.

Lemma run_underlined s :
  parser s = Ground →
  run_terminal UNDERLINED s =
    s <| rend := mk_rend (fg (rend s)) (bg (rend s)) (bold (rend s)) true |>.
Proof.
  intros Hs. change UNDERLINED with (ESC :: 91 :: chars "4" ++ [109]).
  rewrite run_control by (done || lia || (repeat constructor; unfold parameter; cbn; lia)).
  by destruct s; cbn in *; subst.
Qed.

Lemma run_restore s :
  parser s = Ground → run_terminal RESTORE s = s <| rend := plain |>.
Proof.
  intros Hs. change RESTORE with (ESC :: 91 :: chars "0" ++ [109]).
  rewrite run_control by (done || lia || (repeat constructor; unfold parameter; cbn; lia)).
  by destruct s; cbn in *; subst.
Qed.

(** The end of a row. *)
Lemma run_background s :
  parser s = Ground →
  run_terminal STANDARD_BACKGROUND s =
    s <| rend := mk_rend 30 40 (bold (rend s)) (under (rend s)) |>.
Proof.
  intros Hs. change STANDARD_BACKGROUND with (ESC :: 91 :: chars "30;40" ++ [109]).
  rewrite run_control by (done || lia || (repeat constructor; unfold parameter; cbn; lia)).
  by destruct s; cbn in *; subst.
Qed.

Lemma run_home s :
  parser s = Ground → run_terminal CURSOR_START s = s <| row := 0 |> <| col := 0 |>.
Proof.
  intros Hs. change CURSOR_START with (ESC :: 91 :: chars "0;0" ++ [72]).
  rewrite run_control by (done || lia || (repeat constructor; unfold parameter; cbn; lia)).
  by destruct s; cbn in *; subst.
Qed.

Lemma run_printable c s :
  parser s = Ground → printable c → run_terminal [c] s = put c s.
Proof.
  intros Hs Hc. unfold printable in Hc. cbn. unfold term_step. rewrite Hs. unfold ESC.
  by destruct (Z.eqb_spec c 27), (Z.eqb_spec c 10), (Z.leb_spec 32 c), (Z.ltb_spec c 127); try lia.
Qed.
End terminal.

(** ** What a cell of the text page looks like

    The colours of the controller and those of the terminal number the three primary
    components in opposite orders. *)
Definition ansi (n : Z) : Z := 4 * (n mod 2) + 2 * (n / 2 mod 2) + n / 4 mod 2.

Definition text_attr (temp : Z) : Z := temp / 256 mod 16.
Definition back_attr (temp : Z) : Z := temp / 4096 mod 8.
Definition blink_attr (temp : Z) : bool := Z.testbit temp 15.
Definition bright (temp : Z) : bool := 8 <=? text_attr temp.

(** The cell that the cursor underlines at this moment. *)
Definition marked (r : refresh) (k : Z) : bool := (k =? cursorIndex r) && blink_cursor r k.

(** The character and the rendition; [b] is the intensity the cell adds its own to. *)
Definition glyph (r : refresh) (b : bool) (k : Z) : Z * rendition :=
  (if blink_attr (video r k) && negb (blink_char r k) then 32 else u8 (video r k),
   mk_rend (30 + ansi (text_attr (video r k))) (40 + ansi (back_attr (video r k)))
     (b || bright (video r k)) (marked r k)).

(** The intensity that a cell leaves: only the end of the underlining resets it. *)
Definition bold_next (r : refresh) (b : bool) (k : Z) : bool :=
  if marked r k then false else b || bright (video r k).

Definition bold_row (r : refresh) (i : Z) (b : bool) (n : Z) : bool :=
  foldl (λ b j, bold_next r b (i * COLS + j)) b (seqZ 0 n).
Definition bold_rows (r : refresh) (b : bool) (n : Z) : bool :=
  foldl (λ b i, bold_row r i b (minCols r)) b (seqZ 0 n).
Definition bold_frame (b : bool) (r : refresh) : bool := bold_rows r b (minRows r).

(** What the terminal shows at row [i] and column [j] when a refresh begins with the
    intensity [b]. *)
Definition shown (r : refresh) (b : bool) (i j : Z) : Z * rendition :=
  glyph r (bold_row r i (bold_rows r b i) j) (i * COLS + j).

(** *** Attributes *)

Lemma ansi_range n : 0 ≤ ansi n < 8.
Proof. unfold ansi. width_lia. Qed.

Definition colour_params (code b : Z) : list Z := _getTextColor code ++ 59 :: _getBackgroundColor b.

Lemma colour_params_ok code b :
  0 ≤ code < 16 → 0 ≤ b < 8 →
  Forall parameter (colour_params code b) ∧
  split_params (colour_params code b) 0 =
    (if 8 <=? code then [1] else []) ++ [30 + ansi code; 40 + ansi b].
Proof.
  intros Hc Hb.
  assert (Forall (λ code, Forall (λ b,
      Forall (λ c, 48 <= c ∧ c < 64) (colour_params code b) ∧
      split_params (colour_params code b) 0 =
        (if 8 <=? code then [1] else []) ++ [30 + ansi code; 40 + ansi b])
    (seqZ 0 8)) (seqZ 0 16)) as H by (apply (bool_decide_unpack _); vm_compute; exact I).
  rewrite Forall_forall in H. specialize (H code). rewrite elem_of_seqZ in H.
  specialize (H ltac:(lia)). rewrite Forall_forall in H. specialize (H b).
  rewrite elem_of_seqZ in H. destruct (H ltac:(lia)). split; [|done].
  eapply Forall_impl; [done|]. unfold parameter. naive_solver.
Qed.

Lemma select_colours code b r :
  0 ≤ code < 16 → 0 ≤ b < 8 →
  foldl select_rendition r (split_params (colour_params code b) 0) =
    mk_rend (30 + ansi code) (40 + ansi b) (bold r || (8 <=? code)) (under r).
Proof.
  intros Hc Hb. rewrite (proj2 (colour_params_ok code b Hc Hb)).
  pose proof (ansi_range code). pose proof (ansi_range b).
  assert (∀ r n, 0 ≤ n < 8 → select_rendition r (30 + n) = mk_rend (30 + n) (bg r) (bold r) (under r))
    as Hfg.
  { intros r' n Hn. unfold select_rendition. by repeat case_match; try lia. }
  assert (∀ r n, 0 ≤ n < 8 → select_rendition r (40 + n) = mk_rend (fg r) (40 + n) (bold r) (under r))
    as Hbg.
  { intros r' n Hn. unfold select_rendition. by repeat case_match; try lia. }
  destruct (8 <=? code); cbn [app foldl]; rewrite Hfg, Hbg by done; cbn.
  - by rewrite orb_true_r.
  - by rewrite orb_false_r.
Qed.

Lemma attr_bits temp :
  Z.land (Z.shiftr temp 8) 0x000f = text_attr temp ∧
  Z.shiftr (Z.land temp 0x7000) 12 = back_attr temp ∧
  negb (Z.shiftr (Z.land temp 0x8000) 15 =? 0) = blink_attr temp.
Proof.
  unfold text_attr, back_attr, blink_attr. split_and!.
  - change 0x000f with (2 ^ 4 - 1). by rewrite land_ones_mod, Z.shiftr_div_pow2 by lia.
  - rewrite Z.shiftr_land. change (Z.shiftr 0x7000 12) with (2 ^ 3 - 1).
    by rewrite land_ones_mod, Z.shiftr_div_pow2 by lia.
  - rewrite Z.shiftr_land. change (Z.shiftr 0x8000 15) with (2 ^ 1 - 1).
    rewrite land_ones_mod by lia. rewrite <- (Z.add_0_l 15), <- Z.shiftr_spec by lia.
    rewrite Z.bit0_odd, <- Z.bit0_mod, Z.bit0_odd. by destruct (Z.odd _).
Qed.

#[local] Arguments marked : simpl never.
#[local] Arguments glyph : simpl never.
#[local] Arguments bold_next : simpl never.

(** *** Drawing *)
Section drawing.
Context (r : refresh).
Let rows := ws_row r.
Let cols := ws_col r.
Hypothesis Hchars : ∀ k, 0 ≤ k < ROWS * COLS → printable (u8 (video r k)).

(** Between two cells. *)
Record clean (s : terminal) : Prop := {
  clean_parser : parser s = Ground;
  clean_inside : outside s = false;
  clean_under : under (rend s) = false;
}.

Definition cell_char (k : Z) : Z :=
  if blink_attr (video r k) && negb (blink_char r k) then 32 else u8 (video r k).

Definition cell_body (k : Z) : list Z :=
  (ESC :: 91 :: colour_params (text_attr (video r k)) (back_attr (video r k)) ++ [109]) ++
  [cell_char k].

Lemma draw_cell_body i j :
  let k := i * COLS + j in
  draw_cell r i j = if marked r k then UNDERLINED ++ cell_body k ++ RESTORE else cell_body k.
Proof.
  intros k. unfold draw_cell. fold k. cbv zeta.
  destruct (attr_bits (video r k)) as (-> & -> & ->).
  replace (cursorY r * COLS + cursorX r) with (cursorIndex r)
    by (unfold cursorY, cursorX, COLS; width_lia).
  rewrite (Z.eqb_sym (cursorIndex r) k). unfold marked, cell_body, colour_params, cell_char.
  replace (if blink_attr (video r k) then if blink_char r k then u8 (video r k) else 32
           else u8 (video r k))
    with (if blink_attr (video r k) && negb (blink_char r k) then 32 else u8 (video r k))
    by (by destruct (blink_attr _), (blink_char _ _)).
  assert (∀ xs ys : list Z, ESC :: 91 :: xs ++ 59 :: ys ++ [109] =
    ESC :: 91 :: (xs ++ 59 :: ys) ++ [109]) as -> by (intros; by rewrite <- app_assoc).
  by destruct (k =? cursorIndex r), (blink_cursor r k); cbn [andb]; rewrite <- ?app_assoc.
Qed.

Lemma cell_body_run k s :
  parser s = Ground → printable (u8 (video r k)) →
  run_terminal rows cols (cell_body k) s =
    put rows cols (cell_char k)
      (s <| rend := mk_rend (30 + ansi (text_attr (video r k))) (40 + ansi (back_attr (video r k)))
                      (bold (rend s) || bright (video r k)) (under (rend s)) |>).
Proof.
  intros Hs Hc. unfold cell_body. rewrite run_terminal_app.
  assert (0 ≤ text_attr (video r k) < 16) as Ht by (unfold text_attr; width_lia).
  assert (0 ≤ back_attr (video r k) < 8) as Hb by (unfold back_attr; width_lia).
  destruct (colour_params_ok _ _ Ht Hb) as [Hp _].
  rewrite run_control by (done || lia). unfold control. cbn [Z.eqb Pos.eqb].
  assert (printable (cell_char k)) as Hcc.
  { unfold cell_char. case_match; [unfold printable; lia|done]. }
  rewrite run_printable by done. by rewrite (select_colours _ _ _ Ht Hb); destruct s; cbn in *; subst.
Qed.

(** The painting of one cell. *)
Record painted (b : bool) (i j : Z) (s s' : terminal) : Prop := {
  painted_clean : clean s';
  painted_row : row s' = i;
  painted_col : col s' = j + 1;
  painted_bold : bold (rend s') = bold_next r b (i * COLS + j);
  painted_screen x y : screen s' x y =
    if (x =? i) && (y =? j) then glyph r b (i * COLS + j) else screen s x y;
}.

Lemma in_window i j :
  0 ≤ i < minRows r → 0 ≤ j < minCols r →
  0 ≤ i * COLS + j < ROWS * COLS ∧ i < rows ∧ j < cols.
Proof.
  unfold minRows, minCols, _min, ROWS, COLS, rows, cols.
  destruct (25 <? ws_row r) eqn:?, (80 <? ws_col r) eqn:?; lia.
Qed.

Lemma draw_cell_run i j s :
  clean s → row s = i → col s = j → 0 ≤ i < minRows r → 0 ≤ j < minCols r →
  painted (bold (rend s)) i j s (run_terminal rows cols (draw_cell r i j) s).
Proof.
  intros [Hp Ho Hu] Hi Hj Hir Hjr. destruct (in_window i j Hir Hjr) as (Hk & Hrow & Hcol).
  pose proof (Hchars _ Hk) as Hc. rewrite draw_cell_body. set (k := i * COLS + j) in *.
  assert (outside s || negb ((0 <=? row s) && (row s <? rows) && (0 <=? col s) && (col s <? cols))
    = false) as Hin by (rewrite Ho, Hi, Hj; cbn; lia).
  destruct (marked r k) eqn:Hm.
  - rewrite run_terminal_app, run_underlined by done.
    rewrite run_terminal_app, cell_body_run by (done || by destruct s).
    rewrite run_restore by done.
    split; cbn; [by split|done|by rewrite Hj| |].
    + unfold bold_next. fold k. by rewrite Hm.
    + intros x y. unfold glyph. fold k. by rewrite Hm, Hi, Hj.
  - rewrite cell_body_run by done.
    split; cbn; [by split|done|by rewrite Hj| |].
    + unfold bold_next. fold k. by rewrite Hm.
    + intros x y. unfold glyph. fold k. by rewrite Hm, Hu, Hi, Hj.
Qed.

(** Some cells of a row, from its beginning. *)
Record row_painted (b : bool) (i n : Z) (s s' : terminal) : Prop := {
  row_painted_clean : clean s';
  row_painted_row : row s' = i;
  row_painted_col : col s' = n;
  row_painted_bold : bold (rend s') = bold_row r i b n;
  row_painted_screen x y : screen s' x y =
    if (x =? i) && ((0 <=? y) && (y <? n)) then glyph r (bold_row r i b y) (i * COLS + y)
    else screen s x y;
}.

Lemma seqZ_snoc n : 0 ≤ n → seqZ 0 (n + 1) = seqZ 0 n ++ [n].
Proof. intros. rewrite seqZ_app by lia. by rewrite Z.add_0_l. Qed.

Lemma draw_cells_run i n s :
  clean s → row s = i → col s = 0 → 0 ≤ i < minRows r → 0 ≤ n ≤ minCols r →
  row_painted (bold (rend s)) i n s
    (run_terminal rows cols (concat (map (draw_cell r i) (seqZ 0 n))) s).
Proof.
  intros Hs Hi Hj Hir [Hn Hnr]. revert Hnr. pattern n. apply natlike_ind; [| |done]; clear n Hn.
  { intros _. split; [done..|]. intros x y. by replace ((0 <=? y) && (y <? 0)) with false by lia;
      rewrite andb_false_r. }
  intros n Hn IH Hnr. destruct (IH ltac:(lia)) as [Hc Hr Hco Hb Hsc].
  replace (Z.succ n) with (n + 1) by lia. rewrite seqZ_snoc by done.
  rewrite map_app, concat_app, run_terminal_app. cbn [map concat]. rewrite app_nil_r.
  destruct (draw_cell_run i n _ Hc Hr Hco Hir ltac:(lia)) as [Hc' Hr' Hco' Hb' Hsc'].
  assert (bold_row r i (bold (rend s)) (n + 1) =
    bold_next r (bold_row r i (bold (rend s)) n) (i * COLS + n)) as Hnext.
  { unfold bold_row. by rewrite seqZ_snoc, foldl_app by done. }
  split; [done..| |].
  - by rewrite Hb', Hnext, Hb.
  - intros x y. rewrite Hsc', Hsc, Hb.
    destruct (Z.eqb_spec x i), (Z.eqb_spec y n); cbn [andb]; subst.
    + by replace ((0 <=? n) && (n <? n + 1)) with true by lia.
    + by replace ((0 <=? y) && (y <? n + 1)) with ((0 <=? y) && (y <? n)) by lia.
    + done.
    + done.
Qed.

(** Whole rows, each ended by a line feed. *)
Record page_painted (b : bool) (n : Z) (s s' : terminal) : Prop := {
  page_painted_clean : clean s';
  page_painted_bold : bold (rend s') = bold_rows r b n;
  page_painted_screen x y : screen s' x y =
    if ((0 <=? x) && (x <? n)) && ((0 <=? y) && (y <? minCols r)) then shown r b x y
    else screen s x y;
}.

(** One more row, whatever ends it. *)
Lemma page_painted_next b n s s1 s2 s3 :
  page_painted b n s s1 → row_painted (bold (rend s1)) n (minCols r) s1 s2 → 0 ≤ n →
  clean s3 → bold (rend s3) = bold (rend s2) → (∀ x y, screen s3 x y = screen s2 x y) →
  page_painted b (n + 1) s s3.
Proof.
  intros [Hc Hb Hsc] [Hc' _ _ Hb' Hsc'] Hn Hc3 Hb3 Hsc3. split; [done| |].
  - rewrite Hb3, Hb', Hb. unfold bold_rows. by rewrite seqZ_snoc, foldl_app by done.
  - intros x y. rewrite Hsc3, Hsc', Hsc, Hb. unfold shown.
    destruct (Z.eqb_spec x n) as [->|].
    + replace ((0 <=? n) && (n <? n + 1)) with true by lia.
      replace ((0 <=? n) && (n <? n)) with false by lia. done.
    + replace ((0 <=? x) && (x <? n + 1)) with ((0 <=? x) && (x <? n)) by lia. done.
Qed.

Hypothesis Hcols : 0 ≤ ws_col r.

Lemma minRows_le : minRows r ≤ rows.
Proof. unfold minRows, _min, ROWS, rows. destruct (25 <? ws_row r) eqn:?; lia. Qed.

Lemma minCols_nonneg : 0 ≤ minCols r.
Proof. unfold minCols, _min, COLS. case_match; lia. Qed.

Lemma draw_rows_run n s :
  clean s → row s = 0 → col s = 0 → 0 ≤ n < minRows r →
  let s' := run_terminal rows cols (concat (map (draw_row r) (seqZ 0 n))) s in
  page_painted (bold (rend s)) n s s' ∧ row s' = n ∧ col s' = 0.
Proof.
  intros Hs Hi Hj [Hn Hnr]. revert Hnr. pattern n. apply natlike_ind; [| |done]; clear n Hn.
  { intros _. split_and!; [|done..]. split; [done..|]. intros x y.
    by replace ((0 <=? x) && (x <? 0)) with false by lia. }
  intros n Hn IH Hnr. destruct (IH ltac:(lia)) as (Hpage & Hrow & Hcol).
  replace (Z.succ n) with (n + 1) by lia. rewrite seqZ_snoc by done.
  rewrite map_app, concat_app, run_terminal_app. cbn [map concat]. rewrite app_nil_r.
  set (s1 := run_terminal _ _ _ s) in *. pose proof minCols_nonneg.
  pose proof (draw_cells_run n (minCols r) s1 (page_painted_clean _ _ _ _ Hpage) Hrow Hcol
    ltac:(lia) ltac:(lia)) as Hcells.
  unfold draw_row. replace (negb (n =? minRows r - 1)) with true by lia.
  rewrite !run_terminal_app. set (s2 := run_terminal _ _ _ s1) in *.
  pose proof (row_painted_clean _ _ _ _ _ Hcells) as [Hp Ho Hu].
  pose proof (row_painted_row _ _ _ _ _ Hcells) as Hr2. rewrite run_background by done.
  assert (∀ s, parser s = Ground → run_terminal rows cols [10] s = line_feed rows s) as Hlf
    by (intros s' Hs'; unfold run_terminal, foldl, term_step; by rewrite Hs').
  rewrite Hlf by done. pose proof minRows_le.
  split_and!; [|by cbn; rewrite Hr2|done].
  apply (page_painted_next _ _ _ s1 s2); [done|done|lia| |done|done].
  split; cbn; [done| |done]. rewrite Ho, Hr2. lia.
Qed.

(** A whole refresh. *)
Lemma draw_run s :
  clean s → page_painted (bold (rend s)) (minRows r) s (run_terminal rows cols (draw r) s).
Proof.
  intros Hs. unfold draw. rewrite run_terminal_app, run_home by apply Hs.
  set (s0 := s <| row := 0 |> <| col := 0 |>).
  assert (clean s0) as Hs0 by by destruct Hs.
  change (bold (rend s)) with (bold (rend s0)).
  destruct (Z.le_gt_cases (minRows r) 0) as [Hz|Hz].
  { assert (seqZ 0 (minRows r) = []) as -> by (apply seqZ_nil; lia).
    split; [done| |].
    - unfold bold_rows. by rewrite seqZ_nil by lia.
    - intros x y. by replace ((0 <=? x) && (x <? minRows r)) with false by lia. }
  replace (minRows r) with (minRows r - 1 + 1) by lia. rewrite seqZ_snoc by lia.
  rewrite map_app, concat_app, run_terminal_app. cbn [map concat]. rewrite app_nil_r.
  destruct (draw_rows_run (minRows r - 1) s0 Hs0 eq_refl eq_refl ltac:(lia))
    as (Hpage & Hrow & Hcol).
  set (s1 := run_terminal _ _ _ s0) in *. pose proof minCols_nonneg.
  pose proof (draw_cells_run (minRows r - 1) (minCols r) s1 (page_painted_clean _ _ _ _ Hpage)
    Hrow Hcol ltac:(lia) ltac:(lia)) as Hcells.
  unfold draw_row. rewrite Z.eqb_refl. cbn [negb].
  rewrite run_terminal_app. set (s2 := run_terminal _ _ _ s1) in *.
  destruct (row_painted_clean _ _ _ _ _ Hcells) as [Hp Ho Hu].
  rewrite run_background by done.
  assert (∀ s', clean s' → bold (rend s') = bold (rend s2) →
    (∀ x y, screen s' x y = screen s2 x y) →
    page_painted (bold (rend s0)) (minRows r - 1 + 1) s0 s') as Hnext
    by (intros; apply (page_painted_next _ _ _ s1 s2); [done|done|lia|done..]).
  edestruct Hnext as [Hc' Hb' Hsc'];
    [| | |exact (Build_page_painted _ _ s _ Hc' Hb' Hsc')]; [by split|done..].
Qed.
End drawing.

(** ** The thread *)

(** A refresh on a window of [h] rows and [w] columns, of a page of printable text. *)
Record observed (h w : Z) (r : refresh) : Prop := {
  observed_rows : ws_row r = h;
  observed_cols : ws_col r = w;
  observed_text : ∀ k, 0 ≤ k < ROWS * COLS → printable (u8 (video r k));
}.

Section thread.
Context (h w : Z) (Hh : 0 ≤ h) (Hw : 0 ≤ w).

Lemma draw_observed r s :
  observed h w r → clean s →
  page_painted r (bold (rend s)) (minRows r) s (run_terminal h w (draw r) s).
Proof. intros [<- <- Ht] Hs. by apply draw_run. Qed.

(** Outside the part that the refreshes paint. *)
Lemma draws_run rs s :
  Forall (observed h w) rs → clean s →
  let s' := run_terminal h w (concat (map draw rs)) s in
  clean s' ∧ bold (rend s') = foldl bold_frame (bold (rend s)) rs ∧
  ∀ i j, ¬ (i < _min ROWS h ∧ j < _min COLS w) → screen s' i j = screen s i j.
Proof.
  intros Hrs. revert s. induction Hrs as [|r rs Hr _ IH]; intros s Hs; [done|].
  cbn [map concat foldl]. rewrite run_terminal_app.
  destruct (draw_observed r s Hr Hs) as [Hc Hb Hsc].
  destruct (IH _ Hc) as (Hc' & Hb' & Hsc'). split_and!; [done| |].
  - rewrite Hb', Hb. done.
  - intros i j Hij. rewrite Hsc', Hsc by done. unfold minRows, minCols in *.
    destruct Hr as [-> -> _].
    destruct ((0 <=? i) && (i <? _min ROWS h) && ((0 <=? j) && (j <? _min COLS w))) eqn:?;
      [lia|done].
Qed.

(** What the thread does before its first refresh. *)
Lemma prologue_run s :
  parser s = Ground →
  run_terminal h w (HIDE_CURSOR ++ CLEAR) s = s <| screen := λ _ _, (32, rend s) |>.
Proof.
  intros Hs. rewrite run_terminal_app.
  change HIDE_CURSOR with (ESC :: 91 :: chars "?25" ++ [108]).
  rewrite run_control by (done || lia || (repeat constructor; unfold parameter; cbn; lia)).
  change CLEAR with (ESC :: 91 :: chars "2" ++ [74]).
  rewrite run_control by (done || lia || (repeat constructor; unfold parameter; cbn; lia)).
  by destruct s; cbn in *; subst.
Qed.

Lemma main_run rs r s :
  clean s → rend s = plain → Forall (observed h w) (rs ++ [r]) →
  let s' := run_terminal h w (_mainThread (rs ++ [r])) s in
  clean s' ∧ ∀ i j, 0 ≤ i < h → 0 ≤ j < w →
    screen s' i j = if (i <? ROWS) && (j <? COLS)
                    then shown r (foldl bold_frame false rs) i j else (32, plain).
Proof.
  intros Hs Hp Hobs. unfold _mainThread. rewrite app_assoc, run_terminal_app.
  rewrite prologue_run by apply Hs. set (s0 := s <| screen := _ |>).
  assert (clean s0) as Hs0 by by destruct Hs.
  rewrite Forall_app, Forall_singleton in Hobs. destruct Hobs as [Hrs Hr].
  rewrite map_app, concat_app, run_terminal_app. cbn [map concat]. rewrite app_nil_r.
  destruct (draws_run rs s0 Hrs Hs0) as (Hc & Hb & Hsc).
  set (s1 := run_terminal h w _ s0) in *.
  destruct (draw_observed r s1 Hr Hc) as [Hc' _ Hsc']. split; [done|].
  intros i j Hi Hj. rewrite Hsc', Hb. change (bold (rend s0)) with (bold (rend s)). rewrite Hp.
  unfold minRows, minCols. destruct Hr as [-> -> _].
  replace ((0 <=? i) && (i <? _min ROWS h) && ((0 <=? j) && (j <? _min COLS w)))
    with ((i <? ROWS) && (j <? COLS)).
  - destruct ((i <? ROWS) && (j <? COLS)) eqn:Hin; [done|].
    rewrite Hsc; [by cbn; rewrite Hp|]. unfold _min, ROWS, COLS in *.
    destruct (25 <? h) eqn:?, (80 <? w) eqn:?; lia.
  - unfold _min, ROWS, COLS. destruct (25 <? h) eqn:?, (80 <? w) eqn:?; lia.
Qed.
End thread.

(** C33. After any number of refreshes of pages whose 2000 cells are all printable
    characters (32 to 126), on a window of any size, a terminal clean at the start shows the
    last one cell by cell, never wraps or scrolls, and leaves the rest of the window blank;
    the intensity of a cell is its own or that of an earlier bright cell, since only the end
    of the cursor's underlining resets it. *)
Theorem console_shows h w rs r s :
  0 ≤ h → 0 ≤ w → clean s → rend s = plain → Forall (observed h w) (rs ++ [r]) →
  let s' := run_terminal h w (_mainThread (rs ++ [r])) s in
  outside s' = false ∧ ∀ i j, 0 ≤ i < h → 0 ≤ j < w →
    screen s' i j = if (i <? ROWS) && (j <? COLS)
                    then shown r (foldl bold_frame false rs) i j else (32, plain).
Proof.
  intros Hh Hw Hs Hp Hobs. destruct (main_run h w Hh Hw rs r s Hs Hp Hobs) as [[_ Ho _] Hsc].
  by split.
Qed.

(** ** Examples *)

(** A bright A in the first cell, a dark B on a green ground in the second, blanks
    after them, and the cursor on the third. *)
Definition page0 (k : Z) : Z :=
  if k =? 0 then 0x0f41 else if k =? 1 then 0x2742 else 0x0720.
Definition refresh0 (phase : bool) : refresh :=
  mk_refresh 3 4 2 page0 (λ _, phase) (λ _, phase).
Definition terminal0 : terminal := mk_term Ground 0 0 plain (λ _ _, (120, plain)) false.

Lemma refresh0_observed phase : observed 3 4 (refresh0 phase).
Proof.
  split; [done..|]. intros k Hk. cbn. unfold page0, printable.
  destruct (k =? 0); [width_lia|]. destruct (k =? 1); width_lia.
Qed.

Lemma console_shows_witness :
  let s' := run_terminal 3 4 (_mainThread [refresh0 false; refresh0 true]) terminal0 in
  outside s' = false ∧ screen s' 0 0 = (65, mk_rend 37 40 true false) ∧
  screen s' 0 2 = (32, mk_rend 37 40 true true) ∧ screen s' 2 3 = (32, mk_rend 37 40 false false).
Proof.
  destruct (console_shows 3 4 [refresh0 false] (refresh0 true) terminal0) as [Ho Hsc].
  1,2: lia.
  1: by split. 1: done.
  1: apply Forall_app_2; apply Forall_singleton, refresh0_observed.
  split; [exact Ho|].
  split; [exact (Hsc 0 0 ltac:(lia) ltac:(lia))|].
  split; [exact (Hsc 0 2 ltac:(lia) ltac:(lia))|exact (Hsc 2 3 ltac:(lia) ltac:(lia))].
Defined.

(** A dark cell after a bright one is shown bright: selecting a colour does not reset the
    intensity. *)
Theorem bright_cells_stick :
  let s' := run_terminal 3 4 (_mainThread [refresh0 false]) terminal0 in
  bright (page0 1) = false ∧ screen s' 0 1 = (66, mk_rend 37 42 true false).
Proof. vm_compute. split; reflexivity. Qed.

(** The bytes of the cells go to the terminal as they are: a page of zeros, as memory that
    was never written is, or one cell with a line feed drive it outside of what it shows. *)
Theorem raw_cells :
  let after video := run_terminal 3 4
    (_mainThread [mk_refresh 3 4 2 video (λ _, false) (λ _, false)]) terminal0 in
  outside (after (λ _, 0)) = true ∧
  outside (after (λ k, if k =? 160 then 0x070a else 0x0720)) = true.
Proof. vm_compute. split; reflexivity. Qed.

End ConsoleOutput.
