(* ===== verification/Terminal.v ===== *)
(** * The terminal (backend/ConsoleInput.cpp, backend/ConsoleOutput.cpp, and the end in kvm.cpp)

The attributes that the two consoles save when they are constructed, the mode in which the
input console puts the terminal, and how the end of the supervisor restores it.  Standard
input and output may be the same terminal, different ones, or none: the requests of
[termios.h] then fail and change nothing. *)

From S2P Require Import Prelude ConsoleOutput.

Module terminal.

(** ** Attributes *)

Record termios : Type := mk_termios { c_iflag : Z; c_oflag : Z; c_cflag : Z; c_lflag : Z }.
#[export] Instance eta_termios : Eta termios := λ a,
  mk_termios (c_iflag a) (c_oflag a) (c_cflag a) (c_lflag a).

(** The flags of Linux. *)
Definition IGNBRK : Z := 0x1.
Definition BRKINT : Z := 0x2.
Definition PARMRK : Z := 0x8.
Definition ISTRIP : Z := 0x20.
Definition INLCR : Z := 0x40.
Definition IGNCR : Z := 0x80.
Definition ICRNL : Z := 0x100.
Definition IXON : Z := 0x400.
Definition ICANON : Z := 0x2.
Definition ECHO : Z := 0x8.
Definition ECHONL : Z := 0x40.
Definition IEXTEN : Z := 0x8000.
Definition CSIZE : Z := 0x30.
Definition PARENB : Z := 0x100.
Definition CS8 : Z := 0x30.

Definition lor_all (fs : list Z) : Z := foldr Z.lor 0 fs.

Inductive fd : Type := STDIN | STDOUT.

(** The terminals by number, and the one that a descriptor is open on. *)
Record tty : Type := mk_tty { attrs : nat → termios; opened : fd → option nat }.

Definition set_attrs (i : nat) (a : termios) (t : tty) : tty :=
  mk_tty (λ j, if decide (j = i) then a else attrs t j) (opened t).

(** [tcgetattr]: on a failure the variable keeps what it held. *)
Definition tcgetattr (d : fd) (junk : termios) (t : tty) : termios :=
  match opened t d with Some i => attrs t i | None => junk end.

Definition tcsetattr (d : fd) (a : termios) (t : tty) : tty :=
  match opened t d with Some i => set_attrs i a t | None => t end.

(** ** The consoles *)

(** What each of them has saved, and the terminals. *)
Record t : Type := mk { tty_attr_old_in : termios; tty_attr_old_out : termios; ttys : tty }.
#[export] Instance eta_t : Eta t := λ s, mk (tty_attr_old_in s) (tty_attr_old_out s) (ttys s).

Definition raw (a : termios) : termios :=
  mk_termios
    (Z.land (c_iflag a)
      (Z.lnot (lor_all [IGNBRK; BRKINT; PARMRK; ISTRIP; INLCR; IGNCR; ICRNL; IXON])))
    (c_oflag a)
    (Z.lor (Z.land (c_cflag a) (Z.lnot (lor_all [CSIZE; PARENB]))) CS8)
    (Z.land (c_lflag a) (Z.lnot (lor_all [ICANON; ECHO; ECHONL; IEXTEN]))).

(** The constructor of [ConsoleInput]. *)
Definition ConsoleInput (s : t) : t :=
  let s := s <| tty_attr_old_in := tcgetattr STDIN (tty_attr_old_in s) (ttys s) |> in
  let tty_attr := tcgetattr STDIN (tty_attr_old_in s) (ttys s) in
  s <| ttys := tcsetattr STDIN (raw tty_attr) (ttys s) |>.

(** The constructor of [ConsoleOutput]. *)
Definition ConsoleOutput (s : t) : t :=
  s <| tty_attr_old_out := tcgetattr STDOUT (tty_attr_old_out s) (ttys s) |>.

(** The two [resetConsole]; the second also prints [ConsoleOutput.resetConsole]. *)
Definition reset_input (s : t) : t := s <| ttys := tcsetattr STDIN (tty_attr_old_in s) (ttys s) |>.
Definition reset_output (s : t) : t := s <| ttys := tcsetattr STDOUT (tty_attr_old_out s) (ttys s) |>.

(** [initIO] constructs the input console first. *)
Definition initIO (s : t) : t := ConsoleOutput (ConsoleInput s).

(** [endIO] up to the end of the process; the destructors of the two objects, which run in
    the reverse order of the constructors, do the same again. *)
Definition endIO (s : t) : t := reset_input (reset_output s).

(** ** Properties *)

Definition same_tty (t1 t2 : tty) : Prop := opened t1 = opened t2 ∧ ∀ i, attrs t1 i = attrs t2 i.

Lemma opened_set d a t : opened (tcsetattr d a t) = opened t.
Proof. unfold tcsetattr. by destruct (opened t d). Qed.

Lemma attrs_set d a t j :
  attrs (tcsetattr d a t) j = if decide (opened t d = Some j) then a else attrs t j.
Proof.
  unfold tcsetattr. destruct (opened t d) as [i|]; cbn; repeat case_decide; congruence.
Qed.

Lemma testbit_clear x m n : 0 ≤ n → Z.testbit (Z.land x (Z.lnot m)) n = Z.testbit x n && negb (Z.testbit m n).
Proof. intros Hn. by rewrite Z.land_spec, Z.lnot_spec. Qed.

(** The raw mode clears exactly the named flags of the input and of the local modes, sets
    eight bits without parity, and changes nothing else. *)
Theorem raw_mode (a : termios) (n : Z) (Hn : 0 ≤ n) :
  let input := lor_all [IGNBRK; BRKINT; PARMRK; ISTRIP; INLCR; IGNCR; ICRNL; IXON] in
  let local := lor_all [ICANON; ECHO; ECHONL; IEXTEN] in
  Z.testbit (c_iflag (raw a)) n = Z.testbit (c_iflag a) n && negb (Z.testbit input n) ∧
  Z.testbit (c_lflag (raw a)) n = Z.testbit (c_lflag a) n && negb (Z.testbit local n) ∧
  Z.testbit (c_cflag (raw a)) n =
    (if Z.testbit CSIZE n then true else if Z.testbit PARENB n then false else Z.testbit (c_cflag a) n) ∧
  c_oflag (raw a) = c_oflag a.
Proof.
  intros input local. cbn [raw c_iflag c_lflag c_cflag c_oflag].
  rewrite !testbit_clear by done. split; [done|]. split; [done|]. split; [|done].
  rewrite Z.lor_spec, testbit_clear by done. change (lor_all [CSIZE; PARENB]) with (Z.lor CSIZE PARENB).
  rewrite Z.lor_spec. change CS8 with CSIZE.
  by destruct (Z.testbit (c_cflag a) n), (Z.testbit CSIZE n), (Z.testbit PARENB n).
Qed.

Lemma init_ttys s :
  opened (ttys (initIO s)) = opened (ttys s) ∧
  (∀ j, attrs (ttys (initIO s)) j =
    if decide (opened (ttys s) STDIN = Some j) then raw (attrs (ttys s) j) else attrs (ttys s) j) ∧
  (∀ j, opened (ttys s) STDIN = Some j → tty_attr_old_in (initIO s) = attrs (ttys s) j) ∧
  (∀ j, opened (ttys s) STDOUT = Some j → tty_attr_old_out (initIO s) = attrs (ttys (initIO s)) j).
Proof.
  unfold initIO, ConsoleInput, ConsoleOutput. cbn [ttys tty_attr_old_in tty_attr_old_out upd eta_t].
  split; [by rewrite opened_set|]. split; [|split].
  - intros j. rewrite attrs_set. case_decide as Hj; [|done]. unfold tcgetattr. by rewrite Hj.
  - intros j Hj. unfold tcgetattr. by rewrite Hj.
  - intros j Hj. unfold tcgetattr at 1. by rewrite opened_set, Hj.
Qed.

Lemma reset_ttys s :
  opened (ttys (endIO s)) = opened (ttys s) ∧
  ∀ j, attrs (ttys (endIO s)) j =
    if decide (opened (ttys s) STDIN = Some j) then tty_attr_old_in s
    else if decide (opened (ttys s) STDOUT = Some j) then tty_attr_old_out s else attrs (ttys s) j.
Proof.
  unfold endIO, reset_input, reset_output. cbn [ttys tty_attr_old_in tty_attr_old_out upd eta_t].
  split; [by rewrite !opened_set|]. intros j. by rewrite !attrs_set, opened_set.
Qed.

(** C40. Whether standard input and output are one terminal, two or none: the start of the
    consoles puts exactly the input's terminal in raw mode, and the end, however often it
    runs, gives every terminal the attributes it had; the order of the two resets matters,
    since the output console has saved the raw mode of a shared terminal. *)
Theorem terminal_restored (s : t) (n : nat) :
  (∀ i, opened (ttys s) STDIN = Some i → attrs (ttys (initIO s)) i = raw (attrs (ttys s) i)) ∧
  (∀ i, opened (ttys s) STDIN ≠ Some i → attrs (ttys (initIO s)) i = attrs (ttys s) i) ∧
  same_tty (ttys (Nat.iter (S n) endIO (initIO s))) (ttys s) ∧
  (∀ i, opened (ttys s) STDIN = Some i → opened (ttys s) STDOUT = Some i →
    attrs (ttys (reset_output (reset_input (initIO s)))) i = raw (attrs (ttys s) i)).
Proof.
  destruct (init_ttys s) as (Ho & Ha & Hin & Hout). split_and!.
  - intros i Hi. by rewrite Ha, decide_True.
  - intros i Hi. by rewrite Ha, decide_False.
  - assert (∀ n, let s' := Nat.iter n endIO (initIO s) in
      opened (ttys s') = opened (ttys s) ∧ tty_attr_old_in s' = tty_attr_old_in (initIO s) ∧
      tty_attr_old_out s' = tty_attr_old_out (initIO s) ∧
      ∀ j, opened (ttys s) STDIN ≠ Some j → attrs (ttys s') j = attrs (ttys s) j) as Hiter.
    { clear n. induction n as [|n IH]; cbn zeta in *.
      - split_and!; [done..|]. intros j Hj. cbn. by rewrite Ha, decide_False.
      - destruct IH as (Ho' & Hi' & Hout' & Ha'). rewrite Nat.iter_succ.
        destruct (reset_ttys (Nat.iter n endIO (initIO s))) as [Hro Hra].
        split_and!; [by rewrite Hro|done..|]. intros j Hj.
        rewrite Hra, Ho', decide_False by done. case_decide as Hd; [|by apply Ha'].
        rewrite Hout', (Hout j Hd), Ha. by rewrite decide_False. }
    rewrite Nat.iter_succ. destruct (Hiter n) as (Ho' & Hi' & Hout' & Ha').
    destruct (reset_ttys (Nat.iter n endIO (initIO s))) as [Hro Hra].
    split; [by rewrite Hro|]. intros j. rewrite Hra, Ho'. case_decide as Hd; [by rewrite Hi', (Hin j)|].
    case_decide as Hd'; [|by apply Ha']. rewrite Hout', (Hout j Hd'), Ha. by rewrite decide_False.
  - intros i Hi Hi'. unfold reset_output, reset_input.
    cbn [ttys tty_attr_old_in tty_attr_old_out upd eta_t].
    rewrite attrs_set, opened_set, Ho, decide_True by done.
    rewrite (Hout i Hi'), Ha. by rewrite decide_True.
Qed.

End terminal.
