(* ===== verification/SerialPort.v ===== *)
(** * The serial ports (frontend/serial_port.h, frontend/serial_port.cpp)

One object per port, at a base address; a character written to the
transmitter holding register is printed on the log. *)

From S2P Require Import Prelude IODevice.

Module serial_port.

Record t : Type := mk {
  THR : Z; RBR : Z; DLL : Z; IER : Z; DLH : Z; IIR : Z;
  FCR : Z; LCR : Z; MCR : Z; LSR : Z; MSR : Z; SR : Z;
  base_addr : Z;
}.

#[export] Instance eta_t : Eta t := λ s,
  mk (THR s) (RBR s) (DLL s) (IER s) (DLH s) (IIR s)
     (FCR s) (LCR s) (MCR s) (LSR s) (MSR s) (SR s) (base_addr s).

(** The register addresses are [const uint16_t] members set by the constructor. *)
Definition THR_addr (s : t) : io_addr := u16 (base_addr s + 0x0).
Definition RBR_addr (s : t) : io_addr := u16 (base_addr s + 0x0).
Definition DLL_addr (s : t) : io_addr := u16 (base_addr s + 0x0).
Definition IER_addr (s : t) : io_addr := u16 (base_addr s + 0x1).
Definition DLH_addr (s : t) : io_addr := u16 (base_addr s + 0x1).
Definition IIR_addr (s : t) : io_addr := u16 (base_addr s + 0x2).
Definition FCR_addr (s : t) : io_addr := u16 (base_addr s + 0x2).
Definition LCR_addr (s : t) : io_addr := u16 (base_addr s + 0x3).
Definition MCR_addr (s : t) : io_addr := u16 (base_addr s + 0x4).
Definition LSR_addr (s : t) : io_addr := u16 (base_addr s + 0x5).
Definition MSR_addr (s : t) : io_addr := u16 (base_addr s + 0x6).
Definition SR_addr (s : t) : io_addr := u16 (base_addr s + 0x7).

Definition init (base : io_addr) : t := {|
  THR := 0; RBR := 0; DLL := 0; IER := 0; DLH := 0; IIR := 0;
  FCR := 0; LCR := 0; MCR := 0; LSR := 0; MSR := 0; SR := 0;
  base_addr := base |}.

(** The source stores the address, not the value, in the register: [THR=addr]. *)
Definition write_reg_byte (addr : io_addr) (val : Z) : io t unit :=
  s ← get;
  if addr =? THR_addr s then
    emit (SerialChar val);; modify (λ s, s <| THR := u8 addr |>)
  else if addr =? DLL_addr s then modify (λ s, s <| DLL := u8 addr |>)
  else if addr =? IER_addr s then modify (λ s, s <| IER := u8 addr |>)
  else if addr =? DLH_addr s then modify (λ s, s <| DLH := u8 addr |>)
  else if addr =? FCR_addr s then modify (λ s, s <| FCR := u8 addr |>)
  else if addr =? LCR_addr s then modify (λ s, s <| LCR := u8 addr |>)
  else if addr =? MCR_addr s then modify (λ s, s <| MCR := u8 addr |>)
  else if addr =? SR_addr s then modify (λ s, s <| SR := u8 addr |>)
  else mret tt.

Definition read_reg_byte (addr : io_addr) : io t Z :=
  s ← get;
  if addr =? RBR_addr s then mret (RBR s)
  else if addr =? DLL_addr s then mret (DLL s)
  else if addr =? IER_addr s then mret (IER s)
  else if addr =? DLH_addr s then mret (DLH s)
  else if addr =? IIR_addr s then mret (IIR s)
  else if addr =? LCR_addr s then mret (LCR s)
  else if addr =? MCR_addr s then mret (MCR s)
  else if addr =? LSR_addr s then
    modify (λ s, s <| LSR := Z.lor (LSR s) 0x20 |>);; s ← get; mret (LSR s)
  else if addr =? MSR_addr s then mret (MSR s)
  else if addr =? SR_addr s then mret (SR s)
  else mret 0.

Inductive op : Type := Write (addr val : Z) | Read (addr : Z).

Definition step (o : op) : io t Z :=
  match o with
  | Write addr val => write_reg_byte addr val;; mret 0
  | Read addr => read_reg_byte addr
  end.

(** ** Properties *)

(** What the guest may see in a register: nothing is ever received, the control
    registers hold 0 or, once written, the low byte of their own address, and the
    line status is 0 or "transmitter empty". *)
Definition latched (v addr : Z) : Prop := v = 0 ∨ v = u8 addr.

Record wf (s : t) : Prop := {
  wf_base : 0 ≤ base_addr s ≤ 65535 - 7;
  wf_RBR : RBR s = 0;
  wf_DLL : DLL s = 0;
  wf_DLH : DLH s = 0;
  wf_IIR : IIR s = 0;
  wf_MSR : MSR s = 0;
  wf_LSR : LSR s = 0 ∨ LSR s = 0x20;
  wf_IER : latched (IER s) (base_addr s + 1);
  wf_FCR : latched (FCR s) (base_addr s + 2);
  wf_LCR : latched (LCR s) (base_addr s + 3);
  wf_MCR : latched (MCR s) (base_addr s + 4);
  wf_SR : latched (SR s) (base_addr s + 7);
}.

Lemma port_init_wf base : 0 ≤ base ≤ 65535 - 7 → wf (init base).
Proof. intros H. split; cbn; unfold latched; auto. Qed.

(** The characters the guest sends to the port, in order. *)
Definition sent (base : Z) (os : list op) : list Z :=
  omap (λ o, match o with
             | Write addr val => if addr =? base then Some val else None
             | Read _ => None
             end) os.

Ltac addrs :=
  unfold THR_addr, RBR_addr, DLL_addr, IER_addr, DLH_addr, IIR_addr, FCR_addr,
    LCR_addr, MCR_addr, LSR_addr, MSR_addr, SR_addr in *.

(** What a read may return. *)
Definition answer (base : Z) (o : op) (r : Z) : Prop :=
  match o with
  | Write _ _ => r = 0
  | Read addr =>
      if addr =? base + 5 then r = 0x20
      else if (addr =? base + 1) || (addr =? base + 3) ||
              (addr =? base + 4) || (addr =? base + 7)
      then latched r addr else r = 0
  end.

Lemma init_base base : base_addr (init base) = base.
Proof. done. Qed.

(** The register addresses are distinct offsets from the base. *)
Lemma addr_offset s k : wf s → 0 ≤ k ≤ 7 → u16 (base_addr s + k) = base_addr s + k.
Proof. intros Hs Hk. pose proof (wf_base s Hs). width_lia. Qed.

Ltac split_addrs :=
  repeat match goal with
         | |- context [Z.eqb ?a ?b] => destruct (Z.eqb_spec a b); try lia; cbn
         end; subst; rewrite ?Z.eqb_refl; cbn.

Lemma write_step addr val s :
  wf s →
  ∃ s' ev, write_reg_byte addr val s = Done (tt, s', ev) ∧ wf s' ∧
    base_addr s' = base_addr s ∧
    serial_output ev = if addr =? base_addr s then [val] else [].
Proof.
  intros Hs. unfold write_reg_byte. io_simpl. addrs.
  rewrite !(addr_offset s) by (done || lia). rewrite Z.add_0_r.
  split_addrs; (do 2 eexists; split; [done|]; split; [|split; done]);
    destruct Hs; split; cbn; unfold latched in *; auto.
Qed.

Lemma read_step addr s :
  wf s →
  ∃ r s', read_reg_byte addr s = Done (r, s', []) ∧ wf s' ∧
    base_addr s' = base_addr s ∧ answer (base_addr s) (Read addr) r.
Proof.
  intros Hs. unfold read_reg_byte, answer. io_simpl. addrs.
  rewrite !(addr_offset s) by (done || lia). rewrite Z.add_0_r.
  repeat match goal with
         | |- context [Z.eqb ?a ?b] => destruct (Z.eqb_spec a b); try lia; cbn
         end; (do 2 eexists; split; [reflexivity|]; cbn).
  all: try (split; [exact Hs|split; [done|]]).
  all: try (subst; destruct Hs; unfold latched in *; auto; done).
  destruct Hs as [? ? ? ? ? ? [HL|HL]]; rewrite HL; (split; [by split; cbn; auto|done]).
Qed.

Lemma run_from os s :
  wf s →
  ∃ rs s' ev, run step os s = Done (rs, s', ev) ∧
    serial_output ev = sent (base_addr s) os ∧
    Forall2 (answer (base_addr s)) os rs.
Proof.
  revert s. induction os as [|o os IH]; intros s Hs; [by exists [], s, []|].
  assert (∃ r s' ev, step o s = Done (r, s', ev) ∧ wf s' ∧ base_addr s' = base_addr s ∧
            serial_output ev = sent (base_addr s) [o] ∧ answer (base_addr s) o r)
    as (r & s' & ev & Ho & Hs' & Hb & Hout & Hans).
  { destruct o as [addr val|addr]; unfold step.
    - destruct (write_step addr val s Hs) as (s' & ev & Hw & Hs' & Hb & Hout).
      exists 0, s', ev. rewrite (bind_done _ _ _ _ _ _ Hw). cbn.
      rewrite app_nil_r. do 3 (split; [done|]). split; [|done].
      rewrite Hout. by destruct (addr =? base_addr s).
    - destruct (read_step addr s Hs) as (r & s' & Hr & Hs' & Hb & Hans).
      by exists r, s', []. }
  destruct (IH s' Hs') as (rs & s'' & ev' & Hrun & Hout' & Hrs).
  exists (r :: rs), s'', (ev ++ ev'). rewrite run_cons, Ho, Hrun. split; [done|].
  rewrite Hb in *. split; [|by constructor].
  rewrite serial_output_app, Hout, Hout'. unfold sent.
  change (o :: os) with ([o] ++ os). by rewrite omap_app.
Qed.

(** For any sequence of accesses the serial port's output is exactly the bytes written to
    its transmit register, in order, and every register reads as either zero or the low byte
    of its own address. *)
Theorem serial_port_run base os :
  0 ≤ base ≤ 65535 - 7 →
  ∃ rs s ev, run step os (init base) = Done (rs, s, ev) ∧
    serial_output ev = sent base os ∧ Forall2 (answer base) os rs.
Proof. intros H. exact (run_from os (init base) (port_init_wf base H)). Qed.

Lemma serial_port_run_witness :
  (0 ≤ 0x3f8 ≤ 65535 - 7) ∧
  ∃ rs s ev, run step [Write 0x3f8 72; Write 0x3ff 0x5a; Read 0x3ff; Write 0x3f8 105]
               (init 0x3f8) = Done (rs, s, ev) ∧
    serial_output ev = [72; 105] ∧
    Forall2 (answer 0x3f8)
      [Write 0x3f8 72; Write 0x3ff 0x5a; Read 0x3ff; Write 0x3f8 105] rs.
Proof. split; [lia|]. exact (serial_port_run 0x3f8 _ ltac:(lia)). Defined.

(** The scratch register holds the low byte of its own address, whatever is written to it. *)
Theorem scratch_register_latches_address base val :
  0 ≤ base ≤ 65535 - 7 →
  ∃ s ev, run step [Write (base + 7) val; Read (base + 7)] (init base) =
    Done ([0; u8 (base + 7)], s, ev).
Proof.
  intros H. pose proof (port_init_wf base H) as Hs. set (s := init base) in *.
  change base with (base_addr s). clearbody s. pose proof (wf_base s Hs).
  unfold run, step, write_reg_byte, read_reg_byte. io_simpl. addrs.
  rewrite !(addr_offset s) by (done || lia). rewrite Z.add_0_r.
  repeat match goal with
         | |- context [Z.eqb ?a ?b] =>
             destruct (Z.eqb_spec a b); try (exfalso; width_lia); cbn
         end; do 2 eexists; reflexivity.
Qed.

Lemma scratch_register_latches_address_witness :
  (0 ≤ 0x3f8 ≤ 65535 - 7) ∧
  ∃ s ev, run step [Write 0x3ff 0x5a; Read 0x3ff] (init 0x3f8) = Done ([0; 0xff], s, ev).
Proof. split; [lia|]. exact (scratch_register_latches_address 0x3f8 0x5a ltac:(lia)). Defined.

End serial_port.
