(* ===== verification/DiskManager.v ===== *)
(** * The disk image (backend/DiskManager.h, backend/DiskManager.cpp)

Blocks of 512 bytes in the host file [disk.bin].  The content of the file is
part of the state; [None] is a file that cannot be opened. *)

From S2P Require Import Prelude.

Module DiskManager.

Definition BLOCK_SIZE_BYTE : Z := 512.
Definition DEFAULT_NUMBER_BLOCKS : Z := 4096.

Inductive disk_status : Type :=
  | NO_ERRORS | OUT_OF_BOUND | FILE_ERROR_OPEN | FILE_ERROR_SIZE.

#[export] Instance disk_status_eq_dec : EqDecision disk_status.
Proof. solve_decision. Defined.

Record t : Type := mk {
  disk_size : Z;
  disk_file : option (list Z);
}.

#[export] Instance eta_t : Eta t := λ s, mk (disk_size s) (disk_file s).

(** [tellg] of a stream that failed to open is -1, here as a [uint64_t]. *)
Definition check_consistency : io t bool :=
  s ← get;
  let length := match disk_file s with
                | Some bs => Z.of_nat (Datatypes.length bs)
                | None => u64 (-1)
                end in
  mret (length =? disk_size s).

(** The loop of [build_disk], from the value [i] of its counter; the counter is
    an [int], compared after conversion with the [uint64_t] size. *)
Fixpoint fill_disk (fuel : nat) (buffer : list Z) (i : Z) : io t unit :=
  match fuel with
  | O => mret tt
  | S fuel =>
      s ← get;
      if u64 i <? disk_size s then
        modify (λ s, s <| disk_file := bs ← disk_file s; Some (bs ++ buffer) |>);;
        if i + BLOCK_SIZE_BYTE <=? INT_MAX
        then fill_disk fuel buffer (i + BLOCK_SIZE_BYTE)
        else crash IntOverflow
      else mret tt
  end.

#[global] Arguments fill_disk : simpl never.

(** [new uint8_t[BLOCK_SIZE_BYTE]] leaves the buffer indeterminate: its content is
    the argument [garbage]. *)
Definition build_disk (garbage : list Z) : io t unit :=
  modify (λ s, s <| disk_file := Some [] |>);;
  s ← get;
  fill_disk (S (Z.to_nat (disk_size s / BLOCK_SIZE_BYTE))) garbage 0.

(** The constructor, on a host where [file] is the content of [disk.bin]. *)
Definition init (garbage : list Z) (blocks_number : Z) (file : option (list Z))
    : outcome (unit * t * list event) :=
  (c ← check_consistency;
   when (negb c) (build_disk garbage))
  {| disk_size := u32 (blocks_number * BLOCK_SIZE_BYTE); disk_file := file |}.

Definition init_default (garbage : list Z) (file : option (list Z)) :=
  init garbage DEFAULT_NUMBER_BLOCKS file.

(** The product is computed in 32 bits and then converted to 64. *)
Definition block_address (block_index : Z) : Z := u32 (block_index * BLOCK_SIZE_BYTE).

(** [fs.read] into the buffer: what the file holds there, up to one block. *)
Definition read (buffer : list Z) (block_index : Z) : io t (disk_status * list Z) :=
  let address := block_address block_index in
  s ← get;
  if (address <? 0) || (disk_size s <=? address) then mret (OUT_OF_BOUND, buffer)
  else
    c ← check_consistency;
    if negb c then mret (FILE_ERROR_SIZE, buffer)
    else
      s ← get;
      match disk_file s with
      | None => mret (FILE_ERROR_OPEN, buffer)
      | Some bs =>
          let buffer := overwrite 0 (slice (Z.to_nat address) 512 bs) buffer in
          c ← check_consistency;
          if negb c then mret (FILE_ERROR_SIZE, buffer)
          else mret (NO_ERRORS, buffer)
      end.

Definition write (buffer : list Z) (block_index : Z) : io t disk_status :=
  let address := block_address block_index in
  s ← get;
  if (address <? 0) || (disk_size s <=? address) then mret OUT_OF_BOUND
  else
    c ← check_consistency;
    if negb c then mret FILE_ERROR_SIZE
    else
      s ← get;
      match disk_file s with
      | None => mret FILE_ERROR_OPEN
      | Some bs =>
          modify (λ s, s <| disk_file :=
            Some (overwrite (Z.to_nat address) (take 512 buffer) bs) |>);;
          c ← check_consistency;
          if negb c then mret FILE_ERROR_SIZE else mret NO_ERRORS
      end.

(** ** Well-formedness: the file holds the [blocks] blocks of the disk *)
Record wf (blocks : Z) (s : t) : Prop := {
  wf_blocks : 0 ≤ blocks < 8388608;
  wf_size : disk_size s = blocks * 512;
  wf_file : ∃ bs, disk_file s = Some bs ∧ Z.of_nat (length bs) = disk_size s;
}.

(** Block [i] of the disk. *)
Definition block (i : Z) (s : t) : list Z :=
  slice (Z.to_nat (i * 512)) 512 (default [] (disk_file s)).

(** The block that an index of the interface names: 32-bit addresses wrap. *)
Definition block_of (block_index : Z) : Z := block_index mod 8388608.

Lemma block_address_of i : block_address i = block_of i * 512.
Proof.
  unfold block_address, block_of, BLOCK_SIZE_BYTE. width_lia.
Qed.

Lemma block_of_range i : 0 ≤ block_of i < 8388608.
Proof. unfold block_of. apply Z.mod_pos_bound. lia. Qed.

Lemma check_consistency_wf n s : wf n s → check_consistency s = Done (true, s, []).
Proof.
  intros [_ _ (bs & Hf & Hl)]. unfold check_consistency. io_simpl.
  by rewrite Hf, Hl, Z.eqb_refl.
Qed.

Lemma length_block n i s : wf n s → 0 ≤ i < n → length (block i s) = 512%nat.
Proof.
  intros [_ Hsz (bs & Hf & Hl)] Hi. unfold block. rewrite Hf. cbn.
  apply length_slice. lia.
Qed.

(** A read of the disk. *)
Lemma read_run n buffer i s :
  wf n s → length buffer = 512%nat →
  read buffer i s =
  Done (if block_of i <? n then (NO_ERRORS, block (block_of i) s)
        else (OUT_OF_BOUND, buffer), s, []).
Proof.
  intros Hs Hb. pose proof (check_consistency_wf n s Hs) as Hc.
  pose proof (block_of_range i) as Hr. pose proof (length_block n (block_of i) s Hs) as Hl.
  destruct Hs as [Hn Hsz (bs & Hf & Hlen)].
  unfold read. rewrite block_address_of.
  unfold get. erewrite bind_done by reflexivity. cbn beta iota.
  rewrite (proj2 (Z.ltb_ge _ 0)) by lia. cbn [orb]. rewrite Hsz.
  destruct (Z.ltb_spec (block_of i) n).
  - rewrite (proj2 (Z.leb_gt _ _)) by lia.
    rewrite (bind_done _ _ _ _ _ _ Hc). cbn [negb].
    erewrite bind_done by reflexivity. rewrite Hf.
    rewrite (bind_done _ _ _ _ _ _ Hc). cbn [negb]. io_simpl.
    do 4 f_equal. unfold overwrite, block in *. rewrite Hf in *. cbn in *.
    rewrite Hl by lia. by rewrite drop_ge, app_nil_r by lia.
  - by rewrite (proj2 (Z.leb_le _ _)) by lia.
Qed.

(** A write to the disk. *)
Lemma write_run n buffer i s :
  wf n s → length buffer = 512%nat →
  if block_of i <? n then
    ∃ s', write buffer i s = Done (NO_ERRORS, s', []) ∧ wf n s' ∧
      disk_size s' = disk_size s ∧
      ∀ j, 0 ≤ j < n → block j s' = if j =? block_of i then buffer else block j s
  else write buffer i s = Done (OUT_OF_BOUND, s, []).
Proof.
  intros Hs Hb. pose proof (check_consistency_wf n s Hs) as Hc.
  pose proof (block_of_range i) as Hr.
  destruct Hs as [Hn Hsz (bs & Hf & Hlen)].
  unfold write. rewrite block_address_of.
  unfold get. erewrite bind_done by reflexivity. cbn beta iota.
  rewrite (proj2 (Z.ltb_ge _ 0)) by lia. cbn [orb]. rewrite Hsz.
  destruct (Z.ltb_spec (block_of i) n); [|by rewrite (proj2 (Z.leb_le _ _)) by lia].
  rewrite (proj2 (Z.leb_gt _ _)) by lia.
  rewrite (bind_done _ _ _ _ _ _ Hc). cbn [negb].
  erewrite bind_done by reflexivity. rewrite Hf.
  rewrite take_ge by lia.
  set (bs' := overwrite _ _ _).
  assert (length bs' = length bs) as Hlen' by (apply length_overwrite; lia).
  set (s' := s <| disk_file := Some bs' |>).
  assert (wf n s') as Hs' by (split; [done|done|exists bs'; cbn; rewrite Hlen'; done]).
  exists s'. erewrite bind_done by reflexivity.
  rewrite (bind_done _ _ _ _ _ _ (check_consistency_wf n s' Hs')).
  split; [done|]. split; [done|]. split; [done|].
  intros j Hj. unfold block. cbn. rewrite Hf. cbn. subst bs'.
  rewrite overwrite_inserts by lia.
  destruct (Z.eqb_spec j (block_of i)) as [->|Hne].
  - rewrite <- Hb. apply slice_inserts_eq. lia.
  - apply slice_inserts_ne. lia.
Qed.
(** The loop of [build_disk] appends the buffer once per block left. *)
Lemma fill_disk_run n buffer k fuel bs s :
  0 ≤ n < 4194304 → (k < fuel)%nat → Z.of_nat k ≤ n →
  disk_size s = n * 512 → disk_file s = Some bs →
  fill_disk fuel buffer ((n - Z.of_nat k) * 512) s =
  Done (tt, s <| disk_file := Some (bs ++ concat (replicate k buffer)) |>, []).
Proof.
  intros Hn. revert k bs s.
  induction fuel as [|fuel IH]; intros k bs s Hk Hkn Hsz Hf; [lia|].
  unfold fill_disk; fold fill_disk. unfold get. erewrite bind_done by reflexivity. rewrite Hsz.
  rewrite u64_id by width_lia. destruct k as [|k].
  - rewrite Z.sub_0_r, (proj2 (Z.ltb_ge _ _)) by lia. cbn.
    rewrite app_nil_r, <- Hf. by destruct s.
  - rewrite (proj2 (Z.ltb_lt _ _)) by lia. erewrite bind_done by reflexivity.
    rewrite (proj2 (Z.leb_le _ _)) by (unfold INT_MAX, BLOCK_SIZE_BYTE; lia).
    replace ((n - Z.of_nat (S k)) * 512 + BLOCK_SIZE_BYTE)
      with ((n - Z.of_nat k) * 512) by (unfold BLOCK_SIZE_BYTE; lia).
    erewrite (IH k (bs ++ buffer)); [..|by cbn; rewrite Hf]; [|lia..|done].
    cbn. by rewrite <- app_assoc.
Qed.

(** The counter overflows before the loop ends on a disk of 2 GiB or more. *)
Lemma fill_disk_overflow n buffer k fuel s :
  4194304 ≤ n < 8388608 → Z.of_nat k < 4194304 → (k < fuel)%nat →
  disk_size s = n * 512 →
  fill_disk fuel buffer ((4194303 - Z.of_nat k) * 512) s = Halt IntOverflow.
Proof.
  intros Hn. revert k s. induction fuel as [|fuel IH]; intros k s Hk Hfuel Hsz; [lia|].
  unfold fill_disk; fold fill_disk. unfold get. erewrite bind_done by reflexivity. rewrite Hsz.
  rewrite u64_id by width_lia. rewrite (proj2 (Z.ltb_lt _ _)) by lia.
  erewrite bind_done by reflexivity. destruct k as [|k].
  - rewrite (proj2 (Z.leb_gt _ _)) by (unfold INT_MAX, BLOCK_SIZE_BYTE; lia). done.
  - rewrite (proj2 (Z.leb_le _ _)) by (unfold INT_MAX, BLOCK_SIZE_BYTE; lia).
    replace ((4194303 - Z.of_nat (S k)) * 512 + BLOCK_SIZE_BYTE)
      with ((4194303 - Z.of_nat k) * 512) by (unfold BLOCK_SIZE_BYTE; lia).
    rewrite IH; done || lia.
Qed.

Lemma length_concat_replicate {A} k (l : list A) :
  length (concat (replicate k l)) = (k * length l)%nat.
Proof. induction k; cbn; rewrite ?length_app; lia. Qed.

(** The blocks of a freshly built file. *)
Definition fresh_file (garbage : list Z) (blocks : Z) : list Z :=
  concat (replicate (Z.to_nat blocks) garbage).

Lemma init_fresh garbage n file :
  0 ≤ n < 4194304 → length garbage = 512%nat →
  from_option (λ bs, Z.of_nat (length bs) ≠ n * 512) True file →
  init garbage n file =
  Done (tt, mk (n * 512) (Some (fresh_file garbage n)), []).
Proof.
  intros Hn Hg Hfile. unfold init, check_consistency. io_unfold.
  unfold BLOCK_SIZE_BYTE. rewrite u32_id by width_lia. cbn [disk_file disk_size].
  replace (_ =? n * 512) with false.
  2: { symmetry. apply Z.eqb_neq. destruct file; cbn in *; [done|width_lia]. }
  cbn [negb]. unfold build_disk. io_unfold. cbn [upd eta_t disk_size disk_file].
  pose proof (fill_disk_run n garbage (Z.to_nat n) (S (Z.to_nat (n * 512 / 512))) []
    (mk (n * 512) (Some [])) Hn) as Hfill.
  rewrite Z.div_mul in Hfill by lia. rewrite Z2Nat.id, Z.sub_diag in Hfill by lia.
  change (0 * 512) with 0 in Hfill.
  unfold BLOCK_SIZE_BYTE. cbn. rewrite Z.div_mul by lia.
  rewrite Hfill by (done || lia). done.
Qed.

Lemma init_kept garbage n bs :
  0 ≤ n < 8388608 → Z.of_nat (length bs) = n * 512 →
  init garbage n (Some bs) = Done (tt, mk (n * 512) (Some bs), []).
Proof.
  intros Hn Hl. unfold init, check_consistency. io_unfold.
  unfold BLOCK_SIZE_BYTE. rewrite u32_id by width_lia. cbn [disk_file disk_size].
  by rewrite Hl, Z.eqb_refl.
Qed.

Lemma init_total garbage n file :
  0 ≤ n < 4194304 → length garbage = 512%nat →
  ∃ s, init garbage n file = Done (tt, s, []) ∧ wf n s ∧
    disk_file s =
      match file with
      | Some bs => if Z.of_nat (length bs) =? n * 512 then Some bs
                   else Some (fresh_file garbage n)
      | None => Some (fresh_file garbage n)
      end.
Proof.
  intros Hn Hg.
  assert (Z.of_nat (length (fresh_file garbage n)) = n * 512) as Hfl
    by (unfold fresh_file; rewrite length_concat_replicate; lia).
  destruct file as [bs|]; [destruct (Z.eqb_spec (Z.of_nat (length bs)) (n * 512))|].
  - eexists. rewrite (init_kept garbage n bs) by lia. split; [done|].
    split; [|done]. split; [lia|done|by exists bs].
  - eexists. rewrite (init_fresh garbage n (Some bs)) by done. split; [done|].
    split; [|done]. split; [lia|done|by exists (fresh_file garbage n)].
  - eexists. rewrite (init_fresh garbage n None) by done. split; [done|].
    split; [|done]. split; [lia|done|by exists (fresh_file garbage n)].
Qed.

(** ** Properties *)

(** The constructor gives a well-formed image of the requested size for every number of
    blocks below 2^22: an existing file of that size is kept as it is, a missing one or one
    of another size is built afresh. *)
Theorem disk_constructed garbage n file :
  0 ≤ n < 4194304 → length garbage = 512%nat →
  ∃ s, init garbage n file = Done (tt, s, []) ∧ wf n s ∧
    disk_file s =
      match file with
      | Some bs => if Z.of_nat (length bs) =? n * 512 then Some bs
                   else Some (fresh_file garbage n)
      | None => Some (fresh_file garbage n)
      end.
Proof. apply init_total. Qed.

Definition garbage0 : list Z := replicate 512 0xcd.

Lemma disk_constructed_witness :
  (0 ≤ 4 < 4194304) ∧ length garbage0 = 512%nat ∧
  ∃ s, init garbage0 4 None = Done (tt, s, []) ∧ wf 4 s ∧
    disk_file s = Some (fresh_file garbage0 4).
Proof.
  split; [lia|]. split; [reflexivity|].
  exact (disk_constructed garbage0 4 None ltac:(lia) eq_refl).
Defined.

(** C32. A block written to the image is read back, no other block changes and the image
    keeps its size, for block numbers taken modulo 2^23, as the 32-bit byte address has
    them. *)
Theorem disk_write_read n s buffer i :
  wf n s → length buffer = 512%nat → block_of i < n →
  ∃ s', write buffer i s = Done (NO_ERRORS, s', []) ∧ wf n s' ∧
    ∀ old j, length old = 512%nat → block_of j < n →
      read old j s' =
      Done ((NO_ERRORS, if block_of j =? block_of i then buffer
                        else block (block_of j) s), s', []).
Proof.
  intros Hs Hb Hi. pose proof (write_run n buffer i s Hs Hb) as Hw.
  rewrite (proj2 (Z.ltb_lt _ _)) in Hw by done.
  destruct Hw as (s' & Hw & Hs' & _ & Hblocks). exists s'. split; [done|].
  split; [done|]. intros old j Hold Hj. rewrite (read_run n) by done.
  rewrite (proj2 (Z.ltb_lt _ _)) by done.
  rewrite Hblocks; [done|]. pose proof (block_of_range j). lia.
Qed.

(** The disk of the supervisor, 4 blocks. *)
Definition disk4 : t := mk 2048 (Some (fresh_file garbage0 4)).

Lemma disk4_wf : wf 4 disk4.
Proof. split; [lia|done|]. by exists (fresh_file garbage0 4). Qed.

Lemma disk_write_read_witness :
  wf 4 disk4 ∧ length (replicate 512 7) = 512%nat ∧ block_of 2 < 4 ∧
  ∃ s', write (replicate 512 7) 2 disk4 = Done (NO_ERRORS, s', []) ∧ wf 4 s' ∧
    ∀ old j, length old = 512%nat → block_of j < 4 →
      read old j s' =
      Done ((NO_ERRORS, if block_of j =? block_of 2 then replicate 512 7
                        else block (block_of j) disk4), s', []).
Proof.
  split; [exact disk4_wf|]. split; [reflexivity|]. split; [reflexivity|].
  exact (disk_write_read 4 disk4 (replicate 512 7) 2 disk4_wf eq_refl eq_refl).
Defined.

(** A block outside the image is refused by both operations; the buffer and the image stay
    as they are. *)
Theorem disk_out_of_bound n s buffer i :
  wf n s → length buffer = 512%nat → n ≤ block_of i →
  read buffer i s = Done ((OUT_OF_BOUND, buffer), s, []) ∧
  write buffer i s = Done (OUT_OF_BOUND, s, []).
Proof.
  intros Hs Hb Hi. pose proof (write_run n buffer i s Hs Hb) as Hw.
  rewrite (proj2 (Z.ltb_ge _ _)) in Hw by done. split; [|done].
  rewrite (read_run n) by done. by rewrite (proj2 (Z.ltb_ge _ _)) by done.
Qed.

Lemma disk_out_of_bound_witness :
  wf 4 disk4 ∧ length (replicate 512 7) = 512%nat ∧ 4 ≤ block_of 4 ∧
  read (replicate 512 7) 4 disk4 =
    Done ((OUT_OF_BOUND, replicate 512 7), disk4, []) ∧
  write (replicate 512 7) 4 disk4 = Done (OUT_OF_BOUND, disk4, []).
Proof.
  assert (4 ≤ block_of 4) as H by (vm_compute; discriminate).
  split; [exact disk4_wf|]. split; [reflexivity|]. split; [exact H|].
  exact (disk_out_of_bound 4 disk4 (replicate 512 7) 4 disk4_wf eq_refl H).
Defined.

(** The byte address is 32 bits wide: block numbers that differ by 2^23 are the same block. *)
Theorem disk_index_wraps s buffer i :
  read buffer (i + 8388608) s = read buffer i s ∧
  write buffer (i + 8388608) s = write buffer i s.
Proof.
  unfold read, write. rewrite !block_address_of. unfold block_of.
  replace (i + 8388608) with (i + 1 * 8388608) by lia.
  by rewrite Z_mod_plus_full.
Qed.

(** From 2 GiB on, the counter of the loop that builds the image overflows. *)
Theorem disk_too_large garbage n :
  4194304 ≤ n < 8388608 → init garbage n None = Halt IntOverflow.
Proof.
  intros Hn. unfold init, check_consistency. io_unfold.
  unfold BLOCK_SIZE_BYTE. rewrite u32_id by width_lia. cbn [disk_file disk_size].
  replace (_ =? n * 512) with false by (symmetry; apply Z.eqb_neq; width_lia).
  cbn [negb]. unfold build_disk. io_unfold. cbn [upd eta_t disk_size disk_file].
  pose proof (fill_disk_overflow n garbage (Z.to_nat 4194303)
    (S (Z.to_nat (n * 512 / 512))) (mk (n * 512) (Some [])) Hn) as Hfill.
  rewrite Z.div_mul in Hfill by lia. rewrite Z2Nat.id, Z.sub_diag in Hfill by lia.
  change (0 * 512) with 0 in Hfill.
  unfold BLOCK_SIZE_BYTE. cbn. rewrite Z.div_mul by lia.
  rewrite Hfill by (done || lia). done.
Qed.

Lemma disk_too_large_witness :
  (4194304 ≤ 4194304 < 8388608) ∧ init garbage0 4194304 None = Halt IntOverflow.
Proof. split; [lia|]. exact (disk_too_large garbage0 4194304 ltac:(lia)). Defined.

End DiskManager.
