(* ===== verification/HardDisk.v ===== *)
(** * The emulated hard disk (frontend/HardDisk.h, frontend/HardDisk.cpp)

The ATA registers, the sector buffer and the transfer state machine on top of
the disk image of DiskManager.v. *)

From S2P Require Import Prelude IODevice DiskManager.

Module HardDisk.

(** ** Constants *)

Definition INT_IDE_HDD : Z := 14.

Definition BR_addr : io_addr := 0x01F0.
Definition ERR_addr : io_addr := 0x01F1.
Definition SCR_addr : io_addr := 0x01F2.
Definition SNR_addr : io_addr := 0x01F3.
Definition CNL_addr : io_addr := 0x01F4.
Definition CNH_addr : io_addr := 0x01F5.
Definition HND_addr : io_addr := 0x01F6.
Definition CMD_addr : io_addr := 0x01F7.
Definition STS_addr : io_addr := 0x01F7.
Definition DCR_addr : io_addr := 0x03F6.
Definition ASR_addr : io_addr := 0x03F6.
Definition DAR_addr : io_addr := 0x03F7.

Definition BUSY_MASK : Z := 0x80.
Definition DRQ_MASK : Z := 0x08.

(** ** State *)

Record t : Type := mk {
  BR : Z; SCR : Z; SNR : Z; CNH : Z; CNL : Z; HND : Z;
  ERR : Z; STS : Z; CMD : Z; DCR : Z; DAR : Z; ASR : Z;
  interrupt_enabled : bool;
  internal_buffer : list Z;
  (** The pointer [new_buffer]: null, or the start of [internal_buffer], the only
      address it is ever assigned. *)
  new_buffer : bool;
  current_position : Z;
  sector_numbers_cmd : Z;
  current_sector_number : Z;
  lba : Z;
  num_sector_hdd : Z;
  disk_manager : DiskManager.t;
  interrupt_raised : bool;
}.

#[export] Instance eta_t : Eta t := λ s,
  mk (BR s) (SCR s) (SNR s) (CNH s) (CNL s) (HND s)
     (ERR s) (STS s) (CMD s) (DCR s) (DAR s) (ASR s)
     (interrupt_enabled s) (internal_buffer s) (new_buffer s)
     (current_position s) (sector_numbers_cmd s) (current_sector_number s)
     (lba s) (num_sector_hdd s) (disk_manager s) (interrupt_raised s).

(** The object [hdd] after its constructor, on its disk; the members the
    constructor does not mention are zero, since the object is global. *)
Definition make (num_sector : Z) (dm : DiskManager.t) : t := {|
  BR := 0; SCR := 0; SNR := 0; CNH := 0; CNL := 0; HND := 0;
  ERR := 0; STS := 0; CMD := 0; DCR := 0x02; DAR := 0; ASR := 0;
  interrupt_enabled := false; internal_buffer := replicate 512 0;
  new_buffer := false; current_position := 0; sector_numbers_cmd := 0;
  current_sector_number := 0; lba := 0; num_sector_hdd := num_sector;
  disk_manager := dm; interrupt_raised := false |}.

Definition init (garbage : list Z) (num_sector : Z) (file : option (list Z))
    : outcome t :=
  match DiskManager.init garbage num_sector file with
  | Done (_, dm, _) => Done (make num_sector dm)
  | Halt h => Halt h
  end.

(** ** Methods *)

Definition set_IRQline (level : Z) : io t unit := emit (IRQLine INT_IDE_HDD level).

(** The operations of the member [disk_manager]. *)
Definition on_disk {A} : io DiskManager.t A → io t A :=
  zoom disk_manager (λ d s, s <| disk_manager := d |>).

(** [HND << 24] is computed on an [int]; the sum is then converted to
    [uint32_t]. *)
Definition compute_lba (s : t) : Z :=
  Z.land (u32 (i32 (Z.shiftl (HND s) 24) + Z.shiftl (CNH s) 16 +
               Z.shiftl (CNL s) 8 + SNR s)) 0x0FFFFFFF.

(** The interrupt a transfer ends with. *)
Definition raise_interrupt : io t unit :=
  s ← get;
  when (interrupt_enabled s)
    (set_IRQline 1;; modify (λ s, s <| interrupt_raised := true |>)).

Definition read_from_backend : io t unit :=
  s ← get;
  next ← int_incr (current_sector_number s);
  modify (λ s, s <| current_sector_number := next |>);;
  r ← on_disk (DiskManager.read (internal_buffer s)
                 (u32 (lba s + current_sector_number s)));
  modify (λ s, s <| internal_buffer := r.2 |>);;
  raise_interrupt.

Definition process_cmd : io t unit :=
  s ← get;
  (if CMD s =? 0x30 then
     modify (λ s, s <| STS := Z.lor (STS s) DRQ_MASK |>);;
     modify (λ s, s <| STS := Z.land (STS s) (Z.lnot BUSY_MASK) |>)
   else if CMD s =? 0x20 then
     modify (λ s, s <| STS := Z.land (STS s) (Z.lnot BUSY_MASK) |>);;
     modify (λ s, s <| STS := Z.lor (STS s) DRQ_MASK |>);;
     read_from_backend
   else mret tt);;
  modify (λ s, s <| lba := compute_lba s |>);;
  modify (λ s, s <| sector_numbers_cmd := SCR s |>).

(** [internal_buffer[current_position++] = b]. *)
Definition store_byte (b : Z) : io t unit :=
  s ← get;
  buf ← array_set (internal_buffer s) (current_position s) b;
  p ← int_incr (current_position s);
  modify (λ s, s <| internal_buffer := buf |> <| current_position := p |>).

(** The part of [write_BR_register] that a full buffer triggers. *)
Definition flush_sector : io t unit :=
  modify (λ s, s <| current_position := 0 |>);;
  s ← get;
  next ← int_incr (current_sector_number s);
  modify (λ s, s <| current_sector_number := next |>);;
  on_disk (DiskManager.write (internal_buffer s)
             (u32 (lba s + current_sector_number s)));;
  modify (λ s, s <| STS := Z.land (STS s) (Z.lnot BUSY_MASK) |>);;
  modify (λ s, s <| STS := Z.lor (STS s) DRQ_MASK |>);;
  s ← get;
  when (sector_numbers_cmd s =? current_sector_number s)
    (modify (λ s, s <| STS := Z.land (STS s) (Z.lnot DRQ_MASK) |>));;
  raise_interrupt.

Definition write_BR_register (val : Z) : io t unit :=
  modify (λ s, s <| BR := val |>);;
  modify (λ s, s <| STS := Z.lor (STS s) BUSY_MASK |>);;
  store_byte (Z.land val 0x00FF);;
  store_byte (u8 (Z.shiftr val 8));;
  s ← get;
  when (511 <=? current_position s) flush_sector.

(** [new_buffer[i]]: a little-endian word of [internal_buffer]. *)
Definition new_buffer_get (s : t) (i : Z) : io t Z :=
  if new_buffer s then
    lo ← array_get (internal_buffer s) (2 * i);
    hi ← array_get (internal_buffer s) (2 * i + 1);
    mret (le_val [lo; hi])
  else crash NullDeref.

Definition read_BR_register : io t Z :=
  modify (λ s, s <| STS := Z.lor (STS s) BUSY_MASK |>);;
  s ← get;
  when (current_position s =? 0) (modify (λ s, s <| new_buffer := true |>));;
  s ← get;
  w ← new_buffer_get s (current_position s);
  p ← int_incr (current_position s);
  modify (λ s, s <| BR := w |> <| current_position := p |>);;
  when (DiskManager.BLOCK_SIZE_BYTE / 2 <=? p)
    (modify (λ s, s <| STS := Z.land (STS s) (Z.lnot BUSY_MASK) |>);;
     modify (λ s, s <| STS := Z.lor (STS s) DRQ_MASK |>);;
     modify (λ s, s <| current_position := 0 |>);;
     s ← get;
     if sector_numbers_cmd s =? current_sector_number s
     then modify (λ s, s <| STS := Z.land (STS s) (Z.lnot DRQ_MASK) |>)
     else read_from_backend);;
  s ← get;
  mret (BR s).

Definition write_reg_byte (addr : io_addr) (val : Z) : io t unit :=
  if addr =? SCR_addr then modify (λ s, s <| SCR := val |>)
  else if addr =? SNR_addr then modify (λ s, s <| SNR := val |>)
  else if addr =? CNH_addr then modify (λ s, s <| CNH := val |>)
  else if addr =? CNL_addr then modify (λ s, s <| CNL := val |>)
  else if addr =? HND_addr then modify (λ s, s <| HND := val |>)
  else if addr =? CMD_addr then modify (λ s, s <| CMD := val |>);; process_cmd
  else if addr =? DCR_addr then
    if val =? 0x02 then
      modify (λ s, s <| DCR := val |> <| interrupt_enabled := false |>
                     <| interrupt_raised := false |>)
    else if val =? 0x00 then
      modify (λ s, s <| DCR := val |> <| interrupt_enabled := true |>)
    else
      modify (λ s, s <| DCR := 0x02 |> <| interrupt_enabled := false |>
                     <| interrupt_raised := false |>)
  else mret tt.

Definition read_reg_byte (addr : io_addr) : io t Z :=
  s ← get;
  if addr =? ERR_addr then mret (ERR s)
  else if addr =? SCR_addr then mret (SCR s)
  else if addr =? SNR_addr then mret (SNR s)
  else if addr =? CNH_addr then mret (CNH s)
  else if addr =? CNL_addr then mret (CNL s)
  else if addr =? STS_addr then
    when (interrupt_raised s)
      (set_IRQline 0;; modify (λ s, s <| interrupt_raised := false |>));;
    mret (STS s)
  else if addr =? ASR_addr then mret (ASR s)
  else if addr =? DAR_addr then mret (DAR s)
  else mret 0.

Definition write_reg_word (addr : io_addr) (val : Z) : io t unit :=
  if addr =? BR_addr then write_BR_register val else mret tt.

Definition read_reg_word (addr : io_addr) : io t Z :=
  if addr =? BR_addr then read_BR_register else mret 0.

#[global] Instance ops : IODeviceOps t := {|
  dev_write_byte := write_reg_byte;
  dev_write_word := write_reg_word;
  dev_write_long := IODevice.write_reg_long;
  dev_read_byte := read_reg_byte;
  dev_read_word := read_reg_word;
  dev_read_long := IODevice.read_reg_long |}.

#[global] Arguments read_from_backend : simpl never.
#[global] Arguments process_cmd : simpl never.
#[global] Arguments raise_interrupt : simpl never.
#[global] Arguments write_BR_register : simpl never.
#[global] Arguments read_BR_register : simpl never.
#[global] Arguments DiskManager.read : simpl never.
#[global] Arguments DiskManager.write : simpl never.

(** The fields of an explicit state; one step of an operation. *)
Ltac hd_cbn :=
  cbn [upd BR SCR SNR CNH CNL HND ERR STS CMD DCR DAR ASR interrupt_enabled
       internal_buffer new_buffer current_position sector_numbers_cmd
       current_sector_number lba num_sector_hdd disk_manager interrupt_raised] in *.
Ltac io_step := erewrite bind_done by reflexivity; hd_cbn.

(** ** Operations as data *)
Inductive op : Type :=
  | WriteB (addr val : Z) | WriteW (addr val : Z)
  | ReadB (addr : Z) | ReadW (addr : Z).

Definition step (o : op) : io t Z :=
  match o with
  | WriteB addr val => write_reg_byte addr val;; mret 0
  | WriteW addr val => write_reg_word addr val;; mret 0
  | ReadB addr => read_reg_byte addr
  | ReadW addr => read_reg_word addr
  end.

Definition valid (o : op) : Prop :=
  match o with
  | WriteB _ val => is_u8 val
  | WriteW _ val => is_u16 val
  | _ => True
  end.

(** ** Well-formedness *)

(** Only BUSY and DRQ are ever set in the status register. *)
Definition status_ok (sts : Z) : Prop :=
  sts = 0 ∨ sts = 0x08 ∨ sts = 0x80 ∨ sts = 0x88.

Record wf (n : Z) (s : t) : Prop := {
  wf_length : length (internal_buffer s) = 512%nat;
  wf_position : 0 ≤ current_position s ≤ 510;
  wf_STS : status_ok (STS s);
  wf_sector : 0 ≤ current_sector_number s ≤ INT_MAX;
  wf_SCR : is_u8 (SCR s);
  wf_SNR : is_u8 (SNR s);
  wf_CNL : is_u8 (CNL s);
  wf_CNH : is_u8 (CNH s);
  wf_HND : is_u8 (HND s);
  wf_lba : 0 ≤ lba s < 268435456;
  wf_disk : DiskManager.wf n (disk_manager s);
}.

Lemma make_wf n dm : DiskManager.wf n dm → wf n (make n dm).
Proof. intros H. split; cbn; unfold status_ok, is_u8; auto; unfold INT_MAX; lia. Qed.

(** The updates of the status register, on its four values. *)
Lemma status_busy sts : status_ok sts → status_ok (Z.lor sts BUSY_MASK).
Proof. unfold status_ok. intros [-> | [-> | [-> | ->]]]; cbn; auto. Qed.
Lemma status_ready sts :
  status_ok sts → Z.lor (Z.land sts (Z.lnot BUSY_MASK)) DRQ_MASK = 0x08.
Proof. unfold status_ok. by intros [-> | [-> | [-> | ->]]]. Qed.
Lemma status_ready' sts :
  status_ok sts → Z.land (Z.lor sts DRQ_MASK) (Z.lnot BUSY_MASK) = 0x08.
Proof. unfold status_ok. by intros [-> | [-> | [-> | ->]]]. Qed.

#[local] Hint Resolve status_busy : endless.

(** *** The block address *)
Lemma compute_lba_val s :
  is_u8 (SNR s) → is_u8 (CNL s) → is_u8 (CNH s) → is_u8 (HND s) →
  compute_lba s = HND s mod 16 * 16777216 + CNH s * 65536 + CNL s * 256 + SNR s.
Proof.
  intros. unfold compute_lba. rewrite !Z.shiftl_mul_pow2 by lia.
  change 0x0FFFFFFF with (2 ^ 28 - 1). rewrite land_ones_mod by lia.
  change (2 ^ 28) with 268435456. change (2 ^ 24) with 16777216.
  change (2 ^ 16) with 65536. change (2 ^ 8) with 256. width_lia.
Qed.

Lemma compute_lba_range s : 0 ≤ compute_lba s < 268435456.
Proof.
  unfold compute_lba. change 0x0FFFFFFF with (2 ^ 28 - 1).
  rewrite land_ones_mod by lia. apply Z.mod_pos_bound. lia.
Qed.

(** ** The transfer of a sector from the disk *)

(** The block that the next transfer names. *)
Definition next_block (s : t) : Z := DiskManager.block_of (lba s + current_sector_number s).

Lemma next_block_u32 s :
  DiskManager.block_of (u32 (lba s + current_sector_number s)) = next_block s.
Proof. unfold next_block, DiskManager.block_of. width_lia. Qed.

Definition irq14 (level : Z) : event := IRQLine INT_IDE_HDD level.
Definition raised_events (s : t) : list event :=
  if interrupt_enabled s then [irq14 1] else [].

Lemma raise_interrupt_run s :
  raise_interrupt s =
  Done (tt, s <| interrupt_raised := interrupt_raised s || interrupt_enabled s |>,
        raised_events s).
Proof.
  destruct s. unfold raise_interrupt, raised_events, set_IRQline. io_simpl.
  destruct interrupt_enabled0; io_simpl; by rewrite ?orb_true_r, ?orb_false_r.
Qed.

(** The buffer after a transfer: the block, or what it held when the block is
    outside the disk. *)
Definition loaded (n : Z) (s : t) : list Z :=
  if next_block s <? n then DiskManager.block (next_block s) (disk_manager s)
  else internal_buffer s.

Lemma length_loaded n s : wf n s → length (loaded n s) = 512%nat.
Proof.
  intros Hs. unfold loaded. destruct (Z.ltb_spec (next_block s) n).
  - apply (DiskManager.length_block n); [apply Hs|].
    split; [apply DiskManager.block_of_range|done].
  - apply Hs.
Qed.

Lemma read_from_backend_run n s :
  wf n s → current_sector_number s < INT_MAX →
  read_from_backend s =
  Done (tt, s <| current_sector_number := current_sector_number s + 1 |>
              <| internal_buffer := loaded n s |>
              <| interrupt_raised := interrupt_raised s || interrupt_enabled s |>,
        raised_events s).
Proof.
  intros Hs Hc. unfold read_from_backend.
  unfold get. erewrite bind_done by reflexivity.
  unfold int_incr. rewrite decide_True by done. erewrite bind_done by reflexivity.
  erewrite bind_done by reflexivity.
  unfold on_disk, zoom. unfold mbind at 1, io_bind at 1. cbn [disk_manager upd eta_t].
  rewrite (DiskManager.read_run n) by apply Hs. rewrite next_block_u32.
  erewrite bind_done by reflexivity. rewrite raise_interrupt_run. cbn.
  rewrite app_nil_r || idtac. destruct s. cbn. unfold loaded. cbn.
  by destruct (next_block _ <? n).
Qed.

Lemma read_from_backend_overflow s :
  INT_MAX ≤ current_sector_number s → read_from_backend s = Halt IntOverflow.
Proof.
  intros Hc. unfold read_from_backend. unfold get. erewrite bind_done by reflexivity.
  unfold int_incr. rewrite decide_False by lia. done.
Qed.

(** ** One word into the buffer *)

Definition put_word (s : t) (val : Z) : list Z :=
  list_inserts (Z.to_nat (current_position s)) (le_bytes 2 val) (internal_buffer s).

#[global] Arguments put_word : simpl never.

Lemma length_put_word s val : length (put_word s val) = length (internal_buffer s).
Proof. apply length_inserts. Qed.

Lemma store_byte_run s b :
  length (internal_buffer s) = 512%nat → 0 ≤ current_position s < 512 →
  store_byte b s =
  Done (tt, s <| internal_buffer := <[Z.to_nat (current_position s) := b]> (internal_buffer s) |>
              <| current_position := current_position s + 1 |>, []).
Proof.
  intros Hl Hp. unfold store_byte. unfold get. erewrite bind_done by reflexivity.
  erewrite bind_done by (apply array_set_in; lia).
  unfold int_incr. rewrite decide_True by (unfold INT_MAX; lia). done.
Qed.

(** The state in the middle of a sector. *)
Definition after_word (s : t) (val : Z) : t :=
  s <| BR := val |> <| STS := Z.lor (STS s) BUSY_MASK |>
    <| internal_buffer := put_word s val |>
    <| current_position := current_position s + 2 |>.

Lemma write_BR_run s val :
  length (internal_buffer s) = 512%nat → 0 ≤ current_position s ≤ 510 →
  write_BR_register val s =
  (if 511 <=? current_position s + 2 then flush_sector else mret tt) (after_word s val).
Proof.
  intros Hl Hp. unfold write_BR_register. do 2 erewrite bind_done by reflexivity.
  do 2 erewrite bind_done by
    (apply store_byte_run; cbn; rewrite ?length_insert; done || lia).
  unfold get. erewrite bind_done by reflexivity.
  match goal with |- context [when _ flush_sector ?s0] => replace s0 with (after_word s val) end.
  - cbn [current_position after_word upd eta_t]. unfold when.
    destruct (511 <=? current_position s + 2);
      [destruct (flush_sector _) as [[[[] ?] ?]|]|]; done.
  - cbn. rewrite Z.shiftr_div_pow2 by lia. change (2 ^ 8) with 256.
    change 255 with (2 ^ 8 - 1). rewrite land_ones_mod by lia. change (2 ^ 8) with 256.
    unfold after_word, put_word. cbn [upd eta_t].
    replace (current_position s + 1 + 1) with (current_position s + 2) by lia.
    replace (Z.to_nat (current_position s + 1)) with (S (Z.to_nat (current_position s))) by lia.
    cbn [le_bytes list_inserts]. rewrite list_insert_insert_ne by lia. done.
Qed.

Lemma after_word_wf n s val :
  wf n s → current_position s ≤ 508 → wf n (after_word s val).
Proof.
  intros [] Hp. split; cbn; rewrite ?length_put_word; auto with endless; lia.
Qed.

(** The status at the end of a sector: DRQ stays up unless it was the last. *)
Definition final_status (s : t) (next : Z) : Z :=
  if sector_numbers_cmd s =? next then 0 else 0x08.

(** The state after a full sector has gone to the disk [dm]. *)
Definition flushed (s : t) (dm : DiskManager.t) : t :=
  s <| current_position := 0 |>
    <| current_sector_number := current_sector_number s + 1 |>
    <| disk_manager := dm |>
    <| STS := final_status s (current_sector_number s + 1) |>
    <| interrupt_raised := interrupt_raised s || interrupt_enabled s |>.

Lemma flush_sector_run n s :
  status_ok (STS s) → length (internal_buffer s) = 512%nat →
  DiskManager.wf n (disk_manager s) → current_sector_number s < INT_MAX →
  ∃ dm, flush_sector s = Done (tt, flushed s dm, raised_events s) ∧
    DiskManager.wf n dm ∧
    ∀ j, 0 ≤ j < n →
      DiskManager.block j dm =
      if j =? next_block s then internal_buffer s
      else DiskManager.block j (disk_manager s).
Proof.
  intros Hsts Hl Hdisk Hc.
  pose proof (DiskManager.write_run n (internal_buffer s)
    (u32 (lba s + current_sector_number s)) (disk_manager s) Hdisk Hl) as Hw.
  rewrite next_block_u32 in Hw.
  assert (∃ st dm, DiskManager.write (internal_buffer s)
      (u32 (lba s + current_sector_number s)) (disk_manager s) = Done (st, dm, []) ∧
    DiskManager.wf n dm ∧ ∀ j, 0 ≤ j < n → DiskManager.block j dm =
      if j =? next_block s then internal_buffer s
      else DiskManager.block j (disk_manager s)) as (st & dm & Hw' & Hdm & Hblocks).
  { destruct (Z.ltb_spec (next_block s) n).
    - destruct Hw as (dm & Hw & Hdm & _ & Hb). by exists DiskManager.NO_ERRORS, dm.
    - exists DiskManager.OUT_OF_BOUND, (disk_manager s). split; [done|].
      split; [done|]. intros j Hj. by rewrite (proj2 (Z.eqb_neq _ _)) by lia. }
  exists dm. split; [|done]. unfold flush_sector, get, flushed, final_status.
  destruct s. hd_cbn. do 2 io_step. unfold int_incr. rewrite decide_True by done.
  do 2 io_step. unfold on_disk. erewrite zoom_bind_done by exact Hw'. hd_cbn.
  do 3 io_step. rewrite (status_ready _ Hsts). unfold when.
  destruct (_ =? _); io_step; rewrite raise_interrupt_run; reflexivity.
Qed.

(** ** One word out of the buffer *)

(** The word at index [i] of the buffer. *)
Definition word_at (buf : list Z) (i : Z) : Z := le_val (slice (Z.to_nat (2 * i)) 2 buf).

Lemma new_buffer_get_run s i :
  length (internal_buffer s) = 512%nat → new_buffer s = true → 0 ≤ i < 256 →
  new_buffer_get s i s = Done (word_at (internal_buffer s) i, s, []).
Proof.
  intros Hl Hnb Hi. unfold new_buffer_get, word_at, slice. rewrite Hnb.
  destruct (lookup_lt_is_Some_2 (internal_buffer s) (Z.to_nat (2 * i))) as [x Hx]; [lia|].
  destruct (lookup_lt_is_Some_2 (internal_buffer s) (S (Z.to_nat (2 * i)))) as [y Hy]; [lia|].
  rewrite (drop_S _ _ _ Hx), (drop_S _ _ _ Hy).
  erewrite bind_done by (apply array_get_in; [lia|exact Hx]).
  erewrite bind_done.
  2: { apply array_get_in; [lia|].
       by replace (Z.to_nat (2 * i + 1)) with (S (Z.to_nat (2 * i))) by lia. }
  done.
Qed.

(** The guards a read of the data register lacks. *)
Definition read_fault (s : t) : option halt :=
  if current_position s =? 0 then None
  else if negb (new_buffer s) then Some NullDeref
  else if 256 <=? current_position s then Some OutOfBounds
  else None.

(** The state in the middle of a sector, and after its last word. *)
Definition after_read (s : t) : t :=
  s <| STS := Z.lor (STS s) BUSY_MASK |> <| new_buffer := true |>
    <| BR := word_at (internal_buffer s) (current_position s) |>
    <| current_position := current_position s + 1 |>.

Definition sector_read (s : t) : t :=
  s <| STS := final_status s (current_sector_number s) |> <| new_buffer := true |>
    <| BR := word_at (internal_buffer s) (current_position s) |>
    <| current_position := 0 |>.

Definition refilled (n : Z) (s : t) : t :=
  s <| current_sector_number := current_sector_number s + 1 |>
    <| internal_buffer := loaded n s |>
    <| interrupt_raised := interrupt_raised s || interrupt_enabled s |>.

Lemma after_read_wf n s : wf n s → current_position s ≤ 509 → wf n (after_read s).
Proof. intros [] Hp. split; cbn; auto with endless; lia. Qed.

Lemma sector_read_wf n s : wf n s → wf n (sector_read s).
Proof.
  intros []. split; cbn; auto; [lia|]. unfold final_status, status_ok.
  destruct (_ =? _); auto.
Qed.

Lemma refilled_wf n s : wf n s → current_sector_number s < INT_MAX → wf n (refilled n s).
Proof.
  intros Hs Hc. pose proof (length_loaded n s Hs). destruct Hs.
  split; cbn; auto; lia.
Qed.

(** The reads that start the transfer of another sector. *)
Definition refills (s : t) : bool :=
  (256 <=? current_position s + 1) && negb (sector_numbers_cmd s =? current_sector_number s).

Lemma read_BR_run n s :
  wf n s → (refills s = true → current_sector_number s < INT_MAX) → read_fault s = None →
  read_BR_register s =
  Done (word_at (internal_buffer s) (current_position s),
    if 256 <=? current_position s + 1 then
      if sector_numbers_cmd s =? current_sector_number s then sector_read s
      else refilled n (sector_read s)
    else after_read s,
    if 256 <=? current_position s + 1 then
      if sector_numbers_cmd s =? current_sector_number s then [] else raised_events s
    else []).
Proof.
  intros Hs Hc Hf.
  assert (current_position s < 256) as Hp.
  { unfold read_fault in Hf. pose proof (wf_position _ _ Hs).
    destruct (Z.eqb_spec (current_position s) 0); [lia|].
    destruct (negb _); [done|]. by destruct (Z.leb_spec 256 (current_position s)). }
  pose proof (wf_position _ _ Hs) as Hp'.
  pose proof (wf_length _ _ Hs) as Hl.
  assert (refills s = true →
    read_from_backend (sector_read s) =
      Done (tt, refilled n (sector_read s), raised_events s)) as Hback.
  { intros Hne. rewrite (read_from_backend_run n); [done|by apply sector_read_wf|by apply Hc]. }
  pose proof (status_ready _ (status_busy _ (wf_STS _ _ Hs))) as Hsts.
  unfold read_BR_register, get.
  do 2 erewrite bind_done by reflexivity.
  set (s1 := s <| STS := Z.lor (STS s) BUSY_MASK |> <| new_buffer := true |>).
  assert (when (current_position s =? 0) (modify (λ s, s <| new_buffer := true |>))
            (s <| STS := Z.lor (STS s) BUSY_MASK |>) = Done (tt, s1, [])) as Hnb.
  { unfold read_fault in Hf. subst s1. destruct s. hd_cbn.
    destruct (current_position0 =? 0); [done|]. by destruct new_buffer0. }
  erewrite bind_done by exact Hnb. erewrite bind_done by reflexivity. subst s1.
  unfold refills, sector_read, after_read, refilled, final_status in *.
  destruct s. hd_cbn.
  erewrite bind_done by (apply new_buffer_get_run; (done || lia)).
  unfold int_incr. rewrite decide_True by (unfold INT_MAX; lia).
  do 2 io_step. change (DiskManager.BLOCK_SIZE_BYTE / 2) with 256.
  destruct (256 <=? current_position0 + 1); [|done].
  unfold when at 1. rewrite !bind_assoc. do 4 (io_step; rewrite ?bind_assoc).
  rewrite Hsts. destruct (Z.eqb_spec sector_numbers_cmd0 current_sector_number0) as [|Hne].
  - io_step. done.
  - erewrite bind_done by exact (Hback eq_refl). io_step.
    unfold raised_events. cbn. by destruct interrupt_enabled0.
Qed.

(** The counter of the sectors at its maximum. *)
Lemma read_BR_overflow n s :
  wf n s → INT_MAX ≤ current_sector_number s → read_fault s = None → refills s = true →
  read_BR_register s = Halt IntOverflow.
Proof.
  intros Hs Hc Hf Hr. apply andb_true_iff in Hr as [H256 Hne]. apply negb_true_iff in Hne.
  pose proof (wf_length _ _ Hs) as Hl. pose proof (wf_position _ _ Hs) as Hp.
  assert (current_position s = 255) as Hpos.
  { unfold read_fault in Hf. apply Z.leb_le in H256.
    destruct (Z.eqb_spec (current_position s) 0); [lia|].
    destruct (negb _); [done|]. destruct (Z.leb_spec 256 (current_position s)); [done|lia]. }
  assert (new_buffer s = true) as Hnb.
  { unfold read_fault in Hf. rewrite Hpos in Hf. by destruct (new_buffer s). }
  unfold read_BR_register, get. destruct s. hd_cbn. subst. do 2 io_step.
  erewrite bind_quiet by reflexivity. io_step.
  erewrite bind_done by (apply new_buffer_get_run; (done || lia)).
  unfold int_incr. rewrite decide_True by (unfold INT_MAX; lia).
  do 2 io_step. change (DiskManager.BLOCK_SIZE_BYTE / 2) with 256.
  change (256 <=? 255 + 1) with true. unfold when at 1. rewrite !bind_assoc. do 4 (io_step; rewrite ?bind_assoc).
  rewrite Hne.
  by erewrite bind_halt by by apply read_from_backend_overflow.
Qed.

(** A read outside the buffer, or through the null pointer. *)
Lemma read_BR_fault s h :
  length (internal_buffer s) = 512%nat → 0 ≤ current_position s →
  read_fault s = Some h → read_BR_register s = Halt h.
Proof.
  intros Hl Hp Hf. unfold read_fault in Hf. unfold read_BR_register, get, when, new_buffer_get.
  destruct s. hd_cbn. do 2 io_step. destruct (current_position0 =? 0); [done|].
  do 2 io_step. destruct new_buffer0; [|by simplify_eq/=]. cbn [negb] in Hf.
  destruct (Z.leb_spec 256 current_position0); simplify_eq.
  erewrite bind_halt by (apply bind_halt, array_get_out; lia). done.
Qed.

(** ** The bytes of a well-formed state, operation by operation *)

(** The accesses that transfer a sector, and so advance the counter of the sectors. *)
Definition transfers (o : op) (s : t) : bool :=
  match o with
  | WriteB addr val => (addr =? CMD_addr) && (val =? 0x20)
  | WriteW addr _ => (addr =? BR_addr) && (511 <=? current_position s + 2)
  | ReadW addr => (addr =? BR_addr) && refills s
  | ReadB _ => false
  end.

(** What the controller does wrong, by operation: a read outside the buffer or through the
    unset pointer, and a counter of the sectors, which is an int, beyond its maximum. *)
Definition fault (o : op) (s : t) : option halt :=
  match (match o with ReadW addr => if addr =? BR_addr then read_fault s else None | _ => None end) with
  | Some h => Some h
  | None =>
      if transfers o s && (INT_MAX <=? current_sector_number s) then Some IntOverflow else None
  end.

(** The registers of the command are latched once it has been started. *)
Definition latched (s : t) : t :=
  s <| lba := compute_lba s |> <| sector_numbers_cmd := SCR s |>.
Definition ready (s : t) : t := s <| STS := 0x08 |>.

Definition commanded (n : Z) (s : t) : t :=
  latched (if CMD s =? 0x30 then ready s
           else if CMD s =? 0x20 then refilled n (ready s) else s).
Definition command_events (s : t) : list event :=
  if CMD s =? 0x30 then [] else if CMD s =? 0x20 then raised_events s else [].

Lemma latched_wf n s : wf n s → wf n (latched s).
Proof.
  pose proof (compute_lba_range s). destruct s. unfold latched. hd_cbn.
  intros []. hd_cbn. by split; hd_cbn.
Qed.

Lemma ready_wf n s : wf n s → wf n (ready s).
Proof. intros []. split; cbn; auto. unfold status_ok; auto. Qed.

Lemma commanded_wf n s :
  wf n s → (CMD s = 0x20 → current_sector_number s < INT_MAX) → wf n (commanded n s).
Proof.
  intros Hs Hc. apply latched_wf.
  destruct (_ =? _); [by apply ready_wf|]. destruct (Z.eqb_spec (CMD s) 0x20); [|done].
  apply refilled_wf; [by apply ready_wf|by apply Hc].
Qed.

Lemma process_cmd_run n s :
  wf n s → (CMD s = 0x20 → current_sector_number s < INT_MAX) →
  process_cmd s = Done (tt, commanded n s, command_events s).
Proof.
  intros Hs Hc. unfold process_cmd, commanded, command_events, latched, get.
  pose proof (wf_STS _ _ Hs) as Hsts.
  erewrite bind_done by reflexivity.
  destruct (CMD s =? 0x30); [|destruct (Z.eqb_spec (CMD s) 0x20) as [Hcmd|]].
  - rewrite bind_assoc. destruct s. hd_cbn. do 3 io_step. unfold ready. hd_cbn.
    by rewrite status_ready'.
  - pose proof (read_from_backend_run n (ready s) (ready_wf _ _ Hs) (Hc Hcmd)) as Hback.
    rewrite bind_assoc. unfold ready, refilled in *. destruct s. hd_cbn.
    io_step. rewrite bind_assoc. io_step. rewrite status_ready by done.
    erewrite bind_done by exact Hback. hd_cbn. io_step.
    unfold raised_events. cbn. by rewrite app_nil_r.
  - destruct s. hd_cbn. do 2 io_step. done.
Qed.

Lemma flushed_wf n s dm :
  DiskManager.wf n dm → wf n s → current_sector_number s < INT_MAX → wf n (flushed s dm).
Proof.
  intros Hdm [] Hc. split; cbn; auto; [lia| |lia]. unfold final_status, status_ok.
  destruct (_ =? _); auto.
Qed.

(** The last word of a sector. *)
Lemma write_BR_last n s val :
  wf n s → 509 ≤ current_position s → current_sector_number s < INT_MAX →
  ∃ dm, write_BR_register val s =
      Done (tt, flushed (after_word s val) dm, raised_events s) ∧
    wf n (flushed (after_word s val) dm) ∧
    ∀ j, 0 ≤ j < n → DiskManager.block j dm =
      if j =? next_block s then put_word s val else DiskManager.block j (disk_manager s).
Proof.
  intros Hs Hp Hc. pose proof (wf_position _ _ Hs).
  rewrite write_BR_run by (apply Hs || lia).
  rewrite (proj2 (Z.leb_le _ _)) by lia.
  destruct (flush_sector_run n (after_word s val)) as (dm & Hrun & Hdm & Hblocks).
  { cbn. apply status_busy, Hs. }
  { cbn. rewrite length_put_word. apply Hs. }
  { apply Hs. } { done. }
  exists dm. split; [exact Hrun|]. split; [|exact Hblocks].
  destruct Hs. split; cbn; rewrite ?length_put_word; try done; try lia.
  unfold final_status, status_ok. destruct (_ =? _); auto.
Qed.

(** The device changes its sector counter by at most one per operation. *)
Definition progress (n : Z) (s s' : t) : Prop :=
  wf n s' ∧ current_sector_number s' ≤ current_sector_number s + 1.

Lemma write_BR_total n s val :
  wf n s → (511 ≤ current_position s + 2 → current_sector_number s < INT_MAX) →
  ∃ s' ev, write_BR_register val s = Done (tt, s', ev) ∧ progress n s s'.
Proof.
  intros Hs Hc. destruct (Z.le_gt_cases (current_position s) 508).
  - pose proof (wf_position _ _ Hs). rewrite write_BR_run by (apply Hs || lia).
    rewrite (proj2 (Z.leb_gt _ _)) by lia. do 2 eexists. split; [done|].
    split; [by apply after_word_wf|cbn; lia].
  - destruct (write_BR_last n s val) as (dm & -> & Hwf & _); [done|lia|apply Hc; lia|].
    do 2 eexists. split; [done|]. split; [done|cbn; lia].
Qed.

Lemma write_BR_overflow n s val :
  wf n s → INT_MAX ≤ current_sector_number s → 511 ≤ current_position s + 2 →
  write_BR_register val s = Halt IntOverflow.
Proof.
  intros Hs Hc Hp. pose proof (wf_position _ _ Hs).
  rewrite write_BR_run by (apply Hs || lia). rewrite (proj2 (Z.leb_le _ _)) by lia.
  unfold flush_sector. erewrite bind_quiet by reflexivity. erewrite bind_quiet by reflexivity.
  apply bind_halt. unfold int_incr. by rewrite decide_False by (cbn; lia).
Qed.

Lemma read_BR_total n s :
  wf n s → (refills s = true → current_sector_number s < INT_MAX) → read_fault s = None →
  ∃ r s' ev, read_BR_register s = Done (r, s', ev) ∧ progress n s s'.
Proof.
  intros Hs Hc Hf. rewrite (read_BR_run n) by done. do 3 eexists. split; [done|].
  pose proof (sector_read_wf n s Hs) as Hs'. unfold refills in Hc.
  destruct (Z.leb_spec 256 (current_position s + 1));
    [destruct (sector_numbers_cmd s =? _);
      [|split; [apply refilled_wf; [done|by apply Hc]|cbn; lia]]|];
    split; try done; try (cbn; lia).
  apply after_read_wf; [done|lia].
Qed.

Lemma write_byte_overflow s :
  INT_MAX ≤ current_sector_number s → write_reg_byte CMD_addr 0x20 s = Halt IntOverflow.
Proof.
  intros Hc. unfold write_reg_byte. cbn [Z.eqb Pos.eqb CMD_addr SCR_addr SNR_addr CNH_addr CNL_addr HND_addr].
  erewrite bind_quiet by reflexivity. unfold process_cmd. erewrite bind_quiet by reflexivity.
  apply bind_halt. cbn [CMD upd eta_t Z.eqb Pos.eqb]. do 2 erewrite bind_quiet by reflexivity.
  by apply read_from_backend_overflow.
Qed.

Lemma write_byte_total n s addr val :
  wf n s → is_u8 val →
  (addr = CMD_addr → val = 0x20 → current_sector_number s < INT_MAX) →
  ∃ s' ev, write_reg_byte addr val s = Done (tt, s', ev) ∧ progress n s s'.
Proof.
  intros Hs Hv Hc. unfold write_reg_byte.
  repeat case_match;
    try (do 2 eexists; split; [reflexivity|]; split; [|cbn; lia]; destruct Hs; by split).
  assert (addr = CMD_addr) as Haddr by by apply Z.eqb_eq. specialize (Hc Haddr).
  set (s1 := s <| CMD := val |>). erewrite bind_done by reflexivity.
  rewrite (process_cmd_run n) by (destruct Hs; by split || done).
  do 2 eexists. split; [reflexivity|]. split; [|].
  - apply commanded_wf; [destruct Hs; by split|done].
  - unfold commanded. cbn. repeat case_match; cbn; lia.
Qed.

(** The registers a byte read sees. *)
Definition visible (addr : io_addr) (s : t) : Z :=
  if addr =? ERR_addr then ERR s
  else if addr =? SCR_addr then SCR s
  else if addr =? SNR_addr then SNR s
  else if addr =? CNH_addr then CNH s
  else if addr =? CNL_addr then CNL s
  else if addr =? STS_addr then STS s
  else if addr =? ASR_addr then ASR s
  else if addr =? DAR_addr then DAR s
  else 0.

(** A read of the status register acknowledges the interrupt. *)
Definition acknowledged (addr : io_addr) (s : t) : t :=
  if addr =? STS_addr then s <| interrupt_raised := false |> else s.

Lemma read_byte_run addr s :
  read_reg_byte addr s =
  Done (visible addr s, acknowledged addr s,
        if (addr =? STS_addr) && interrupt_raised s then [irq14 0] else []).
Proof.
  unfold read_reg_byte, visible, acknowledged, get. erewrite bind_done by reflexivity.
  destruct (Z.eqb_spec addr STS_addr) as [->|].
  { destruct s. cbn. by destruct interrupt_raised0. }
  repeat (destruct (addr =? _); [done|]). done.
Qed.

Lemma acknowledged_wf n addr s : wf n s → wf n (acknowledged addr s).
Proof. unfold acknowledged. intros Hs. destruct (_ =? _); [|done]. destruct Hs; by split. Qed.

Lemma read_byte_total n s addr :
  wf n s → ∃ r s' ev, read_reg_byte addr s = Done (r, s', ev) ∧ progress n s s'.
Proof.
  intros Hs. rewrite read_byte_run. do 3 eexists. split; [done|].
  split; [by apply acknowledged_wf|]. unfold acknowledged. destruct (_ =? _); cbn; lia.
Qed.

(** ** A sector written word by word *)

Definition words_bytes (ws : list Z) : list Z := concat (map (le_bytes 2) ws).

Lemma length_words_bytes ws : length (words_bytes ws) = (2 * length ws)%nat.
Proof.
  unfold words_bytes. induction ws as [|w ws IH]; [done|].
  cbn [map concat length]. rewrite length_app, length_le_bytes, IH. lia.
Qed.

(** Words that fill the buffer replace all of it. *)
Lemma words_bytes_full ws w buf :
  length buf = 512%nat → length ws = 255%nat →
  list_inserts (Z.to_nat (0 + 2 * Z.of_nat (length ws))) (le_bytes 2 w)
    (list_inserts (Z.to_nat 0) (words_bytes ws) buf) = words_bytes (ws ++ [w]).
Proof.
  intros Hl Hw. unfold words_bytes at 2. rewrite map_app, concat_app.
  change (concat (map (le_bytes 2) ws)) with (words_bytes ws).
  cbn [map concat]. rewrite app_nil_r.
  rewrite <- (list_inserts_0_l (words_bytes ws ++ le_bytes 2 w) [] buf).
  - rewrite app_nil_r, list_inserts_app_l, length_words_bytes. f_equal. lia.
  - rewrite length_app, length_words_bytes, length_le_bytes. lia.
Qed.

Lemma after_words_frame {A} (f : t → A) ws s :
  (∀ s w, f (after_word s w) = f s) → f (foldl after_word s ws) = f s.
Proof. intros Hf. revert s. induction ws as [|w ws IH]; intros s; cbn; by rewrite ?IH. Qed.

Lemma after_words_buffer ws s :
  0 ≤ current_position s →
  internal_buffer (foldl after_word s ws) =
    list_inserts (Z.to_nat (current_position s)) (words_bytes ws) (internal_buffer s) ∧
  current_position (foldl after_word s ws) = current_position s + 2 * Z.of_nat (length ws).
Proof.
  revert s. induction ws as [|w ws IH]; intros s Hp; [cbn; auto with lia|].
  destruct (IH (after_word s w)) as [Hb Hq]; [cbn; lia|]. cbn [foldl]. rewrite Hb, Hq.
  cbn [after_word upd current_position internal_buffer]. split.
  - unfold words_bytes, put_word. cbn [map concat]. rewrite list_inserts_app_l.
    f_equal. rewrite length_le_bytes. lia.
  - cbn [length]. lia.
Qed.

Lemma write_words_run n ws s :
  wf n s → current_position s + 2 * Z.of_nat (length ws) ≤ 510 →
  run step (map (WriteW BR_addr) ws) s =
    Done (replicate (length ws) 0, foldl after_word s ws, []) ∧
  wf n (foldl after_word s ws).
Proof.
  revert s. induction ws as [|w ws IH]; intros s Hs Hp; [done|].
  pose proof (wf_position _ _ Hs). cbn [length] in Hp.
  destruct (IH (after_word s w)) as [Hrun Hwf].
  { apply after_word_wf; [done|lia]. } { cbn; lia. }
  split; [|done]. cbn [map]. rewrite run_cons. cbn [step]. unfold write_reg_word.
  rewrite Z.eqb_refl. erewrite bind_done.
  2: { rewrite write_BR_run by (apply Hs || lia).
       by rewrite (proj2 (Z.leb_gt _ _)) by lia. }
  cbn [mret io_ret]. by rewrite Hrun.
Qed.

(** What a transfer leaves unchanged. *)
Record same_transfer (s s' : t) : Prop := {
  same_lba : lba s' = lba s;
  same_count : sector_numbers_cmd s' = sector_numbers_cmd s;
  same_enabled : interrupt_enabled s' = interrupt_enabled s;
  same_raised : interrupt_enabled s = false → interrupt_raised s' = interrupt_raised s;
}.

Lemma write_sector_run n ws s :
  wf n s → current_position s = 0 → current_sector_number s < INT_MAX →
  length ws = 256%nat →
  ∃ s', run step (map (WriteW BR_addr) ws) s = Done (replicate 256 0, s', raised_events s) ∧
    wf n s' ∧ same_transfer s s' ∧ current_position s' = 0 ∧
    current_sector_number s' = current_sector_number s + 1 ∧
    STS s' = final_status s (current_sector_number s + 1) ∧
    ∀ j, 0 ≤ j < n → DiskManager.block j (disk_manager s') =
      if j =? next_block s then words_bytes ws
      else DiskManager.block j (disk_manager s).
Proof.
  intros Hs Hp Hc Hlen.
  destruct (exists_last (l := ws)) as (ws0 & w & ->); [by intros ->|].
  rewrite length_app in Hlen. cbn in Hlen.
  destruct (write_words_run n ws0 s) as [Hrun Hwf]; [done|lia|].
  destruct (after_words_buffer ws0 s) as [Hbuf Hpos]; [lia|].
  set (s0 := foldl after_word s ws0) in *.
  assert (∀ A (f : t → A), (∀ s w, f (after_word s w) = f s) → f s0 = f s) as Hframe
    by (intros; by apply after_words_frame).
  destruct (write_BR_last n s0 w) as (dm & Hlast & Hwf' & Hblocks);
    [done|lia|by rewrite (Hframe _ current_sector_number)|].
  assert (raised_events s0 = raised_events s) as Hev
    by (unfold raised_events; by rewrite (Hframe _ interrupt_enabled)).
  exists (flushed (after_word s0 w) dm). split; [|split; [done|]].
  - replace 256%nat with (length ws0 + 1)%nat by lia. rewrite replicate_add.
    rewrite map_app, run_app, Hrun. cbn [map]. rewrite run_cons. cbn [step].
    unfold write_reg_word. rewrite Z.eqb_refl. erewrite bind_done by exact Hlast.
    cbn. by rewrite !app_nil_r, Hev.
  - split; [split; cbn; [by apply Hframe..|]|].
    { intros He. rewrite (Hframe _ interrupt_raised), (Hframe _ interrupt_enabled), He by done.
      apply orb_false_r. }
    split; [done|].
    cbn. rewrite (Hframe _ current_sector_number) by done. split; [done|]. split.
    + unfold final_status. cbn. by rewrite (Hframe _ sector_numbers_cmd) by done.
    + intros j Hj. rewrite Hblocks by done. unfold next_block.
      rewrite (Hframe _ lba), (Hframe _ current_sector_number), (Hframe _ disk_manager) by done.
      destruct (_ =? _); [|done]. unfold put_word. rewrite Hbuf, Hpos, Hp.
      apply words_bytes_full; [apply Hs|lia].
Qed.

(** The disk after the sectors [ss] have gone to the blocks from [b] on. *)
Definition written (b : Z) (ss : list (list Z)) (old : Z → list Z) (j : Z) : list Z :=
  if decide (b ≤ j < b + Z.of_nat (length ss))
  then words_bytes (ss !!! Z.to_nat (j - b)) else old j.

Lemma written_cons b ws ss old j :
  written b (ws :: ss) old j =
  written (b + 1) ss (λ j, if j =? b then words_bytes ws else old j) j.
Proof.
  unfold written. cbn [length]. destruct (Z.eqb_spec j b) as [->|Hne].
  - rewrite decide_True, decide_False by lia. by rewrite Z.sub_diag.
  - repeat case_decide; try lia; [|done].
    by replace (Z.to_nat (j - b)) with (S (Z.to_nat (j - (b + 1)))) by lia.
Qed.

Lemma written_ext b ss old old' j :
  old j = old' j → written b ss old j = written b ss old' j.
Proof. unfold written. by case_decide. Qed.

(** The status after a run of sectors. *)
Lemma write_sectors_run n ss s :
  wf n s → current_position s = 0 → Forall (λ ws, length ws = 256%nat) ss →
  current_sector_number s + Z.of_nat (length ss) ≤ INT_MAX →
  lba s + current_sector_number s + Z.of_nat (length ss) ≤ n →
  ∃ rs s' ev, run step (map (WriteW BR_addr) (concat ss)) s = Done (rs, s', ev) ∧
    wf n s' ∧ same_transfer s s' ∧ current_position s' = 0 ∧
    current_sector_number s' = current_sector_number s + Z.of_nat (length ss) ∧
    (ss ≠ [] → STS s' = final_status s (current_sector_number s')) ∧
    ∀ j, 0 ≤ j < n → DiskManager.block j (disk_manager s') =
      written (lba s + current_sector_number s) ss
        (λ j, DiskManager.block j (disk_manager s)) j.
Proof.
  revert s. induction ss as [|ws ss IH]; intros s Hs Hp Hlen Hmax Hn.
  { exists [], s, []. unfold written. cbn. split_and!; [done|done|by split|done|lia|done|].
    intros j _. by rewrite decide_False by lia. }
  apply Forall_cons in Hlen as [Hws Hlen]. cbn [length] in *.
  destruct (write_sector_run n ws s) as
    (s1 & Hrun & Hwf1 & Hsame1 & Hp1 & Hc1 & Hst1 & Hb1); [done..|lia|done|].
  destruct (IH s1) as (rs & s' & ev & Hrun' & Hwf & Hsame & Hp' & Hc & Hst & Hb);
    try done; rewrite ?Hc1, ?(same_lba _ _ Hsame1); [lia..|].
  exists (replicate 256 0 ++ rs), s', (raised_events s ++ ev).
  cbn [concat]. rewrite map_app, run_app, Hrun, Hrun'. split_and!; try done.
  - destruct Hsame as [? ? ? Hra], Hsame1 as [? ? ? Hra1]. split; [congruence..|].
    intros He. by rewrite Hra, Hra1 by congruence.
  - lia.
  - intros _. destruct ss as [|ws' ss].
    + injection Hrun' as _ <- _. by rewrite Hst1, Hc1.
    + rewrite Hst by done. unfold final_status. by rewrite (same_count _ _ Hsame1).
  - intros j Hj. rewrite Hb, Hc1, (same_lba _ _ Hsame1), written_cons by done.
    replace (lba s + (current_sector_number s + 1)) with
      (lba s + current_sector_number s + 1) by lia.
    apply written_ext. rewrite Hb1 by done. unfold next_block, DiskManager.block_of.
    rewrite Z.mod_small; [done|]. pose proof (wf_lba _ _ Hs).
    pose proof (wf_sector _ _ Hs). pose proof (DiskManager.wf_blocks _ _ (wf_disk _ _ Hs)). lia.
Qed.

(** ** A sector read word by word *)

Definition words_of (buf : list Z) : list Z := map (word_at buf) (seqZ 0 256).

Lemma words_of_last buf :
  words_of buf = map (word_at buf) (seqZ 0 255) ++ [word_at buf 255].
Proof.
  unfold words_of. assert (seqZ 0 256 = seqZ 0 255 ++ [255]) as -> by by vm_compute.
  by rewrite map_app.
Qed.

Lemma after_reads_frame {A} (f : t → A) m s :
  (∀ s, f (after_read s) = f s) → f (Nat.iter m after_read s) = f s.
Proof. intros Hf. induction m as [|m IH]; [done|]. by rewrite Nat.iter_succ, Hf. Qed.

Lemma after_reads_position m s :
  current_position (Nat.iter m after_read s) = current_position s + Z.of_nat m.
Proof.
  induction m as [|m IH]; [cbn; lia|]. rewrite Nat.iter_succ.
  cbn [after_read upd current_position]. rewrite IH. lia.
Qed.

(** The reads that the guards of the code allow. *)
Definition readable (s : t) : Prop := current_position s = 0 ∨ new_buffer s = true.

Lemma readable_fault s :
  readable s → 0 ≤ current_position s < 256 → read_fault s = None.
Proof.
  intros Hr Hp. unfold read_fault. destruct (Z.eqb_spec (current_position s) 0); [done|].
  destruct Hr as [?| ->]; [done|]. cbn [negb]. by rewrite (proj2 (Z.leb_gt _ _)) by lia.
Qed.

Lemma read_words_run n m s :
  wf n s → current_sector_number s < INT_MAX → readable s →
  current_position s + Z.of_nat m ≤ 255 →
  run step (replicate m (ReadW BR_addr)) s =
    Done (map (word_at (internal_buffer s)) (seqZ (current_position s) (Z.of_nat m)),
          Nat.iter m after_read s, []) ∧
  wf n (Nat.iter m after_read s) ∧ readable (Nat.iter m after_read s).
Proof.
  revert s. induction m as [|m IH]; intros s Hs Hc Hr Hp; [done|].
  pose proof (wf_position _ _ Hs).
  assert (wf n (after_read s)) as Hs' by (apply after_read_wf; [done|lia]).
  assert (readable (after_read s)) as Hr' by (by right).
  destruct (IH (after_read s)) as (Hrun & Hwf & Hr''); [done|done|done|cbn; lia|].
  rewrite Nat.iter_succ_r. split; [|done].
  cbn [replicate]. rewrite run_cons. cbn [step]. unfold read_reg_word. rewrite Z.eqb_refl.
  rewrite (read_BR_run n) by (done || apply readable_fault; done || lia).
  rewrite (proj2 (Z.leb_gt _ _)) by lia. rewrite Hrun.
  rewrite (seqZ_cons (current_position s)) by lia. cbn [map].
  cbn [after_read upd current_position internal_buffer].
  by replace (Z.pred (Z.of_nat (S m))) with (Z.of_nat m) by lia.
Qed.

(** The end of a sector: the transfer is over, or the next sector is loaded. *)
Record sector_done (n : Z) (s s' : t) : Prop := {
  done_wf : wf n s';
  done_same : same_transfer s s';
  done_position : current_position s' = 0;
  done_disk : disk_manager s' = disk_manager s;
  done_last : sector_numbers_cmd s = current_sector_number s →
    current_sector_number s' = current_sector_number s ∧ STS s' = 0;
  done_next : sector_numbers_cmd s ≠ current_sector_number s →
    current_sector_number s' = current_sector_number s + 1 ∧
    internal_buffer s' = loaded n s ∧ STS s' = DRQ_MASK;
}.

(** What the reads of one sector do not change. *)
Record same_sector (s s' : t) : Prop := {
  sector_transfer : same_transfer s s';
  sector_current : current_sector_number s' = current_sector_number s;
  sector_buffer : internal_buffer s' = internal_buffer s;
  sector_disk : disk_manager s' = disk_manager s;
}.

Lemma after_reads_same m s : same_sector s (Nat.iter m after_read s).
Proof. split; [split; [..|intros _]| | |]; by apply after_reads_frame. Qed.

Lemma sector_loaded n s s' : same_sector s s' → loaded n s' = loaded n s.
Proof.
  intros [[Hlba _ _ _] Hc Hb Hd]. unfold loaded, next_block. by rewrite Hlba, Hc, Hb, Hd.
Qed.

Lemma read_last_run n s s1 :
  wf n s1 → readable s1 → current_position s1 = 255 → same_sector s s1 →
  current_sector_number s < INT_MAX →
  ∃ s' ev, step (ReadW BR_addr) s1 =
    Done (word_at (internal_buffer s) 255, s', ev) ∧ sector_done n s s'.
Proof.
  intros Hwf Hr Hpos Hsame Hmax. pose proof (sector_loaded n _ _ Hsame) as Hload.
  destruct Hsame as [[Hlba Hcount Hen Hra] Hc Hb Hd].
  pose proof (read_BR_run n s1 Hwf) as Hlast. rewrite Hc, Hcount, Hb, Hpos in Hlast.
  specialize (Hlast (λ _, Hmax) (readable_fault _ Hr ltac:(lia))).
  rewrite (proj2 (Z.leb_le 256 _)) in Hlast by lia.
  do 2 eexists. split; [exact Hlast|].
  pose proof (sector_read_wf n s1 Hwf) as Hwf'.
  destruct (Z.eqb_spec (sector_numbers_cmd s) (current_sector_number s)) as [He|He].
  - split; try done. intros _. split; [done|].
    cbn [sector_read upd STS]. unfold final_status. by rewrite Hcount, Hc, He, Z.eqb_refl.
  - split; try done.
    + apply refilled_wf; [done|]. cbn. by rewrite Hc.
    + split; [done..|]. intros Hoff. cbn [refilled sector_read upd interrupt_raised interrupt_enabled].
      rewrite Hen, Hoff, orb_false_r. by apply Hra.
    + intros _. split; [cbn; by rewrite Hc|]. split; [exact Hload|].
      cbn [refilled sector_read upd STS]. unfold final_status. rewrite Hcount, Hc.
      by rewrite (proj2 (Z.eqb_neq _ _)).
Qed.

Lemma read_sector_run n s :
  wf n s → current_position s = 0 → current_sector_number s < INT_MAX →
  ∃ s' ev, run step (replicate (255 + 1) (ReadW BR_addr)) s =
    Done (words_of (internal_buffer s), s', ev) ∧ sector_done n s s'.
Proof.
  intros Hs Hp Hc. remember 255%nat as m eqn:Hm.
  destruct (read_words_run n m s) as (Hrun & Hwf & Hr); [done|done|by left|lia|].
  pose proof (after_reads_position m s) as Hpos. rewrite Hp in Hpos, Hrun.
  replace (Z.of_nat m) with 255 in * by lia.
  destruct (read_last_run n s (Nat.iter m after_read s)) as (s' & ev & Hlast & Hd);
    [done|done|lia|by apply after_reads_same|done|].
  do 2 eexists. split; [|exact Hd].
  rewrite replicate_add, run_app, Hrun. cbn [replicate]. rewrite run_cons, Hlast.
  by rewrite words_of_last.
Qed.

(** The sectors that follow the one in the buffer. *)
Definition blocks_words (b : Z) (m : nat) (d : DiskManager.t) : list Z :=
  concat (map (λ i, words_of (DiskManager.block i d)) (seqZ b (Z.of_nat m))).

Lemma read_sectors_run n m s :
  wf n s → current_position s = 0 →
  current_sector_number s + Z.of_nat m = sector_numbers_cmd s →
  sector_numbers_cmd s < INT_MAX → lba s + sector_numbers_cmd s ≤ n →
  ∃ s' ev, run step (replicate (256 * S m) (ReadW BR_addr)) s =
    Done (words_of (internal_buffer s) ++
          blocks_words (lba s + current_sector_number s) m (disk_manager s), s', ev) ∧
    wf n s' ∧ STS s' = 0 ∧ current_position s' = 0 ∧ disk_manager s' = disk_manager s ∧
    current_sector_number s' = sector_numbers_cmd s.
Proof.
  revert s. induction m as [|m IH]; intros s Hs Hp Hm Hmax Hn;
    destruct (read_sector_run n s) as (s1 & ev1 & Hrun & Hd); try done; [lia| |lia|].
  - destruct (done_last _ _ _ Hd) as [Hc Hst]; [lia|].
    exists s1, ev1. replace (256 * 1)%nat with (255 + 1)%nat by lia. rewrite Hrun. unfold blocks_words. cbn [map concat seqZ].
    rewrite app_nil_r. destruct Hd. split_and!; try done. lia.
  - destruct (done_next _ _ _ Hd) as (Hc & Hbuf & _); [lia|].
    destruct Hd as [Hwf [Hlba Hcount _ _] Hp1 Hdisk _ _].
    destruct (IH s1) as (s' & ev & Hrun' & Hwf' & Hst & Hp' & Hdisk' & Hc');
      try done; rewrite ?Hc, ?Hlba, ?Hcount; try lia.
    exists s', (ev1 ++ ev).
    replace (256 * S (S m))%nat with ((255 + 1) + 256 * S m)%nat by lia.
    rewrite replicate_add, run_app, Hrun, Hrun'. split_and!; try done; try congruence.
    rewrite Hbuf, Hlba, Hc, Hdisk. unfold blocks_words.
    rewrite (seqZ_cons (lba s + current_sector_number s)) by lia. cbn [map concat].
    replace (Z.pred (Z.of_nat (S m))) with (Z.of_nat m) by lia.
    replace (Z.succ (lba s + current_sector_number s)) with
      (lba s + (current_sector_number s + 1)) by lia.
    replace (loaded n s) with
      (DiskManager.block (lba s + current_sector_number s) (disk_manager s)); [done|].
    unfold loaded, next_block, DiskManager.block_of.
    pose proof (wf_lba _ _ Hs). pose proof (wf_sector _ _ Hs).
    pose proof (DiskManager.wf_blocks _ _ (wf_disk _ _ Hs)).
    rewrite Z.mod_small by lia. by rewrite (proj2 (Z.ltb_lt _ _)) by lia.
Qed.

(** ** A command

    The guest writes the sector count, the 28 bits of the address, and the
    command. *)
Definition parameters (q a : Z) : list op :=
  [WriteB SCR_addr q; WriteB SNR_addr (u8 a); WriteB CNL_addr (u8 (a / 256));
   WriteB CNH_addr (u8 (a / 65536)); WriteB HND_addr (u8 (a / 16777216))].
Definition command (cmd q a : Z) : list op := parameters q a ++ [WriteB CMD_addr cmd].

Definition programmed (s : t) (cmd q a : Z) : t :=
  s <| SCR := q |> <| SNR := u8 a |> <| CNL := u8 (a / 256) |>
    <| CNH := u8 (a / 65536) |> <| HND := u8 (a / 16777216) |> <| CMD := cmd |>.

Lemma programmed_wf n s cmd q a : wf n s → is_u8 q → wf n (programmed s cmd q a).
Proof. intros [] Hq. split; cbn; auto using u8_range. Qed.

Lemma programmed_lba s cmd q a :
  0 ≤ a < 268435456 → compute_lba (programmed s cmd q a) = a.
Proof.
  intros Ha. rewrite compute_lba_val by apply u8_range. cbn. width_lia.
Qed.

Lemma commanded_lba n s : lba (commanded n s) = compute_lba s.
Proof.
  unfold commanded. destruct (CMD s =? 0x30); [|destruct (CMD s =? 0x20)]; by destruct s.
Qed.

Lemma command_run n s cmd q a :
  wf n s → is_u8 q → current_sector_number s < INT_MAX →
  run step (command cmd q a) s =
  Done (replicate 6 0, commanded n (programmed s cmd q a),
        command_events (programmed s cmd q a)).
Proof.
  intros Hs Hq Hc. unfold command.
  pose proof (process_cmd_run n (programmed s cmd q a) (programmed_wf n s cmd q a Hs Hq) (λ _, Hc))
    as Hcmd.
  set (s1 := s <| SCR := q |> <| SNR := u8 a |> <| CNL := u8 (a / 256) |>
    <| CNH := u8 (a / 65536) |> <| HND := u8 (a / 16777216) |>) in *.
  assert (run step (parameters q a) s = Done (replicate 5 0, s1, [])) as Hregs by done.
  assert (step (WriteB CMD_addr cmd) s1 =
      Done (0, commanded n (programmed s cmd q a), command_events (programmed s cmd q a)))
    as Hlast.
  { cbn [step].
    change (write_reg_byte CMD_addr cmd) with (modify (λ s, s <| CMD := cmd |>);; process_cmd).
    erewrite bind_done.
    2: { erewrite bind_done by reflexivity.
       match goal with |- context [process_cmd ?x] => change x with (programmed s cmd q a) end.
       by rewrite Hcmd. }
    cbn. by rewrite app_nil_r. }
  rewrite run_app, Hregs, run_cons, Hlast. cbn. by rewrite app_nil_r.
Qed.

Lemma write_command_run n s q a ss :
  wf n s → current_position s = 0 →
  1 ≤ q < 256 → length ss = Z.to_nat q → Forall (λ ws, length ws = 256%nat) ss →
  0 ≤ a < 268435456 → a + current_sector_number s + q ≤ n →
  current_sector_number s + q ≤ INT_MAX →
  ∃ rs s' ev,
    run step (command 0x30 q a ++ map (WriteW BR_addr) (concat ss)) s = Done (rs, s', ev) ∧
    wf n s' ∧ current_position s' = 0 ∧
    current_sector_number s' = current_sector_number s + q ∧
    STS s' = (if current_sector_number s =? 0 then 0 else DRQ_MASK) ∧
    ∀ j, 0 ≤ j < n → DiskManager.block j (disk_manager s') =
      written (a + current_sector_number s) ss
        (λ j, DiskManager.block j (disk_manager s)) j.
Proof.
  intros Hs Hp Hq Hlen Hss Ha Hn Hmax.
  assert (is_u8 q) as Hq8 by (unfold is_u8; lia).
  assert (current_sector_number s < INT_MAX) as Hc by lia.
  set (s1 := commanded n (programmed s 0x30 q a)).
  assert (wf n s1) as Hwf1 by (apply commanded_wf; [by apply programmed_wf|done]).
  assert (lba s1 = a) as Hlba by (subst s1; by rewrite commanded_lba, programmed_lba).
  destruct (write_sectors_run n ss s1) as (rs & s' & ev & Hrun & Hwf & Hsame & Hp' & Hc' & Hst & Hb);
    try done; rewrite ?Hlba, ?Hlen, ?Z2Nat.id in *;
    change (current_sector_number s1) with (current_sector_number s) in *; try lia.
  exists (replicate 6 0 ++ rs), s'. eexists. rewrite run_app, (command_run n) by done.
  fold s1. rewrite Hrun. split_and!; try done.
  rewrite Hst by (intros ->; cbn in Hlen; lia). unfold final_status.
  change (sector_numbers_cmd s1) with q. rewrite Hc'.
  destruct (Z.eqb_spec (current_sector_number s) 0), (Z.eqb_spec q (current_sector_number s + q));
    done || lia.
Qed.

Lemma read_command_run n s q a :
  let k := current_sector_number s in
  wf n s → current_position s = 0 → k < q < 256 →
  0 ≤ a < 268435456 → a + q ≤ n → lba s + k < n →
  ∃ s' ev,
    run step (command 0x20 q a ++ replicate (256 * Z.to_nat (q - k)) (ReadW BR_addr)) s =
      Done (replicate 6 0 ++ words_of (DiskManager.block (lba s + k) (disk_manager s)) ++
            blocks_words (a + k + 1) (Z.to_nat (q - k - 1)) (disk_manager s), s', ev) ∧
    wf n s' ∧ STS s' = 0 ∧ current_position s' = 0 ∧ current_sector_number s' = q ∧
    disk_manager s' = disk_manager s.
Proof.
  intros k Hs Hp Hq Ha Hn Hold. pose proof (wf_sector _ _ Hs) as Hk.
  assert (is_u8 q) as Hq8 by (unfold is_u8; lia).
  assert (current_sector_number s < INT_MAX) as Hc by (unfold INT_MAX; lia).
  set (s1 := commanded n (programmed s 0x20 q a)).
  assert (wf n s1) as Hwf1 by (apply commanded_wf; [by apply programmed_wf|done]).
  assert (lba s1 = a) as Hlba by (subst s1; by rewrite commanded_lba, programmed_lba).
  assert (current_sector_number s1 = k + 1) as Hc1 by done.
  assert (internal_buffer s1 = DiskManager.block (lba s + k) (disk_manager s)) as Hbuf.
  { change (internal_buffer s1) with (loaded n s). unfold loaded, next_block, DiskManager.block_of.
    fold k. rewrite Z.mod_small; [by rewrite (proj2 (Z.ltb_lt _ _))|].
    pose proof (wf_lba _ _ Hs). pose proof (DiskManager.wf_blocks _ _ (wf_disk _ _ Hs)). lia. }
  destruct (read_sectors_run n (Z.to_nat (q - k - 1)) s1) as
    (s' & ev & Hrun & Hwf & Hst & Hp' & Hd & Hc'); try done;
    rewrite ?Hc1, ?Hlba; change (sector_numbers_cmd s1) with q; try (unfold INT_MAX; lia).
  do 2 eexists. rewrite run_app, (command_run n) by done. fold s1.
  replace (Z.to_nat (q - k)) with (S (Z.to_nat (q - k - 1))) by lia.
  rewrite Hrun, Hbuf, Hlba, Hc1. replace (a + (k + 1)) with (a + k + 1) by lia. done.
Qed.

(** The words of a sector come back from its bytes. *)
Lemma slice_words_bytes ws i w :
  ws !! i = Some w → slice (2 * i) 2 (words_bytes ws) = le_bytes 2 w.
Proof.
  unfold words_bytes. revert i. induction ws as [|w' ws IH]; intros i Hi; [done|].
  cbn [map concat]. destruct i as [|i].
  - injection Hi as ->. unfold slice. change (2 * 0)%nat with 0%nat. rewrite drop_0.
    by apply take_app_length', eq_sym, length_le_bytes.
  - rewrite <- (IH i Hi). unfold slice.
    replace (2 * S i)%nat with (length (le_bytes 2 w') + 2 * i)%nat
      by (rewrite length_le_bytes; lia).
    by rewrite <- drop_drop, drop_app_length.
Qed.

Lemma words_of_words_bytes ws :
  length ws = 256%nat → Forall is_u16 ws → words_of (words_bytes ws) = ws.
Proof.
  intros Hl Hws. unfold words_of. apply list_eq_same_length with 256%nat;
    [done|by rewrite length_map, length_seqZ|].
  intros i x y Hi Hx Hy. rewrite lookup_map, lookup_seqZ_lt in Hx by lia. injection Hx as <-.
  unfold word_at. replace (Z.to_nat (2 * (0 + Z.of_nat i))) with (2 * i)%nat by lia.
  rewrite (slice_words_bytes _ _ _ Hy), le_val_bytes.
  apply Z.mod_small. change (256 ^ Z.of_nat 2) with 65536. 
  by apply (Forall_lookup_1 _ _ _ _ Hws Hy).
Qed.

(** The blocks written by a command, read in order. *)
Lemma blocks_words_written n a ss d old :
  0 ≤ a → a + Z.of_nat (length ss) ≤ n → ss ≠ [] →
  Forall (λ ws, length ws = 256%nat ∧ Forall is_u16 ws) ss →
  (∀ j, 0 ≤ j < n → DiskManager.block j d = written a ss old j) →
  words_of (DiskManager.block a d) ++ blocks_words (a + 1) (length ss - 1) d = concat ss.
Proof.
  intros Ha Hn Hne Hss Hb.
  assert (words_of (DiskManager.block a d) ++ blocks_words (a + 1) (length ss - 1) d =
          blocks_words a (length ss) d) as ->.
  { unfold blocks_words. destruct ss as [|ws ss]; [done|]. cbn [length] in *.
    rewrite (seqZ_cons a) by lia. cbn [map concat].
    by replace (Z.pred (Z.of_nat (S (length ss)))) with
      (Z.of_nat (S (length ss) - 1)) by lia. }
  unfold blocks_words. f_equal. apply list_eq_same_length with (length ss);
    [done|by rewrite length_map, length_seqZ, Nat2Z.id|].
  intros i x y Hi Hx Hy. rewrite lookup_map, lookup_seqZ_lt in Hx by lia. injection Hx as <-.
  rewrite Hb by lia. unfold written. rewrite decide_True by lia.
  replace (Z.to_nat (a + Z.of_nat i - a)) with i by lia.
  rewrite (list_lookup_total_correct _ _ _ Hy).
  destruct (Forall_lookup_1 _ _ _ _ Hss Hy). by apply words_of_words_bytes.
Qed.

(** The counter of the sectors at its maximum: an access that would advance it halts. *)
Lemma step_overflow n s o :
  wf n s → INT_MAX ≤ current_sector_number s → transfers o s = true →
  (∀ addr, o = ReadW addr → read_fault s = None) → step o s = Halt IntOverflow.
Proof.
  intros Hs Hc Ht Hf. destruct o as [addr val|addr val|addr|addr]; cbn [transfers step] in *;
    [| |done|]; apply andb_true_iff in Ht as [Ha Ht]; apply Z.eqb_eq in Ha as ->.
  - apply Z.eqb_eq in Ht as ->. by apply bind_halt, write_byte_overflow.
  - apply bind_halt. unfold write_reg_word. rewrite Z.eqb_refl.
    apply Z.leb_le in Ht. by apply (write_BR_overflow n).
  - unfold read_reg_word. rewrite Z.eqb_refl. by apply (read_BR_overflow n); [| |eapply Hf|].
Qed.

Lemma step_total n s o :
  wf n s → valid o →
  match fault o s with
  | Some h => step o s = Halt h
  | None => ∃ r s' ev, step o s = Done (r, s', ev) ∧ wf n s' ∧
                       current_sector_number s' ≤ current_sector_number s + 1
  end.
Proof.
  intros Hs Hv. pose proof (step_overflow n s o Hs) as Hover. unfold fault.
  destruct (match o with ReadW addr => _ | _ => _ end) as [h|] eqn:Hf.
  { destruct o as [| | |addr]; try done. cbn [step]. unfold read_reg_word.
    destruct (addr =? BR_addr); [|done]. pose proof (wf_position _ _ Hs).
    apply read_BR_fault; [apply Hs|lia|done]. }
  destruct (transfers o s && (INT_MAX <=? current_sector_number s)) eqn:Ht.
  { apply andb_true_iff in Ht as [Ht Hc]. apply Z.leb_le in Hc. apply Hover; [done..|].
    intros addr ->. cbn [transfers] in Ht. by destruct (addr =? BR_addr). }
  assert (transfers o s = true → current_sector_number s < INT_MAX) as Hc.
  { intros Hc. rewrite Hc in Ht. by apply Z.leb_gt in Ht. }
  clear Hover Ht. destruct o as [addr val|addr val|addr|addr]; cbn [transfers step valid] in *.
  - destruct (write_byte_total n s addr val) as (s' & ev & Hr & Hp); try done.
    { intros -> ->. by apply Hc. }
    do 3 eexists. erewrite bind_done by exact Hr. done.
  - unfold write_reg_word. destruct (addr =? BR_addr).
    + destruct (write_BR_total n s val) as (s' & ev & Hr & Hp); [done|intros H; apply Hc|].
      { by apply Z.leb_le. }
      do 3 eexists. erewrite bind_done by exact Hr. done.
    + do 3 eexists. split; [reflexivity|]. split; [done|lia].
  - by apply read_byte_total.
  - unfold read_reg_word. destruct (addr =? BR_addr); [by apply read_BR_total|].
    do 3 eexists. split; [reflexivity|]. split; [done|lia].
Qed.

Lemma step_progress n s o r s' ev :
  wf n s → valid o →
  step o s = Done (r, s', ev) → progress n s s'.
Proof.
  intros Hs Hv Hstep. pose proof (step_total n s o Hs Hv) as Ht.
  destruct (fault o s); [congruence|].
  destruct Ht as (r1 & s1 & ev1 & Hstep1 & Hwf & Hle). rewrite Hstep in Hstep1.
  injection Hstep1 as -> -> ->. done.
Qed.

(** C22. Every register access on a well-formed drive either keeps it well formed (status
    bits, position within the buffer, registers in range, image size) and advances the
    sector counter by at most one, or is one of the accesses that [fault] names and halts:
    an access of the data register through an unset or exhausted buffer, or one that
    transfers a sector when the counter is already the greatest int and overflows. *)
Theorem hdd_step_safe n s o :
  wf n s → valid o →
  match fault o s with
  | Some h => step o s = Halt h
  | None => ∃ r s' ev, step o s = Done (r, s', ev) ∧ wf n s' ∧
                       current_sector_number s' ≤ current_sector_number s + 1
  end.
Proof. apply step_total. Qed.

(** C20. A WRITE SECTORS command of q sectors with its data, on a drive between two sectors,
    changes exactly the addressed blocks of the image, as long as they lie in it and the
    counter of the sectors does not overflow. The address is displaced by the sectors
    already transferred, since the counter is never reset, and the ready flag falls at the
    end only if that counter began at zero. *)
Theorem hdd_write_command n s q a ss :
  wf n s → current_position s = 0 →
  1 ≤ q < 256 → length ss = Z.to_nat q → Forall (λ ws, length ws = 256%nat) ss →
  0 ≤ a < 268435456 → a + current_sector_number s + q ≤ n →
  current_sector_number s + q ≤ INT_MAX →
  ∃ rs s' ev,
    run step (command 0x30 q a ++ map (WriteW BR_addr) (concat ss)) s = Done (rs, s', ev) ∧
    wf n s' ∧ current_position s' = 0 ∧
    current_sector_number s' = current_sector_number s + q ∧
    STS s' = (if current_sector_number s =? 0 then 0 else DRQ_MASK) ∧
    ∀ j, 0 ≤ j < n → DiskManager.block j (disk_manager s') =
      written (a + current_sector_number s) ss
        (λ j, DiskManager.block j (disk_manager s)) j.
Proof. apply write_command_run. Qed.

(** The device on a disk of four blocks, just started. *)
Definition hdd4 : t := make 4 DiskManager.disk4.

Lemma hdd4_wf : wf 4 hdd4.
Proof. apply make_wf, DiskManager.disk4_wf. Qed.

Definition sectors2 : list (list Z) := [replicate 256 0x1234; replicate 256 0xabcd].

Lemma hdd_write_command_witness :
  wf 4 hdd4 ∧ Forall (λ ws, length ws = 256%nat) sectors2 ∧
  ∃ rs s' ev,
    run step (command 0x30 2 1 ++ map (WriteW BR_addr) (concat sectors2)) hdd4 =
      Done (rs, s', ev) ∧
    wf 4 s' ∧ current_position s' = 0 ∧ current_sector_number s' = 0 + 2 ∧
    STS s' = 0 ∧
    ∀ j, 0 ≤ j < 4 → DiskManager.block j (disk_manager s') =
      written (1 + 0) sectors2 (λ j, DiskManager.block j DiskManager.disk4) j.
Proof.
  assert (Forall (λ ws, length ws = 256%nat) sectors2) as Hss.
  { constructor; [reflexivity|]. constructor; [reflexivity|]. constructor. }
  split; [exact hdd4_wf|]. split; [exact Hss|].
  apply (hdd_write_command 4 hdd4 2 1 sectors2);
    first [exact hdd4_wf|exact Hss|reflexivity|cbn; unfold INT_MAX; lia].
Defined.

(** C21. A READ SECTORS command of q sectors at address a, on a drive between two sectors
    whose counter, never reset, is k < q, is served for q-k sectors: word by word, the block
    at k past the address latched by the command before it, since the first sector is
    fetched before the new address is computed, and then the blocks a+k+1 to a+q-1, when
    they all lie in the image; the counter ends at q, the drive ends idle and the image is
    unchanged. *)
Theorem hdd_read_command n s q a :
  let k := current_sector_number s in
  wf n s → current_position s = 0 → k < q < 256 →
  0 ≤ a < 268435456 → a + q ≤ n → lba s + k < n →
  ∃ s' ev,
    run step (command 0x20 q a ++ replicate (256 * Z.to_nat (q - k)) (ReadW BR_addr)) s =
      Done (replicate 6 0 ++ words_of (DiskManager.block (lba s + k) (disk_manager s)) ++
            blocks_words (a + k + 1) (Z.to_nat (q - k - 1)) (disk_manager s), s', ev) ∧
    wf n s' ∧ STS s' = 0 ∧ current_position s' = 0 ∧ current_sector_number s' = q ∧
    disk_manager s' = disk_manager s.
Proof. apply read_command_run. Qed.

Lemma hdd_read_command_witness :
  wf 4 hdd4 ∧
  ∃ s' ev,
    run step (command 0x20 2 1 ++ replicate (256 * Z.to_nat 2) (ReadW BR_addr)) hdd4 =
      Done (replicate 6 0 ++ words_of (DiskManager.block 0 DiskManager.disk4) ++
            blocks_words 2 1 DiskManager.disk4, s', ev) ∧
    wf 4 s' ∧ STS s' = 0 ∧ current_position s' = 0 ∧ current_sector_number s' = 2 ∧
    disk_manager s' = DiskManager.disk4.
Proof.
  split; [exact hdd4_wf|].
  apply (hdd_read_command 4 hdd4 2 1);
    first [exact hdd4_wf|reflexivity|cbn; lia].
Defined.

(** C19. A WRITE SECTORS command of q sectors at address a of the image, with its q*256
    words, on a drive that has transferred no byte yet, and then a READ SECTORS command of
    the same range on another such drive that shares the image give back, in order, the
    block of the new image at the address that the second drive had latched before, and then
    the words written from the second sector on: exactly the words written if it had latched
    a, and otherwise another block in place of the first sector. *)
Theorem hdd_round_trip n s1 s2 q a ss :
  wf n s1 → wf n s2 → current_position s1 = 0 → current_position s2 = 0 →
  current_sector_number s1 = 0 → current_sector_number s2 = 0 → lba s2 < n →
  1 ≤ q < 256 → 0 ≤ a < 268435456 → a + q ≤ n →
  length ss = Z.to_nat q → Forall (λ ws, length ws = 256%nat ∧ Forall is_u16 ws) ss →
  ∃ rs s1' ev, run step (command 0x30 q a ++ map (WriteW BR_addr) (concat ss)) s1 =
      Done (rs, s1', ev) ∧
    ∃ ws s2' ev', run step (command 0x20 q a ++ replicate (256 * Z.to_nat q) (ReadW BR_addr))
        (s2 <| disk_manager := disk_manager s1' |>) =
      Done (replicate 6 0 ++ ws, s2', ev') ∧
      ws = words_of (written a ss (λ j, DiskManager.block j (disk_manager s1)) (lba s2)) ++
           concat (drop 1 ss) ∧
      (lba s2 = a → ws = concat ss).
Proof.
  intros Hs1 Hs2 Hp1 Hp2 Hk1 Hk2 Hlba Hq Ha Hn Hlen Hss.
  assert (Forall (λ ws, length ws = 256%nat) ss) as Hss'
    by (eapply Forall_impl; [exact Hss|by intros ? []]).
  destruct (write_command_run n s1 q a ss) as (rs & s1' & ev & Hw & Hwf & _ & _ & _ & Hb);
    rewrite ?Hk1; try done; [lia|unfold INT_MAX; lia|].
  exists rs, s1', ev. split; [done|].
  set (s3 := s2 <| disk_manager := disk_manager s1' |>).
  assert (wf n s3) as Hs3 by (destruct Hs2, Hwf; by split).
  change (current_sector_number s2) with (current_sector_number s3) in Hk2.
  destruct (read_command_run n s3 q a) as (s2' & ev' & Hr & _);
    rewrite ?Hk2; try (done || lia); [change (lba s3) with (lba s2); lia|].
  rewrite Hk2, !Z.sub_0_r, !Z.add_0_r in Hr. change (lba s3) with (lba s2) in Hr.
  change (disk_manager s3) with (disk_manager s1') in Hr.
  assert (∀ j, 0 ≤ j < n → DiskManager.block j (disk_manager s1') =
    written a ss (λ j, DiskManager.block j (disk_manager s1)) j) as Hblk.
  { intros j Hj. by rewrite Hb, Hk1, Z.add_0_r by done. }
  assert (ss ≠ []) as Hne by (intros ->; cbn in Hlen; lia).
  pose proof (blocks_words_written n a ss _ _ ltac:(lia) ltac:(lia) Hne Hss Hblk) as Hall.
  replace (Z.to_nat (q - 1)) with (length ss - 1)%nat in Hr by lia.
  do 3 eexists. split; [exact Hr|]. split; [|by intros ->].
  f_equal; [f_equal; apply Hblk; pose proof (wf_lba _ _ Hs2); lia|].
  destruct ss as [|ws ss]; [done|]. apply (app_inv_head (words_of (DiskManager.block a (disk_manager s1')))).
  rewrite Hall. cbn [concat drop]. f_equal. apply Forall_cons in Hss as [[Hl Hu] _].
  rewrite Hblk by lia. unfold written. rewrite decide_True by (cbn [length]; lia).
  rewrite Z.sub_diag. symmetry. by apply words_of_words_bytes.
Qed.

Lemma hdd_round_trip_witness :
  Forall (λ ws, length ws = 256%nat ∧ Forall is_u16 ws) sectors2 ∧
  ∃ rs s1' ev,
    run step (command 0x30 2 1 ++ map (WriteW BR_addr) (concat sectors2)) hdd4 =
      Done (rs, s1', ev) ∧
    ∃ ws s2' ev', run step (command 0x20 2 1 ++ replicate (256 * Z.to_nat 2) (ReadW BR_addr))
        (hdd4 <| disk_manager := disk_manager s1' |>) =
      Done (replicate 6 0 ++ ws, s2', ev') ∧
      ws = words_of (written 1 sectors2 (λ j, DiskManager.block j DiskManager.disk4) 0) ++
           concat (drop 1 sectors2) ∧
      (0 = 1 → ws = concat sectors2).
Proof.
  assert (Forall (λ ws, length ws = 256%nat ∧ Forall is_u16 ws) sectors2) as Hss.
  { repeat constructor; done. }
  split; [exact Hss|].
  apply (hdd_round_trip 4 hdd4 hdd4 2 1 sectors2);
    first [exact hdd4_wf|exact Hss|reflexivity|cbn; lia].
Defined.

(** The operations that do not switch the interrupts off. *)
Definition keeps_interrupts (o : op) : Prop :=
  match o with WriteB addr val => addr = DCR_addr → val = 0 | _ => True end.

Lemma raised_line s b :
  b = interrupt_raised s || interrupt_enabled s →
  line_level 14 (level_of (interrupt_raised s)) (raised_events s) = level_of b.
Proof.
  intros ->. unfold raised_events.
  by destruct (interrupt_enabled s), (interrupt_raised s).
Qed.

Lemma write_byte_line n s addr val s' ev :
  wf n s → is_u8 val → current_sector_number s < INT_MAX → (addr = DCR_addr → val = 0) →
  write_reg_byte addr val s = Done (tt, s', ev) →
  line_level 14 (level_of (interrupt_raised s)) ev = level_of (interrupt_raised s').
Proof.
  intros Hs Hv Hc Hk. unfold write_reg_byte.
  destruct (addr =? SCR_addr); [by intros [= <- <-]|].
  destruct (addr =? SNR_addr); [by intros [= <- <-]|].
  destruct (addr =? CNH_addr); [by intros [= <- <-]|].
  destruct (addr =? CNL_addr); [by intros [= <- <-]|].
  destruct (addr =? HND_addr); [by intros [= <- <-]|].
  destruct (addr =? CMD_addr).
  - erewrite bind_done by reflexivity.
    rewrite (process_cmd_run n) by (destruct Hs; by split || done).
    intros [= <- <-]. unfold command_events, commanded. cbn [CMD upd].
    destruct (val =? 0x30); [done|]. destruct (val =? 0x20); [|done].
    cbn [latched upd refilled ready interrupt_raised app].
    unfold raised_events. cbn. by destruct (interrupt_enabled s), (interrupt_raised s).
  - destruct (Z.eqb_spec addr DCR_addr) as [->|]; [|by intros [= <- <-]].
    rewrite Hk by done. by intros [= <- <-].
Qed.

Lemma step_line n s o r s' ev :
  wf n s → valid o → current_sector_number s < INT_MAX → keeps_interrupts o →
  step o s = Done (r, s', ev) →
  line_level 14 (level_of (interrupt_raised s)) ev = level_of (interrupt_raised s').
Proof.
  intros Hs Hv Hc Hk. destruct o as [addr val|addr val|addr|addr]; cbn [step valid] in *.
  - intros ([] & s1 & ev1 & ev2 & Hw & [= _ <- <-] & ->)%bind_inv. rewrite app_nil_r.
    by eapply write_byte_line.
  - intros ([] & s1 & ev1 & ev2 & Hw & [= _ <- <-] & ->)%bind_inv. rewrite app_nil_r.
    unfold write_reg_word in Hw. destruct (addr =? BR_addr); [|by injection Hw as <- <-].
    destruct (Z.le_gt_cases (current_position s) 508).
    + pose proof (wf_position _ _ Hs). rewrite write_BR_run in Hw by (apply Hs || lia).
      rewrite (proj2 (Z.leb_gt _ _)) in Hw by lia. by injection Hw as <- <-.
    + destruct (write_BR_last n s val) as (dm & Hrun & _); [done|lia|done|].
      rewrite Hrun in Hw. injection Hw as <- <-. by apply raised_line.
  - rewrite read_byte_run. intros [= _ <- <-]. unfold acknowledged.
    destruct (addr =? STS_addr); [|done]. by destruct (interrupt_raised s).
  - unfold read_reg_word. destruct (addr =? BR_addr); [|by intros [= _ <- <-]].
    destruct (read_fault s) as [h|] eqn:Hf.
    + pose proof (wf_position _ _ Hs). rewrite (read_BR_fault s h) by (apply Hs || lia || done).
      done.
    + rewrite (read_BR_run n) by done. intros [= _ <- <-].
      destruct (256 <=? _); [|done]. destruct (_ =? _); [done|]. by apply raised_line.
Qed.

(** As long as the guest does not rewrite the device control register, the level of
    interrupt line 14 after any sequence of accesses is the drive's record of it. *)
Theorem hdd_irq_line n ops s rs s' ev :
  wf n s → Forall valid ops → Forall keeps_interrupts ops →
  current_sector_number s + Z.of_nat (length ops) ≤ INT_MAX →
  run step ops s = Done (rs, s', ev) →
  line_level 14 (level_of (interrupt_raised s)) ev = level_of (interrupt_raised s').
Proof.
  revert s rs ev. induction ops as [|o ops IH]; intros s rs ev Hs Hv Hk Hc Hrun.
  { by injection Hrun as _ <- <-. }
  apply Forall_cons in Hv as [Ho Hv]. apply Forall_cons in Hk as [Hko Hk].
  cbn [length] in Hc. rewrite run_cons in Hrun.
  destruct (step o s) as [[[r s1] ev1]|] eqn:Hstep; [|done].
  destruct (step_progress n s o r s1 ev1) as [Hs1 Hc1]; [done..|].
  destruct (run step ops s1) as [[[rs1 s2] ev2]|] eqn:Hrun'; [|done].
  injection Hrun as <- -> <-.
  rewrite line_level_app, (step_line n s o r s1 ev1) by (done || lia).
  eapply IH; try done. lia.
Qed.

(** Register reads after the interrupts have been switched off. *)
Lemma reads_silent addrs s :
  interrupt_raised s = false →
  ∃ rs s', run step (map ReadB addrs) s = Done (rs, s', []) ∧ interrupt_raised s' = false.
Proof.
  revert s. induction addrs as [|addr addrs IH]; intros s Hr; [by eexists [], s|].
  destruct (IH (acknowledged addr s)) as (rs & s' & Hrun & Hr').
  { unfold acknowledged. by destruct (_ =? _). }
  do 2 eexists. cbn [map]. rewrite run_cons. cbn [step].
  rewrite read_byte_run, Hrun, Hr, andb_false_r. done.
Qed.

(** A write of the device control register forgets a raised interrupt without lowering the
    line, which no later read of the status lowers. *)
Theorem hdd_irq_stuck s val addrs :
  interrupt_raised s = true → val ≠ 0 →
  step (ReadB STS_addr) s =
    Done (STS s, s <| interrupt_raised := false |>, [irq14 0]) ∧
  ∃ rs s', run step (WriteB DCR_addr val :: map ReadB addrs) s = Done (rs, s', []) ∧
    interrupt_raised s' = false.
Proof.
  intros Hr Hv. split; [cbn [step]; rewrite read_byte_run, Hr; done|].
  rewrite run_cons. cbn [step].
  assert (∃ s1, write_reg_byte DCR_addr val s = Done (tt, s1, []) ∧
    interrupt_raised s1 = false) as (s1 & Hw & Hr1).
  { unfold write_reg_byte. cbn [Z.eqb DCR_addr Pos.eqb].
    destruct (val =? 2); [by eexists|].
    rewrite (proj2 (Z.eqb_neq val 0)) by done. by eexists. }
  erewrite bind_done by exact Hw. cbn [mret io_ret].
  destruct (reads_silent addrs s1 Hr1) as (rs & s' & Hrun & Hr'). rewrite Hrun.
  do 2 eexists. done.
Qed.

(** A disk waiting for the acknowledgement of an interrupt. *)
Definition hdd4_raised : t :=
  hdd4 <| DCR := 0 |> <| interrupt_enabled := true |> <| interrupt_raised := true |>.

Lemma hdd_irq_stuck_witness :
  interrupt_raised hdd4_raised = true ∧ 2 ≠ 0 ∧
  step (ReadB STS_addr) hdd4_raised =
    Done (STS hdd4_raised, hdd4_raised <| interrupt_raised := false |>, [irq14 0]) ∧
  ∃ rs s', run step (WriteB DCR_addr 2 :: map ReadB [STS_addr; ASR_addr]) hdd4_raised =
    Done (rs, s', []) ∧ interrupt_raised s' = false.
Proof.
  split; [reflexivity|]. split; [lia|].
  exact (hdd_irq_stuck hdd4_raised 2 [STS_addr; ASR_addr] eq_refl ltac:(lia)).
Defined.

(** A read of a sector with the interrupts on, acknowledged at once. *)
Definition polled_read : list op :=
  [WriteB DCR_addr 0; WriteB CMD_addr 0x20; ReadB STS_addr].

Lemma hdd_irq_line_witness :
  wf 4 hdd4 ∧ Forall valid polled_read ∧ Forall keeps_interrupts polled_read ∧
  ∃ rs s' ev, run step polled_read hdd4 = Done (rs, s', ev) ∧ ev = [irq14 1; irq14 0] ∧
    line_level 14 0 ev = level_of (interrupt_raised s').
Proof.
  assert (Forall valid polled_read) as Hv.
  { repeat constructor; cbn; unfold is_u8; lia. }
  assert (Forall keeps_interrupts polled_read) as Hk.
  { repeat constructor; intros; (reflexivity || discriminate). }
  split; [exact hdd4_wf|]. split; [exact Hv|]. split; [exact Hk|].
  destruct (run step polled_read hdd4) as [[[rs s'] ev]|] eqn:Hrun;
    [|vm_compute in Hrun; discriminate].
  exists rs, s', ev. split; [reflexivity|]. split.
  - vm_compute in Hrun. injection Hrun as _ _ <-. reflexivity.
  - refine (hdd_irq_line 4 polled_read hdd4 rs s' ev hdd4_wf Hv Hk _ Hrun).
    cbn. unfold INT_MAX. lia.
Defined.

(** A disk in the middle of a transfer that mixed reads and writes. *)
Definition hdd4_mixed : t := hdd4 <| new_buffer := true |> <| current_position := 256 |>.

Lemma hdd4_mixed_wf : wf 4 hdd4_mixed.
Proof. destruct hdd4_wf. by split. Qed.

Lemma hdd_step_safe_witness :
  wf 4 hdd4_mixed ∧ fault (ReadW BR_addr) hdd4_mixed = Some OutOfBounds ∧
  step (ReadW BR_addr) hdd4_mixed = Halt OutOfBounds.
Proof.
  split; [exact hdd4_mixed_wf|]. split; [reflexivity|].
  exact (hdd_step_safe 4 hdd4_mixed (ReadW BR_addr) hdd4_mixed_wf I).
Defined.

(** Mixing reads and writes of the data register faults: through the unset pointer, or past
    the end of the buffer. *)
Theorem hdd_mixed_transfer_faults :
  run step [WriteW BR_addr 0; ReadW BR_addr] hdd4 = Halt NullDeref ∧
  run step (ReadW BR_addr :: replicate 128 (WriteW BR_addr 0) ++ [ReadW BR_addr]) hdd4 =
    Halt OutOfBounds.
Proof. split; vm_compute; reflexivity. Qed.

End HardDisk.
