(* ===== verification/PCIDevice.v ===== *)
(** * PCI devices (frontend/PCIDevice.h and .cpp, PCI_ATA.h and .cpp, PCI_APIC.h
    and .cpp)

The configuration space of a function is the memory image of the packed
structure [deviceRegisters].  The ATA bridge forwards the ports that its base
address registers name to the hard disk behind it; it is verified against the
interface [IODeviceOps], whatever device implements it. *)

From S2P Require Import Prelude IODevice DiskManager HardDisk.

Module PCIDevice.

(** ** The configuration space *)

(** The packed structure, field after field, and its size. *)
Definition vendorID : Z := 0.
Definition deviceID : Z := 2.
Definition classCode : Z := 9.
Definition BAR (index : Z) : Z := 16 + 4 * index.
Definition sizeof_registers : Z := 192.

Definition t : Type := list Z.

(** An access to [n] bytes of the structure from an offset. *)
Definition load (n : nat) (offset : Z) : io t Z :=
  s ← get;
  if decide (0 ≤ offset ∧ offset + Z.of_nat n ≤ Z.of_nat (length s))
  then mret (le_val (slice (Z.to_nat offset) n s)) else crash OutOfBounds.

Definition store (n : nat) (offset val : Z) : io t unit :=
  s ← get;
  if decide (0 ≤ offset ∧ offset + Z.of_nat n ≤ Z.of_nat (length s))
  then modify (list_inserts (Z.to_nat offset) (le_bytes n val)) else crash OutOfBounds.

(** The same, on a space that holds the structure. *)
Definition field (n : nat) (offset : Z) (s : t) : Z := le_val (slice (Z.to_nat offset) n s).
Definition set_field (n : nat) (offset val : Z) (s : t) : t :=
  list_inserts (Z.to_nat offset) (le_bytes n val) s.

(** ** The class *)

(** [memory] is what the object's storage held before the constructor: zeros for
    the devices of kvm.cpp, which are global. *)
Definition clear_bars (s : t) : t :=
  foldl (λ s i, set_field 4 (BAR i) 0 s) s (seqZ 0 6).

Definition init_class (memory : list Z) (vendor device code : Z) : t :=
  clear_bars
    (set_field 1 (classCode + 2) (u8 (Z.shiftr code 16))
    (set_field 1 (classCode + 1) (u8 (Z.shiftr code 8))
    (set_field 1 classCode (u8 code)
    (set_field 2 deviceID device (set_field 2 vendorID vendor memory))))).

Definition init (memory : list Z) (vendor device : Z) : t :=
  clear_bars (set_field 2 deviceID device (set_field 2 vendorID vendor memory)).

Definition getVendorID (s : t) : Z := field 2 vendorID s.
Definition getDeviceID (s : t) : Z := field 2 deviceID s.

Definition getClassCode (s : t) : Z :=
  Z.lor (Z.lor (field 1 classCode s) (Z.shiftl (field 1 (classCode + 1) s) 8))
        (Z.shiftl (field 1 (classCode + 2) s) 16).

Definition getBar (index : Z) (s : t) : Z :=
  if (index <? 0) || (5 <? index) then u32 (-1) else field 4 (BAR index) s.

Definition setBar (value index : Z) (s : t) : t :=
  if (index <? 0) || (5 <? index) then s else set_field 4 (BAR index) value s.

(** The guards are computed on [uint32_t], whose sums wrap. *)
Definition out_of_bounds (offset n : Z) : bool :=
  (offset <? 0) || (sizeof_registers <? u32 (offset + n)).

Definition write_reg_byte_PCI (offset val : Z) : io t unit :=
  if out_of_bounds offset 1 then mret tt else store 1 offset val.
Definition write_reg_word_PCI (offset val : Z) : io t unit :=
  if out_of_bounds offset 2 then mret tt else store 2 offset val.
Definition write_reg_long_PCI (offset val : Z) : io t unit :=
  if out_of_bounds offset 4 then mret tt else store 4 offset val.
Definition read_reg_byte_PCI (offset : Z) : io t Z :=
  if out_of_bounds offset 1 then mret 0 else load 1 offset.
Definition read_reg_word_PCI (offset : Z) : io t Z :=
  if out_of_bounds offset 2 then mret 0 else load 2 offset.
Definition read_reg_long_PCI (offset : Z) : io t Z :=
  if out_of_bounds offset 4 then mret 0 else load 4 offset.

(** ** Well-formedness *)
Record wf (s : t) : Prop := {
  wf_length : length s = 192%nat;
  wf_bytes : Forall is_u8 s;
}.

(** A field lies in the structure. *)
Definition fits (n : nat) (offset : Z) : Prop := 0 ≤ offset ∧ offset + Z.of_nat n ≤ 192.

#[export] Instance fits_dec n offset : Decision (fits n offset).
Proof. unfold fits. apply _. Defined.

Lemma length_set_field n offset val s : length (set_field n offset val s) = length s.
Proof. apply length_inserts. Qed.

Lemma set_field_wf n offset val s : wf s → wf (set_field n offset val s).
Proof.
  intros [Hl Hb]. split; [by rewrite length_set_field|].
  apply Forall_lookup_2. intros i x Hx. unfold set_field in Hx.
  apply list_lookup_inserts_Some in Hx as [[_ Hx]|(_ & _ & Hx)].
  - by apply (Forall_lookup_1 _ _ _ _ Hb Hx).
  - by apply (Forall_lookup_1 _ _ _ _ (le_bytes_u8 n val) Hx).
Qed.

Lemma field_set_eq n offset val s :
  wf s → fits n offset → field n offset (set_field n offset val s) = val mod 256 ^ Z.of_nat n.
Proof.
  intros [Hl _] [Ho Hn]. unfold field, set_field.
  rewrite <- (length_le_bytes n val) at 1. rewrite slice_inserts_eq.
  - apply le_val_bytes.
  - rewrite length_le_bytes. lia.
Qed.

Lemma field_set_ne n offset n' offset' val s :
  0 ≤ offset → 0 ≤ offset' →
  offset' + Z.of_nat n' ≤ offset ∨ offset + Z.of_nat n ≤ offset' →
  field n' offset' (set_field n offset val s) = field n' offset' s.
Proof.
  intros Ho Ho' Hne. unfold field, set_field. f_equal. apply slice_inserts_ne.
  rewrite length_le_bytes. lia.
Qed.

Lemma field_range n offset s :
  wf s → fits n offset → 0 ≤ field n offset s < 256 ^ Z.of_nat n.
Proof.
  intros [Hl Hb] [Ho Hn]. unfold field.
  rewrite <- (length_slice (Z.to_nat offset) n s) at 3 by lia.
  apply le_val_bound. unfold slice. by apply Forall_take, Forall_drop.
Qed.

Lemma clear_bars_wf s : wf s → wf (clear_bars s).
Proof.
  intros H. unfold clear_bars. generalize (seqZ 0 6). intros l. revert s H.
  induction l as [|i l IH]; intros s H; [done|]. by apply IH, set_field_wf.
Qed.

Lemma init_class_wf memory vendor device code :
  wf memory → wf (init_class memory vendor device code).
Proof. intros H. apply clear_bars_wf. do 5 apply set_field_wf. done. Qed.

(** The guards, on offsets whose sum does not wrap. *)
Lemma guard_fits n offset :
  0 ≤ offset → offset + Z.of_nat n < 4294967296 →
  out_of_bounds offset (Z.of_nat n) = negb (bool_decide (fits n offset)).
Proof.
  intros Ho Hn. unfold out_of_bounds, sizeof_registers. rewrite u32_id by width_lia.
  rewrite (proj2 (Z.ltb_ge offset 0)) by done. cbn [orb].
  destruct (Z.ltb_spec 192 (offset + Z.of_nat n)).
  - rewrite bool_decide_false; [done|]. unfold fits. lia.
  - rewrite bool_decide_true; [done|]. unfold fits. lia.
Qed.

Lemma load_run n offset s : wf s → fits n offset → load n offset s = Done (field n offset s, s, []).
Proof.
  intros [Hl _] [Ho Hn]. unfold load. erewrite bind_done by reflexivity.
  rewrite decide_True by lia. done.
Qed.

Lemma store_run n offset val s :
  wf s → fits n offset → store n offset val s = Done (tt, set_field n offset val s, []).
Proof.
  intros [Hl _] [Ho Hn]. unfold store. erewrite bind_done by reflexivity.
  rewrite decide_True by lia. done.
Qed.

Lemma load_out n offset s : wf s → ¬ fits n offset → load n offset s = Halt OutOfBounds.
Proof.
  intros [Hl _] Hf. unfold load. erewrite bind_done by reflexivity.
  rewrite decide_False; [done|]. unfold fits in Hf. lia.
Qed.

Lemma store_out n offset val s :
  wf s → ¬ fits n offset → store n offset val s = Halt OutOfBounds.
Proof.
  intros [Hl _] Hf. unfold store. erewrite bind_done by reflexivity.
  rewrite decide_False; [done|]. unfold fits in Hf. lia.
Qed.

(** ** Accesses as data *)

(** The six methods of the configuration space. *)
Definition config_access (a : access) : io t Z :=
  match a with
  | WriteByte offset val => write_reg_byte_PCI offset val;; mret 0
  | WriteWord offset val => write_reg_word_PCI offset val;; mret 0
  | WriteLong offset val => write_reg_long_PCI offset val;; mret 0
  | ReadByte offset => read_reg_byte_PCI offset
  | ReadWord offset => read_reg_word_PCI offset
  | ReadLong offset => read_reg_long_PCI offset
  end.

Definition access_width (a : access) : nat :=
  match a with
  | WriteByte _ _ | ReadByte _ => 1
  | WriteWord _ _ | ReadWord _ => 2
  | WriteLong _ _ | ReadLong _ => 4
  end.

Definition access_offset (a : access) : Z :=
  match a with
  | WriteByte o _ | WriteWord o _ | WriteLong o _ | ReadByte o | ReadWord o | ReadLong o => o
  end.

(** What an access promises: the fields inside the structure are read and
    written, the others read zero. *)
Definition config_spec (a : access) (s : t) : Z * t :=
  if decide (fits (access_width a) (access_offset a)) then
    match a with
    | WriteByte o v | WriteWord o v | WriteLong o v => (0, set_field (access_width a) o v s)
    | ReadByte o | ReadWord o | ReadLong o => (field (access_width a) o s, s)
    end
  else (0, s).

Lemma config_spec_wf a s : wf s → wf (config_spec a s).2.
Proof.
  intros Hs. unfold config_spec. case_decide; [|done]. destruct a; by try apply set_field_wf.
Qed.

(** A write and a read of [n] bytes, whatever the method. *)
Lemma guarded_store n offset val s :
  wf s → 0 ≤ offset → offset + Z.of_nat n < 4294967296 →
  ((if out_of_bounds offset (Z.of_nat n) then mret tt else store n offset val);; mret 0) s =
  Done (0, if decide (fits n offset) then set_field n offset val s else s, []).
Proof.
  intros Hs Ho Hn. rewrite guard_fits by done. case_decide as Hf.
  - rewrite bool_decide_true by done. cbn [negb].
    erewrite bind_done by (by apply store_run). done.
  - by rewrite bool_decide_false.
Qed.

Lemma guarded_load n offset s :
  wf s → 0 ≤ offset → offset + Z.of_nat n < 4294967296 →
  (if out_of_bounds offset (Z.of_nat n) then mret 0 else load n offset) s =
  Done (if decide (fits n offset) then field n offset s else 0, s, []).
Proof.
  intros Hs Ho Hn. rewrite guard_fits by done. case_decide as Hf.
  - rewrite bool_decide_true by done. by apply load_run.
  - by rewrite bool_decide_false.
Qed.

Lemma config_access_run a s :
  wf s → 0 ≤ access_offset a → access_offset a + Z.of_nat (access_width a) < 4294967296 →
  config_access a s = Done ((config_spec a s).1, (config_spec a s).2, []).
Proof.
  intros Hs Ho Hn. unfold config_spec.
  destruct a as [o v|o v|o v|o|o|o]; cbn [config_access access_width access_offset] in *;
    (etransitivity;
     [first [exact (guarded_store _ o v s Hs Ho Hn)|exact (guarded_load _ o s Hs Ho Hn)]|]);
    by case_decide.
Qed.

(** Where the sum of a guard wraps, the guard lets the access through. *)
Lemma guard_wraps n offset :
  is_u32 offset → 4294967296 ≤ offset + Z.of_nat n → (n ≤ 4)%nat →
  out_of_bounds offset (Z.of_nat n) = false ∧ ¬ fits n offset.
Proof.
  intros Ho Hn Hn4. split.
  - unfold out_of_bounds, sizeof_registers. apply orb_false_intro; apply Z.ltb_ge; width_lia.
  - unfold fits. lia.
Qed.

Lemma config_access_wraps a s :
  wf s → is_u32 (access_offset a) →
  4294967296 ≤ access_offset a + Z.of_nat (access_width a) →
  config_access a s = Halt OutOfBounds.
Proof.
  intros Hs Ho Hn.
  destruct (guard_wraps _ _ Ho Hn) as [Hg Hf]; [destruct a; cbn; lia|].
  destruct a as [o v|o v|o v|o|o|o];
    cbn [config_access access_width access_offset] in *; change (Z.of_nat 1) with 1 in *;
    change (Z.of_nat 2) with 2 in *; change (Z.of_nat 4) with 4 in *;
    unfold write_reg_byte_PCI, write_reg_word_PCI, write_reg_long_PCI,
      read_reg_byte_PCI, read_reg_word_PCI, read_reg_long_PCI; rewrite Hg;
    first [by apply bind_halt, store_out|by apply load_out].
Qed.

(** C30. For every 32-bit offset and every width a configuration access reads or replaces
    the bytes at the offset, or is refused when it does not fit the 192 registers; the guard
    itself wraps for the last offsets of the 32-bit range, where the access leaves the
    registers. *)
Theorem config_access_total a s :
  wf s → is_u32 (access_offset a) →
  config_access a s =
    if access_offset a + Z.of_nat (access_width a) <? 4294967296
    then Done ((config_spec a s).1, (config_spec a s).2, []) else Halt OutOfBounds.
Proof.
  intros Hs Ho. destruct (Z.ltb_spec (access_offset a + Z.of_nat (access_width a)) 4294967296).
  - apply config_access_run; [done|width_lia|done].
  - by apply config_access_wraps.
Qed.

(** The storage of a global object. *)
Definition zeros : list Z := replicate 192 0.

Lemma zeros_wf : wf zeros.
Proof. split; [done|]. apply Forall_replicate. width_lia. Qed.

Lemma config_access_total_witness :
  wf zeros ∧ is_u32 0xFFFFFFFE ∧
  config_access (ReadLong 0xFFFFFFFE) zeros = Halt OutOfBounds ∧
  config_access (ReadLong 0x10) zeros = Done (0, zeros, []).
Proof.
  split; [exact zeros_wf|]. split; [unfold is_u32; lia|]. split.
  - exact (config_access_total (ReadLong 0xFFFFFFFE) zeros zeros_wf
             ltac:(cbn; unfold is_u32; lia)).
  - exact (config_access_total (ReadLong 0x10) zeros zeros_wf
             ltac:(cbn; unfold is_u32; lia)).
Defined.

(** ** The identity of a device *)

Lemma clear_bars_field n offset s :
  0 ≤ offset → offset + Z.of_nat n ≤ 16 → field n offset (clear_bars s) = field n offset s.
Proof.
  intros Ho Hn. unfold clear_bars.
  assert (Forall (λ i, 0 ≤ i) (seqZ 0 6)) as Hl
    by (apply Forall_forall; intros i Hi%elem_of_seqZ; lia).
  revert s. induction Hl as [|i l Hi _ IH]; intros s; [done|].
  cbn beta in Hi. cbn [foldl]. rewrite IH. unfold BAR. apply field_set_ne; lia.
Qed.

(** The fields of a space built by assignments. *)
Ltac field_simpl :=
  repeat first [rewrite field_set_eq by
                  (repeat apply set_field_wf; (done || unfold fits; lia))
               |rewrite field_set_ne by lia].

(** [a + b * 256 + c * 65536], as [getClassCode] assembles it. *)
Lemma class_code_bytes a b c :
  is_u8 a → is_u8 b →
  Z.lor (Z.lor a (Z.shiftl b 8)) (Z.shiftl c 16) = a + b * 256 + c * 65536.
Proof.
  intros Ha Hb. rewrite (lor_shiftl_add a b 8) by (change (2 ^ 8) with 256; width_lia).
  change (2 ^ 8) with 256. rewrite lor_shiftl_add by (change (2 ^ 16) with 65536; width_lia). done.
Qed.

Lemma init_class_fields memory vendor device code :
  wf memory → is_u16 vendor → is_u16 device →
  getVendorID (init_class memory vendor device code) = vendor ∧
  getDeviceID (init_class memory vendor device code) = device ∧
  getClassCode (init_class memory vendor device code) = code mod 16777216.
Proof.
  intros Hm Hv Hd. unfold getVendorID, getDeviceID, getClassCode, init_class.
  unfold vendorID, deviceID, classCode.
  rewrite !clear_bars_field by lia.
  pose proof (u8_range code). pose proof (u8_range (Z.shiftr code 8)).
  pose proof (u8_range (Z.shiftr code 16)).
  field_simpl. split_and!; [width_lia|width_lia|].
  change (256 ^ Z.of_nat 1) with 256. rewrite !(Z.mod_small _ 256) by done.
  rewrite class_code_bytes by done. unfold u8. rewrite !Z.shiftr_div_pow2 by lia.
  change (2 ^ 8) with 256. change (2 ^ 16) with 65536. width_lia.
Qed.

(** A field is made of smaller ones. *)
Lemma field_split n m offset s :
  wf s → fits (n + m) offset →
  field (n + m) offset s =
  field n offset s + 256 ^ Z.of_nat n * field m (offset + Z.of_nat n) s.
Proof.
  intros [Hl _] [Ho Hn]. unfold field. rewrite slice_split, le_val_app.
  rewrite length_slice by lia.
  by replace (Z.to_nat (offset + Z.of_nat n)) with (Z.to_nat offset + n)%nat by lia.
Qed.

(** A constructed device presents its identifiers and class code in configuration space. *)
Theorem pci_identity vendor device code :
  is_u16 vendor → is_u16 device →
  let s := init_class zeros vendor device code in
  wf s ∧ getVendorID s = vendor ∧ getDeviceID s = device ∧
  getClassCode s = code mod 16777216 ∧
  read_reg_long_PCI 0 s = Done (vendor + device * 65536, s, []) ∧
  read_reg_long_PCI 8 s = Done (code mod 16777216 * 256, s, []).
Proof.
  intros Hv Hd s. pose proof zeros_wf as Hz.
  assert (wf s) as Hs by by apply init_class_wf.
  destruct (init_class_fields zeros vendor device code) as (Hgv & Hgd & Hgc); [done..|].
  fold s in Hgv, Hgd, Hgc. split_and!; try done.
  - etransitivity; [by apply (guarded_load 4 0 s)|]. do 3 f_equal.
    change (if decide (fits 4 0) then field 4 0 s else 0) with (field (2 + 2) 0 s).
    rewrite (field_split 2 2) by (unfold fits; lia || done).
    unfold getVendorID, getDeviceID, vendorID, deviceID in Hgv, Hgd.
    change (0 + Z.of_nat 2) with 2. rewrite Hgv, Hgd. change (256 ^ Z.of_nat 2) with 65536. lia.
  - etransitivity; [by apply (guarded_load 4 8 s)|]. do 3 f_equal.
    change (if decide (fits 4 8) then field 4 8 s else 0) with (field (1 + (1 + (1 + 1))) 8 s).
    rewrite !field_split by (unfold fits; lia || done).
    rewrite <- Hgc. unfold getClassCode, classCode.
    assert (∀ o, fits 1 o → is_u8 (field 1 o s)) as Hb
      by (intros o Ho; exact (field_range 1 o s Hs Ho)).
    rewrite class_code_bytes by (apply Hb; unfold fits; lia).
    change (256 ^ Z.of_nat 1) with 256. change (Z.of_nat 1) with 1.
    replace (field 1 8 s) with 0; [change (8 + 1) with 9; change (9 + 1) with 10; change (10 + 1) with 11;
      change (9 + 2) with 11; lia|].
    subst s. unfold init_class, vendorID, deviceID, classCode. rewrite clear_bars_field by lia.
    by field_simpl.
Qed.

Lemma pci_identity_witness :
  is_u16 0x7777 ∧ is_u16 0x8888 ∧
  let s := init_class zeros 0x7777 0x8888 0x010100 in
  wf s ∧ getVendorID s = 0x7777 ∧ getDeviceID s = 0x8888 ∧ getClassCode s = 0x010100 ∧
  read_reg_long_PCI 0 s = Done (0x88887777, s, []) ∧
  read_reg_long_PCI 8 s = Done (0x01010000, s, []).
Proof.
  split; [unfold is_u16; lia|]. split; [unfold is_u16; lia|].
  exact (pci_identity 0x7777 0x8888 0x010100 ltac:(unfold is_u16; lia) ltac:(unfold is_u16; lia)).
Defined.

(** A base address register holds what was last stored in it, keeps the other five, and is
    the same whether it is reached by setBar and getBar or through configuration space. *)
Theorem pci_bar s index index' v :
  wf s → is_u32 v → 0 ≤ index ≤ 5 → 0 ≤ index' ≤ 5 →
  getBar index' (setBar v index s) = (if index' =? index then v else getBar index' s) ∧
  read_reg_long_PCI (BAR index) (setBar v index s) = Done (v, setBar v index s, []) ∧
  write_reg_long_PCI (BAR index) v s = Done (tt, setBar v index s, []).
Proof.
  intros Hs Hv Hi Hi'. unfold getBar, setBar.
  rewrite !(proj2 (Z.ltb_ge _ 0)), !(proj2 (Z.ltb_ge 5 _)) by lia. cbn [orb].
  assert (fits 4 (BAR index)) as Hf by (unfold fits, BAR; lia).
  split_and!.
  - destruct (Z.eqb_spec index' index) as [->|Hne].
    + rewrite field_set_eq by done. change (256 ^ Z.of_nat 4) with 4294967296.
      by apply Z.mod_small.
    + apply field_set_ne; unfold BAR; lia.
  - pose proof (guarded_load 4 (BAR index) (set_field 4 (BAR index) v s)) as Hload.
    unfold read_reg_long_PCI. change 4 with (Z.of_nat 4) at 1. rewrite Hload;
      [|by apply set_field_wf|unfold BAR; lia|unfold BAR; lia].
    rewrite decide_True by done. rewrite field_set_eq by done.
    change (256 ^ Z.of_nat 4) with 4294967296. by rewrite Z.mod_small.
  - unfold write_reg_long_PCI. change 4 with (Z.of_nat 4) at 1.
    rewrite guard_fits by (unfold BAR; lia). rewrite bool_decide_true by done.
    by apply store_run.
Qed.

Lemma pci_bar_witness :
  wf zeros ∧ is_u32 0xc000 ∧
  getBar 1 (setBar 0xc000 1 zeros) = 0xc000 ∧
  read_reg_long_PCI (BAR 1) (setBar 0xc000 1 zeros) =
    Done (0xc000, setBar 0xc000 1 zeros, []) ∧
  write_reg_long_PCI (BAR 1) 0xc000 zeros = Done (tt, setBar 0xc000 1 zeros, []).
Proof.
  assert (is_u32 0xc000) as H by (unfold is_u32; lia).
  split; [exact zeros_wf|]. split; [exact H|].
  exact (pci_bar zeros 1 1 0xc000 zeros_wf H ltac:(lia) ltac:(lia)).
Defined.

End PCIDevice.

(** ** The ATA bridge *)
Module PCI_ATA.
Import PCIDevice.

Definition ATA_VENDOR_ID : Z := 0x7777.
Definition ATA_DEVICE_ID : Z := 0x8888.
Definition ATA_CLASS_ID : Z := 0x010100.

Definition init (memory : list Z) : PCIDevice.t :=
  init_class memory ATA_VENDOR_ID ATA_DEVICE_ID ATA_CLASS_ID.

Lemma ata_init_wf memory : wf memory → wf (init memory).
Proof. intros H. unfold init. by apply init_class_wf. Qed.

Section bridge.
Context {D : Type} `{IODeviceOps D}.

(** The configuration space of the bridge: the methods below only read it. *)
Context (registers : PCIDevice.t).

(** The common beginning of the six methods: [bar0] and [bar1] are [io_addr]
    variables, so the upper half of a register is dropped; the bounds are
    computed on [int]. *)
Definition translate (addr : io_addr) : io_addr :=
  let bar0 := u16 (getBar 0 registers) in
  let bar1 := u16 (getBar 1 registers) in
  if (bar0 <=? addr) && (addr <=? bar0 + 7) then u16 (addr - bar0 + 0x01F0)
  else if (bar1 <=? addr) && (addr <=? bar1 + 1) then u16 (addr - bar1 + 0x03F6)
  else addr.

Definition write_reg_word (addr : io_addr) (val : Z) : io D unit :=
  dev_write_word (translate addr) val.
Definition read_reg_word (addr : io_addr) : io D Z := dev_read_word (translate addr).
Definition write_reg_byte (addr : io_addr) (val : Z) : io D unit :=
  dev_write_byte (translate addr) val.
Definition read_reg_byte (addr : io_addr) : io D Z := dev_read_byte (translate addr).
Definition write_reg_long (addr : io_addr) (val : Z) : io D unit :=
  dev_write_long (translate addr) val.
Definition read_reg_long (addr : io_addr) : io D Z := dev_read_long (translate addr).

Definition bridge_access (a : access) : io D Z :=
  match a with
  | WriteByte addr val => write_reg_byte addr val;; mret 0
  | WriteWord addr val => write_reg_word addr val;; mret 0
  | WriteLong addr val => write_reg_long addr val;; mret 0
  | ReadByte addr => read_reg_byte addr
  | ReadWord addr => read_reg_word addr
  | ReadLong addr => read_reg_long addr
  end.
End bridge.

(** An access at another port. *)
Definition at_port (a : access) (port : Z) : access :=
  match a with
  | WriteByte _ v => WriteByte port v | WriteWord _ v => WriteWord port v
  | WriteLong _ v => WriteLong port v
  | ReadByte _ => ReadByte port | ReadWord _ => ReadWord port | ReadLong _ => ReadLong port
  end.

Lemma translate_command regs i :
  0 ≤ i ≤ 7 → translate regs (u16 (getBar 0 regs) + i) = 0x01F0 + i.
Proof.
  intros Hi. unfold translate.
  rewrite (proj2 (Z.leb_le _ _)), (proj2 (Z.leb_le _ _)) by lia. cbn [andb].
  replace (u16 (getBar 0 regs) + i - u16 (getBar 0 regs) + 0x01F0) with (0x01F0 + i) by lia.
  width_lia.
Qed.

Lemma translate_control regs i :
  0 ≤ i ≤ 1 →
  ¬ (u16 (getBar 0 regs) ≤ u16 (getBar 1 regs) + i ≤ u16 (getBar 0 regs) + 7) →
  translate regs (u16 (getBar 1 regs) + i) = 0x03F6 + i.
Proof.
  intros Hi Hne. unfold translate.
  replace ((u16 (getBar 0 regs) <=? u16 (getBar 1 regs) + i) &&
           (u16 (getBar 1 regs) + i <=? u16 (getBar 0 regs) + 7)) with false.
  2: { symmetry. apply andb_false_iff. rewrite !Z.leb_gt. lia. }
  rewrite (proj2 (Z.leb_le _ _)), (proj2 (Z.leb_le _ _)) by lia. cbn [andb].
  replace (u16 (getBar 1 regs) + i - u16 (getBar 1 regs) + 0x03F6) with (0x03F6 + i) by lia.
  width_lia.
Qed.

(** C31. For any device behind the bridge, an access at offset i of either window is the
    access to the device's legacy register i of the command or the control block, in all six
    widths and directions; where the windows overlap the command block is meant. *)
Theorem ata_relocation {D} `{IODeviceOps D} regs a (d : D) :
  (∀ i, 0 ≤ i ≤ 7 →
    bridge_access regs (at_port a (u16 (getBar 0 regs) + i)) d =
    dev_access (at_port a (0x01F0 + i)) d) ∧
  (∀ i, 0 ≤ i ≤ 1 →
    ¬ (u16 (getBar 0 regs) ≤ u16 (getBar 1 regs) + i ≤ u16 (getBar 0 regs) + 7) →
    bridge_access regs (at_port a (u16 (getBar 1 regs) + i)) d =
    dev_access (at_port a (0x03F6 + i)) d).
Proof.
  split; intros i Hi; intros.
  - destruct a; cbn [bridge_access dev_access at_port];
      unfold write_reg_byte, write_reg_word, write_reg_long,
        read_reg_byte, read_reg_word, read_reg_long; by rewrite translate_command.
  - destruct a; cbn [bridge_access dev_access at_port];
      unfold write_reg_byte, write_reg_word, write_reg_long,
        read_reg_byte, read_reg_word, read_reg_long; by rewrite translate_control.
Qed.

(** The hard disk of the supervisor, moved to ports 0xc000 and 0xc100. *)
Definition moved : PCIDevice.t := setBar 0xc100 1 (setBar 0xc000 0 (init zeros)).

Lemma ata_relocation_witness :
  bridge_access moved (WriteByte 0xc002 4) HardDisk.hdd4 =
    dev_access (WriteByte 0x01F2 4) HardDisk.hdd4 ∧
  bridge_access moved (ReadByte 0xc100) HardDisk.hdd4 =
    dev_access (ReadByte 0x03F6) HardDisk.hdd4.
Proof.
  split.
  - exact (proj1 (ata_relocation moved (WriteByte 0 4) HardDisk.hdd4) 2 ltac:(lia)).
  - refine (proj2 (ata_relocation moved (ReadByte 0) HardDisk.hdd4) 0 ltac:(lia) _).
    vm_compute. intros [_ Hle]. by apply Hle.
Defined.
End PCI_ATA.

(** ** The APIC function *)
Module PCI_APIC.
Definition APIC_VENDOR_ID : Z := 0x8086.
Definition APIC_DEVICE_ID : Z := 0x7000.
Definition APIC_CLASS_NAME : Z := 0x123400.

Definition init (memory : list Z) : PCIDevice.t :=
  PCIDevice.init_class memory APIC_VENDOR_ID APIC_DEVICE_ID APIC_CLASS_NAME.

Lemma apic_init_wf memory : PCIDevice.wf memory → PCIDevice.wf (init memory).
Proof. intros H. unfold init. by apply PCIDevice.init_class_wf. Qed.
End PCI_APIC.
