(* ===== verification/PciHost.v ===== *)
(** * The PCI host bridge (frontend/pci_host.h, frontend/pci_host.cpp)

The bridge holds pointers to the device objects of kvm.cpp, which the exit
loop uses as well: the state is the bridge with the store of those objects. *)

From S2P Require Import Prelude IODevice PCIDevice.

Module pci_host.

Definition N_DEVICES : nat := 32.
Definition CAP_addr : io_addr := 0x0CF8.
Definition CDP_addr : io_addr := 0x0CFC.

(** A pointer to a device object: [None] is the null pointer. *)
Abbreviation ptr := (option nat) (only parsing).

Record t : Type := mk {
  CAP : Z;
  CDP : Z;
  device_number : Z;
  bus_number : Z;
  function_number : Z;
  offset_number : Z;
  devices : list ptr;
  connected : nat;
}.

#[export] Instance eta_t : Eta t := λ s,
  mk (CAP s) (CDP s) (device_number s) (bus_number s) (function_number s)
     (offset_number s) (devices s) (connected s).

(** The bridge with the device objects. *)
Record bus : Type := mk_bus {
  host : t;
  objects : list PCIDevice.t;
}.

#[export] Instance eta_bus : Eta bus := λ b, mk_bus (host b) (objects b).

(** A method call through a pointer. *)
Definition call {A} (p : nat) (m : io PCIDevice.t A) : io bus A := λ b,
  match objects b !! p with
  | Some o =>
      match m o with
      | Done (a, o', ev) => Done (a, b <| objects := <[p := o']> (objects b) |>, ev)
      | Halt h => Halt h
      end
  | None => Halt NullDeref
  end.

(** ** Construction *)

(** The first loop copies the pointers that are not null, in order. *)
Definition connect (table : list ptr) : list ptr * nat :=
  foldl (λ '(devices, connected) p,
           match p with
           | None => (devices, connected)
           | Some _ => (<[connected := p]> devices, S connected)
           end) (replicate N_DEVICES None, 0%nat) (take 32 table).

(** The second loop sets the ports of a legacy controller. *)
Definition init_bars (o : PCIDevice.t) : PCIDevice.t :=
  if PCIDevice.getClassCode o =? 0x010100
  then PCIDevice.setBar 0x03F6 1 (PCIDevice.setBar 0x01F0 0 o) else o.

Fixpoint init_devices (ps : list ptr) : io bus unit :=
  match ps with
  | [] => mret tt
  | None :: _ => crash NullDeref
  | Some p :: ps => call p (modify init_bars);; init_devices ps
  end.

(** The log lines at the end read the first two devices. *)
Definition log_device (i : nat) : io bus unit :=
  b ← get;
  p ← array_get (devices (host b)) (Z.of_nat i);
  match p with
  | None => crash NullDeref
  | Some p => call p (mret tt)
  end.

(** The constructor: [dev], [nbus], [fn] and [off] are the values of the members it
    leaves uninitialised. *)
Definition construct (dev nbus fn off : Z) (table : list ptr) : io bus unit :=
  let '(ds, n) := connect table in
  modify (λ b, b <| host := mk 0 0 dev nbus fn off ds n |>);;
  init_devices (take n ds);;
  when (0 <? Z.of_nat n) (log_device 0;; log_device 1).

(** ** Methods *)

Definition prepare_data : io bus unit :=
  modify (λ b, b <| host := (host b)
    <| bus_number := Z.land (Z.shiftr (CAP (host b)) 16) 0xFF |>
    <| device_number := Z.land (Z.shiftr (CAP (host b)) 11) 0x1F |>
    <| function_number := Z.land (Z.shiftr (CAP (host b)) 8) 0x07 |>
    <| offset_number := Z.land (CAP (host b)) 0xFF |> |>).

(** [offset_number + addr - CDP_addr] is computed on [uint32_t]. *)
Definition config_offset (b : bus) (addr : io_addr) : Z :=
  u32 (offset_number (host b) + addr - CDP_addr).

(** The common part of the accesses to the data port: [absent] is what they return
    when there is no function, [other] a further condition of the method. *)
Definition with_function {A} (other : t → bool) (absent : A) (m : nat → io bus A) : io bus A :=
  b ← get;
  tmp ← array_get (devices (host b)) (device_number (host b));
  match tmp with
  | None => mret absent
  | Some p =>
      if other (host b) || negb (function_number (host b) =? 0) then mret absent else m p
  end.

Definition never (_ : t) : bool := false.
Definition other_bus (h : t) : bool := negb (bus_number h =? 0).

Definition write_reg_long (addr : io_addr) (val : Z) : io bus unit :=
  if addr =? CAP_addr
  then modify (λ b, b <| host := (host b) <| CAP := val |> |>);; prepare_data
  else with_function never tt (λ p, b ← get;
         call p (PCIDevice.write_reg_long_PCI (config_offset b addr) val)).

Definition write_reg_word (addr : io_addr) (val : Z) : io bus unit :=
  if addr =? CAP_addr then mret tt
  else with_function never tt (λ p, b ← get;
         call p (PCIDevice.write_reg_word_PCI (config_offset b addr) val)).

Definition write_reg_byte (addr : io_addr) (val : Z) : io bus unit :=
  if addr =? CAP_addr then mret tt
  else with_function never tt (λ p, b ← get;
         call p (PCIDevice.write_reg_byte_PCI (config_offset b addr) val)).

Definition read_reg_long (addr : io_addr) : io bus Z :=
  if addr =? CAP_addr then b ← get; mret (CAP (host b))
  else with_function never 0xFFFFFFFF (λ p, b ← get;
         call p (PCIDevice.read_reg_long_PCI (config_offset b addr))).

Definition read_reg_byte (addr : io_addr) : io bus Z :=
  if addr =? CAP_addr then mret (u8 (-1))
  else with_function never 0xFF (λ p, b ← get;
         call p (PCIDevice.read_reg_byte_PCI (config_offset b addr))).

(** Only this method looks at the bus number. *)
Definition read_reg_word (addr : io_addr) : io bus Z :=
  if addr =? CAP_addr then mret (u16 (-1))
  else with_function other_bus 0xFFFF (λ p, b ← get;
         call p (PCIDevice.read_reg_word_PCI (config_offset b addr))).

#[global] Instance ops : IODeviceOps bus := {|
  dev_write_byte := write_reg_byte;
  dev_write_word := write_reg_word;
  dev_write_long := write_reg_long;
  dev_read_byte := read_reg_byte;
  dev_read_word := read_reg_word;
  dev_read_long := read_reg_long |}.

(** ** Well-formedness *)

(** The table points to objects only, and a device has been selected. *)
Record wf (b : bus) : Prop := {
  wf_devices : length (devices (host b)) = 32%nat;
  wf_pointers : Forall (from_option (λ p, (p < length (objects b))%nat) True)
                       (devices (host b));
  wf_objects : Forall PCIDevice.wf (objects b);
}.

Record selected (b : bus) : Prop := {
  sel_device : 0 ≤ device_number (host b) < 32;
  sel_offset : 0 ≤ offset_number (host b) < 256;
}.

(** The ports of the data register, as the exit loop selects them. *)
Definition data_port (addr : Z) : Prop := 0xCFC ≤ addr ≤ 0xCFF.
Definition host_port (addr : Z) : Prop := addr = CAP_addr ∨ data_port addr.

(** ** The contract of the bridge *)

(** The function an address selects, if there is one. *)
Definition current (b : bus) : option nat :=
  match devices (host b) !! Z.to_nat (device_number (host b)) with
  | Some (Some p) => if function_number (host b) =? 0 then Some p else None
  | _ => None
  end.

(** What reads give when there is no function. *)
Definition all_ones (a : access) : Z :=
  match a with
  | ReadByte _ => 0xFF | ReadWord _ => 0xFFFF | ReadLong _ => 0xFFFFFFFF
  | _ => 0
  end.

Definition is_word_read (a : access) : bool :=
  match a with ReadWord _ => true | _ => false end.

(** An access to the data port is one to the configuration space of the selected
    function. *)
Definition data_spec (a : access) (b : bus) : Z * bus :=
  match current b with
  | Some p =>
      if is_word_read a && negb (bus_number (host b) =? 0) then (all_ones a, b)
      else
        match objects b !! p with
        | Some o =>
            let r := PCIDevice.config_spec
              (PCI_ATA.at_port a (offset_number (host b) + (PCIDevice.access_offset a - 0xCFC))) o
            in (r.1, b <| objects := <[p := r.2]> (objects b) |>)
        | None => (all_ones a, b)
        end
  | None => (all_ones a, b)
  end.

(** ** The methods implement the contract *)

Lemma current_range b p : wf b → current b = Some p → (p < length (objects b))%nat.
Proof.
  intros Hb Hc. unfold current in Hc.
  destruct (devices (host b) !! _) as [[p'|]|] eqn:Hl; try done.
  destruct (_ =? 0); [|done]. injection Hc as ->.
  exact (Forall_lookup_1 _ _ _ _ (wf_pointers b Hb) Hl).
Qed.

Lemma with_function_run {A} other (absent : A) m b :
  wf b → selected b →
  with_function other absent m b =
  match current b with
  | Some p => if other (host b) then Done (absent, b, []) else m p b
  | None => Done (absent, b, [])
  end.
Proof.
  intros Hb [Hd _]. unfold with_function, current.
  erewrite bind_done by reflexivity.
  destruct (lookup_lt_is_Some_2 (devices (host b)) (Z.to_nat (device_number (host b))))
    as [p Hp]; [rewrite (wf_devices b Hb); lia|].
  erewrite bind_done by (apply array_get_in; [lia|exact Hp]). rewrite Hp.
  destruct p as [p|]; [|done]. destruct (other (host b)), (_ =? 0); cbn [orb negb]; try done.
  by destruct (m p b) as [[[? ?] ?]|].
Qed.

Lemma call_run {A} p (m : io PCIDevice.t A) b o a o' :
  objects b !! p = Some o → m o = Done (a, o', []) →
  call p m b = Done (a, b <| objects := <[p := o']> (objects b) |>, []).
Proof. intros Ho Hm. unfold call. by rewrite Ho, Hm. Qed.

(** The call that reaches the configuration space. *)
Lemma config_call b a p o :
  wf b → selected b → data_port (PCIDevice.access_offset a) → objects b !! p = Some o →
  let offset := config_offset b (PCIDevice.access_offset a) in
  offset = offset_number (host b) + (PCIDevice.access_offset a - 0xCFC) ∧
  PCIDevice.config_access (PCI_ATA.at_port a offset) o =
    Done ((PCIDevice.config_spec (PCI_ATA.at_port a offset) o).1,
          (PCIDevice.config_spec (PCI_ATA.at_port a offset) o).2, []).
Proof.
  intros Hb [_ Ho] Hp Hobj offset. unfold data_port in Hp.
  assert (offset = offset_number (host b) + (PCIDevice.access_offset a - 0xCFC)) as He
    by (subst offset; unfold config_offset, CDP_addr; width_lia).
  split; [exact He|]. clearbody offset.
  apply PCIDevice.config_access_run.
  - exact (Forall_lookup_1 _ _ _ _ (wf_objects b Hb) Hobj).
  - destruct a; cbn in *; lia.
  - destruct a; cbn in *; lia.
Qed.

Lemma with_call_run {A} other (absent : A) (m : Z → io PCIDevice.t A) addr b :
  wf b → selected b →
  with_function other absent (λ p, b ← get; call p (m (config_offset b addr))) b =
  match current b with
  | Some p => if other (host b) then Done (absent, b, [])
              else call p (m (config_offset b addr)) b
  | None => Done (absent, b, [])
  end.
Proof.
  intros Hb Hs. rewrite with_function_run by done. destruct (current b); [|done].
  destruct (other (host b)); [done|]. erewrite bind_done by reflexivity.
  by destruct (call _ _ b) as [[[? ?] ?]|].
Qed.

(** A reading method implements the contract if the configuration space does. *)
Lemma read_method a (m : Z → io PCIDevice.t Z) other b :
  wf b → selected b → data_port (PCIDevice.access_offset a) →
  (∀ off, PCIDevice.config_access (PCI_ATA.at_port a off) = m off) →
  (∀ h, other h = is_word_read a && negb (bus_number h =? 0)) →
  with_function other (all_ones a)
    (λ p, b ← get; call p (m (config_offset b (PCIDevice.access_offset a)))) b =
  Done ((data_spec a b).1, (data_spec a b).2, []).
Proof.
  intros Hb Hs Hp Hm Hother. rewrite with_call_run by done. unfold data_spec.
  pose proof (current_range b) as Hcur. destruct (current b) as [p|]; [|done].
  rewrite Hother. destruct (is_word_read a && _); [done|].
  destruct (lookup_lt_is_Some_2 (objects b) p) as [o Ho]; [by apply Hcur|]. rewrite Ho.
  destruct (config_call b a p o) as [He Hc]; [done..|]. rewrite <- He.
  rewrite Hm in Hc. by apply call_run with o.
Qed.

(** A method that returns nothing, from the access that returns 0. *)
Lemma write_result {S} (m : io S unit) s s' :
  (m;; mret 0) s = Done (0, s', []) → m s = Done (tt, s', []).
Proof.
  unfold mbind, io_bind. destruct (m s) as [[[[] s1] ev]|]; [|done]. cbn.
  rewrite app_nil_r. congruence.
Qed.

Definition is_write (a : access) : bool :=
  match a with WriteByte _ _ | WriteWord _ _ | WriteLong _ _ => true | _ => false end.

Lemma write_method a (m : Z → io PCIDevice.t unit) b :
  wf b → selected b → data_port (PCIDevice.access_offset a) → is_write a = true →
  (∀ off, PCIDevice.config_access (PCI_ATA.at_port a off) = (m off;; mret 0)) →
  ((with_function never tt
     (λ p, b ← get; call p (m (config_offset b (PCIDevice.access_offset a)))));; mret 0) b =
  Done ((data_spec a b).1, (data_spec a b).2, []).
Proof.
  intros Hb Hs Hp Hw Hm. pose proof (with_call_run never tt m) as Hrun.
  specialize (Hrun (PCIDevice.access_offset a) b Hb Hs).
  pose proof (current_range b) as Hcur. unfold data_spec.
  assert (is_word_read a = false ∧ all_ones a = 0) as [-> ->] by by destruct a.
  destruct (current b) as [p|]; [|by erewrite bind_done by exact Hrun].
  cbn [never andb] in *.
  destruct (lookup_lt_is_Some_2 (objects b) p) as [o Ho]; [by apply Hcur|]. rewrite Ho.
  destruct (config_call b a p o) as [He Hc]; [done..|]. rewrite <- He.
  rewrite Hm in Hc.
  assert ((PCIDevice.config_spec (PCI_ATA.at_port a
    (config_offset b (PCIDevice.access_offset a))) o).1 = 0) as H0
    by (unfold PCIDevice.config_spec; destruct a; try done; by case_decide).
  rewrite H0 in Hc |- *. apply write_result in Hc.
  erewrite bind_done by (rewrite Hrun; by apply call_run with o). done.
Qed.

Lemma data_access_run a b :
  wf b → selected b → data_port (PCIDevice.access_offset a) →
  dev_access a b = Done ((data_spec a b).1, (data_spec a b).2, []).
Proof.
  intros Hb Hs Hp.
  assert ((PCIDevice.access_offset a =? CAP_addr) = false) as Hcap
    by (apply Z.eqb_neq; unfold data_port, CAP_addr in *; lia).
  destruct a as [addr v|addr v|addr v|addr|addr|addr];
    cbn [dev_access dev_write_byte dev_write_word dev_write_long dev_read_byte
         dev_read_word dev_read_long ops PCIDevice.access_offset] in *;
    unfold write_reg_byte, write_reg_word, write_reg_long,
      read_reg_byte, read_reg_word, read_reg_long; rewrite Hcap.
  - by apply (write_method (WriteByte addr v) (λ o, PCIDevice.write_reg_byte_PCI o v)).
  - by apply (write_method (WriteWord addr v) (λ o, PCIDevice.write_reg_word_PCI o v)).
  - by apply (write_method (WriteLong addr v) (λ o, PCIDevice.write_reg_long_PCI o v)).
  - by apply (read_method (ReadByte addr) PCIDevice.read_reg_byte_PCI).
  - by apply (read_method (ReadWord addr) PCIDevice.read_reg_word_PCI).
  - by apply (read_method (ReadLong addr) PCIDevice.read_reg_long_PCI).
Qed.

Lemma data_spec_wf a b : wf b → wf (data_spec a b).2.
Proof.
  intros Hb. unfold data_spec. pose proof (current_range b) as Hcur.
  destruct (current b) as [p|]; [|done]. destruct (_ && _); [done|].
  destruct (objects b !! p) as [o|] eqn:Ho; [|done]. cbn [snd]. destruct Hb as [Hd Hp Hobj].
  split; cbn [host objects upd]; [done|by rewrite length_insert|].
  apply Forall_insert; [done|]. apply PCIDevice.config_spec_wf.
  exact (Forall_lookup_1 _ _ _ _ Hobj Ho).
Qed.

(** ** The selection of a function *)

(** Bus, device, function and offset in the address register. *)
Definition address (nbus dev fn off : Z) : Z :=
  0x80000000 + nbus * 65536 + dev * 2048 + fn * 256 + off.

Definition select (nbus dev fn off : Z) (b : bus) : bus :=
  b <| host := (host b) <| CAP := address nbus dev fn off |> <| bus_number := nbus |>
    <| device_number := dev |> <| function_number := fn |> <| offset_number := off |> |>.

Lemma address_fields nbus dev fn off :
  is_u8 nbus → 0 ≤ dev < 32 → 0 ≤ fn < 8 → is_u8 off →
  let cap := address nbus dev fn off in
  Z.land (Z.shiftr cap 16) 0xFF = nbus ∧ Z.land (Z.shiftr cap 11) 0x1F = dev ∧
  Z.land (Z.shiftr cap 8) 0x07 = fn ∧ Z.land cap 0xFF = off.
Proof.
  intros Hn Hd Hf Ho cap.
  change 0xFF with (2 ^ 8 - 1). change 0x1F with (2 ^ 5 - 1). change 0x07 with (2 ^ 3 - 1).
  rewrite !land_ones_mod, !Z.shiftr_div_pow2 by lia.
  change (2 ^ 16) with 65536. change (2 ^ 11) with 2048. change (2 ^ 8) with 256.
  change (2 ^ 5) with 32. change (2 ^ 3) with 8. subst cap. unfold address, is_u8 in *.
  split_and!; Z.div_mod_to_equations; lia.
Qed.

Lemma select_run nbus dev fn off b :
  is_u8 nbus → 0 ≤ dev < 32 → 0 ≤ fn < 8 → is_u8 off →
  write_reg_long CAP_addr (address nbus dev fn off) b = Done (tt, select nbus dev fn off b, []).
Proof.
  intros Hn Hd Hf Ho. unfold write_reg_long. rewrite Z.eqb_refl.
  destruct (address_fields nbus dev fn off) as (E1 & E2 & E3 & E4); [done..|].
  unfold prepare_data, select. erewrite bind_done by reflexivity.
  unfold modify. cbn [upd host CAP objects]. by rewrite E1, E2, E3, E4.
Qed.

Lemma select_wf nbus dev fn off b :
  wf b → 0 ≤ dev < 32 → is_u8 off →
  wf (select nbus dev fn off b) ∧ selected (select nbus dev fn off b).
Proof. intros [] Hd Ho. split; by split. Qed.

(** A configuration cycle: the address, then the access. *)
Definition cycle (nbus dev fn off : Z) (a : access) : list access :=
  [WriteLong CAP_addr (address nbus dev fn off); a].

Lemma cycle_run b nbus dev fn off a :
  wf b → is_u8 nbus → 0 ≤ dev < 32 → 0 ≤ fn < 8 → is_u8 off →
  data_port (PCIDevice.access_offset a) →
  let s := select nbus dev fn off b in
  run dev_access (cycle nbus dev fn off a) b =
    Done ([0; (data_spec a s).1], (data_spec a s).2, []) ∧ wf (data_spec a s).2.
Proof.
  intros Hb Hn Hd Hf Ho Hp s.
  destruct (select_wf nbus dev fn off b) as [Hs Hsel]; [done..|].
  split; [|by apply data_spec_wf]. unfold cycle. rewrite run_cons.
  change (dev_access (WriteLong CAP_addr (address nbus dev fn off)) b)
    with ((write_reg_long CAP_addr (address nbus dev fn off);; mret 0) b).
  erewrite bind_done by by apply select_run. cbn [mret io_ret].
  rewrite run_cons, data_access_run by done. done.
Qed.

(** An access by the exit loop. *)
Definition valid (a : access) : Prop := host_port (PCIDevice.access_offset a).

#[export] Instance valid_dec a : Decision (valid a).
Proof. unfold valid, host_port, data_port. apply _. Defined.

Lemma cap_access_run a b :
  PCIDevice.access_offset a = CAP_addr → wf b →
  ∃ r b', dev_access a b = Done (r, b', []) ∧ wf b' ∧ (selected b → selected b') ∧
    (∀ v, a = WriteLong CAP_addr v → selected b').
Proof.
  intros Ha Hb. destruct a as [addr v|addr v|addr v|addr|addr|addr];
    cbn [PCIDevice.access_offset] in Ha; subst addr;
    try (eexists _, b; split; [reflexivity|]; by split_and!).
  eexists _, _. split; [reflexivity|].
  assert (selected (b <| host := (host b) <| CAP := v |>
    <| bus_number := Z.land (Z.shiftr v 16) 0xFF |>
    <| device_number := Z.land (Z.shiftr v 11) 0x1F |>
    <| function_number := Z.land (Z.shiftr v 8) 0x07 |>
    <| offset_number := Z.land v 0xFF |> |>)) as Hsel.
  { split; cbn [upd host device_number offset_number].
    - change 0x1F with (2 ^ 5 - 1). rewrite land_ones_mod by lia.
      by apply (Z.mod_pos_bound _ 32).
    - change 0xFF with (2 ^ 8 - 1). rewrite land_ones_mod by lia.
      by apply (Z.mod_pos_bound _ 256). }
  split; [destruct Hb; by split|]. split; [intros _; exact Hsel|]. intros _ _. exact Hsel.
Qed.

Lemma data_spec_selected a b : selected b → selected (data_spec a b).2.
Proof.
  intros [Hd Ho]. unfold data_spec. destruct (current b); [|done].
  destruct (_ && _); [done|]. destruct (objects b !! _); done.
Qed.

Lemma access_safe a b :
  wf b → selected b → valid a →
  ∃ r b', dev_access a b = Done (r, b', []) ∧ wf b' ∧ selected b'.
Proof.
  intros Hb Hs [Ha|Ha].
  - destruct (cap_access_run a b Ha Hb) as (r & b' & Hr & Hwf & Hsel & _). eauto 10.
  - rewrite data_access_run by done. do 2 eexists. split; [done|].
    split; [by apply data_spec_wf|by apply data_spec_selected].
Qed.

(** No access changes the table of the functions. *)
Lemma access_table a b r b' ev :
  wf b → selected b → valid a → dev_access a b = Done (r, b', ev) →
  devices (host b') = devices (host b).
Proof.
  intros Hb Hs [Ha|Ha] Hrun.
  - destruct a as [addr v|addr v|addr v|addr|addr|addr]; cbn [PCIDevice.access_offset] in Ha;
      subst addr; injection Hrun as <- <- <-; reflexivity.
  - rewrite data_access_run in Hrun by done. injection Hrun as <- <- <-.
    unfold data_spec. repeat (case_match; try done).
Qed.

Lemma accesses_safe ops b :
  wf b → selected b → Forall valid ops →
  ∃ rs b', run dev_access ops b = Done (rs, b', []) ∧ wf b' ∧ selected b' ∧
    length rs = length ops.
Proof.
  intros Hb Hs Hv. revert b Hb Hs. induction Hv as [|a ops Ha _ IH]; intros b Hb Hs.
  { by exists [], b. }
  destruct (access_safe a b) as (r & b1 & Hr & Hb1 & Hs1); [done..|].
  destruct (IH b1) as (rs & b' & Hrs & Hb' & Hs' & Hlen); [done..|].
  exists (r :: rs), b'. rewrite run_cons, Hr, Hrs. cbn. auto with lia.
Qed.

(** C28. Once the guest has written the address register, every access to the host bridge's
    ports, of every width and direction, is answered without a fault and keeps the bus well
    formed, whatever the address written. *)
Theorem host_safe b ops v :
  wf b → Forall valid ops →
  ∃ rs b', run dev_access (WriteLong CAP_addr v :: ops) b = Done (rs, b', []) ∧
    wf b' ∧ selected b' ∧ length rs = S (length ops).
Proof.
  intros Hb Hv.
  destruct (cap_access_run (WriteLong CAP_addr v) b eq_refl Hb) as (r & b1 & Hr & Hb1 & _ & Hs1).
  destruct (accesses_safe ops b1) as (rs & b' & Hrs & Hb' & Hs' & Hlen); [done|by eapply Hs1|done|].
  exists (r :: rs), b'. rewrite run_cons, Hr, Hrs. cbn. auto with lia.
Qed.

(** Before the first address write the device number is whatever memory held; from 32 on, a
    data access leaves the table. *)
Theorem host_uninitialised b a :
  length (devices (host b)) = 32%nat → data_port (PCIDevice.access_offset a) →
  32 ≤ device_number (host b) → dev_access a b = Halt OutOfBounds.
Proof.
  intros Hl Ha Hd.
  assert ((PCIDevice.access_offset a =? CAP_addr) = false) as Hcap
    by (apply Z.eqb_neq; unfold data_port, CAP_addr in *; lia).
  assert (∀ A other (absent : A) m, with_function other absent m b = Halt OutOfBounds) as Hw.
  { intros. unfold with_function. erewrite bind_done by reflexivity.
    by erewrite bind_halt by (apply array_get_out; lia). }
  destruct a as [addr v|addr v|addr v|addr|addr|addr];
    cbn [dev_access dev_write_byte dev_write_word dev_write_long dev_read_byte
         dev_read_word dev_read_long ops PCIDevice.access_offset] in *;
    unfold write_reg_byte, write_reg_word, write_reg_long,
      read_reg_byte, read_reg_word, read_reg_long; rewrite Hcap;
    first [by apply bind_halt|done].
Qed.

(** C29. A configuration cycle, an address write followed by one data access, reads or
    writes exactly the addressed bytes of the registers of the device that has the addressed
    number, and gives all ones for an absent device or function. The bus number is ignored,
    and every bus answers as bus 0, except by a 16-bit read, which gives all ones on any
    other bus. *)
Theorem host_cycle b nbus dev fn off a :
  wf b → is_u8 nbus → 0 ≤ dev < 32 → 0 ≤ fn < 8 → is_u8 off →
  data_port (PCIDevice.access_offset a) →
  let s := select nbus dev fn off b in
  run dev_access (cycle nbus dev fn off a) b =
    Done ([0; (data_spec a s).1], (data_spec a s).2, []) ∧ wf (data_spec a s).2.
Proof. apply cycle_run. Qed.

(** The bus number is compared by the 16-bit read only: a 32-bit read of another bus answers
    as bus 0. *)
Theorem host_bus_ignored b nbus dev fn off port :
  wf b → is_u8 nbus → nbus ≠ 0 → 0 ≤ dev < 32 → 0 ≤ fn < 8 → is_u8 off → data_port port →
  ∃ r b0 b1 b2,
    run dev_access (cycle 0 dev fn off (ReadLong port)) b = Done ([0; r], b0, []) ∧
    run dev_access (cycle nbus dev fn off (ReadLong port)) b = Done ([0; r], b1, []) ∧
    run dev_access (cycle nbus dev fn off (ReadWord port)) b = Done ([0; 0xFFFF], b2, []).
Proof.
  intros Hb Hn Hne Hd Hf Ho Hp.
  assert (is_u8 0) as H0 by (unfold is_u8; lia).
  pose proof (cycle_run b 0 dev fn off (ReadLong port) Hb H0 Hd Hf Ho Hp) as [E0 _].
  pose proof (cycle_run b nbus dev fn off (ReadLong port) Hb Hn Hd Hf Ho Hp) as [E1 _].
  pose proof (cycle_run b nbus dev fn off (ReadWord port) Hb Hn Hd Hf Ho Hp) as [E2 _].
  assert ((data_spec (ReadLong port) (select nbus dev fn off b)).1 =
          (data_spec (ReadLong port) (select 0 dev fn off b)).1) as E3.
  { unfold data_spec.
    change (current (select nbus dev fn off b)) with (current (select 0 dev fn off b)).
    destruct (current _) as [p|]; [|done]. cbn [is_word_read andb].
    change (objects (select nbus dev fn off b)) with (objects (select 0 dev fn off b)).
    by destruct (objects _ !! p). }
  assert ((data_spec (ReadWord port) (select nbus dev fn off b)).1 = 0xFFFF) as E4.
  { unfold data_spec. destruct (current _) as [p|]; [|done].
    cbn [is_word_read andb]. change (bus_number (host (select nbus dev fn off b))) with nbus.
    by rewrite (proj2 (Z.eqb_neq nbus 0)). }
  rewrite E0, E1, E2, E3, E4. do 4 eexists. done.
Qed.

(** ** The constructor *)

(** The pointers of a table that are not null. *)
Definition connected_only (table : list ptr) : list ptr := filter is_Some table.

Lemma connect_from l0 k ps :
  (length (connected_only ps) ≤ k)%nat →
  foldl (λ '(devices, connected) p,
           match p with
           | None => (devices, connected)
           | Some _ => (<[connected := p]> devices, S connected)
           end) (l0 ++ replicate k None, length l0) ps =
  (l0 ++ connected_only ps ++ replicate (k - length (connected_only ps)) None,
   (length l0 + length (connected_only ps))%nat).
Proof.
  revert l0 k. induction ps as [|[p|] ps IH]; intros l0 k Hk.
  - cbn. by rewrite Nat.sub_0_r, Nat.add_0_r.
  - assert (connected_only (Some p :: ps) = Some p :: connected_only ps) as Hc by done.
    rewrite Hc in *. cbn [length foldl] in *. destruct k as [|k]; [lia|].
    replace (<[length l0 := Some p]> (l0 ++ replicate (S k) None))
      with ((l0 ++ [Some p]) ++ replicate k None).
    2: { rewrite <- (Nat.add_0_r (length l0)) at 1. rewrite insert_app_r. cbn.
         by rewrite <- app_assoc. }
    pose proof (IH (l0 ++ [Some p]) k ltac:(lia)) as IHk.
    rewrite length_app in IHk. cbn [length] in IHk. rewrite Nat.add_1_r in IHk.
    rewrite IHk, <- app_assoc. cbn. f_equal. lia.
  - by apply IH.
Qed.

Lemma connect_run table :
  length table = 32%nat →
  connect table =
  (connected_only table ++ replicate (32 - length (connected_only table)) None,
   length (connected_only table)).
Proof.
  intros Hl. unfold connect. rewrite take_ge by lia.
  apply (connect_from [] 32). unfold connected_only. rewrite <- Hl. apply length_filter.
Qed.

Lemma init_devices_run ps b :
  Forall is_Some ps → Forall (from_option (λ p, (p < length (objects b))%nat) True) ps →
  Forall PCIDevice.wf (objects b) →
  ∃ b', init_devices ps b = Done (tt, b', []) ∧ host b' = host b ∧
    length (objects b') = length (objects b) ∧ Forall PCIDevice.wf (objects b').
Proof.
  intros Hs. revert b. induction Hs as [|p ps [q ->] _ IH]; intros b Hp Hobj.
  { by exists b. }
  apply Forall_cons in Hp as [Hq Hp]. cbn in Hq.
  destruct (lookup_lt_is_Some_2 (objects b) q Hq) as [o Ho].
  set (b1 := b <| objects := <[q := init_bars o]> (objects b) |>).
  destruct (IH b1) as (b' & Hrun & Hh & Hlen & Hwf).
  - cbn. by rewrite length_insert.
  - cbn. apply Forall_insert; [done|]. pose proof (Forall_lookup_1 _ _ _ _ Hobj Ho) as Hw.
    unfold init_bars. destruct (_ =? _); [|done].
    unfold PCIDevice.setBar. cbn [Z.ltb orb Z.compare Pos.compare Pos.compare_cont].
    by repeat apply PCIDevice.set_field_wf.
  - exists b'. cbn [init_devices].
    erewrite bind_done by (by apply call_run with o). fold b1. rewrite Hrun.
    split; [done|]. split; [done|]. split; [|done]. rewrite Hlen. apply length_insert.
Qed.

Lemma log_device_run i b p :
  devices (host b) !! i = Some (Some p) → (p < length (objects b))%nat →
  log_device i b = Done (tt, b, []).
Proof.
  intros Hi Hp. unfold log_device. erewrite bind_done by reflexivity.
  erewrite bind_done by (apply array_get_in; [lia|by rewrite Nat2Z.id]).
  destruct (lookup_lt_is_Some_2 (objects b) p Hp) as [o Ho].
  erewrite call_run; [|exact Ho|reflexivity]. rewrite list_insert_id by done. by destruct b.
Qed.

Lemma log_device_null i b :
  devices (host b) !! i = Some None → log_device i b = Halt NullDeref.
Proof.
  intros Hi. unfold log_device. erewrite bind_done by reflexivity.
  by erewrite bind_done by (apply array_get_in; [lia|by rewrite Nat2Z.id]).
Qed.

Lemma connected_only_props (P : ptr → Prop) table :
  Forall P table → Forall is_Some (connected_only table) ∧ Forall P (connected_only table).
Proof.
  intros Hp. unfold connected_only. rewrite !Forall_forall in *.
  split; intros p [Hs Hin]%list_elem_of_filter; [done|]. by apply Hp.
Qed.

(** The constructor packs the connected devices at the front of the table, in order, counts
    them and gives a well-formed bus; with exactly one device its log of device 1
    dereferences a null pointer. *)
Theorem host_constructed dev nbus fn off table b0 :
  length table = 32%nat →
  Forall (from_option (λ p, (p < length (objects b0))%nat) True) table →
  Forall PCIDevice.wf (objects b0) →
  let ds := connected_only table in
  if decide (length ds = 1%nat) then construct dev nbus fn off table b0 = Halt NullDeref
  else ∃ b, construct dev nbus fn off table b0 = Done (tt, b, []) ∧ wf b ∧
    devices (host b) = ds ++ replicate (32 - length ds) None ∧ connected (host b) = length ds.
Proof.
  intros Hl Hp Hobj ds. unfold construct. rewrite connect_run by done. fold ds.
  destruct (connected_only_props _ table Hp) as [Hsome Hpd]. fold ds in Hsome, Hpd.
  assert (length ds ≤ 32)%nat as Hds by (rewrite <- Hl; apply length_filter).
  rewrite take_app_length. erewrite bind_done by reflexivity.
  set (b1 := b0 <| host := _ |>).
  destruct (init_devices_run ds b1) as (b & Hrun & Hh & Hlen & Hwf); [done..|].
  erewrite bind_done by exact Hrun.
  assert (devices (host b) = ds ++ replicate (32 - length ds) None) as Hdev by by rewrite Hh.
  assert (connected (host b) = length ds) as Hconn by by rewrite Hh.
  assert (wf b) as Hb.
  { split; [|rewrite Hdev, Hlen|done].
    - rewrite Hdev, length_app, length_replicate. lia.
    - apply Forall_app. split; [done|]. by apply Forall_replicate. }
  assert (∀ i, (i < length ds)%nat → log_device i b = Done (tt, b, [])) as Hlog.
  { intros i Hi. destruct (lookup_lt_is_Some_2 ds i Hi) as [p Hip].
    destruct (Forall_lookup_1 _ _ _ _ Hsome Hip) as [q ->].
    apply log_device_run with q; [by rewrite Hdev, lookup_app_l|].
    rewrite Hlen. exact (Forall_lookup_1 _ _ _ _ Hpd Hip). }
  case_decide as H1.
  - rewrite H1. change (0 <? Z.of_nat 1) with true. unfold when.
    erewrite bind_done by (apply Hlog; lia). rewrite log_device_null; [done|].
    rewrite Hdev, lookup_app_r by lia. rewrite H1. done.
  - exists b. split; [|done]. destruct (Nat.eq_dec (length ds) 0) as [->|H0]; [done|].
    rewrite (proj2 (Z.ltb_lt _ _)) by lia. unfold when.
    erewrite bind_done by (apply Hlog; lia). rewrite Hlog by lia. done.
Qed.

(** ** The supervisor's bus *)

(** [connected_PCI_devices], as [initIO] fills it: the ATA bridge and the APIC
    function. *)
Definition kvm_objects : list PCIDevice.t :=
  [PCI_ATA.init PCIDevice.zeros; PCI_APIC.init PCIDevice.zeros].
Definition kvm_table : list ptr := Some 0%nat :: Some 1%nat :: replicate 30 None.
Definition no_host : t := mk 0 0 0 0 0 0 [] 0.
Definition kvm_construct (dev nbus fn off : Z) : io bus unit :=
  construct dev nbus fn off kvm_table.
Definition kvm_bus : bus := mk_bus no_host kvm_objects.

Lemma kvm_objects_wf : Forall PCIDevice.wf kvm_objects.
Proof.
  unfold kvm_objects. apply Forall_cons_2; [apply PCI_ATA.ata_init_wf, PCIDevice.zeros_wf|].
  apply Forall_cons_2; [apply PCI_APIC.apic_init_wf, PCIDevice.zeros_wf|done].
Qed.

Lemma host_constructed_witness :
  length kvm_table = 32%nat ∧ Forall PCIDevice.wf kvm_objects ∧
  (∃ b, construct 77 0 0 0 kvm_table kvm_bus = Done (tt, b, []) ∧ wf b ∧
    devices (host b) = kvm_table ∧ connected (host b) = 2%nat) ∧
  construct 0 0 0 0 (Some 0%nat :: replicate 31 None) kvm_bus = Halt NullDeref.
Proof.
  assert (∀ n, Forall (from_option (λ p, (p < 2)%nat) True) (replicate n (None : ptr))) as Hr.
  { intros n. by apply Forall_replicate. }
  split; [reflexivity|]. split; [exact kvm_objects_wf|]. split.
  - refine (host_constructed 77 0 0 0 kvm_table kvm_bus eq_refl _ kvm_objects_wf).
    constructor; [cbn; lia|]. constructor; [cbn; lia|]. apply Hr.
  - refine (host_constructed 0 0 0 0 (Some 0%nat :: replicate 31 None) kvm_bus eq_refl _
      kvm_objects_wf).
    constructor; [cbn; lia|]. apply Hr.
Defined.

(** A scan of the bus: the identity of every device, then the class and the ports of
    the first. *)
Definition scan : list access :=
  concat (map (λ d, cycle 0 d 0 0 (ReadLong 0xCFC)) (seqZ 0 32)) ++
  cycle 0 0 0 0x0A (ReadWord 0xCFC) ++
  cycle 0 0 0 0x10 (ReadLong 0xCFC) ++ cycle 0 0 0 0x14 (ReadLong 0xCFC).

(** The bus of the supervisor after its construction. *)
Definition constructed (dev nbus fn off : Z) : bus :=
  match kvm_construct dev nbus fn off kvm_bus with Done (_, b, _) => b | Halt _ => kvm_bus end.
Definition started (dev : Z) : bus := constructed dev 0 0 0.

(** A guest that scans the 32 devices of the machine's bus, whatever the bridge's fields
    held before, finds the ATA bridge and the APIC bridge with their identifiers and all
    ones elsewhere, and then reads the ATA class code and its two base registers. *)
Theorem host_scan dev nbus fn off :
  ∃ b, kvm_construct dev nbus fn off kvm_bus = Done (tt, b, []) ∧
    match run dev_access scan b with
    | Done (rs, _, _) => rs =
        [0; 0x88887777; 0; 0x70008086] ++ concat (replicate 30 [0; 0xFFFFFFFF]) ++
        [0; 0x0101; 0; 0x01F0; 0; 0x03F6]
    | Halt _ => False
    end.
Proof. exists (constructed dev nbus fn off). split; vm_compute; reflexivity. Qed.

Definition started_objects : list PCIDevice.t := Eval vm_compute in objects (constructed 0 0 0 0).

Lemma constructed_objects dev nbus fn off : objects (constructed dev nbus fn off) = started_objects.
Proof. vm_compute. reflexivity. Qed.

Lemma constructed_devices dev nbus fn off : devices (host (constructed dev nbus fn off)) = kvm_table.
Proof. vm_compute. reflexivity. Qed.

Lemma started_objects_wf : Forall PCIDevice.wf started_objects.
Proof.
  assert (∀ o, bool_decide (length o = 192%nat ∧ Forall is_u8 o) = true → PCIDevice.wf o) as H.
  { intros o Hb. apply bool_decide_eq_true in Hb as [Hl Hb]. by split. }
  unfold started_objects. repeat (apply Forall_cons_2; [apply H; vm_compute; reflexivity|]).
  apply Forall_nil_2.
Qed.

Lemma constructed_wf dev nbus fn off : wf (constructed dev nbus fn off).
Proof.
  pose proof (constructed_objects dev nbus fn off) as Ho.
  pose proof (constructed_devices dev nbus fn off) as Hd.
  revert Ho Hd. generalize (constructed dev nbus fn off). intros b Ho Hd.
  pose proof started_objects_wf as Hw. assert (length started_objects = 2%nat) as Hl by done.
  rewrite <- Ho in Hw, Hl. clear Ho. split; [by rewrite Hd| |done].
  rewrite Hd, Hl. constructor; [cbn; lia|]. constructor; [cbn; lia|]. by apply Forall_replicate.
Qed.

Lemma started_wf : wf (started 0).
Proof. unfold started. exact (constructed_wf 0 0 0 0). Qed.

Lemma host_cycle_witness :
  wf (started 0) ∧ is_u8 0x10 ∧ data_port 0xCFC ∧
  let s := select 0 0 0 0x10 (started 0) in
  run dev_access (cycle 0 0 0 0x10 (WriteLong 0xCFC 0xc000)) (started 0) =
    Done ([0; (data_spec (WriteLong 0xCFC 0xc000) s).1],
          (data_spec (WriteLong 0xCFC 0xc000) s).2, []) ∧
  wf (data_spec (WriteLong 0xCFC 0xc000) s).2.
Proof.
  assert (is_u8 0x10) as H by (unfold is_u8; lia).
  assert (data_port 0xCFC) as Hp by (unfold data_port; lia).
  split; [exact started_wf|]. split; [exact H|]. split; [exact Hp|].
  exact (host_cycle (started 0) 0 0 0 0x10 (WriteLong 0xCFC 0xc000) started_wf
    ltac:(unfold is_u8; lia) ltac:(lia) ltac:(lia) H Hp).
Defined.

Lemma host_bus_ignored_witness :
  wf (started 0) ∧ ∃ r b0 b1 b2,
    run dev_access (cycle 0 0 0 0 (ReadLong 0xCFC)) (started 0) = Done ([0; r], b0, []) ∧
    run dev_access (cycle 9 0 0 0 (ReadLong 0xCFC)) (started 0) = Done ([0; r], b1, []) ∧
    run dev_access (cycle 9 0 0 0 (ReadWord 0xCFC)) (started 0) = Done ([0; 0xFFFF], b2, []).
Proof.
  split; [exact started_wf|].
  apply (host_bus_ignored (started 0) 9 0 0 0 0xCFC);
    first [exact started_wf|unfold is_u8, data_port; lia].
Defined.

Lemma host_safe_witness :
  wf (started 0) ∧ Forall valid scan ∧
  ∃ rs b', run dev_access (WriteLong CAP_addr 0 :: scan) (started 0) = Done (rs, b', []) ∧
    wf b' ∧ selected b' ∧ length rs = S (length scan).
Proof.
  assert (Forall valid scan) as Hv.
  { apply (bool_decide_unpack _). vm_compute. exact I. }
  split; [exact started_wf|]. split; [exact Hv|].
  exact (host_safe (started 0) scan 0 started_wf Hv).
Defined.

Lemma host_uninitialised_witness :
  length (devices (host (started 4000))) = 32%nat ∧ data_port 0xCFC ∧
  32 ≤ device_number (host (started 4000)) ∧
  dev_access (ReadLong 0xCFC) (started 4000) = Halt OutOfBounds.
Proof.
  assert (data_port 0xCFC) as Hp by (unfold data_port; lia).
  assert (32 ≤ device_number (host (started 4000))) as Hd by (vm_compute; discriminate).
  split; [reflexivity|]. split; [exact Hp|]. split; [exact Hd|].
  exact (host_uninitialised (started 4000) (ReadLong 0xCFC) eq_refl Hp Hd).
Defined.

End pci_host.
