(* ===== verification/GdbServer.v ===== *)
(** * The debug stub (gdbserver/gdbserver.h, gdbserver/gdbserver.cpp)

The remote serial protocol: packets, hexadecimal encodings and the command loop
on the register cache and the memory of the guest.  The stub calls two functions of kvm.cpp,
which load the registers into the virtual CPU and set single steps; they and the global that
they change are here, and each request to KVM that they make returns what the list
[requests] says. *)

From S2P Require Import Prelude.

Module gdbserver.

(** ** Constants *)
Definition BUFMAX : Z := 400.
Definition NUMREGS : nat := 24.
Definition NUM_EXTENDEDREGS : nat := 5.
Definition NUMREGBYTES : Z := 192.

Definition AMD64_RBP_REGNUM : Z := 6.
Definition AMD64_RSP_REGNUM : Z := 7.
Definition AMD64_RIP_REGNUM : Z := 16.
Definition AMD64_EFLAGS_REGNUM : Z := 17.
Definition AMD64_CS_REGNUM : Z := 18.
Definition AMD64_SS_REGNUM : Z := 19.
Definition AMD64_DS_REGNUM : Z := 20.
Definition AMD64_ES_REGNUM : Z := 21.
Definition AMD64_FS_REGNUM : Z := 22.
Definition AMD64_GS_REGNUM : Z := 23.
Definition AMD64_CR4_REGNUM : Z := 0.
Definition AMD64_CR3_REGNUM : Z := 1.
Definition AMD64_CR2_REGNUM : Z := 2.
Definition AMD64_CR0_REGNUM : Z := 3.
Definition AMD64_EFER_REGNUM : Z := 4.

Definition SIGILL : Z := 4.
Definition SIGTRAP : Z := 5.
Definition SIGTERM : Z := 15.

(** Characters are bytes, as values in [0, 256). *)
Definition dollar : Z := 36.
Definition hash : Z := 35.
Definition plus : Z := 43.
Definition minus : Z := 45.
Definition colon : Z := 58.
Definition comma : Z := 44.
Definition semicolon : Z := 59.
Definition equals : Z := 61.

(** ** State *)

(** [guest_debug] of kvm.cpp: the control word and the debug registers. *)
Record kvm_guest_debug : Type := mk_guest_debug {
  control : Z;
  debugreg : list Z;
}.

(** A global object, which starts at zero. *)
Definition guest_debug0 : kvm_guest_debug := mk_guest_debug 0 (replicate 8 0).

Record t : Type := mk {
  input : list Z;                    (* what the client will send *)
  remcomInBuffer : list Z;
  remcomOutBuffer : list Z;
  remote_debug : bool;
  registers : list Z;                (* the cache, as unsigned 64-bit values *)
  extended_registers : list Z;
  memory : mem;                      (* guest_physical_memory *)
  guest_debug : kvm_guest_debug;
  requests : list bool;              (* whether the next requests to KVM succeed; those
                                        after the list do *)
}.

#[export] Instance eta_t : Eta t := λ s,
  mk (input s) (remcomInBuffer s) (remcomOutBuffer s) (remote_debug s)
     (registers s) (extended_registers s) (memory s) (guest_debug s) (requests s).

(** The static objects before the first packet. *)
Definition init (inp : list Z) (m : mem) (rq : list bool) : t := {|
  input := inp; remcomInBuffer := replicate 400 0; remcomOutBuffer := replicate 400 0;
  remote_debug := false; registers := replicate NUMREGS 0;
  extended_registers := replicate NUM_EXTENDEDREGS 0; memory := m;
  guest_debug := guest_debug0; requests := rq |}.

(** ** Characters *)

Definition hex (ch : Z) : Z :=
  if (97 <=? ch) && (ch <=? 102) then ch - 97 + 10
  else if (48 <=? ch) && (ch <=? 57) then ch - 48
  else if (65 <=? ch) && (ch <=? 70) then ch - 65 + 10
  else -1.

Definition hexchars : list Z := chars "0123456789abcdef".
Definition hexchar (d : Z) : Z := nth (Z.to_nat d) hexchars 0.

(** A read from the socket waits until the client sends something. *)
Definition getDebugChar : io t Z :=
  s ← get;
  match input s with
  | [] => crash NeedInput
  | c :: rest => modify (λ s, s <| input := rest |>);; mret c
  end.

Definition putDebugChar (c : Z) : io t unit := emit (DebugChar c).

Fixpoint putDebugChars (cs : list Z) : io t unit :=
  match cs with
  | [] => mret tt
  | c :: cs => putDebugChar c;; putDebugChars cs
  end.

(** ** Buffers

    A pointer into [remcomInBuffer] is an index; [in_get] and [in_set] are accesses
    through it, [out_put] stores a run of characters in [remcomOutBuffer]. *)
Definition in_get (i : Z) : io t Z := s ← get; array_get (remcomInBuffer s) i.
Definition in_set (i ch : Z) : io t unit :=
  s ← get;
  buf ← array_set (remcomInBuffer s) i ch;
  modify (λ s, s <| remcomInBuffer := buf |>).

Definition out_put (off : Z) (cs : list Z) : io t unit :=
  s ← get;
  if decide (0 ≤ off ∧ off + Z.of_nat (length cs) ≤ Z.of_nat (length (remcomOutBuffer s)))
  then modify (λ s, s <| remcomOutBuffer :=
                      list_inserts (Z.to_nat off) cs (remcomOutBuffer s) |>)
  else crash OutOfBounds.

(** [strcpy] of a literal. *)
Definition out_strcpy (lit : string) : io t unit := out_put 0 (chars lit ++ [0]).

(** ** getpacket *)

(** Wait for the start character. *)
Fixpoint wait_start (fuel : nat) : io t unit :=
  match fuel with
  | O => crash NeedInput
  | S fuel =>
      ch ← getDebugChar;
      if ch =? dollar then mret tt else wait_start fuel
  end.

(** From the label [retry] to the end of the loop on [count]: the count, the
    checksum and the last character. *)
Fixpoint read_data (fuel : nat) (count checksum : Z) : io t (Z * Z * Z) :=
  match fuel with
  | O => crash NeedInput
  | S fuel =>
      ch ← getDebugChar;
      if ch =? dollar then read_data fuel 0 0
      else if ch =? hash then mret (count, checksum, ch)
      else
        in_set count ch;;
        let checksum := u8 (checksum + ch) in
        let count := count + 1 in
        if count <? BUFMAX - 1 then read_data fuel count checksum
        else mret (count, checksum, ch)
  end.

(** The result is the index of the first character of the packet. *)
Fixpoint getpacket_loop (fuel : nat) : io t Z :=
  match fuel with
  | O => crash NeedInput
  | S fuel' =>
      wait_start fuel;;
      d ← read_data fuel 0 0;
      let '(count, checksum, ch) := d in
      in_set count 0;;
      if ch =? hash then
        c1 ← getDebugChar;
        c2 ← getDebugChar;
        let xmitcsum := u8 (Z.shiftl (hex c1) 4 + hex c2) in
        if negb (checksum =? xmitcsum) then putDebugChar minus;; getpacket_loop fuel'
        else
          putDebugChar plus;;
          c ← in_get 2;
          if c =? colon then
            c0 ← in_get 0; putDebugChar c0;;
            c1 ← in_get 1; putDebugChar c1;;
            mret 3
          else mret 0
      else getpacket_loop fuel'
  end.

(** Every iteration of every loop consumes a character, so more iterations than
    there are characters end in a wait. *)
Definition getpacket : io t Z := s ← get; getpacket_loop (S (length (input s))).

(** ** putpacket *)

(** The characters of a buffer before the terminator. *)
Fixpoint c_string (buf : list Z) : option (list Z) :=
  match buf with
  | [] => None
  | c :: buf => if c =? 0 then Some [] else cons c <$> c_string buf
  end.

Definition checksum_of (cs : list Z) : Z := foldl (λ k c, u8 (k + c)) 0 cs.

Definition frame (cs : list Z) : list Z :=
  dollar :: cs ++ [hash; hexchar (Z.shiftr (checksum_of cs) 4); hexchar (checksum_of cs mod 16)].

Fixpoint putpacket_loop (fuel : nat) : io t unit :=
  match fuel with
  | O => crash NeedInput
  | S fuel =>
      s ← get;
      match c_string (remcomOutBuffer s) with
      | None => crash OutOfBounds
      | Some cs =>
          putDebugChars (frame cs);;
          ch ← getDebugChar;
          if negb (ch =? plus) then putpacket_loop fuel else mret tt
      end
  end.

Definition putpacket : io t unit := s ← get; putpacket_loop (S (length (input s))).

(** ** Hexadecimal encodings *)

Definition hex_byte (ch : Z) : list Z := [hexchar (Z.shiftr ch 4); hexchar (ch mod 16)].
Definition hex_bytes (bs : list Z) : list Z := concat (map hex_byte bs).

(** [mem2hex] into [remcomOutBuffer]; the result is the index of the terminator. *)
Definition mem2hex (bs : list Z) (buf : Z) : io t Z :=
  out_put buf (hex_bytes bs ++ [0]);; mret (buf + 2 * Z.of_nat (length bs)).

(** [hex2mem] from [remcomInBuffer]: the bytes. *)
Fixpoint hex2mem (buf : Z) (count : nat) : io t (list Z) :=
  match count with
  | O => mret []
  | S count =>
      c1 ← in_get buf;
      c2 ← in_get (buf + 1);
      bs ← hex2mem (buf + 2) count;
      mret (u8 (u8 (Z.shiftl (hex c1) 4) + hex c2) :: bs)
  end.

(** The number of characters read, the value and the pointer after them; shifts of
    the [int] keep its low 32 bits. *)
Fixpoint hexToInt_loop (fuel : nat) (ptr intValue numChars : Z) : io t (Z * Z * Z) :=
  match fuel with
  | O => crash OutOfBounds
  | S fuel =>
      c ← in_get ptr;
      if c =? 0 then mret (numChars, intValue, ptr)
      else
        let hexValue := hex c in
        if 0 <=? hexValue
        then hexToInt_loop fuel (ptr + 1)
               (i32 (Z.lor (Z.shiftl intValue 4) hexValue)) (numChars + 1)
        else mret (numChars, intValue, ptr)
  end.

Definition hexToInt (ptr : Z) : io t (Z * Z * Z) := hexToInt_loop 401 ptr 0 0.

(** ** The register cache *)

Definition gdbserver_get_register (name : Z) : io t Z :=
  s ← get; array_get (registers s) name.
Definition gdbserver_set_register (name value : Z) : io t unit :=
  s ← get;
  rs ← array_set (registers s) name value;
  modify (λ s, s <| registers := rs |>).
Definition gdbserver_set_custom_register (name value : Z) : io t unit :=
  s ← get;
  rs ← array_set (extended_registers s) name value;
  modify (λ s, s <| extended_registers := rs |>).

Definition register_bytes (rs : list Z) : list Z := concat (map (le_bytes 8) rs).

Fixpoint bytes_registers (n : nat) (bs : list Z) : list Z :=
  match n with
  | O => []
  | S n => le_val (take 8 bs) :: bytes_registers n (drop 8 bs)
  end.

(** ** The functions of kvm.cpp *)

(** The next request. *)
Definition ioctl : io t bool :=
  s ← get;
  modify (λ s, s <| requests := tail (requests s) |>);;
  mret (hd true (requests s)).

(** The virtual CPU gets the general registers, in the order of [kvm_regs]. *)
Definition kvm_load_registers_from_gdbcache : io t unit :=
  got ← ioctl;
  if negb got then mret tt
  else
    rax ← gdbserver_get_register 0;
    rbx ← gdbserver_get_register 1;
    rcx ← gdbserver_get_register 2;
    rdx ← gdbserver_get_register 3;
    rsi ← gdbserver_get_register 4;
    rdi ← gdbserver_get_register 5;
    rbp ← gdbserver_get_register AMD64_RBP_REGNUM;
    rsp ← gdbserver_get_register AMD64_RSP_REGNUM;
    r8 ← gdbserver_get_register 8;
    r9 ← gdbserver_get_register 9;
    r10 ← gdbserver_get_register 10;
    r11 ← gdbserver_get_register 11;
    r12 ← gdbserver_get_register 12;
    r13 ← gdbserver_get_register 13;
    r14 ← gdbserver_get_register 14;
    r15 ← gdbserver_get_register 15;
    rip ← gdbserver_get_register AMD64_RIP_REGNUM;
    rflags ← gdbserver_get_register AMD64_EFLAGS_REGNUM;
    set ← ioctl;
    when set (emit (VcpuRegisters
      [rax; rbx; rcx; rdx; rsi; rdi; rsp; rbp; r8; r9; r10; r11; r12; r13; r14; r15;
       rip; rflags])).

Definition KVM_GUESTDBG_ENABLE : Z := 1.
Definition KVM_GUESTDBG_SINGLESTEP : Z := 2.
Definition KVM_GUESTDBG_USE_SW_BP : Z := 0x10000.
Definition KVM_GUESTDBG_USE_HW_BP : Z := 0x20000.

(** The requests KVM_SET_GUEST_DEBUG succeed or end the process. *)
Definition set_guest_debug : io t unit :=
  ok ← ioctl;
  if (ok : bool) then mret tt else crash (ExitProcess 1).

Definition set_step (enable_step : bool) (d : kvm_guest_debug) : kvm_guest_debug :=
  mk_guest_debug
    (if enable_step then Z.lor (control d) KVM_GUESTDBG_SINGLESTEP
     else Z.land (control d) (Z.lnot KVM_GUESTDBG_SINGLESTEP))
    (debugreg d).

Definition kvm_debug_set_step (enable_step : bool) : io t unit :=
  modify (λ s, s <| guest_debug := set_step enable_step (guest_debug s) |>);;
  set_guest_debug;;
  emit (VcpuStep enable_step).

Definition breakpoints (d : kvm_guest_debug) : kvm_guest_debug :=
  mk_guest_debug
    (Z.lor (Z.lor KVM_GUESTDBG_ENABLE KVM_GUESTDBG_USE_HW_BP) KVM_GUESTDBG_USE_SW_BP)
    (debugreg d).

Definition kvm_enable_guest_debug : io t unit :=
  modify (λ s, s <| guest_debug := breakpoints (guest_debug s) |>);; set_guest_debug.

Definition kvm_debug_completed : io t unit :=
  modify (λ s, s <| guest_debug :=
    mk_guest_debug (control (guest_debug s)) (<[7%nat := 0]> (debugreg (guest_debug s))) |>);;
  set_guest_debug.

(** ** Guest memory *)
Definition mem_read (a : Z) (n : nat) : io t (list Z) :=
  s ← get;
  if decide (n = O ∨ in_mem a n (memory s)) then mret (mem_slice a n (memory s))
  else crash OutOfBounds.
Definition mem_write (a : Z) (bs : list Z) : io t unit :=
  s ← get;
  if decide (bs = [] ∨ in_mem a (length bs) (memory s))
  then modify (λ s, s <| memory := mem_put a bs (memory s) |>) else crash OutOfBounds.

(** ** gdbserver_handle_exception *)

Definition register (rs : list Z) (regno : Z) : list Z :=
  le_bytes 8 (nth (Z.to_nat regno) rs 0).

(** The notification that starts the session, and the one that ends it. *)
Definition stop_reply (sigval : Z) (rs : list Z) : list Z :=
  [84; hexchar (Z.shiftr sigval 4); hexchar (Z.land sigval 0xf)] ++
  [hexchar AMD64_RSP_REGNUM; colon] ++ hex_bytes (register rs AMD64_RSP_REGNUM) ++
  [semicolon; hexchar AMD64_RBP_REGNUM; colon] ++
  hex_bytes (register rs AMD64_RBP_REGNUM) ++
  [semicolon; hexchar (Z.shiftr AMD64_RIP_REGNUM 4); hexchar (Z.land AMD64_RIP_REGNUM 0xf);
   colon] ++ hex_bytes (register rs AMD64_RIP_REGNUM) ++ [semicolon].

Definition exit_reply (sigval : Z) : list Z :=
  [88; hexchar (Z.shiftr sigval 4); hexchar (Z.land sigval 0xf)].

(** A 64-bit value as [%016lx] prints it. *)
Fixpoint hex_digits (n : nat) (x : Z) : list Z :=
  match n with
  | O => []
  | S n => hex_digits n (x / 16) ++ [hexchar (x mod 16)]
  end.

Definition regs_response (ext : list Z) : list Z :=
  let x i := hex_digits 16 (nth i ext 0) in
  chars "Privileged Registers (Custom command):" ++ [10] ++
  chars "CR4 0x" ++ x 0%nat ++ [10] ++ chars "CR3 0x" ++ x 1%nat ++ [10] ++
  chars "CR2 0x" ++ x 2%nat ++ [10] ++ chars "CR0 0x" ++ x 3%nat ++ [10] ++
  chars "EFER 0x" ++ x 4%nat ++ [10].

(** Whether the handler answers the request and waits for another, or returns to
    the virtual machine monitor. *)
Inductive verdict : Type := Reply | Resume.

(** [strncmp(ptr, lit, strlen(lit)) == 0]. *)
Fixpoint in_prefix (ptr : Z) (lit : list Z) : io t bool :=
  match lit with
  | [] => mret true
  | l :: lit =>
      c ← in_get ptr;
      if c =? l then in_prefix (ptr + 1) lit else mret false
  end.

Definition handle_qRcmd (ptr : Z) : io t unit :=
  command_str ← hex2mem (ptr + 6) 4;
  if bool_decide (command_str = chars "regs") then
    s ← get;
    mem2hex (regs_response (extended_registers s)) 0;; mret tt
  else mret tt.

Definition handle_p (ptr : Z) : io t unit :=
  r ← hexToInt ptr;
  let '(n, regno, ptr) := r in
  if negb (n =? 0) && (0 <=? regno) && (regno <? Z.of_nat NUMREGS) then
    s ← get;
    mem2hex (register (registers s) regno) 0;; mret tt
  else out_strcpy "E01".

Definition handle_P (ptr : Z) : io t unit :=
  r ← hexToInt ptr;
  let '(n, regno, ptr) := r in
  if n =? 0 then out_strcpy "E01"
  else
    c ← in_get ptr;
    if (c =? equals) && (0 <=? regno) && (regno <? Z.of_nat NUMREGS) then
      bs ← hex2mem (ptr + 1) 8;
      gdbserver_set_register regno (le_val bs);;
      kvm_load_registers_from_gdbcache;;
      out_strcpy "OK"
    else out_strcpy "E01".

Definition handle_m (ptr : Z) : io t unit :=
  r ← hexToInt ptr;
  let '(n, addr, ptr) := r in
  if n =? 0 then out_strcpy "E01"
  else
    c ← in_get ptr;
    if negb (c =? comma) then out_strcpy "E01"
    else
      r ← hexToInt (ptr + 1);
      let '(n, len, ptr) := r in
      if n =? 0 then out_strcpy "E01"
      else bs ← mem_read addr (Z.to_nat len); mem2hex bs 0;; mret tt.

Definition handle_M (ptr : Z) : io t unit :=
  r ← hexToInt ptr;
  let '(n, addr, ptr) := r in
  if n =? 0 then out_strcpy "E02"
  else
    c ← in_get ptr;
    if negb (c =? comma) then out_strcpy "E02"
    else
      r ← hexToInt (ptr + 1);
      let '(n, len, ptr) := r in
      if n =? 0 then out_strcpy "E02"
      else
        c ← in_get ptr;
        if negb (c =? colon) then out_strcpy "E02"
        else
          bs ← hex2mem (ptr + 1) (Z.to_nat len);
          mem_write addr bs;;
          out_strcpy "OK".

Definition handle_command (sigval ptr : Z) : io t verdict :=
  q ← in_prefix ptr (chars "qRcmd,");
  if (q : bool) then handle_qRcmd ptr;; mret Reply
  else
    c ← in_get ptr;
    let ptr := ptr + 1 in
    if c =? 63 (* ? *) then
      out_put 0 [83; hexchar (Z.shiftr sigval 4); hexchar (sigval mod 16); 0];; mret Reply
    else if c =? 100 (* d *) then
      modify (λ s, s <| remote_debug := negb (remote_debug s) |>);; mret Reply
    else if c =? 103 (* g *) then
      s ← get; mem2hex (register_bytes (registers s)) 0;; mret Reply
    else if c =? 71 (* G *) then
      bs ← hex2mem ptr (Z.to_nat NUMREGBYTES);
      modify (λ s, s <| registers := bytes_registers NUMREGS bs |>);;
      kvm_load_registers_from_gdbcache;;
      out_strcpy "OK";; mret Reply
    else if c =? 112 (* p *) then handle_p ptr;; mret Reply
    else if c =? 80 (* P *) then handle_P ptr;; mret Reply
    else if c =? 109 (* m *) then handle_m ptr;; mret Reply
    else if c =? 77 (* M *) then handle_M ptr;; mret Reply
    else if c =? 115 (* s *) then kvm_debug_set_step true;; mret Resume
    else if c =? 99 (* c *) then kvm_debug_set_step false;; mret Resume
    else if c =? 107 (* k *) then emit GdbClosed;; crash (ExitProcess 0)
    else mret Reply.

(** One turn of the command loop. *)
Definition handle_packet (sigval : Z) : io t verdict :=
  out_put 0 [0];;
  ptr ← getpacket;
  v ← handle_command sigval ptr;
  match v with
  | Reply => putpacket;; mret Reply
  | Resume => mret Resume
  end.

Fixpoint command_loop (fuel : nat) (sigval : Z) : io t unit :=
  match fuel with
  | O => crash NeedInput
  | S fuel =>
      v ← handle_packet sigval;
      match v with
      | Reply => command_loop fuel sigval
      | Resume => mret tt
      end
  end.

Definition gdbserver_handle_exception (sigval : Z) : io t unit :=
  if (sigval =? SIGILL) || (sigval =? SIGTERM) then
    out_put 0 (exit_reply sigval ++ [0]);;
    putpacket;;
    emit GdbClosed
  else
    s ← get;
    out_put 0 (stop_reply sigval (registers s) ++ [0]);;
    putpacket;;
    s ← get;
    command_loop (S (length (input s))) sigval.

(** [gdbserver_start], once the debugger has connected; a socket that cannot be
    opened ends the process. *)
Definition gdbserver_start (listening : bool) : io t unit :=
  if listening then gdbserver_handle_exception SIGTRAP else crash (ExitProcess 1).

(** ** Hexadecimal digits *)

Lemma digit_cases (P : Z → Prop) :
  Forall P (seqZ 0 16) → ∀ d, 0 ≤ d < 16 → P d.
Proof. intros H d Hd. rewrite Forall_forall in H. apply H, elem_of_seqZ. lia. Qed.

Lemma hex_hexchar d : 0 ≤ d < 16 → hex (hexchar d) = d.
Proof. revert d. apply (digit_cases (λ d, hex (hexchar d) = d)). by repeat constructor. Qed.

(** A hexadecimal digit is none of the characters that structure a packet. *)
Definition plain (c : Z) : Prop := is_u8 c ∧ c ≠ dollar ∧ c ≠ hash ∧ c ≠ 0.

Lemma hexchar_plain d : 0 ≤ d < 16 → plain (hexchar d).
Proof.
  revert d. apply (digit_cases (λ d, plain (hexchar d))).
  repeat constructor; vm_compute; congruence.
Qed.

Lemma byte_digits b : is_u8 b → 0 ≤ Z.shiftr b 4 < 16 ∧ 0 ≤ b mod 16 < 16 ∧
  u8 (u8 (Z.shiftl (Z.shiftr b 4) 4) + b mod 16) = b ∧
  u8 (Z.shiftl (Z.shiftr b 4) 4 + b mod 16) = b.
Proof.
  intros Hb. rewrite Z.shiftr_div_pow2, Z.shiftl_mul_pow2 by lia. change (2 ^ 4) with 16.
  unfold is_u8 in Hb. split_and!; width_lia.
Qed.

(** ** Reading hexadecimal from the input buffer *)

(** The characters [cs] are in the input buffer from [ptr] on. *)
Definition at_ptr (s : t) (ptr : Z) (cs : list Z) : Prop :=
  0 ≤ ptr ∧ ∀ i c, cs !! i = Some c → remcomInBuffer s !! (Z.to_nat ptr + i)%nat = Some c.

Lemma at_ptr_cons s ptr c cs :
  at_ptr s ptr (c :: cs) → in_get ptr s = Done (c, s, []) ∧ at_ptr s (ptr + 1) cs.
Proof.
  intros [Hp H]. split.
  - unfold in_get. erewrite bind_done by reflexivity.
    erewrite array_get_in; [done|done|].
    rewrite <- (Nat.add_0_r (Z.to_nat ptr)). by apply H.
  - split; [lia|]. intros i x Hi. replace (Z.to_nat (ptr + 1) + i)%nat
      with (Z.to_nat ptr + S i)%nat by lia. by apply H.
Qed.

Lemma at_ptr_app s ptr cs1 cs2 :
  at_ptr s ptr (cs1 ++ cs2) → at_ptr s ptr cs1 ∧ at_ptr s (ptr + Z.of_nat (length cs1)) cs2.
Proof.
  intros [Hp H]. split; (split; [lia|]); intros i c Hi.
  - apply H. by apply lookup_app_l_Some.
  - replace (Z.to_nat (ptr + Z.of_nat (length cs1)) + i)%nat
      with (Z.to_nat ptr + (length cs1 + i))%nat by lia.
    apply H. by rewrite lookup_app_r, Nat.add_comm, Nat.add_sub by lia.
Qed.

(** [hex2mem] decodes what [mem2hex] encodes. *)
Lemma hex2mem_run s ptr bs :
  Forall is_u8 bs → at_ptr s ptr (hex_bytes bs) →
  hex2mem ptr (length bs) s = Done (bs, s, []).
Proof.
  intros Hbs. revert ptr. induction Hbs as [|b bs Hb _ IH]; intros ptr Hat; [done|].
  cbn [length hex2mem].
  change (hex_bytes (b :: bs)) with
    (hexchar (Z.shiftr b 4) :: hexchar (b mod 16) :: hex_bytes bs) in Hat.
  apply at_ptr_cons in Hat as [H1 Hat]. apply at_ptr_cons in Hat as [H2 Hat].
  destruct (byte_digits b Hb) as (Hd1 & Hd2 & Hv & _).
  erewrite bind_done by exact H1. erewrite bind_done by exact H2.
  replace (ptr + 1 + 1) with (ptr + 2) in Hat by lia.
  erewrite bind_done by exact (IH _ Hat).
  rewrite !hex_hexchar, Hv by done. done.
Qed.

(** ** Numbers *)

Definition hex_value (cs : list Z) (x0 : Z) : Z :=
  foldl (λ x c, i32 (Z.lor (Z.shiftl x 4) (hex c))) x0 cs.

Lemma hexToInt_loop_run s fuel ptr cs e x0 n0 :
  at_ptr s ptr (cs ++ [e]) → Forall (λ c, c ≠ 0 ∧ 0 ≤ hex c) cs → (e = 0 ∨ hex e < 0) →
  (length cs < fuel)%nat →
  hexToInt_loop fuel ptr x0 n0 s =
  Done ((n0 + Z.of_nat (length cs), hex_value cs x0, ptr + Z.of_nat (length cs)), s, []).
Proof.
  intros Hat Hcs He. revert ptr x0 n0 fuel Hat.
  induction Hcs as [|c cs [Hc Hh] _ IH]; intros ptr x0 n0 fuel Hat Hf;
    (destruct fuel as [|fuel]; [cbn in Hf; lia|]); cbn [app length hexToInt_loop] in *;
    apply at_ptr_cons in Hat as [Hg Hat]; erewrite bind_done by exact Hg.
  - rewrite !Z.add_0_r. destruct He as [->|He]; [done|].
    destruct (e =? 0); [done|]. by rewrite (proj2 (Z.leb_gt _ _)) by lia.
  - rewrite (proj2 (Z.eqb_neq c 0)), (proj2 (Z.leb_le _ _)) by done.
    rewrite IH by (done || lia). rewrite Nat2Z.inj_succ. cbn [hex_value foldl].
    do 4 f_equal; [|lia]. f_equal. lia.
Qed.

(** A number below [2^31], printed by the client. *)
Lemma hex_value_digits n x x0 :
  0 ≤ x0 → 0 ≤ x < 16 ^ Z.of_nat n → x0 * 16 ^ Z.of_nat n + x < 2147483648 →
  hex_value (hex_digits n x) x0 = x0 * 16 ^ Z.of_nat n + x.
Proof.
  intros H0. revert x. induction n as [|n IH]; intros x Hx Hmax; [cbn in *; lia|].
  rewrite Nat2Z.inj_succ, Z.pow_succ_r in * by lia.
  cbn [hex_digits]. unfold hex_value in *. rewrite foldl_snoc, IH by (Z.div_mod_to_equations; lia).
  rewrite hex_hexchar by (apply Z.mod_pos_bound; lia).
  rewrite Z.lor_comm, lor_shiftl_add by (lia || (change (2 ^ 4) with 16; apply Z.mod_pos_bound; lia)).
  change (2 ^ 4) with 16.
  replace (x mod 16 + (x0 * 16 ^ Z.of_nat n + x / 16) * 16) with (x0 * (16 * 16 ^ Z.of_nat n) + x)
    by (Z.div_mod_to_equations; lia).
  unfold i32. rewrite Z.mod_small; lia.
Qed.

Lemma hex_digits_ok n x :
  Forall (λ c, c ≠ 0 ∧ 0 ≤ hex c) (hex_digits n x) ∧ length (hex_digits n x) = n.
Proof.
  revert x. induction n as [|n IH]; intros x; [done|]. cbn [hex_digits].
  destruct (IH (x / 16)) as [H1 H2]. rewrite length_app, H2. cbn [length]. split; [|lia].
  apply Forall_app. split; [done|]. constructor; [|done].
  assert (0 ≤ x mod 16 < 16) as Hd by (apply Z.mod_pos_bound; lia).
  rewrite hex_hexchar by done. destruct (hexchar_plain _ Hd) as (_ & _ & _ & H). lia.
Qed.

Lemma hexToInt_run s ptr n x e :
  at_ptr s ptr (hex_digits n x ++ [e]) → (e = 0 ∨ hex e < 0) → (n ≤ 400)%nat →
  0 ≤ x < 16 ^ Z.of_nat n → x < 2147483648 →
  hexToInt ptr s = Done ((Z.of_nat n, x, ptr + Z.of_nat n), s, []).
Proof.
  intros Hat He Hn Hx Hmax. destruct (hex_digits_ok n x) as [Hok Hl].
  unfold hexToInt. rewrite (hexToInt_loop_run s 401 ptr (hex_digits n x) e 0 0) by (done || lia).
  rewrite Hl, hex_value_digits by lia. done.
Qed.

(** ** Packets *)

Lemma getDebugChar_run s c rest :
  input s = c :: rest → getDebugChar s = Done (c, s <| input := rest |>, []).
Proof.
  intros Hin. unfold getDebugChar. erewrite bind_quiet by reflexivity. by rewrite Hin.
Qed.

Lemma in_set_run s i ch :
  0 ≤ i < Z.of_nat (length (remcomInBuffer s)) →
  in_set i ch s =
  Done (tt, s <| remcomInBuffer := <[Z.to_nat i := ch]> (remcomInBuffer s) |>, []).
Proof.
  intros Hi. unfold in_set. erewrite bind_quiet by reflexivity.
  by erewrite bind_quiet by by apply array_set_in.
Qed.

Lemma putDebugChars_run cs s : putDebugChars cs s = Done (tt, s, map DebugChar cs).
Proof.
  induction cs as [|c cs IH]; [done|]. cbn [putDebugChars].
  erewrite bind_done by reflexivity. by rewrite IH.
Qed.

Lemma debug_output_chars cs : debug_output (map DebugChar cs) = cs.
Proof. induction cs as [|c cs IH]; cbn; by rewrite ?IH. Qed.

(** The frame of the buffer is sent again until it is acknowledged. *)
Lemma putpacket_loop_run fuel s cs naks rest :
  c_string (remcomOutBuffer s) = Some cs → input s = naks ++ plus :: rest →
  Forall (λ c, c ≠ plus) naks → (length naks < fuel)%nat →
  putpacket_loop fuel s =
  Done (tt, s <| input := rest |>,
        map DebugChar (concat (replicate (S (length naks)) (frame cs)))).
Proof.
  intros Hcs. revert s fuel Hcs. induction naks as [|c naks IH];
    intros s fuel Hcs Hin Hn Hf; (destruct fuel as [|fuel]; [cbn in Hf; lia|]);
    cbn [putpacket_loop]; erewrite bind_done by reflexivity; rewrite Hcs;
    erewrite bind_done by apply putDebugChars_run;
    unfold getDebugChar; rewrite bind_assoc; erewrite bind_done by reflexivity; rewrite Hin;
    cbn [app]; rewrite bind_assoc; erewrite bind_done by reflexivity;
    erewrite bind_done by reflexivity.
  - cbn. by rewrite !app_nil_r.
  - apply Forall_cons in Hn as [Hc Hn]. rewrite (proj2 (Z.eqb_neq c plus)) by done.
    cbn [negb]. rewrite (IH (s <| input := naks ++ plus :: rest |>)) by (done || (cbn in *; lia)).
    cbn [length replicate concat]. rewrite !map_app. done.
Qed.

Lemma wait_start_run fuel s noise rest :
  input s = noise ++ dollar :: rest → Forall (λ c, c ≠ dollar) noise →
  (length noise < fuel)%nat →
  wait_start fuel s = Done (tt, s <| input := rest |>, []).
Proof.
  revert s fuel. induction noise as [|c noise IH]; intros s fuel Hin Hn Hf;
    (destruct fuel as [|fuel]; [cbn in Hf; lia|]); cbn [wait_start]; unfold getDebugChar;
    rewrite bind_assoc; erewrite bind_done by reflexivity; rewrite Hin; cbn [app];
    rewrite bind_assoc; do 2 erewrite bind_done by reflexivity.
  - done.
  - apply Forall_cons in Hn as [Hc Hn]. rewrite (proj2 (Z.eqb_neq c dollar)) by done.
    rewrite IH by (done || (cbn in *; lia)). done.
Qed.

Lemma read_data_run fuel s cs rest count k :
  input s = cs ++ hash :: rest → Forall plain cs → (length cs < fuel)%nat →
  length (remcomInBuffer s) = 400%nat → 0 ≤ count → count + Z.of_nat (length cs) ≤ 398 →
  read_data fuel count k s =
  Done ((count + Z.of_nat (length cs), foldl (λ k c, u8 (k + c)) k cs, hash),
        s <| input := rest |>
          <| remcomInBuffer := list_inserts (Z.to_nat count) cs (remcomInBuffer s) |>, []).
Proof.
  revert s fuel count k. induction cs as [|c cs IH]; intros s fuel count k Hin Hn Hf Hl H0 Hc;
    (destruct fuel as [|fuel]; [cbn in Hf; lia|]); cbn [read_data]; unfold getDebugChar;
    rewrite bind_assoc; erewrite bind_done by reflexivity; rewrite Hin; cbn [app];
    rewrite bind_assoc; do 2 erewrite bind_done by reflexivity.
  - cbn. rewrite Z.add_0_r. by destruct s.
  - apply Forall_cons in Hn as [(Hu & Hd & Hh & Hz) Hn]. cbn [length] in *.
    rewrite (proj2 (Z.eqb_neq c dollar)), (proj2 (Z.eqb_neq c hash)) by done.
    unfold in_set. rewrite bind_assoc. erewrite bind_done by reflexivity.
    rewrite bind_assoc. erewrite bind_done by (apply array_set_in; cbn; lia).
    erewrite bind_done by reflexivity.
    rewrite (proj2 (Z.ltb_lt _ _)) by (unfold BUFMAX; lia).
    rewrite IH by (done || (cbn; rewrite ?length_insert; lia)).
    cbn [upd eta_t input remcomInBuffer remcomOutBuffer remote_debug registers
         extended_registers memory foldl app].
    replace (count + 1 + Z.of_nat (length cs)) with (count + Z.of_nat (S (length cs))) by lia.
    do 4 f_equal. cbn [list_inserts]. rewrite list_insert_inserts_lt by lia.
    by replace (Z.to_nat (count + 1)) with (S (Z.to_nat count)) by lia.
Qed.

(** The buffer once a packet has been read, its terminator included. *)
Definition received (cs buf : list Z) : list Z := list_inserts 0 (cs ++ [0]) buf.

Lemma length_received cs buf : length (received cs buf) = length buf.
Proof. apply length_inserts. Qed.

(** The frame of a packet, with whatever follows the mark. *)
Lemma getpacket_loop_step fuel s noise cs c1 c2 rest :
  input s = noise ++ dollar :: cs ++ hash :: c1 :: c2 :: rest →
  Forall (λ c, c ≠ dollar) noise → Forall plain cs → (length cs ≤ 398)%nat →
  length (remcomInBuffer s) = 400%nat →
  (length noise < fuel)%nat → (length cs < fuel)%nat →
  let s' := s <| input := rest |> <| remcomInBuffer := received cs (remcomInBuffer s) |> in
  getpacket_loop fuel s =
  (if negb (checksum_of cs =? u8 (Z.shiftl (hex c1) 4 + hex c2))
   then putDebugChar minus;; getpacket_loop (pred fuel)
   else
     putDebugChar plus;;
     c ← in_get 2;
     if c =? colon then
       c0 ← in_get 0; putDebugChar c0;;
       c1 ← in_get 1; putDebugChar c1;;
       mret 3
     else mret 0) s'.
Proof.
  intros Hin Hnoise Hcs Hlen Hl Hf1 Hf2 s'. destruct fuel as [|fuel]; [lia|].
  cbn [getpacket_loop pred].
  erewrite bind_quiet by by apply (wait_start_run (S fuel) s noise (cs ++ hash :: c1 :: c2 :: rest)).
  erewrite bind_quiet by (apply (read_data_run (S fuel) _ cs (c1 :: c2 :: rest) 0 0);
    first [reflexivity|done|lia]).
  cbn [Z.add]. erewrite bind_quiet.
  2: { apply in_set_run. cbn [upd eta_t remcomInBuffer]. rewrite length_inserts. lia. }
  rewrite Z.eqb_refl. do 2 erewrite bind_quiet by by apply getDebugChar_run.
  change (foldl (λ k c : Z, u8 (k + c)) 0 cs) with (checksum_of cs).
  match goal with |- _ ?s1 = _ => replace s1 with s'; [done|] end.
  subst s'. cbn [upd eta_t input remcomInBuffer remcomOutBuffer remote_debug registers
    extended_registers memory]. do 2 f_equal. unfold received.
  rewrite list_inserts_app_l. cbn [list_inserts]. f_equal. lia.
Qed.

Lemma c_string_received cs buf :
  Forall (λ c, c ≠ 0) cs → (length cs < length buf)%nat →
  c_string (list_inserts 0 (cs ++ [0]) buf) = Some cs.
Proof.
  intros Hcs. revert buf. induction Hcs as [|c cs Hc _ IH]; intros [|b buf] Hl;
    try (cbn in Hl; lia); cbn [app list_inserts].
  - done.
  - rewrite list_inserts_cons. cbn. rewrite (proj2 (Z.eqb_neq c 0)) by done.
    cbn in Hl. by rewrite IH by lia.
Qed.

Lemma checksum_of_u8 cs : is_u8 (checksum_of cs).
Proof.
  unfold checksum_of. assert (is_u8 0) as H by (unfold is_u8; lia). revert H.
  generalize 0. induction cs as [|c cs IH]; intros k Hk; [done|]. apply IH, u8_range.
Qed.

Lemma checksum_digits cs :
  u8 (Z.shiftl (hex (hexchar (Z.shiftr (checksum_of cs) 4))) 4 +
      hex (hexchar (checksum_of cs mod 16))) = checksum_of cs.
Proof.
  destruct (byte_digits _ (checksum_of_u8 cs)) as (H1 & H2 & _ & H3).
  by rewrite !hex_hexchar.
Qed.

(** What a packet is taken for, once it is in the buffer: the third character decides whether
    it has a sequence number, which is sent back and skipped. *)
Definition sequenced (buf : list Z) : bool := bool_decide (buf !! 2%nat = Some colon).
Definition packet_start (buf : list Z) : Z := if sequenced buf then 3 else 0.
Definition packet_ack (buf : list Z) : list event :=
  DebugChar plus ::
  if sequenced buf then [DebugChar (nth 0 buf 0); DebugChar (nth 1 buf 0)] else [].

(** A frame, after some noise, is accepted. *)
Lemma getpacket_loop_frame fuel s noise cs rest :
  input s = noise ++ frame cs ++ rest →
  Forall (λ c, c ≠ dollar) noise → Forall plain cs → (length cs ≤ 398)%nat →
  length (remcomInBuffer s) = 400%nat →
  (length noise < fuel)%nat → (length cs < fuel)%nat →
  let buf := received cs (remcomInBuffer s) in
  getpacket_loop fuel s =
  Done (packet_start buf, s <| input := rest |> <| remcomInBuffer := buf |>, packet_ack buf).
Proof.
  intros Hin Hn Hcs Hlen Hl Hf1 Hf2 buf.
  erewrite (getpacket_loop_step fuel s noise cs); try done.
  2: { rewrite Hin. unfold frame. cbn [app]. rewrite <- app_assoc. reflexivity. }
  rewrite checksum_digits, Z.eqb_refl. cbn [negb].
  set (s' := s <| input := rest |> <| remcomInBuffer := _ |>).
  assert (∀ i, (i < 3)%nat → in_get (Z.of_nat i) s' = Done (nth i buf 0, s', [])) as Hg.
  { intros i Hi. unfold in_get. erewrite bind_quiet by reflexivity.
    apply array_get_in; [lia|]. rewrite Nat2Z.id.
    destruct (lookup_lt_is_Some_2 buf i) as [c Hc]; [unfold buf; rewrite length_received; lia|].
    change (remcomInBuffer s') with buf. by rewrite Hc, (nth_lookup_Some _ _ _ _ Hc). }
  erewrite bind_done by reflexivity. erewrite bind_quiet by (apply (Hg 2%nat); lia).
  assert (nth 2 buf 0 =? colon = sequenced buf) as ->.
  { unfold sequenced. destruct (lookup_lt_is_Some_2 buf 2) as [c Hc];
      [unfold buf; rewrite length_received; lia|].
    rewrite Hc, (nth_lookup_Some _ _ _ _ Hc).
    destruct (Z.eqb_spec c colon) as [->|Hne]; [by rewrite bool_decide_true|].
    by rewrite bool_decide_false by congruence. }
  unfold packet_start, packet_ack. destruct (sequenced buf); [|done].
  erewrite bind_quiet by (apply (Hg 0%nat); lia). erewrite bind_done by reflexivity.
  erewrite bind_quiet by (apply (Hg 1%nat); lia). by erewrite bind_done by reflexivity.
Qed.

(** A damaged packet is refused, and the next one is read. *)
Lemma getpacket_loop_damaged fuel s noise cs c1 c2 rest :
  input s = noise ++ dollar :: cs ++ hash :: c1 :: c2 :: rest →
  Forall (λ c, c ≠ dollar) noise → Forall plain cs → (length cs ≤ 398)%nat →
  length (remcomInBuffer s) = 400%nat →
  (length noise < fuel)%nat → (length cs < fuel)%nat →
  checksum_of cs ≠ u8 (Z.shiftl (hex c1) 4 + hex c2) →
  getpacket_loop fuel s =
  match getpacket_loop (pred fuel)
    (s <| input := rest |> <| remcomInBuffer := received cs (remcomInBuffer s) |>) with
  | Done (i, s', ev) => Done (i, s', DebugChar minus :: ev)
  | Halt h => Halt h
  end.
Proof.
  intros Hin Hn Hcs Hlen Hl Hf1 Hf2 Hk.
  erewrite (getpacket_loop_step fuel s noise cs); try done.
  rewrite (proj2 (Z.eqb_neq _ _)) by done. cbn [negb].
  by erewrite bind_done by reflexivity.
Qed.

Lemma putpacket_run s cs naks rest :
  c_string (remcomOutBuffer s) = Some cs → input s = naks ++ plus :: rest →
  Forall (λ c, c ≠ plus) naks →
  putpacket s =
  Done (tt, s <| input := rest |>,
        map DebugChar (concat (replicate (S (length naks)) (frame cs)))).
Proof.
  intros Hcs Hin Hn. unfold putpacket. erewrite bind_quiet by reflexivity.
  apply putpacket_loop_run; try done. rewrite Hin, length_app. cbn. lia.
Qed.

Lemma getpacket_frame s noise cs rest :
  input s = noise ++ frame cs ++ rest →
  Forall (λ c, c ≠ dollar) noise → Forall plain cs → (length cs ≤ 398)%nat →
  length (remcomInBuffer s) = 400%nat →
  let buf := received cs (remcomInBuffer s) in
  getpacket s =
  Done (packet_start buf, s <| input := rest |> <| remcomInBuffer := buf |>, packet_ack buf).
Proof.
  intros Hin Hn Hcs Hlen Hl. unfold getpacket. erewrite bind_quiet by reflexivity.
  apply (getpacket_loop_frame _ s noise cs rest); try done;
    rewrite Hin; unfold frame; rewrite !length_app; cbn [length]; rewrite ?length_app; lia.
Qed.

Lemma not_sequenced buf : buf !! 2%nat ≠ Some colon → sequenced buf = false.
Proof. intros H. by apply bool_decide_eq_false. Qed.

Lemma getpacket_run s noise cs rest :
  input s = noise ++ frame cs ++ rest →
  Forall (λ c, c ≠ dollar) noise → Forall plain cs → (length cs ≤ 398)%nat →
  length (remcomInBuffer s) = 400%nat →
  received cs (remcomInBuffer s) !! 2%nat ≠ Some colon →
  getpacket s =
  Done (0, s <| input := rest |> <| remcomInBuffer := received cs (remcomInBuffer s) |>,
        [DebugChar plus]).
Proof.
  intros Hin Hn Hcs Hlen Hl H2. rewrite (getpacket_frame s noise cs rest) by done.
  unfold packet_start, packet_ack. by rewrite not_sequenced.
Qed.

(** A packet of two characters or more has its own third character, or the terminator. *)
Lemma received_third cs buf :
  (2 ≤ length cs)%nat → (3 ≤ length buf)%nat → cs !! 2%nat ≠ Some colon →
  received cs buf !! 2%nat ≠ Some colon.
Proof.
  intros Hl Hb Hc. unfold received.
  rewrite list_lookup_inserts; [|rewrite length_app; cbn; lia|lia].
  rewrite Nat.sub_0_r. destruct (decide (2 < length cs)%nat); [by rewrite lookup_app_l by lia|].
  rewrite lookup_app_r by lia. by replace (2 - length cs)%nat with 0%nat by lia.
Qed.

(** C25. A packet of at most 398 characters, none of them special, that putpacket sends, the
    frame repeated once for each negative acknowledgement, is what getpacket reads after any
    noise without a start character: the checksums agree, the buffer holds the payload as a
    string, and the receiver acknowledges it. Where the packet starts and how it is
    acknowledged are those of the buffer after it, whatever it held before: a colon at its
    third place makes it a packet with a sequence number; from two characters on, a packet
    without a colon at that place starts at 0 and is acknowledged with a plus, and a shorter
    one may inherit the colon of an earlier packet. *)
Theorem packet_round_trip s1 cs naks rest1 :
  c_string (remcomOutBuffer s1) = Some cs → Forall plain cs → (length cs ≤ 398)%nat →
  input s1 = naks ++ plus :: rest1 → Forall (λ c, c ≠ plus) naks →
  ∃ ev, putpacket s1 = Done (tt, s1 <| input := rest1 |>, ev) ∧
    debug_output ev = concat (replicate (S (length naks)) (frame cs)) ∧
    ∀ s2 noise rest2,
      input s2 = noise ++ frame cs ++ rest2 → Forall (λ c, c ≠ dollar) noise →
      length (remcomInBuffer s2) = 400%nat →
      let buf := received cs (remcomInBuffer s2) in
      getpacket s2 = Done (packet_start buf,
        s2 <| input := rest2 |> <| remcomInBuffer := buf |>, packet_ack buf) ∧
      c_string buf = Some cs ∧
      ((2 ≤ length cs)%nat → cs !! 2%nat ≠ Some colon →
       packet_start buf = 0 ∧ packet_ack buf = [DebugChar plus]).
Proof.
  intros Hcs Hplain Hlen Hin Hn. eexists. split; [by apply putpacket_run|].
  split; [apply debug_output_chars|].
  intros s2 noise rest2 Hin2 Hn2 Hl buf. split; [by apply (getpacket_frame s2 noise)|]. split.
  - apply c_string_received; [|lia].
    eapply Forall_impl; [exact Hplain|]. by intros c (_ & _ & _ & H).
  - intros H2 Hc. unfold packet_start, packet_ack.
    by rewrite not_sequenced by (apply received_third; done || lia).
Qed.

(** C26. A packet whose checksum digits do not match its bytes is refused with a minus and
    getpacket goes on to the next good packet (both of at most 398 plain characters), whose
    payload the buffer then holds as a string, with the start and the acknowledgement of the
    buffer: 0 and a plus for a packet of two characters or more without a colon at its third
    place. The bytes of the damaged packet stay in the buffer beyond the payload, so that a
    shorter good packet may start among them. *)
Theorem packet_damaged s noise cs c1 c2 noise' cs' rest :
  input s = noise ++ dollar :: cs ++ hash :: c1 :: c2 :: noise' ++ frame cs' ++ rest →
  Forall (λ c, c ≠ dollar) noise → Forall (λ c, c ≠ dollar) noise' →
  Forall plain cs → Forall plain cs' → (length cs ≤ 398)%nat → (length cs' ≤ 398)%nat →
  length (remcomInBuffer s) = 400%nat →
  checksum_of cs ≠ u8 (Z.shiftl (hex c1) 4 + hex c2) →
  let buf := received cs' (received cs (remcomInBuffer s)) in
  getpacket s = Done (packet_start buf, s <| input := rest |> <| remcomInBuffer := buf |>,
    DebugChar minus :: packet_ack buf) ∧
  c_string buf = Some cs' ∧
  ((2 ≤ length cs')%nat → cs' !! 2%nat ≠ Some colon →
   packet_start buf = 0 ∧ packet_ack buf = [DebugChar plus]).
Proof.
  intros Hin Hn Hn' Hcs Hcs' Hlen Hlen' Hl Hk buf. split; [|split].
  - unfold getpacket. erewrite bind_quiet by reflexivity.
    assert (length (input s) =
      (length noise + length cs + length noise' + length cs' + length rest + 8)%nat) as Hlin.
    { rewrite Hin. unfold frame. rewrite !length_app. cbn [length].
      rewrite length_app. cbn [length]. rewrite !length_app. cbn [length].
      rewrite length_app. cbn [length]. lia. }
    erewrite (getpacket_loop_damaged _ s noise cs); try done; [|lia..]. cbn [pred].
    rewrite (getpacket_loop_frame _ _ noise' cs' rest); try done;
      cbn; rewrite ?length_received; lia.
  - apply c_string_received; [|rewrite length_received; lia].
    eapply Forall_impl; [exact Hcs'|]. by intros c (_ & _ & _ & H).
  - intros H2 Hc. unfold packet_start, packet_ack.
    by rewrite not_sequenced by (apply received_third; rewrite ?length_received; done || lia).
Qed.

(** ** One request *)

Record wf (s : t) : Prop := {
  wf_in : length (remcomInBuffer s) = 400%nat;
  wf_out : length (remcomOutBuffer s) = 400%nat;
  wf_registers : length (registers s) = NUMREGS;
}.

(** The state when the command starts. *)
Definition opened (s : t) (cs rest : list Z) : t :=
  s <| remcomOutBuffer := list_inserts 0 [0] (remcomOutBuffer s) |>
    <| input := rest |> <| remcomInBuffer := received cs (remcomInBuffer s) |>.

Lemma opened_at s cs rest : wf s → (length cs ≤ 398)%nat → at_ptr (opened s cs rest) 0 (cs ++ [0]).
Proof.
  intros Hs Hl. pose proof (wf_in s Hs). split; [done|]. intros i c Hi. cbn.
  pose proof (lookup_lt_Some _ _ _ Hi) as Hlt. rewrite length_app in Hlt. cbn in Hlt.
  unfold received. rewrite list_lookup_inserts by (rewrite ?length_app; cbn; lia).
  by rewrite Nat.sub_0_r.
Qed.

(** A command that writes its answer and nothing else. *)
Lemma out_put_run s off cs :
  length (remcomOutBuffer s) = 400%nat → 0 ≤ off → off + Z.of_nat (length cs) ≤ 400 →
  out_put off cs s =
  Done (tt, s <| remcomOutBuffer := list_inserts (Z.to_nat off) cs (remcomOutBuffer s) |>, []).
Proof.
  intros Hl Ho Hn. unfold out_put. erewrite bind_quiet by reflexivity.
  by rewrite decide_True by lia.
Qed.

Lemma out_put_overflow s off cs :
  length (remcomOutBuffer s) = 400%nat → 400 < off + Z.of_nat (length cs) →
  out_put off cs s = Halt OutOfBounds.
Proof.
  intros Hl Hn. unfold out_put. erewrite bind_quiet by reflexivity.
  by rewrite decide_False by lia.
Qed.

Lemma handle_packet_done sigval s cs rest s1 ev1 answer rest' :
  wf s → input s = frame cs ++ rest → Forall plain cs → (length cs ≤ 398)%nat →
  received cs (remcomInBuffer s) !! 2%nat ≠ Some colon →
  handle_command sigval 0 (opened s cs rest) = Done (Reply, s1, ev1) →
  c_string (remcomOutBuffer s1) = Some answer → input s1 = plus :: rest' →
  handle_packet sigval s =
  Done (Reply, s1 <| input := rest' |>,
        DebugChar plus :: ev1 ++ map DebugChar (frame answer)).
Proof.
  intros Hs Hin Hcs Hlen H2 Hcmd Hans Hin1. unfold handle_packet.
  erewrite bind_quiet by (apply out_put_run; [apply Hs|lia|cbn; lia]).
  set (s0 := s <| remcomOutBuffer := _ |>).
  erewrite bind_done.
  2: { apply (getpacket_run s0 [] cs rest); try done. apply Hs. }
  erewrite bind_done by exact Hcmd. cbv iota. erewrite bind_done.
  2: { by apply (putpacket_run s1 answer [] rest'). }
  cbn. by rewrite !app_nil_r.
Qed.

Lemma handle_packet_halt sigval s cs rest h :
  wf s → input s = frame cs ++ rest → Forall plain cs → (length cs ≤ 398)%nat →
  received cs (remcomInBuffer s) !! 2%nat ≠ Some colon →
  handle_command sigval 0 (opened s cs rest) = Halt h →
  handle_packet sigval s = Halt h.
Proof.
  intros Hs Hin Hcs Hlen H2 Hcmd. unfold handle_packet.
  erewrite bind_quiet by (apply out_put_run; [apply Hs|lia|cbn; lia]).
  set (s0 := s <| remcomOutBuffer := _ |>).
  erewrite bind_done.
  2: { apply (getpacket_run s0 [] cs rest); try done. apply Hs. }
  by erewrite bind_halt by exact Hcmd.
Qed.

Lemma hex_bytes_length bs : length (hex_bytes bs) = (2 * length bs)%nat.
Proof.
  unfold hex_bytes. induction bs as [|b bs IH]; [done|]. cbn [map concat length].
  rewrite length_app, IH. cbn. lia.
Qed.

Lemma hex_bytes_plain bs : Forall is_u8 bs → Forall plain (hex_bytes bs).
Proof.
  unfold hex_bytes. induction 1 as [|b bs Hb _ IH]; [done|]. cbn [map concat].
  destruct (byte_digits b Hb) as (H1 & H2 & _).
  apply Forall_app. split; [|done]. unfold hex_byte.
  constructor; [by apply hexchar_plain|]. constructor; [by apply hexchar_plain|done].
Qed.

(** *** Reading memory: [m<addr>,<length>] *)

Definition m_packet (n : nat) (addr : Z) (k : nat) (len : Z) : list Z :=
  109 :: hex_digits n addr ++ comma :: hex_digits k len.

Lemma hex_digits_plain n x : Forall plain (hex_digits n x).
Proof.
  revert x. induction n as [|n IH]; intros x; [done|]. cbn [hex_digits].
  apply Forall_app. split; [done|]. constructor; [|done].
  apply hexchar_plain, Z.mod_pos_bound. lia.
Qed.

Lemma hex_digits_no_colon n x : Forall (λ c, c ≠ colon) (hex_digits n x).
Proof.
  destruct (hex_digits_ok n x) as [H _]. eapply Forall_impl; [exact H|].
  intros c [_ Hc] ->. vm_compute in Hc. congruence.
Qed.

Lemma m_packet_plain n addr k len : Forall plain (m_packet n addr k len).
Proof.
  unfold m_packet. constructor; [vm_compute; split_and!; congruence|].
  apply Forall_app. split; [apply hex_digits_plain|].
  constructor; [vm_compute; split_and!; congruence|apply hex_digits_plain].
Qed.

Lemma received_no_colon cs buf :
  (3 ≤ length cs ≤ 398)%nat → length buf = 400%nat → Forall (λ c, c ≠ colon) cs →
  received cs buf !! 2%nat ≠ Some colon.
Proof.
  intros Hl Hb Hcs H. unfold received in H.
  rewrite list_lookup_inserts in H by (rewrite ?length_app; cbn; lia).
  rewrite lookup_app_l in H by lia. cbn in H.
  by apply (Forall_lookup_1 _ _ _ _ Hcs H).
Qed.

Lemma not_qRcmd s ptr c :
  in_get ptr s = Done (c, s, []) → c ≠ 113 →
  in_prefix ptr (chars "qRcmd,") s = Done (false, s, []).
Proof.
  intros Hg Hc. change (chars "qRcmd,") with [113; 82; 99; 109; 100; 44]. cbn [in_prefix].
  erewrite bind_quiet by exact Hg. by rewrite (proj2 (Z.eqb_neq c 113)).
Qed.

Lemma m_command sigval s n addr k len rest :
  wf s → (1 ≤ n)%nat → (1 ≤ k)%nat → (n + k ≤ 396)%nat →
  0 ≤ addr < 16 ^ Z.of_nat n → addr < 2147483648 →
  0 ≤ len < 16 ^ Z.of_nat k → len < 2147483648 → addr + len ≤ msize (memory s) →
  handle_command sigval 0 (opened s (m_packet n addr k len) rest) =
  ((bs ← mem_read addr (Z.to_nat len); mem2hex bs 0;; mret tt);; mret Reply)
    (opened s (m_packet n addr k len) rest).
Proof.
  intros Hs Hn Hk Hnk Haddr Hamax Hlen Hlmax Hmem.
  destruct (hex_digits_ok n addr) as [_ Hl1]. destruct (hex_digits_ok k len) as [_ Hl2].
  set (cs := m_packet n addr k len). set (s0 := opened s cs rest).
  assert (length cs = (n + k + 2)%nat) as Hl
    by (unfold cs, m_packet; cbn; rewrite length_app; cbn; lia).
  assert (at_ptr s0 0 (cs ++ [0])) as Hat by (apply opened_at; [done|lia]).
  unfold cs, m_packet in Hat. cbn [app] in Hat. rewrite <- app_assoc in Hat.
  apply at_ptr_cons in Hat as [Hc Hat].
  pose proof Hat as Hat1. apply at_ptr_app in Hat as [_ Hat]. rewrite Hl1 in Hat.
  cbn [app] in Hat. pose proof Hat as Hat2. apply at_ptr_cons in Hat as [Hcomma Hat].
  unfold handle_command.
  erewrite bind_quiet by by apply (not_qRcmd _ _ _ Hc).
  cbv iota. erewrite bind_quiet by exact Hc. cbn [Z.eqb Pos.eqb].
  assert (handle_m (0 + 1) s0 = (bs ← mem_read addr (Z.to_nat len); mem2hex bs 0;; mret tt) s0)
    as Hm.
  { unfold handle_m. erewrite bind_quiet.
    2: { apply (hexToInt_run s0 _ n addr comma); [|right; done|lia|done|done].
         cbn [app] in Hat1.
         replace (hex_digits n addr ++ comma :: hex_digits k len ++ [0]) with
           ((hex_digits n addr ++ [comma]) ++ hex_digits k len ++ [0]) in Hat1
           by (by rewrite <- app_assoc).
         by apply at_ptr_app in Hat1 as [? _]. }
    cbv iota. rewrite (proj2 (Z.eqb_neq (Z.of_nat n) 0)) by lia.
    erewrite bind_quiet by exact Hcomma. rewrite Z.eqb_refl. cbn [negb].
    erewrite bind_quiet.
    2: { apply (hexToInt_run s0 _ k len 0); [done|by left|lia|done|done]. }
    cbv iota. by rewrite (proj2 (Z.eqb_neq (Z.of_nat k) 0)) by lia. }
  unfold mbind, io_bind in Hm |- *. rewrite Hm. done.
Qed.

Lemma mem2hex_run s bs :
  length (remcomOutBuffer s) = 400%nat → 2 * Z.of_nat (length bs) < 400 →
  mem2hex bs 0 s =
  Done (2 * Z.of_nat (length bs),
        s <| remcomOutBuffer := list_inserts 0 (hex_bytes bs ++ [0]) (remcomOutBuffer s) |>, []).
Proof.
  intros Hl Hn. unfold mem2hex.
  erewrite bind_quiet.
  2: { apply out_put_run; [done|lia|]. rewrite length_app, hex_bytes_length. cbn. lia. }
  done.
Qed.

Lemma mem2hex_overflow s bs :
  length (remcomOutBuffer s) = 400%nat → 400 ≤ 2 * Z.of_nat (length bs) →
  mem2hex bs 0 s = Halt OutOfBounds.
Proof.
  intros Hl Hn. unfold mem2hex. apply bind_halt, out_put_overflow; [done|].
  rewrite length_app, hex_bytes_length. cbn. lia.
Qed.

Lemma mem_slice_u8 a n m : mem_wf m → Forall is_u8 (mem_slice a n m).
Proof.
  intros [_ Hm]. apply Forall_lookup_2. intros i x Hx.
  pose proof (lookup_lt_Some _ _ _ Hx) as Hlt. rewrite length_mem_slice in Hlt.
  rewrite lookup_mem_slice in Hx by done. injection Hx as <-. apply Hm.
Qed.

(** The command m answers with the hexadecimal dump of the requested guest memory and
    changes nothing when fewer than 200 bytes are asked for; from 200 bytes on the dump and
    its terminator no longer fit the 400-byte reply buffer, and the handler writes out of
    bounds. *)
Theorem gdb_read_memory sigval s n addr k len rest :
  wf s → mem_wf (memory s) → (1 ≤ n)%nat → (1 ≤ k)%nat → (n + k ≤ 396)%nat →
  0 ≤ addr < 16 ^ Z.of_nat n → addr < 2147483648 →
  0 ≤ len < 16 ^ Z.of_nat k → len < 2147483648 → addr + len ≤ msize (memory s) →
  input s = frame (m_packet n addr k len) ++ plus :: rest →
  if len <? 200 then
    ∃ s' ev, handle_packet sigval s = Done (Reply, s', ev) ∧ input s' = rest ∧
      memory s' = memory s ∧ registers s' = registers s ∧
      debug_output ev = plus :: frame (hex_bytes (mem_slice addr (Z.to_nat len) (memory s)))
  else handle_packet sigval s = Halt OutOfBounds.
Proof.
  intros Hs Hmwf Hn Hk Hnk Haddr Hamax Hlen Hlmax Hmem Hin.
  set (cs := m_packet n addr k len) in *.
  assert (length cs = (n + k + 2)%nat) as Hl.
  { unfold cs, m_packet. cbn. rewrite length_app. cbn.
    destruct (hex_digits_ok n addr) as [_ ->]. destruct (hex_digits_ok k len) as [_ ->]. lia. }
  assert (received cs (remcomInBuffer s) !! 2%nat ≠ Some colon) as H2.
  { apply received_no_colon; [lia|apply Hs|]. constructor; [done|].
    apply Forall_app. split; [apply hex_digits_no_colon|].
    constructor; [done|apply hex_digits_no_colon]. }
  pose proof (m_command sigval s n addr k len (plus :: rest)) as Hcmd. fold cs in Hcmd.
  specialize (Hcmd Hs Hn Hk Hnk Haddr Hamax Hlen Hlmax Hmem).
  set (s0 := opened s cs (plus :: rest)) in *.
  set (bs := mem_slice addr (Z.to_nat len) (memory s)).
  assert (mem_read addr (Z.to_nat len) s0 = Done (bs, s0, [])) as Hread.
  { unfold mem_read. erewrite bind_quiet by reflexivity.
    rewrite decide_True; [done|]. right. unfold in_mem. cbn. lia. }
  assert (length bs = Z.to_nat len) as Hbs by apply length_mem_slice.
  assert (length (remcomOutBuffer s0) = 400%nat) as Hout.
  { cbn. rewrite length_insert. apply Hs. }
  destruct (Z.ltb_spec len 200).
  - eexists _, _. split; [|split_and!].
    + eapply handle_packet_done; try done; [apply m_packet_plain|lia| | |].
      * fold s0. rewrite Hcmd. erewrite bind_quiet; [reflexivity|].
        erewrite bind_quiet by exact Hread. erewrite bind_quiet by (apply mem2hex_run; [done|lia]).
        reflexivity.
      * cbn [upd eta_t remcomOutBuffer]. apply c_string_received.
        { eapply Forall_impl; [apply hex_bytes_plain, mem_slice_u8, Hmwf|].
          by intros c (_ & _ & _ & H0). }
        { rewrite hex_bytes_length. lia. }
      * reflexivity.
    + done.
    + done.
    + done.
    + cbn [app debug_output]. by rewrite debug_output_chars.
  - eapply handle_packet_halt; try done; [apply m_packet_plain|lia|].
    fold s0. rewrite Hcmd. apply bind_halt. erewrite bind_quiet by exact Hread.
    apply bind_halt, mem2hex_overflow; [done|lia].
Qed.

(** *** The registers: [G] and [g] *)

Lemma length_register_bytes rs : length (register_bytes rs) = (8 * length rs)%nat.
Proof.
  unfold register_bytes. induction rs as [|r rs IH]; [done|]. cbn [map concat length].
  rewrite length_app, length_le_bytes, IH. lia.
Qed.

Lemma register_bytes_u8 rs : Forall is_u8 (register_bytes rs).
Proof.
  unfold register_bytes. induction rs as [|r rs IH]; [done|]. cbn [map concat].
  apply Forall_app. auto using le_bytes_u8.
Qed.

Lemma bytes_register_bytes rs :
  Forall is_u64 rs → bytes_registers (length rs) (register_bytes rs) = rs.
Proof.
  unfold register_bytes. induction 1 as [|r rs Hr _ IH]; [done|].
  cbn [map concat length bytes_registers].
  rewrite take_app_length', drop_app_length' by (by rewrite length_le_bytes).
  rewrite IH, le_val_bytes. f_equal. by apply Z.mod_small.
Qed.

Definition G_packet (rs : list Z) : list Z := 71 :: hex_bytes (register_bytes rs).

Lemma length_G_packet rs : length rs = NUMREGS → length (G_packet rs) = 385%nat.
Proof.
  intros Hl. unfold G_packet. cbn [length]. rewrite hex_bytes_length, length_register_bytes, Hl.
  done.
Qed.

Lemma G_packet_plain rs : Forall plain (G_packet rs).
Proof.
  constructor; [vm_compute; split_and!; congruence|].
  apply hex_bytes_plain, register_bytes_u8.
Qed.

Lemma hex_bytes_no_colon bs : Forall is_u8 bs → Forall (λ c, c ≠ colon) (hex_bytes bs).
Proof.
  unfold hex_bytes. induction 1 as [|b bs Hb _ IH]; [done|]. cbn [map concat].
  destruct (byte_digits b Hb) as (H1 & H2 & _).
  assert (∀ d, 0 ≤ d < 16 → hexchar d ≠ colon) as Hc.
  { intros d Hd He. pose proof (hex_hexchar d Hd) as Hh. rewrite He in Hh.
    vm_compute in Hh. lia. }
  apply Forall_app. split; [|done].
  constructor; [by apply Hc|]. constructor; [by apply Hc|done].
Qed.

(** Whether both requests of [kvm_load_registers_from_gdbcache] succeed, and the requests
    after them. *)
Definition load_result (rq : list bool) : bool * list bool :=
  if hd true rq then (hd true (tail rq), tail (tail rq)) else (false, tail rq).

(** The general registers of the cache, in the order of [kvm_regs]. *)
Definition general (rs : list Z) : list Z :=
  map (λ i, nth i rs 0) [0; 1; 2; 3; 4; 5; 7; 6; 8; 9; 10; 11; 12; 13; 14; 15; 16; 17]%nat.

Definition load_events (rq : list bool) (rs : list Z) : list event :=
  if (load_result rq).1 then [VcpuRegisters (general rs)] else [].

Lemma get_register_run i s :
  length (registers s) = NUMREGS → 0 ≤ i < 24 →
  gdbserver_get_register i s = Done (nth (Z.to_nat i) (registers s) 0, s, []).
Proof.
  intros Hl Hi. unfold gdbserver_get_register. erewrite bind_quiet by reflexivity.
  apply array_get_in; [lia|]. unfold NUMREGS in Hl.
  destruct (lookup_lt_is_Some_2 (registers s) (Z.to_nat i)) as [v Hv]; [lia|].
  by rewrite Hv, (nth_lookup_Some _ _ _ _ Hv).
Qed.

Lemma load_registers_run s :
  length (registers s) = NUMREGS →
  kvm_load_registers_from_gdbcache s =
    Done (tt, s <| requests := (load_result (requests s)).2 |>,
      load_events (requests s) (registers s)).
Proof.
  intros Hl. unfold kvm_load_registers_from_gdbcache, load_events, load_result, ioctl.
  rewrite bind_assoc. erewrite bind_quiet by reflexivity.
  rewrite bind_assoc. erewrite bind_quiet by reflexivity. erewrite bind_quiet by reflexivity.
  destruct (hd true (requests s)); cbn [negb]; [|done].
  do 18 (erewrite bind_quiet by (apply get_register_run; [exact Hl|done])).
  rewrite bind_assoc. erewrite bind_quiet by reflexivity.
  rewrite bind_assoc. erewrite bind_quiet by reflexivity. erewrite bind_quiet by reflexivity.
  destruct s as [inp ib ob rd rs ext m gd rq]. cbn [upd eta_t requests registers fst snd].
  by destruct (hd true (tail rq)).
Qed.

Lemma G_command sigval s rs rest :
  wf s → length rs = NUMREGS → Forall is_u64 rs →
  handle_command sigval 0 (opened s (G_packet rs) rest) =
  Done (Reply,
    (opened s (G_packet rs) rest) <| registers := rs |>
      <| remcomOutBuffer := list_inserts 0 (chars "OK" ++ [0])
           (list_inserts 0 [0] (remcomOutBuffer s)) |>
      <| requests := (load_result (requests s)).2 |>,
    load_events (requests s) rs).
Proof.
  intros Hs Hl Hrs. pose proof (length_G_packet rs Hl) as Hlen.
  set (s0 := opened s (G_packet rs) rest).
  assert (at_ptr s0 0 (G_packet rs ++ [0])) as Hat by (apply opened_at; [done|lia]).
  unfold G_packet in Hat. cbn [app] in Hat.
  apply at_ptr_cons in Hat as [Hc Hat]. apply at_ptr_app in Hat as [Hat _].
  unfold handle_command. erewrite bind_quiet by by apply (not_qRcmd _ _ _ Hc).
  cbv iota. erewrite bind_quiet by exact Hc. cbn [Z.eqb Pos.eqb].
  assert (hex2mem (0 + 1) (Z.to_nat NUMREGBYTES) s0 = Done (register_bytes rs, s0, [])) as Hhex.
  { replace (Z.to_nat NUMREGBYTES) with (length (register_bytes rs))
      by (rewrite length_register_bytes, Hl; done).
    apply hex2mem_run; [apply register_bytes_u8|exact Hat]. }
  erewrite bind_quiet by exact Hhex.
  set (s1 := s0 <| registers := rs |>).
  assert (modify (λ s, s <| registers := bytes_registers NUMREGS (register_bytes rs) |>) s0 =
          Done (tt, s1, [])) as Hmod.
  { unfold modify, s1. rewrite <- Hl. by rewrite bytes_register_bytes by done. }
  erewrite bind_quiet by exact Hmod.
  erewrite bind_done by by apply load_registers_run. erewrite bind_quiet.
  2: { unfold out_strcpy. apply out_put_run; [|lia|cbn; lia].
       cbn. rewrite length_insert. apply Hs. }
  cbn [mret io_ret]. by rewrite app_nil_r.
Qed.

Lemma g_command sigval s rest :
  wf s → handle_command sigval 0 (opened s [103] rest) =
  Done (Reply,
    (opened s [103] rest) <| remcomOutBuffer :=
      list_inserts 0 (hex_bytes (register_bytes (registers s)) ++ [0])
        (list_inserts 0 [0] (remcomOutBuffer s)) |>, []).
Proof.
  intros Hs. set (s0 := opened s [103] rest).
  assert (at_ptr s0 0 [103; 0]) as Hat by (apply (opened_at s [103]); [done|cbn; lia]).
  apply at_ptr_cons in Hat as [Hc _].
  unfold handle_command. erewrite bind_quiet by by apply (not_qRcmd _ _ _ Hc).
  cbv iota. erewrite bind_quiet by exact Hc. cbn [Z.eqb Pos.eqb].
  erewrite bind_quiet by reflexivity. erewrite bind_quiet.
  2: { apply mem2hex_run; [cbn; rewrite length_insert; apply Hs|].
       rewrite length_register_bytes. change (registers s0) with (registers s).
       rewrite (wf_registers s Hs). cbn. lia. }
  done.
Qed.

(** The answer in the output buffer, whatever it held. *)
Lemma out_answer cs buf :
  Forall plain cs → (length cs < 400)%nat → length buf = 400%nat →
  c_string (list_inserts 0 (cs ++ [0]) (list_inserts 0 [0] buf)) = Some cs.
Proof.
  intros Hcs Hl Hb. apply c_string_received.
  - eapply Forall_impl; [exact Hcs|]. by intros c (_ & _ & _ & H).
  - rewrite length_inserts. lia.
Qed.

(** Registers written with the command G are stored, and the general ones given to the
    virtual CPU if its two requests succeed; whether they do or not the command is
    acknowledged, and the command g then reports all 24 of 64 bits. *)
Theorem gdb_registers_round_trip sigval s rs rest :
  wf s → length rs = NUMREGS → Forall is_u64 rs →
  input s = frame (G_packet rs) ++ plus :: frame [103] ++ plus :: rest →
  ∃ s1 ev1 s2 ev2,
    handle_packet sigval s = Done (Reply, s1, ev1) ∧ registers s1 = rs ∧
    (VcpuRegisters (general rs) ∈ ev1 ↔ (load_result (requests s)).1 = true) ∧
    debug_output ev1 = plus :: frame (chars "OK") ∧
    handle_packet sigval s1 = Done (Reply, s2, ev2) ∧ input s2 = rest ∧
    debug_output ev2 = plus :: frame (hex_bytes (register_bytes rs)).
Proof.
  intros Hs Hl Hrs Hin. pose proof (length_G_packet rs Hl) as Hlen.
  assert (received (G_packet rs) (remcomInBuffer s) !! 2%nat ≠ Some colon) as H2.
  { apply received_no_colon; [lia|apply Hs|]. constructor; [done|].
    apply hex_bytes_no_colon, register_bytes_u8. }
  pose proof (wf_out s Hs) as Hout.
  eexists _, _, _, _. split.
  { eapply handle_packet_done; try done; [apply G_packet_plain|lia|by apply G_command|..].
    - cbn [upd eta_t remcomOutBuffer]. apply out_answer; [|cbn; lia|done].
      repeat constructor; vm_compute; congruence.
    - reflexivity. }
  split; [done|]. split.
  { unfold load_events. destruct (load_result (requests s)).1; [split; [done|]; intros _; right; left|].
    split; [intros H|done].
    exfalso. apply elem_of_cons in H as [H|H]; [done|]. by apply list_elem_of_fmap in H as (c & H & _). }
  split.
  { cbn [app debug_output]. unfold load_events. destruct (load_result (requests s)).1;
      cbn [app debug_output]; by rewrite debug_output_chars. }
  match goal with |- handle_packet _ ?s1 = _ ∧ _ => set (s' := s1) end.
  assert (wf s') as Hs'.
  { split; [|by cbn; rewrite !length_insert|done].
    change (remcomInBuffer s') with (received (G_packet rs) (remcomInBuffer s)).
    rewrite length_received. apply Hs. }
  split; [|split].
  { eapply (handle_packet_done _ _ [103]); try done.
    - repeat constructor; vm_compute; congruence.
    - cbn. lia.
    - change (remcomInBuffer s') with (received (G_packet rs) (remcomInBuffer s)).
      unfold received at 1. rewrite list_lookup_inserts_ge by (cbn; lia). exact H2.
    - by apply g_command.
    - cbn [upd eta_t remcomOutBuffer]. apply out_answer.
      + apply hex_bytes_plain, register_bytes_u8.
      + rewrite hex_bytes_length, length_register_bytes, (wf_registers s' Hs'). cbn. lia.
      + apply Hs'.
    - reflexivity. }
  { done. }
  cbn [app debug_output]. by rewrite debug_output_chars.
Qed.

(** *** The end of the session *)

Lemma terminates_run s naks rest :
  length (remcomOutBuffer s) = 400%nat → input s = naks ++ plus :: rest →
  Forall (λ c, c ≠ plus) naks →
  ∃ s', gdbserver_handle_exception SIGTERM s =
    Done (tt, s', map DebugChar (concat (replicate (S (length naks)) (frame (chars "X0f")))) ++
                  [GdbClosed]).
Proof.
  intros Hl Hin Hn. unfold gdbserver_handle_exception. cbn [SIGTERM SIGILL Z.eqb Pos.eqb orb].
  eexists. erewrite bind_quiet by (apply out_put_run; [done|lia|cbn; lia]).
  erewrite bind_done.
  2: { apply (putpacket_run _ (chars "X0f") naks rest); [|exact Hin|done].
       apply (c_string_received (chars "X0f")); [by repeat constructor|cbn; lia]. }
  reflexivity.
Qed.

(** C27. On termination the stub sends the exit packet X0f, repeats it until the debugger
    acknowledges it, closes the connection and returns, however many refusals come before
    the acknowledgement. *)
Theorem gdb_terminates s naks rest :
  length (remcomOutBuffer s) = 400%nat → input s = naks ++ plus :: rest →
  Forall (λ c, c ≠ plus) naks →
  ∃ s', gdbserver_handle_exception SIGTERM s =
    Done (tt, s', map DebugChar (concat (replicate (S (length naks)) (frame (chars "X0f")))) ++
                  [GdbClosed]).
Proof. apply terminates_run. Qed.

(** *** A packet of one character after one with a sequence identifier

The test for a sequence identifier looks at the third character of the buffer,
which a shorter packet does not write. *)

(** A short packet that follows a longer one is taken for a packet with a sequence number,
    from the colon the longer one left. *)
Theorem gdb_stale_sequence m :
  match run (λ _ : nat, getpacket) [0; 0]%nat
          (init (frame (chars "ab:g") ++ frame (chars "c")) m []) with
  | Done ([i; j], s, ev) =>
      i = 3 ∧ j = 3 ∧ remcomInBuffer s !! 3%nat = Some 103 ∧
      debug_output ev = chars "+ab" ++ [plus; 99; 0]
  | _ => False
  end.
Proof. vm_compute. done. Qed.

(** A damaged packet that is refused leaves its bytes in the buffer: its colon makes the
    next good packet one with a sequence number, whose command is the letter k of the
    damaged one. *)
Theorem gdb_damaged_reaches m :
  let damaged := dollar :: chars "ab:k" ++ [hash; 48; 48] in
  match getpacket (init (damaged ++ frame (chars "c")) m []) with
  | Done (i, s, ev) =>
      i = 3 ∧ remcomInBuffer s !! 3%nat = Some 107 ∧
      debug_output ev = [minus; plus; 99; 0]
  | Halt _ => False
  end.
Proof. vm_compute. done. Qed.

(** ** Witnesses *)

(** The guest memory at the start of a session, and a session. *)
Definition memory0 : mem := mk_mem 8388608 (λ a, a mod 256).
Definition session (inp : list Z) : t := init inp memory0 [].

Lemma session_wf inp : wf (session inp).
Proof. by split. Qed.

Lemma memory0_wf : mem_wf memory0.
Proof. split; [cbn; lia|]. intros a. apply u8_range. Qed.

Lemma packet_round_trip_witness :
  let s1 := (session [minus; plus]) <| remcomOutBuffer :=
    list_inserts 0 (chars "OK" ++ [0]) (replicate 400 0) |> in
  c_string (remcomOutBuffer s1) = Some (chars "OK") ∧ Forall plain (chars "OK") ∧
  ∃ ev, putpacket s1 = Done (tt, s1 <| input := [] |>, ev) ∧
    debug_output ev = concat (replicate 2 (frame (chars "OK"))) ∧
    let buf := received (chars "OK") (replicate 400 0) in
    getpacket (session ([0] ++ frame (chars "OK") ++ [])) =
      Done (packet_start buf, (session []) <| remcomInBuffer := buf |>, packet_ack buf) ∧
    c_string buf = Some (chars "OK") ∧ packet_start buf = 0 ∧ packet_ack buf = [DebugChar plus].
Proof.
  intros s1.
  assert (Forall plain (chars "OK")) as Hp by (repeat constructor; vm_compute; congruence).
  split; [reflexivity|]. split; [exact Hp|].
  destruct (packet_round_trip s1 (chars "OK") [minus] [] eq_refl Hp ltac:(cbn; lia) eq_refl)
    as (ev & Hput & Hout & Hget).
  { repeat constructor. vm_compute. congruence. }
  exists ev. split; [exact Hput|]. split; [exact Hout|].
  destruct (Hget (session ([0] ++ frame (chars "OK") ++ [])) [0] []) as (H1 & H2 & H3);
    [reflexivity|repeat constructor; vm_compute; congruence|reflexivity|].
  split; [exact H1|]. split; [exact H2|]. apply H3; [cbn; lia|done].
Defined.

Lemma packet_damaged_witness :
  Forall plain (chars "g") ∧
  let buf := received (chars "?") (received (chars "g") (replicate 400 0)) in
  getpacket (session (dollar :: chars "g" ++ [hash; 48; 48] ++ frame (chars "?"))) =
    Done (0, (session []) <| remcomInBuffer := buf |>, [DebugChar minus; DebugChar plus]) ∧
  c_string buf = Some (chars "?").
Proof.
  assert (Forall plain (chars "g")) as Hg by (repeat constructor; vm_compute; congruence).
  assert (Forall plain (chars "?")) as Hq by (repeat constructor; vm_compute; congruence).
  split; [exact Hg|].
  destruct (packet_damaged (session (dollar :: chars "g" ++ [hash; 48; 48] ++ frame (chars "?")))
    [] (chars "g") 48 48 [] (chars "?") []) as (Hrun & Hc & _);
    try first [exact Hg|exact Hq|by apply Forall_nil|reflexivity|(cbn; lia)|(vm_compute; congruence)].
  split; [exact Hrun|exact Hc].
Defined.

Lemma gdb_read_memory_witness :
  (∃ s' ev, handle_packet SIGTRAP (session (frame (m_packet 6 0xb8000 1 4) ++ [plus])) =
      Done (Reply, s', ev) ∧ input s' = [] ∧ memory s' = memory0 ∧
      registers s' = replicate NUMREGS 0 ∧
      debug_output ev = plus :: frame (hex_bytes (mem_slice 0xb8000 4 memory0))) ∧
  handle_packet SIGTRAP (session (frame (m_packet 6 0 2 200) ++ [plus])) = Halt OutOfBounds.
Proof.
  split.
  - apply (gdb_read_memory SIGTRAP (session (frame (m_packet 6 0xb8000 1 4) ++ [plus]))
      6 0xb8000 1 4 []);
      first [apply session_wf|exact memory0_wf|reflexivity|(cbn; lia)].
  - apply (gdb_read_memory SIGTRAP (session (frame (m_packet 6 0 2 200) ++ [plus])) 6 0 2 200 []);
      first [apply session_wf|exact memory0_wf|reflexivity|(cbn; lia)].
Defined.

Lemma gdb_registers_round_trip_witness :
  let rs := map Z.of_nat (seq 1000 24) in
  Forall is_u64 rs ∧ ∃ s1 ev1 s2 ev2,
    handle_packet SIGTRAP
      (session (frame (G_packet rs) ++ plus :: frame [103] ++ [plus])) = Done (Reply, s1, ev1) ∧
    registers s1 = rs ∧ VcpuRegisters (take 6 rs ++ [1007; 1006] ++ slice 8 10 rs) ∈ ev1 ∧
    debug_output ev1 = plus :: frame (chars "OK") ∧
    handle_packet SIGTRAP s1 = Done (Reply, s2, ev2) ∧ input s2 = [] ∧
    debug_output ev2 = plus :: frame (hex_bytes (register_bytes rs)).
Proof.
  intros rs.
  assert (Forall is_u64 rs) as Hrs by (apply (bool_decide_unpack _); vm_compute; exact I).
  split; [exact Hrs|].
  destruct (gdb_registers_round_trip SIGTRAP _ rs [] (session_wf _) eq_refl Hrs eq_refl)
    as (s1 & ev1 & s2 & ev2 & H1 & H2 & Hev & H3).
  exists s1, ev1, s2, ev2. split; [exact H1|]. split; [exact H2|]. split; [|exact H3].
  by apply Hev.
Defined.

Lemma gdb_terminates_witness :
  ∃ s', gdbserver_handle_exception SIGTERM (session [minus; minus; plus; 7]) =
    Done (tt, s', map DebugChar (concat (replicate 3 (frame (chars "X0f")))) ++ [GdbClosed]).
Proof.
  apply (gdb_terminates (session [minus; minus; plus; 7]) [minus; minus] [7]); [done|done|].
  repeat constructor; discriminate.
Defined.

End gdbserver.
