(* ===== verification/Elf.v ===== *)
(** * The executable loader (elf/elf.h, elf32.h, elf64.h, elf32.cpp, elf64.cpp,
    interp.h, interp.cpp, estrattore.cpp)

The two interpreters differ in the layout of the headers and in the class and
machine they accept: the component is written once, on a record of these, and
[Elf32] and [Elf64] are its instances. *)

From S2P Require Import Prelude.

Module Elf.

(** ** Constants *)
Definition ET_EXEC : Z := 2.
Definition EM_386 : Z := 3.
Definition EM_AMD64 : Z := 62.
Definition ELFMAG0 : Z := 0x7f.
Definition ELFMAG1 : Z := 69.
Definition ELFMAG2 : Z := 76.
Definition ELFMAG3 : Z := 70.
Definition ELFCLASS32 : Z := 1.
Definition ELFCLASS64 : Z := 2.
Definition ELFDATA2LSB : Z := 1.
Definition PF_W : Z := 2.
Definition PT_LOAD : Z := 1.
Definition DIM_PAGINA : Z := 4096.
Definition EXIT_FAILURE : Z := 1.

(** ** Layouts

    A field is an offset and a size in bytes. *)
Record field : Type := mk_field { f_offset : Z; f_size : nat }.

Record format : Type := {
  sizeof_ehdr : nat;
  sizeof_phdr : Z;
  e_entry : field; e_phoff : field; e_shoff : field;
  e_phentsize : field; e_phnum : field; e_shentsize : field; e_shnum : field;
  p_offset : field; p_vaddr : field; p_filesz : field; p_memsz : field; p_flags : field;
  accepted_class : Z;
  accepted_machine : Z;
  (** The width of [curr_offset] and [curr]. *)
  offset_bits : Z;
}.

(** [e_ident], [e_type], [e_machine] and [p_type] are at the same place in both. *)
Definition e_ident (i : Z) : field := mk_field i 1.
Definition e_type : field := mk_field 16 2.
Definition e_machine : field := mk_field 18 2.
Definition p_type : field := mk_field 0 4.
Definition EI_CLASS : Z := 4.
Definition EI_DATA : Z := 5.

(** A field of a header that is in memory; a read outside the buffer is
    undefined. *)
Definition field_of (buf : list Z) (base : Z) (f : field) : Z :=
  le_val (slice (Z.to_nat (base + f_offset f)) (f_size f) buf).
Definition read_field (buf : list Z) (base : Z) (f : field) : io mem Z :=
  if decide (base + f_offset f + Z.of_nat (f_size f) ≤ Z.of_nat (length buf))
  then mret (field_of buf base f) else crash OutOfBounds.

(** ** Files

    [fseek] fails on what is negative as a [long]; [fread] gives the whole items
    that the file holds from a position on. *)
Definition fseek_ok (off : Z) : bool := off <? 9223372036854775808.

Definition fread_items (file : list Z) (off : Z) (size n : nat) : list Z :=
  let avail := (length file - Z.to_nat off)%nat in
  slice (Z.to_nat off) (size * Nat.min n (avail / size)) file.

Definition read_all (file : list Z) (off : Z) (size n : nat) : option (list Z) :=
  let bs := fread_items file off size n in
  if decide (length bs = (size * n)%nat ∧ (size ≠ 0%nat ∨ n = 0%nat)) then Some bs else None.

Section interpreter.
Context (F : format).

(** [EseguibileElf]: the file, its header, the segment table and the position in
    it. *)
Record eseguibile : Type := mk_exe {
  pexe : list Z;
  h : list Z;
  seg_buf : list Z;
  sec_buf : list Z;
  curr_seg : Z;
}.

(** A table of the file, allocated and read whole. *)
Definition load_table (file : list Z) (off entsize num : Z) : io mem (list Z) :=
  if decide (INT_MAX < num * entsize) then crash IntOverflow
  else if negb (fseek_ok off) then crash (ExitProcess EXIT_FAILURE)
  else
    match read_all file off (Z.to_nat entsize) (Z.to_nat num) with
    | Some bs => mret bs
    | None => crash (ExitProcess EXIT_FAILURE)
    end.

(** The conditions on the header; the fourth one repeats the third. *)
Definition header_ok (hdr : list Z) : bool :=
  (field_of hdr 0 (e_ident 0) =? ELFMAG0) && (field_of hdr 0 (e_ident 1) =? ELFMAG1) &&
  (field_of hdr 0 (e_ident 2) =? ELFMAG2) && (field_of hdr 0 (e_ident 2) =? ELFMAG2) &&
  ((field_of hdr 0 (e_ident EI_CLASS) =? accepted_class F) &&
   (field_of hdr 0 (e_ident EI_DATA) =? ELFDATA2LSB) &&
   (field_of hdr 0 e_type =? ET_EXEC) && (field_of hdr 0 e_machine =? accepted_machine F)).

Definition init (file : list Z) : io mem (option eseguibile) :=
  match read_all file 0 (sizeof_ehdr F) 1 with
  | None => mret None
  | Some hdr =>
      if negb (header_ok hdr) then mret None
      else
        segs ← load_table file (field_of hdr 0 (e_phoff F))
                 (field_of hdr 0 (e_phentsize F)) (field_of hdr 0 (e_phnum F));
        secs ← load_table file (field_of hdr 0 (e_shoff F))
                 (field_of hdr 0 (e_shentsize F)) (field_of hdr 0 (e_shnum F));
        mret (Some (mk_exe file hdr segs secs 0))
  end.

Definition entry_point (e : eseguibile) : Z := field_of (h e) 0 (e_entry F).
Definition phnum (e : eseguibile) : Z := field_of (h e) 0 (e_phnum F).
Definition phentsize (e : eseguibile) : Z := field_of (h e) 0 (e_phentsize F).

(** *** Segments: [SegmentoElf] *)
Record segmento : Type := mk_seg {
  ph : Z;                     (* the position of the header in [seg_buf] *)
  ph_offset : Z; ph_vaddr : Z; ph_filesz : Z; ph_memsz : Z;
  curr_offset : Z;
  curr : Z;
  da_leggere : Z;
  ancora : Z;
}.

Definition min_page (x : Z) : Z := if DIM_PAGINA <? x then DIM_PAGINA else x.

Definition new_segmento (e : eseguibile) (base : Z) : io mem segmento :=
  off ← read_field (seg_buf e) base (p_offset F);
  filesz ← read_field (seg_buf e) base (p_filesz F);
  memsz ← read_field (seg_buf e) base (p_memsz F);
  vaddr ← read_field (seg_buf e) base (p_vaddr F);
  let co := Z.land off (Z.lnot (DIM_PAGINA - 1)) in
  let dl := u32 (filesz + (off - co)) in
  mret (mk_seg base off vaddr filesz memsz co (min_page dl) dl (u32 memsz)).

(** The next loadable segment and the position after it. *)
Fixpoint prossimo_segmento_from (fuel : nat) (e : eseguibile) (i : Z)
    : io mem (option (segmento * Z)) :=
  match fuel with
  | O => mret None
  | S fuel =>
      if negb (i <? phnum e) then mret None
      else
        let base := phentsize e * i in
        ty ← read_field (seg_buf e) base p_type;
        if negb (ty =? PT_LOAD) then prossimo_segmento_from fuel e (i + 1)
        else s ← new_segmento e base; mret (Some (s, i + 1))
  end.

Definition prossimo_segmento (e : eseguibile) : io mem (option (segmento * eseguibile)) :=
  r ← prossimo_segmento_from (S (Z.to_nat (phnum e - curr_seg e))) e (curr_seg e);
  mret (match r with
        | None => None
        | Some (s, i) =>
            Some (s, mk_exe (pexe e) (h e) (seg_buf e) (sec_buf e) i)
        end).

Definition ind_virtuale (s : segmento) : Z := ph_vaddr s.
Definition dimensione_filesz (s : segmento) : Z := ph_filesz s.
Definition dimensione (s : segmento) : Z := ph_memsz s.
Definition scrivibile (e : eseguibile) (s : segmento) : io mem bool :=
  flags ← read_field (seg_buf e) (ph s) (p_flags F);
  mret (negb (Z.land flags PF_W =? 0)).
Definition finito (s : segmento) : bool := ancora s <=? 0.
Definition pagina_di_zeri (s : segmento) : bool := da_leggere s <=? 0.

Definition prossima_pagina (s : segmento) : bool * segmento :=
  if finito s then (false, s)
  else
    let dl := u32 (da_leggere s - curr s) in
    (true, mk_seg (ph s) (ph_offset s) (ph_vaddr s) (ph_filesz s) (ph_memsz s)
             ((curr_offset s + curr s) mod 2 ^ offset_bits F) (min_page dl) dl (ancora s)).

(** Writes through a pointer into the guest memory. *)
Definition write_mem (a : Z) (bs : list Z) : io mem unit :=
  m ← get;
  if decide (bs = [] ∨ in_mem a (length bs) m) then modify (mem_put a bs) else crash OutOfBounds.
Definition memset (a v n : Z) : io mem unit :=
  m ← get;
  if decide (n = 0 ∨ 0 ≤ a ∧ a + n ≤ msize m) then modify (mem_fill a n v)
  else crash OutOfBounds.

Definition copia_pagina (e : eseguibile) (s : segmento) (dest : Z) : io mem bool :=
  if curr s =? 0 then mret true
  else if negb (fseek_ok (curr_offset s)) then crash (ExitProcess EXIT_FAILURE)
  else
    when (curr s <? DIM_PAGINA) (memset dest 0 DIM_PAGINA);;
    let bs := fread_items (pexe e) (curr_offset s) 1 (Z.to_nat (curr s)) in
    write_mem dest bs;;
    if decide (Z.of_nat (length bs) < curr s) then crash (ExitProcess EXIT_FAILURE)
    else mret true.

Definition copia_segmento (e : eseguibile) (s : segmento) (dest : Z) : io mem Z :=
  if negb (fseek_ok (ph_offset s)) then crash (ExitProcess EXIT_FAILURE)
  else
    let filesz := dimensione_filesz s in
    let memsz := dimensione s in
    let bs := fread_items (pexe e) (ph_offset s) 1 (Z.to_nat filesz) in
    write_mem dest bs;;
    let read_count := Z.of_nat (length bs) in
    if filesz <? memsz then
      memset (dest + filesz) 0 (memsz - filesz);;
      mret (u64 (read_count + (memsz - filesz)))
    else mret read_count.

(** The body of the loop of [estrai_segmento]. *)
Definition load_segment (dest_size : Z) (e : eseguibile) (s : segmento) : io mem unit :=
  let end_addr := u64 (ind_virtuale s + dimensione s) in
  if dest_size <? end_addr then mret tt
  else copia_segmento e s (ind_virtuale s);; mret tt.

Fixpoint load_segments (fuel : nat) (dest_size : Z) (e : eseguibile) : io mem unit :=
  match fuel with
  | O => mret tt
  | S fuel =>
      r ← prossimo_segmento e;
      match r with
      | None => mret tt
      | Some (s, e') => load_segment dest_size e s;; load_segments fuel dest_size e'
      end
  end.
End interpreter.

(** ** The list of interpreters: [ListaInterpreti] *)
Record lista : Type := mk_lista { testa : list format; l_curr : list format }.

Definition aggiungi (F : format) (l : lista) : lista := mk_lista (F :: testa l) (l_curr l).
Definition rewind (l : lista) : lista := mk_lista (testa l) (testa l).
Definition ancora_l (l : lista) : bool := match l_curr l with [] => false | _ => true end.
Definition prossimo (l : lista) : option format * lista :=
  match l_curr l with
  | [] => (None, l)
  | F :: next => (Some F, mk_lista (testa l) next)
  end.

(** [interpreta]: an executable of the format, if the file is one. *)
Definition interpreta (F : format) (file : list Z) : io mem (option eseguibile) := init F file.

Fixpoint find_interpreter (fuel : nat) (l : lista) (file : list Z)
    : io mem (option (format * eseguibile)) :=
  match fuel with
  | O => mret None
  | S fuel =>
      if negb (ancora_l l) then mret None
      else
        match prossimo l with
        | (None, _) => crash NullDeref
        | (Some F, l) =>
            exe ← interpreta F file;
            match exe with
            | Some e => mret (Some (F, e))
            | None => find_interpreter fuel l file
            end
        end
  end.

(** [estrai_segmento]: the file of the path, if it opens, and the memory at
    [dest]. *)
Definition estrai_segmento (l : lista) (file : option (list Z)) (dest_size : Z) : io mem Z :=
  match file with
  | None => crash (ExitProcess EXIT_FAILURE)
  | Some file =>
      exe ← find_interpreter (S (length (testa l))) (rewind l) file;
      match exe with
      | None => crash (ExitProcess EXIT_FAILURE)
      | Some (F, e) =>
          load_segments F (S (Z.to_nat (phnum F e))) dest_size e;;
          mret (entry_point F e)
      end
  end.

(** ** What the loader promises *)
Section specification.
Context (F : format).

Definition type_at (e : eseguibile) (i : Z) : Z :=
  field_of (seg_buf e) (phentsize F e * i) p_type.

Definition segment_at (e : eseguibile) (i : Z) : segmento :=
  let base := phentsize F e * i in
  let off := field_of (seg_buf e) base (p_offset F) in
  let filesz := field_of (seg_buf e) base (p_filesz F) in
  let memsz := field_of (seg_buf e) base (p_memsz F) in
  let co := Z.land off (Z.lnot (DIM_PAGINA - 1)) in
  let dl := u32 (filesz + (off - co)) in
  mk_seg base off (field_of (seg_buf e) base (p_vaddr F)) filesz memsz co (min_page dl) dl
    (u32 memsz).

(** The loadable segments among the [n] headers from the [i]th on. *)
Fixpoint loads (n : nat) (e : eseguibile) (i : Z) : list segmento :=
  match n with
  | O => []
  | S n =>
      if type_at e i =? PT_LOAD then segment_at e i :: loads n e (i + 1)
      else loads n e (i + 1)
  end.

(** The bytes of a segment: what the file holds of it, then zeros. *)
Definition place (file : list Z) (dest_size : Z) (m : mem) (s : segmento) : mem :=
  if dest_size <? ph_vaddr s + ph_memsz s then m
  else
    let m := mem_put (ph_vaddr s)
               (fread_items file (ph_offset s) 1 (Z.to_nat (ph_filesz s))) m in
    if ph_filesz s <? ph_memsz s
    then mem_fill (ph_vaddr s + ph_filesz s) (ph_memsz s - ph_filesz s) 0 m else m.

(** The headers lie in the table. *)
Definition table_ok (e : eseguibile) : Prop :=
  ∀ i f, 0 ≤ i < phnum F e →
    f ∈ [p_type; p_offset F; p_vaddr F; p_filesz F; p_memsz F] →
    phentsize F e * i + f_offset f + Z.of_nat (f_size f) ≤ Z.of_nat (length (seg_buf e)).

(** Segments that say the truth about their sizes. *)
Record segment_ok (s : segmento) : Prop := {
  ok_vaddr : 0 ≤ ph_vaddr s;
  ok_offset : 0 ≤ ph_offset s < 9223372036854775808;
  ok_filesz : 0 ≤ ph_filesz s ≤ ph_memsz s;
  ok_end : ph_vaddr s + ph_memsz s < 18446744073709551616;
}.

Lemma read_field_run e i f m :
  table_ok e → 0 ≤ i < phnum F e →
  f ∈ [p_type; p_offset F; p_vaddr F; p_filesz F; p_memsz F] →
  read_field (seg_buf e) (phentsize F e * i) f m =
  Done (field_of (seg_buf e) (phentsize F e * i) f, m, []).
Proof.
  intros He Hi Hf. unfold read_field. by rewrite decide_True by by apply He.
Qed.

Lemma new_segmento_run e i m :
  table_ok e → 0 ≤ i < phnum F e →
  new_segmento F e (phentsize F e * i) m = Done (segment_at e i, m, []).
Proof.
  intros He Hi. unfold new_segmento.
  do 4 erewrite bind_quiet by (apply read_field_run; [done|done|repeat constructor]). done.
Qed.

Lemma prossimo_from_run n e i m :
  table_ok e → 0 ≤ i → n = Z.to_nat (phnum F e - i) →
  ∃ r, prossimo_segmento_from F (S n) e i m = Done (r, m, []) ∧
    match r with
    | None => loads n e i = []
    | Some (s, i') => i < i' ≤ phnum F e ∧
        loads n e i = s :: loads (Z.to_nat (phnum F e - i')) e i'
    end.
Proof.
  intros He. revert i. induction n as [|n IH]; intros i Hi Hn; cbn [prossimo_segmento_from].
  - exists None. destruct (Z.ltb_spec i (phnum F e)); [lia|]. done.
  - rewrite (proj2 (Z.ltb_lt _ _)) by lia. cbn [negb].
    erewrite bind_quiet by (apply read_field_run; [done|lia|repeat constructor]).
    cbn [loads]. unfold type_at. destruct (_ =? PT_LOAD); cbn [negb].
    + eexists. erewrite bind_quiet by (apply new_segmento_run; [done|lia]).
      split; [done|]. split; [lia|]. by replace (Z.to_nat (phnum F e - (i + 1))) with n by lia.
    + destruct (IH (i + 1)) as (r & Hr & Hspec); [lia|lia|]. exists r. split; [done|].
      destruct r as [[s i']|]; [|done]. destruct Hspec. split; [lia|done].
Qed.

(** The state of the executable in the loop. *)
Definition at_seg (e : eseguibile) (i : Z) : eseguibile :=
  mk_exe (pexe e) (h e) (seg_buf e) (sec_buf e) i.

Lemma prossimo_from_at fuel e j i m :
  prossimo_segmento_from F fuel (at_seg e j) i m = prossimo_segmento_from F fuel e i m.
Proof.
  revert i m. induction fuel as [|fuel IH]; intros i m; [done|].
  cbn [prossimo_segmento_from]. change (phnum F (at_seg e j)) with (phnum F e).
  destruct (i <? phnum F e); [|done]. cbn [negb]. unfold mbind, io_bind.
  change (seg_buf (at_seg e j)) with (seg_buf e).
  change (phentsize F (at_seg e j)) with (phentsize F e).
  destruct (read_field _ _ p_type m) as [[[ty m'] ev]|]; [|done].
  destruct (ty =? PT_LOAD); cbn [negb]; [done|]. by rewrite IH.
Qed.

Lemma write_mem_run a bs m :
  in_mem a (length bs) m → write_mem a bs m = Done (tt, mem_put a bs m, []).
Proof.
  intros Hin. unfold write_mem. erewrite bind_quiet by reflexivity.
  by rewrite decide_True by by right.
Qed.

Lemma memset_run a v n m :
  0 ≤ a → a + n ≤ msize m → memset a v n m = Done (tt, mem_fill a n v m, []).
Proof.
  intros Ha Hn. unfold memset. erewrite bind_quiet by reflexivity.
  by rewrite decide_True by by right.
Qed.

Lemma length_fread file off n :
  (length (fread_items file off 1 n) ≤ n)%nat.
Proof.
  unfold fread_items, slice. rewrite length_take. lia.
Qed.

Lemma load_segment_run dest_size e s m :
  segment_ok s → dest_size ≤ msize m →
  load_segment dest_size e s m = Done (tt, place (pexe e) dest_size m s, []).
Proof.
  intros [Hv Ho Hf He] Hd. unfold load_segment, place, ind_virtuale, dimensione.
  rewrite u64_id by (unfold is_u64; lia).
  destruct (Z.ltb_spec dest_size (ph_vaddr s + ph_memsz s)); [done|].
  unfold copia_segmento, fseek_ok. rewrite (proj2 (Z.ltb_lt _ _)) by lia. cbn [negb].
  pose proof (length_fread (pexe e) (ph_offset s) (Z.to_nat (ph_filesz s))) as Hl.
  unfold dimensione_filesz, dimensione.
  rewrite bind_assoc. erewrite bind_quiet by (apply write_mem_run; unfold in_mem; lia).
  destruct (ph_filesz s <? ph_memsz s).
  - rewrite bind_assoc. erewrite bind_quiet by (apply memset_run; cbn; lia). done.
  - done.
Qed.

Lemma place_size file dest_size m s : msize (place file dest_size m s) = msize m.
Proof. unfold place. repeat case_match; done. Qed.

Lemma load_segments_run dest_size n e i m fuel :
  table_ok e → 0 ≤ i → n = Z.to_nat (phnum F e - i) → dest_size ≤ msize m →
  Forall segment_ok (loads n e i) → (n < fuel)%nat →
  load_segments F fuel dest_size (at_seg e i) m =
  Done (tt, foldl (place (pexe e) dest_size) m (loads n e i), []).
Proof.
  intros He. revert n i m. induction fuel as [|fuel IH]; intros n i m Hi Hn Hd Hok Hf; [lia|].
  cbn [load_segments].
  destruct (prossimo_from_run n e i m) as (r & Hr & Hspec); [done..|].
  assert (prossimo_segmento F (at_seg e i) m =
    Done (match r with None => None | Some (s, i') => Some (s, at_seg e i') end, m, []))
    as Hp.
  { unfold prossimo_segmento. cbn [curr_seg at_seg].
    change (phnum F (at_seg e i)) with (phnum F e). rewrite <- Hn.
    erewrite bind_quiet by (rewrite prossimo_from_at; exact Hr). by destruct r as [[s i']|]. }
  erewrite bind_quiet by exact Hp. destruct r as [[s i']|].
  - destruct Hspec as [Hi' Hl]. rewrite Hl in *. apply Forall_cons in Hok as [Hs Hok].
    erewrite bind_quiet by by apply load_segment_run.
    cbn [foldl]. apply IH; try done; [lia|by rewrite place_size|lia].
  - by rewrite Hspec.
Qed.

(** Nothing outside the destination is touched. *)
Lemma place_outside file dest_size m s x :
  segment_ok s → ¬ (0 ≤ x < dest_size) → mget (place file dest_size m s) x = mget m x.
Proof.
  intros [Hv Ho Hf He] Hx. unfold place.
  destruct (Z.ltb_spec dest_size (ph_vaddr s + ph_memsz s)); [done|].
  pose proof (length_fread file (ph_offset s) (Z.to_nat (ph_filesz s))) as Hl.
  destruct (Z.ltb_spec (ph_filesz s) (ph_memsz s)).
  - rewrite mget_fill, decide_False by lia. apply mget_put_out. lia.
  - apply mget_put_out. lia.
Qed.

Lemma places_outside file dest_size ss m x :
  Forall segment_ok ss → ¬ (0 ≤ x < dest_size) →
  mget (foldl (place file dest_size) m ss) x = mget m x.
Proof.
  intros Hok Hx. revert m. induction Hok as [|s ss Hs _ IH]; intros m; [done|].
  cbn [foldl]. rewrite IH. by apply place_outside.
Qed.

Lemma places_size file dest_size ss m :
  msize (foldl (place file dest_size) m ss) = msize m.
Proof.
  revert m. induction ss as [|s ss IH]; intros m; [done|]. cbn [foldl].
  by rewrite IH, place_size.
Qed.

(** A memory of bytes stays one when bytes are loaded. *)
Lemma place_wf file dest_size m s :
  Forall is_u8 file → mem_wf m → mem_wf (place file dest_size m s).
Proof.
  intros Hb Hm. unfold place.
  assert (mem_wf (mem_put (ph_vaddr s)
    (fread_items file (ph_offset s) 1 (Z.to_nat (ph_filesz s))) m)) as Hp.
  { apply mem_put_wf; [done|]. unfold fread_items, slice. by apply Forall_take, Forall_drop. }
  destruct (_ <? _); [done|]. destruct (_ <? _); [|done]. destruct Hp as [Hs Hp]. split; [done|].
  intros a. cbn [mget mem_fill]. destruct (_ && _); [unfold is_u8; lia|apply Hp].
Qed.

Lemma places_wf file dest_size ss m :
  Forall is_u8 file → mem_wf m → mem_wf (foldl (place file dest_size) m ss).
Proof.
  intros Hb. revert m. induction ss as [|s ss IH]; intros m Hm; [done|]. by apply IH, place_wf.
Qed.
End specification.

(** ** The interpreters on a file *)

(** The byte that tells the formats apart. *)
Definition class_byte (file : list Z) : Z := le_val (slice 4 1 file).

Lemma read_all_header file n hdr :
  read_all file 0 n 1 = Some hdr → hdr = take n file ∧ (n ≤ length file)%nat.
Proof.
  unfold read_all, fread_items, slice. change (Z.to_nat 0) with 0%nat.
  rewrite drop_0, Nat.sub_0_r. case_decide as Hd; [|done]. intros [= <-].
  destruct Hd as [Hl Hn]. rewrite length_take in Hl.
  destruct (Nat.eq_dec n 0) as [->|Hn0]; [destruct Hn; lia|].
  destruct (Nat.le_gt_cases (length file) n).
  - destruct (Nat.eq_dec (length file) n) as [->|].
    + rewrite Nat.div_same, Nat.mul_1_r by done. split; [done|lia].
    + rewrite Nat.div_small in Hl by lia. rewrite Nat.min_0_r, Nat.mul_0_r in Hl. lia.
  - assert (1 ≤ length file / n)%nat as Hq by (apply Nat.div_le_lower_bound; lia).
    destruct (length file / n)%nat; [lia|]. rewrite Nat.mul_1_r. split; [done|lia].
Qed.

Lemma init_other F file m :
  (5 ≤ sizeof_ehdr F)%nat → class_byte file ≠ accepted_class F →
  init F file m = Done (None, m, []).
Proof.
  intros Hsz Hc. unfold init. destruct (read_all _ _ _ _) as [hdr|] eqn:Hr; [|done].
  apply read_all_header in Hr as [-> Hl].
  replace (header_ok F (take (sizeof_ehdr F) file)) with false; [done|].
  symmetry. unfold header_ok.
  replace (field_of (take (sizeof_ehdr F) file) 0 (e_ident EI_CLASS)) with (class_byte file).
  { rewrite (proj2 (Z.eqb_neq (class_byte file) (accepted_class F))) by done.
    cbn [andb]. by rewrite andb_false_r. }
  unfold class_byte, field_of, slice. cbn [e_ident f_offset f_size].
  change (Z.to_nat (0 + EI_CLASS)) with 4%nat.
  rewrite skipn_firstn_comm, take_take. by rewrite Nat.min_l by lia.
Qed.

(** A table that was loaded is all there. *)
Lemma load_table_inv file off entsize num m bs m' ev :
  0 ≤ num → 0 ≤ entsize →
  load_table file off entsize num m = Done (bs, m', ev) →
  m' = m ∧ ev = [] ∧ Z.of_nat (length bs) = num * entsize.
Proof.
  intros Hn He. unfold load_table. case_decide; [done|]. destruct (negb _); [done|].
  destruct (read_all _ _ _ _) as [bs'|] eqn:Hr; [|done]. intros [= <- <- <-].
  split; [done|]. split; [done|]. unfold read_all in Hr. case_decide as Hd; [|done].
  injection Hr as <-. destruct Hd as [-> _]. lia.
Qed.

Lemma field_nonneg buf base f : Forall is_u8 buf → 0 ≤ field_of buf base f.
Proof.
  intros Hb. unfold field_of.
  apply le_val_bound. unfold slice. by apply Forall_take, Forall_drop.
Qed.

Lemma load_table_quiet file off entsize num m bs m' ev :
  load_table file off entsize num m = Done (bs, m', ev) → m' = m ∧ ev = [].
Proof.
  unfold load_table. case_decide; [done|]. destruct (negb _); [done|].
  destruct (read_all _ _ _ _); [|done]. by intros [= <- <- <-].
Qed.

Lemma init_quiet F file m r m' ev : init F file m = Done (r, m', ev) → m' = m ∧ ev = [].
Proof.
  unfold init. destruct (read_all _ _ _ _) as [hdr|]; [|by intros [= <- <- <-]].
  destruct (negb _); [by intros [= <- <- <-]|].
  intros (segs & m1 & ev1 & ev2 & H1 & Hrest & ->)%bind_inv.
  apply bind_inv in Hrest as (secs & m2 & ev3 & ev4 & H2 & H3 & ->).
  apply load_table_quiet in H1 as [-> ->]. apply load_table_quiet in H2 as [-> ->].
  by injection H3 as <- <- <-.
Qed.

Lemma init_inv F file m e m' ev :
  Forall is_u8 file → init F file m = Done (Some e, m', ev) →
  m' = m ∧ ev = [] ∧ pexe e = file ∧ curr_seg e = 0 ∧
  0 ≤ phnum F e ∧ 0 ≤ phentsize F e ∧
  Z.of_nat (length (seg_buf e)) = phnum F e * phentsize F e.
Proof.
  intros Hb. unfold init. destruct (read_all _ _ _ _) as [hdr|] eqn:Hr; [|done].
  apply read_all_header in Hr as [-> Hl].
  assert (Forall is_u8 (take (sizeof_ehdr F) file)) as Hh by by apply Forall_take.
  destruct (negb _); [done|].
  intros (segs & m1 & ev1 & ev2 & H1 & Hrest & ->)%bind_inv.
  apply bind_inv in Hrest as (secs & m2 & ev3 & ev4 & H2 & H3 & ->).
  apply load_table_inv in H1 as (-> & -> & Hsegs); [|by apply field_nonneg..].
  apply load_table_inv in H2 as (-> & -> & _); [|by apply field_nonneg..].
  injection H3 as <- <- <-. cbn [pexe curr_seg seg_buf].
  split_and!; try done; by apply field_nonneg.
Qed.

(** The fields of a program header lie in it. *)
Definition fields_fit (F : format) : Prop :=
  Forall (λ f, 0 ≤ f_offset f ∧ f_offset f + Z.of_nat (f_size f) ≤ sizeof_phdr F)
    [p_type; p_offset F; p_vaddr F; p_filesz F; p_memsz F].

Lemma table_ok_init F file m e m' ev :
  Forall is_u8 file → fields_fit F → init F file m = Done (Some e, m', ev) →
  sizeof_phdr F ≤ phentsize F e → table_ok F e.
Proof.
  intros Hb Hfit Hinit Hsz i f Hi Hf.
  apply init_inv in Hinit as (_ & _ & _ & _ & _ & Hent & Hlen); [|done].
  unfold fields_fit in Hfit. rewrite Forall_forall in Hfit. apply Hfit in Hf as [Hf1 Hf2].
  rewrite Hlen. nia.
Qed.

(** The search stops at an interpreter that accepts the file. *)
Lemma find_inv fuel l file m F e m' ev :
  find_interpreter fuel l file m = Done (Some (F, e), m', ev) →
  Forall is_u8 file →
  init F file m = Done (Some e, m, []) ∧ m' = m ∧ ev = [].
Proof.
  intros Hfind Hb. revert l m Hfind. induction fuel as [|fuel IH]; intros l m Hfind; [done|].
  cbn [find_interpreter] in Hfind. destruct l as [ts [|G next]]; [done|].
  cbn [ancora_l l_curr negb prossimo testa] in Hfind.
  apply bind_inv in Hfind as (r & m1 & ev1 & ev2 & Hi & Hrest & ->).
  unfold interpreta in Hi.
  destruct r as [e1|].
  - injection Hrest as <- <- <- <-. pose proof Hi as Hi'.
    apply init_inv in Hi' as (-> & -> & _); [|done]. done.
  - assert (m1 = m ∧ ev1 = []) as [-> ->]; [|by apply IH in Hrest].
    by apply init_quiet in Hi.
Qed.

(** Loading an executable. *)
Lemma estrai_run l file F e dest_size m :
  Forall is_u8 file → fields_fit F → dest_size ≤ msize m →
  find_interpreter (S (length (testa l))) (rewind l) file m = Done (Some (F, e), m, []) →
  sizeof_phdr F ≤ phentsize F e →
  let segs := loads F (Z.to_nat (phnum F e)) e 0 in
  Forall segment_ok segs →
  ∃ m', estrai_segmento l (Some file) dest_size m = Done (entry_point F e, m', []) ∧
    m' = foldl (place file dest_size) m segs ∧ msize m' = msize m ∧
    ∀ x, ¬ (0 ≤ x < dest_size) → mget m' x = mget m x.
Proof.
  intros Hb Hfit Hd Hfind Hsz segs Hok.
  pose proof (find_inv _ _ _ _ _ _ _ _ Hfind Hb) as (Hinit & _ & _).
  pose proof (table_ok_init _ _ _ _ _ _ Hb Hfit Hinit Hsz) as Htab.
  apply init_inv in Hinit as (_ & _ & Hfile & Hcurr & Hnum & _ & _); [|done].
  eexists. split; [|split; [reflexivity|]].
  - unfold estrai_segmento. erewrite bind_quiet by exact Hfind.
    pose proof (load_segments_run F dest_size (Z.to_nat (phnum F e)) e 0 m
      (S (Z.to_nat (phnum F e))) Htab) as Hrun.
    rewrite Z.sub_0_r in Hrun. specialize (Hrun ltac:(lia) eq_refl Hd Hok ltac:(lia)).
    replace (at_seg e 0) with e in Hrun by (destruct e; cbn in *; by subst).
    rewrite Hfile in Hrun. cbv iota. by erewrite bind_quiet by exact Hrun.
  - split; [apply places_size|]. intros x Hx. by apply places_outside.
Qed.

(** ** Properties *)

(** C24. For a recognised executable whose loadable segments are consistent (no more bytes
    in the file than in memory, an end address that does not wrap, table entries no shorter
    than a program header), the loader returns the entry point and the memory in which the
    segments were placed one after the other: file bytes at the segment's address, zeros up
    to its memory size, segments outside the destination skipped, and no byte outside the
    destination changed. *)
Theorem elf_load l file F e dest_size m :
  Forall is_u8 file → fields_fit F → dest_size ≤ msize m →
  find_interpreter (S (length (testa l))) (rewind l) file m = Done (Some (F, e), m, []) →
  sizeof_phdr F ≤ phentsize F e →
  let segs := loads F (Z.to_nat (phnum F e)) e 0 in
  Forall segment_ok segs →
  ∃ m', estrai_segmento l (Some file) dest_size m = Done (entry_point F e, m', []) ∧
    m' = foldl (place file dest_size) m segs ∧ msize m' = msize m ∧
    ∀ x, ¬ (0 ≤ x < dest_size) → mget m' x = mget m x.
Proof. apply estrai_run. Qed.

End Elf.

(** ** The two formats *)
Module Elf32.
Import Elf.

Definition elf32 : format := {|
  sizeof_ehdr := 52; sizeof_phdr := 32;
  e_entry := mk_field 24 4; e_phoff := mk_field 28 4; e_shoff := mk_field 32 4;
  e_phentsize := mk_field 42 2; e_phnum := mk_field 44 2;
  e_shentsize := mk_field 46 2; e_shnum := mk_field 48 2;
  p_offset := mk_field 4 4; p_vaddr := mk_field 8 4; p_filesz := mk_field 16 4;
  p_memsz := mk_field 20 4; p_flags := mk_field 24 4;
  accepted_class := ELFCLASS32; accepted_machine := EM_386; offset_bits := 32 |}.

(** [EseguibileElf32] and [SegmentoElf32]. *)
Definition init := Elf.init elf32.
Definition prossimo_segmento := Elf.prossimo_segmento elf32.
Definition entry_point := Elf.entry_point elf32.
Definition new_segmento := Elf.new_segmento elf32.
Definition scrivibile := Elf.scrivibile elf32.
Definition ind_virtuale := Elf.ind_virtuale.
Definition dimensione_filesz := Elf.dimensione_filesz.
Definition dimensione := Elf.dimensione.
Definition finito := Elf.finito.
Definition prossima_pagina := Elf.prossima_pagina elf32.
Definition pagina_di_zeri := Elf.pagina_di_zeri.
Definition copia_pagina := Elf.copia_pagina.
Definition copia_segmento := Elf.copia_segmento.
Definition interpreta := Elf.interpreta elf32.

Lemma elf32_fits : fields_fit elf32.
Proof. repeat constructor; cbn; lia. Qed.
End Elf32.

Module Elf64.
Import Elf.

Definition elf64 : format := {|
  sizeof_ehdr := 64; sizeof_phdr := 56;
  e_entry := mk_field 24 8; e_phoff := mk_field 32 8; e_shoff := mk_field 40 8;
  e_phentsize := mk_field 54 2; e_phnum := mk_field 56 2;
  e_shentsize := mk_field 58 2; e_shnum := mk_field 60 2;
  p_offset := mk_field 8 8; p_vaddr := mk_field 16 8; p_filesz := mk_field 32 8;
  p_memsz := mk_field 40 8; p_flags := mk_field 4 4;
  accepted_class := ELFCLASS64; accepted_machine := EM_AMD64; offset_bits := 64 |}.

(** [EseguibileElf64] and [SegmentoElf64]. *)
Definition init := Elf.init elf64.
Definition prossimo_segmento := Elf.prossimo_segmento elf64.
Definition entry_point := Elf.entry_point elf64.
Definition new_segmento := Elf.new_segmento elf64.
Definition scrivibile := Elf.scrivibile elf64.
Definition ind_virtuale := Elf.ind_virtuale.
Definition dimensione_filesz := Elf.dimensione_filesz.
Definition dimensione := Elf.dimensione.
Definition finito := Elf.finito.
Definition prossima_pagina := Elf.prossima_pagina elf64.
Definition pagina_di_zeri := Elf.pagina_di_zeri.
Definition copia_pagina := Elf.copia_pagina.
Definition copia_segmento := Elf.copia_segmento.
Definition interpreta := Elf.interpreta elf64.

Lemma elf64_fits : fields_fit elf64.
Proof. repeat constructor; cbn; lia. Qed.
End Elf64.

Module estrattore.
Import Elf.

(** The static objects [int_elf32] and [int_elf64] add themselves to the list, in an
    order the language leaves open. *)
Definition interpreti (first_elf32 : bool) : lista :=
  if first_elf32 then aggiungi Elf64.elf64 (aggiungi Elf32.elf32 (mk_lista [] []))
  else aggiungi Elf32.elf32 (aggiungi Elf64.elf64 (mk_lista [] [])).

(** One interpreter in front of another that refuses the file. *)
Lemma find_skip F fuel ts next file m :
  (5 ≤ sizeof_ehdr F)%nat → class_byte file ≠ accepted_class F →
  find_interpreter (S fuel) (mk_lista ts (F :: next)) file m =
  find_interpreter fuel (mk_lista ts next) file m.
Proof.
  intros Hsz Hc. cbn [find_interpreter ancora_l l_curr negb prossimo testa].
  unfold interpreta. by erewrite bind_quiet by by apply init_other.
Qed.

(** The order in which the two interpreters register themselves, which the language leaves
    open, does not matter: at most one of them accepts a file. *)
Theorem interpreter_order file dest_size m :
  estrai_segmento (interpreti true) file dest_size m =
  estrai_segmento (interpreti false) file dest_size m.
Proof.
  destruct file as [file|]; [|done]. unfold estrai_segmento.
  assert (find_interpreter 3 (rewind (interpreti true)) file m =
          find_interpreter 3 (rewind (interpreti false)) file m) as Hf.
  { unfold rewind, interpreti, aggiungi. cbn [testa l_curr].
    assert (class_byte file ≠ accepted_class Elf32.elf32 ∨ class_byte file ≠ accepted_class Elf64.elf64)
      as Hc by (cbn; unfold ELFCLASS32, ELFCLASS64; lia).
    assert (∀ F ts1 ts2,
      find_interpreter 1 (mk_lista ts1 []) file m = find_interpreter 1 (mk_lista ts2 []) file m ∧
      find_interpreter 2 (mk_lista ts1 [F]) file m = find_interpreter 2 (mk_lista ts2 [F]) file m)
      as Hts by done.
    destruct Hc as [Hc|Hc].
    - rewrite (find_skip Elf32.elf32 2 _ [Elf64.elf64]) by (done || cbn; lia).
      cbn [find_interpreter ancora_l l_curr negb prossimo testa].
      unfold mbind, io_bind.
      destruct (interpreta Elf64.elf64 file m) as [[[[e|] m'] ev]|] eqn:Hi; try done.
      apply init_quiet in Hi as [-> ->]. unfold interpreta. by rewrite init_other by (done || cbn; lia).
    - rewrite (find_skip Elf64.elf64 2 _ [Elf32.elf32]) by (done || cbn; lia).
      cbn [find_interpreter ancora_l l_curr negb prossimo testa].
      unfold mbind, io_bind.
      destruct (interpreta Elf32.elf32 file m) as [[[[e|] m'] ev]|] eqn:Hi; try done.
      apply init_quiet in Hi as [-> ->]. unfold interpreta. by rewrite init_other by (done || cbn; lia). }
  change (length (testa (interpreti true))) with 2%nat.
  change (length (testa (interpreti false))) with 2%nat.
  unfold mbind at 1 2, io_bind at 1 2. rewrite Hf. done.
Qed.

(** ** The test program (elf/main.cpp) *)

Definition DIM : Z := 20000.

(** The static array [mem1]. *)
Definition mem1 : mem := mk_mem DIM (λ _, 0).

(** The argument, if there is one, and its file, if it can be opened. *)
Definition main (first_elf32 : bool) (argument : option (option (list Z))) : io mem Z :=
  match argument with
  | None => mret (-1)
  | Some file => estrai_segmento (interpreti first_elf32) file DIM;; mret 0
  end.

(** A program that lies above its array, as the guests of the repository do, is read to
    its end, and no byte of it is loaded. *)
Lemma main_loads_nothing b file F e :
  Forall is_u8 file → fields_fit F →
  find_interpreter 3 (rewind (interpreti b)) file mem1 = Done (Some (F, e), mem1, []) →
  sizeof_phdr F ≤ phentsize F e →
  let segs := loads F (Z.to_nat (phnum F e)) e 0 in
  Forall segment_ok segs → Forall (λ s, DIM < ph_vaddr s + ph_memsz s) segs →
  main b (Some (Some file)) mem1 = Done (0, mem1, []).
Proof.
  intros Hb HF Hfind Hsz segs Hok Habove.
  destruct (estrai_run (interpreti b) file F e DIM mem1 Hb HF ltac:(done)) as (m' & Hrun & Hm' & _);
    [by destruct b|done..|].
  unfold main. erewrite bind_quiet by exact Hrun. do 2 f_equal. f_equal.
  rewrite Hm'. fold segs. clear Hok Hm'.
  induction Habove as [|s segs' Hs _ IH]; [done|]. cbn [foldl].
  unfold place at 2. by rewrite (proj2 (Z.ltb_lt _ _)) by done.
Qed.

(** ** Files *)

(** An ELF64 executable with one program header and its data. *)
Definition elf64_file (vaddr filesz memsz : Z) (data : list Z) : list Z :=
  [0x7f; 69; 76; 70; 2; 1; 1] ++ replicate 9 0 ++
  le_bytes 2 2 ++ le_bytes 2 62 ++ le_bytes 4 1 ++ le_bytes 8 0x1000 ++
  le_bytes 8 64 ++ le_bytes 8 0 ++ le_bytes 4 0 ++ le_bytes 2 64 ++ le_bytes 2 56 ++
  le_bytes 2 1 ++ le_bytes 2 0 ++ le_bytes 2 0 ++ le_bytes 2 0 ++
  le_bytes 4 1 ++ le_bytes 4 5 ++ le_bytes 8 120 ++ le_bytes 8 vaddr ++ le_bytes 8 vaddr ++
  le_bytes 8 filesz ++ le_bytes 8 memsz ++ le_bytes 8 4096 ++ data.

Definition blank (size : Z) : mem := mk_mem size (λ _, 0xff).

(** A program of two bytes and two bytes of zeros, at 0x1000. *)
Definition program : list Z := elf64_file 0x1000 2 4 [0xf4; 0x90].
Definition program_exe : eseguibile :=
  match Elf64.init program (blank 0x20000) with
  | Done (Some e, _, _) => e
  | _ => mk_exe [] [] [] [] 0
  end.

Lemma elf_load_witness :
  Forall is_u8 program ∧
  find_interpreter 3 (rewind (interpreti false)) program (blank 0x20000) =
    Done (Some (Elf64.elf64, program_exe), blank 0x20000, []) ∧
  ∃ m', estrai_segmento (interpreti false) (Some program) 0x10000 (blank 0x20000) =
      Done (0x1000, m', []) ∧
    mem_slice 0xfff 6 m' = [0xff; 0xf4; 0x90; 0; 0; 0xff] ∧
    ∀ x, ¬ (0 ≤ x < 0x10000) → mget m' x = 0xff.
Proof.
  assert (Forall is_u8 program) as Hb by (apply (bool_decide_unpack _); vm_compute; exact I).
  assert (find_interpreter 3 (rewind (interpreti false)) program (blank 0x20000) =
    Done (Some (Elf64.elf64, program_exe), blank 0x20000, [])) as Hf by (vm_compute; reflexivity).
  split; [exact Hb|]. split; [exact Hf|].
  destruct (elf_load (interpreti false) program Elf64.elf64 program_exe 0x10000 (blank 0x20000)
    Hb Elf64.elf64_fits ltac:(cbn; lia) Hf) as (m' & Hrun & Hm' & _ & Hout).
  - vm_compute. congruence.
  - vm_compute. apply Forall_cons_2; [split; cbn; lia|by apply Forall_nil_2].
  - exists m'. split; [exact Hrun|]. split; [|exact Hout].
    rewrite Hm'. vm_compute. reflexivity.
Defined.

(** *** What the bounds check does not see *)

(** A segment whose file part is longer than its memory part is copied beyond the
    destination, and one whose end wraps is written before it. *)
(** Two headers that pass the bound test and write outside the destination: a file size
    above the memory size, and an end address that wraps. *)
Theorem elf_bound_bypassed :
  match estrai_segmento (interpreti false) (Some (elf64_file 0x10000 4 0 [1; 2; 3; 4]))
          0x10000 (blank 0x20000) with
  | Done (_, m, _) => mem_slice 0x10000 4 m = [1; 2; 3; 4]
  | Halt _ => False
  end ∧
  estrai_segmento (interpreti false)
    (Some (elf64_file 0xfffffffffffff000 4 0x2000 [1; 2; 3; 4])) 0x10000 (blank 0x20000) =
  Halt OutOfBounds.
Proof. split; vm_compute; reflexivity. Qed.

(** The fourth byte of the magic number is free. *)
Theorem elf_magic_unchecked F hdr b :
  header_ok F (<[3%nat := b]> hdr) = header_ok F hdr.
Proof.
  assert (∀ f, (4 ≤ f_offset f ∨ f_offset f + Z.of_nat (f_size f) ≤ 3) → 0 ≤ f_offset f →
    field_of (<[3%nat := b]> hdr) 0 f = field_of hdr 0 f) as Hf.
  { intros f Hf H0. unfold field_of. f_equal. apply slice_ext. intros i Hi.
    apply list_lookup_insert_ne. lia. }
  unfold header_ok. by rewrite !Hf by (cbn; unfold EI_CLASS, EI_DATA; lia).
Qed.

(** [prossima_pagina] does not count what is left, so a loop until [finito] on a
    segment that is not empty does not end. *)
Lemma pages_never_end F n s :
  finito s = false →
  let s' := Nat.iter n (λ s, (Elf.prossima_pagina F s).2) s in
  finito s' = false ∧ (Elf.prossima_pagina F s').1 = true.
Proof.
  intros Hs. assert (∀ s, (Elf.prossima_pagina F s).2.(ancora) = s.(ancora)) as Ha.
  { intros s0. unfold Elf.prossima_pagina. by destruct (finito s0). }
  cbv zeta. assert (finito (Nat.iter n (λ s, (Elf.prossima_pagina F s).2) s) = false) as H.
  { induction n as [|n IH]; [done|]. rewrite Nat.iter_succ. unfold finito. rewrite Ha.
    exact IH. }
  revert H. generalize (Nat.iter n (λ s, (Elf.prossima_pagina F s).2) s). intros s1 H.
  split; [done|]. unfold Elf.prossima_pagina. by rewrite H.
Qed.

End estrattore.
