(* ===== verification/Bootloader.v ===== *)
(** * The boot environment (bootloader/Bootloader.h, bootloader/Bootloader.cpp)

The descriptor table, the page tables and the initial registers that the
supervisor writes before the virtual CPU starts, with the translation of
addresses that the processor derives from them. *)

From S2P Require Import Prelude Elf.

Module Bootloader.

(** ** Constants *)
Definition CR0_PE : Z := 1.
Definition CR0_ET : Z := 16.
Definition PDE64_PRESENT : Z := 1.
Definition PDE64_RW : Z := 2.
Definition PDE64_USER : Z := 4.
Definition PDE64_PS : Z := 128.

(** ** State *)

(** [kvm_segment] and the parts of [kvm_sregs] and [kvm_regs] that are set. *)
Record kvm_segment : Type := mk_seg {
  base : Z; limit : Z; selector : Z; type : Z; present : Z; dpl : Z; db : Z; s_bit : Z;
  l_bit : Z; g_bit : Z; avl : Z;
}.

#[export] Instance eta_segment : Eta kvm_segment := λ x,
  mk_seg (base x) (limit x) (selector x) (type x) (present x) (dpl x) (db x) (s_bit x)
    (l_bit x) (g_bit x) (avl x).

Record kvm_sregs : Type := mk_sregs {
  cr0 : Z; cr3 : Z; gdt_base : Z; gdt_limit : Z;
  cs : kvm_segment; ds : kvm_segment; es : kvm_segment; fs : kvm_segment;
  gs : kvm_segment; ss : kvm_segment;
}.

#[export] Instance eta_sregs : Eta kvm_sregs := λ x,
  mk_sregs (cr0 x) (cr3 x) (gdt_base x) (gdt_limit x) (cs x) (ds x) (es x) (fs x) (gs x) (ss x).

Record kvm_regs : Type := mk_regs { rip : Z; rsp : Z; rdi : Z; rflags : Z }.

Definition zero_segment : kvm_segment := mk_seg 0 0 0 0 0 0 0 0 0 0 0.

(** ** Guest memory as an array of 64-bit words *)

Definition store64 (a v : Z) : io mem unit :=
  m ← get;
  if decide (in_mem a 8 m) then modify (mem_put a (le_bytes 8 v)) else crash OutOfBounds.

Definition entry (m : mem) (a : Z) : Z := le_val (mem_slice a 8 m).
Definition load64 (a : Z) : io mem Z :=
  m ← get;
  if decide (in_mem a 8 m) then mret (entry m a) else crash OutOfBounds.

(** ** Methods *)

Definition descriptor (seg : kvm_segment) : Z :=
  let limit := if g_bit seg =? 0 then limit seg else Z.shiftr (limit seg) 12 in
  u64 (Z.lor (Z.land limit 0xffff)
      (Z.lor (Z.shiftl (Z.land (base seg) 0xffffff) 16)
      (Z.lor (Z.shiftl (type seg) 40)
      (Z.lor (Z.shiftl (s_bit seg) 44)
      (Z.lor (Z.shiftl (dpl seg) 45)
      (Z.lor (Z.shiftl (present seg) 47)
      (Z.lor (Z.shiftl (Z.shiftr (Z.land limit 0xf0000) 16) 48)
      (Z.lor (Z.shiftl (avl seg) 52)
      (Z.lor (Z.shiftl (l_bit seg) 53)
      (Z.lor (Z.shiftl (db seg) 54)
      (Z.lor (Z.shiftl (g_bit seg) 55)
             (Z.shiftl (Z.land (base seg) 0xff000000) 56)))))))))))).

Definition fill_segment_descriptor (dt : Z) (seg : kvm_segment) : io mem unit :=
  let index := Z.shiftr (selector seg) 3 in
  store64 (dt + 8 * index) (descriptor seg).

Definition flat_segment : kvm_segment :=
  zero_segment <| base := 0 |> <| limit := 0xffffffff |> <| present := 1 |> <| dpl := 0 |>
    <| db := 1 |> <| s_bit := 1 |> <| l_bit := 0 |> <| g_bit := 1 |>.

Definition setup_protected_mode (sregs : kvm_sregs) : io mem kvm_sregs :=
  let sregs := sregs <| cr0 := Z.lor CR0_ET CR0_PE |> <| gdt_base := 0x10000 |>
                     <| gdt_limit := 3 * 8 - 1 |> in
  let gdt := gdt_base sregs in
  let seg := flat_segment <| type := 10 |> <| selector := Z.shiftl 1 3 |> in
  fill_segment_descriptor gdt seg;;
  let sregs := sregs <| cs := seg |> in
  let seg := seg <| type := 3 |> <| selector := Z.shiftl 2 3 |> <| limit := 0xffffffff |> in
  fill_segment_descriptor gdt seg;;
  mret (sregs <| ss := seg |> <| gs := seg |> <| fs := seg |> <| es := seg |> <| ds := seg |>).

Definition pml4_addr : Z := 0x20000.
Definition pdpt_addr : Z := 0x30000.
(** [pd_addr] after [i] turns of the outer loop. *)
Definition pd_addr (i : Z) : Z := 0x40000 + 0x10000 * i.

Definition PRW : Z := Z.lor (Z.lor PDE64_PRESENT PDE64_RW) PDE64_USER.

Definition last_index_lev3 (guest_mem_size : Z) : Z := guest_mem_size / 2 ^ 30.
Definition n_entry_lev2 (guest_mem_size : Z) : Z := guest_mem_size mod 2 ^ 30 / 2 ^ 21.

(** The body of the inner loop. *)
Definition fill_pd (guest_mem_size i_lev3 i_lev2 : Z) : io mem unit :=
  let pd := pd_addr i_lev3 in
  if negb (i_lev3 =? last_index_lev3 guest_mem_size) || (i_lev2 <? n_entry_lev2 guest_mem_size)
  then
    let virt_addr := Z.shiftl i_lev3 30 + Z.shiftl i_lev2 21 in
    store64 (pd + 8 * i_lev2) (Z.lor (Z.lor PRW PDE64_PS) virt_addr)
  else
    v ← load64 (pd + 8 * i_lev2);
    store64 (pd + 8 * i_lev2) (Z.land v (Z.lnot PDE64_PRESENT)).

(** The body of the outer loop. *)
Definition fill_pdpt (guest_mem_size i_lev3 : Z) : io mem unit :=
  store64 (pdpt_addr + 8 * i_lev3) (Z.lor PRW (pd_addr i_lev3));;
  for_each (seqZ 0 512) (fill_pd guest_mem_size i_lev3).

Definition setup_page_tables (guest_mem_size : Z) (sregs : kvm_sregs) : io mem kvm_sregs :=
  store64 (pml4_addr + 8 * 0) (Z.lor PRW pdpt_addr);;
  for_each (seqZ 0 (last_index_lev3 guest_mem_size + 1)) (fill_pdpt guest_mem_size);;
  let pd := pd_addr (last_index_lev3 guest_mem_size + 1) in
  store64 (pdpt_addr + 8 * 3) (Z.lor PRW pd);;
  store64 (pd + 8 * 502) (Z.lor (Z.lor PRW PDE64_PS) 0xfec00000);;
  store64 (pdpt_addr + 8 * 3) (Z.lor PRW pd);;
  store64 (pd + 8 * 503) (Z.lor (Z.lor PRW PDE64_PS) 0xfee00000);;
  mret (sregs <| cr3 := pml4_addr |>).

(** The requests to KVM either succeed or end the process. *)
Definition ioctl (ok : bool) : io mem unit := if ok then mret tt else crash (ExitProcess 1).

Definition run_protected_mode (get_ok set_ok regs_ok : bool) (sregs : kvm_sregs)
    (entry_point start_stack : Z) : io mem (kvm_sregs * kvm_regs) :=
  ioctl get_ok;;
  sregs ← setup_protected_mode sregs;
  ioctl set_ok;;
  ioctl regs_ok;;
  mret (sregs, mk_regs entry_point start_stack 0 2).

(** [boot64] is the file build/boot64, if it opens. *)
Definition run_long_mode (get_ok set_ok regs_ok : bool) (sregs : kvm_sregs)
    (guest_mem_size entry_point : Z) (l : Elf.lista) (boot64 : option (list Z))
    : io mem (kvm_sregs * kvm_regs) :=
  ioctl get_ok;;
  sregs ← setup_protected_mode sregs;
  sregs ← setup_page_tables guest_mem_size sregs;
  ioctl set_ok;;
  boot_entry ← Elf.estrai_segmento l boot64 0x10000;
  ioctl regs_ok;;
  mret (sregs, mk_regs boot_entry 0 entry_point 2).

(** ** The translation of addresses by the processor

    Four-level paging: the entry of each level is present, and a page of the second
    level has its page-size bit set. *)
Definition present_bit (e : Z) : bool := Z.testbit e 0.
Definition size_bit (e : Z) : bool := Z.testbit e 7.
(** The address bits 12 to 51 of an entry, and 21 to 51 of a large page. *)
Definition table_of (e : Z) : Z := Z.shiftl (Z.land (Z.shiftr e 12) (2 ^ 40 - 1)) 12.
Definition page_of (e : Z) : Z := Z.shiftl (Z.land (Z.shiftr e 21) (2 ^ 31 - 1)) 21.
Definition index (va level : Z) : Z := Z.land (Z.shiftr va (12 + 9 * level)) 511.

Definition walk (m : mem) (cr3 va : Z) : option Z :=
  let e4 := entry m (cr3 + 8 * index va 3) in
  if negb (present_bit e4) then None else
  let e3 := entry m (table_of e4 + 8 * index va 2) in
  if negb (present_bit e3) then None else
  let e2 := entry m (table_of e3 + 8 * index va 1) in
  if negb (present_bit e2) then None else
  if size_bit e2 then Some (page_of e2 + va mod 2 ^ 21) else
  let e1 := entry m (table_of e2 + 8 * index va 0) in
  if negb (present_bit e1) then None else Some (table_of e1 + va mod 2 ^ 12).

(** ** Words of memory *)

Lemma entry_put_eq a v m : is_u64 v → entry (mem_put a (le_bytes 8 v) m) a = v.
Proof.
  intros Hv. unfold entry. rewrite <- (length_le_bytes 8 v) at 1. rewrite mem_slice_put_eq.
  rewrite le_val_bytes. by apply Z.mod_small.
Qed.

Lemma entry_put_ne a a' v m :
  a' + 8 ≤ a ∨ a + 8 ≤ a' → entry (mem_put a (le_bytes 8 v) m) a' = entry m a'.
Proof.
  intros H. unfold entry. by rewrite mem_slice_put_ne by (rewrite length_le_bytes; lia).
Qed.

Lemma store64_run a v m :
  0 ≤ a → a + 8 ≤ msize m → store64 a v m = Done (tt, mem_put a (le_bytes 8 v) m, []).
Proof.
  intros Ha Hm. unfold store64. erewrite bind_quiet by reflexivity.
  rewrite decide_True by (unfold in_mem; lia). done.
Qed.

Lemma load64_run a m : 0 ≤ a → a + 8 ≤ msize m → load64 a m = Done (entry m a, m, []).
Proof.
  intros Ha Hm. unfold load64. erewrite bind_quiet by reflexivity.
  rewrite decide_True by (unfold in_mem; lia). done.
Qed.

Lemma entry_range m a : mem_wf m → is_u64 (entry m a).
Proof.
  intros Hm. unfold entry. unfold is_u64. change 18446744073709551616 with (256 ^ Z.of_nat 8).
  rewrite <- (length_mem_slice a 8 m). apply le_val_bound.
  apply Forall_lookup_2. intros i x Hx.
  pose proof (lookup_lt_Some _ _ _ Hx) as Hlt. rewrite length_mem_slice in Hlt.
  rewrite lookup_mem_slice in Hx by done. injection Hx as <-. apply Hm.
Qed.

(** ** Entries *)

Lemma prw_entry q w : 3 ≤ w → Z.lor PRW (Z.shiftl q w) = 7 + q * 2 ^ w.
Proof.
  intros Hw. apply lor_shiftl_add; [lia|]. unfold PRW. cbn.
  split; [lia|]. change 7 with (2 ^ 3 - 1). pose proof (Z.pow_le_mono_r 2 3 w). lia.
Qed.

Lemma prw_ps_entry q w : 8 ≤ w → Z.lor (Z.lor PRW PDE64_PS) (Z.shiftl q w) = 135 + q * 2 ^ w.
Proof.
  intros Hw. apply lor_shiftl_add; [lia|]. cbn.
  split; [lia|]. pose proof (Z.pow_le_mono_r 2 8 w). lia.
Qed.

Lemma pd_addr_entry i : Z.lor PRW (pd_addr i) = 7 + pd_addr i.
Proof.
  replace (pd_addr i) with (Z.shiftl (4 + i) 16) at 1.
  - rewrite prw_entry by lia. unfold pd_addr. lia.
  - rewrite Z.shiftl_mul_pow2 by lia. unfold pd_addr. lia.
Qed.

(** The entry of a page of the identity mapping. *)
Definition pde (i_lev3 i_lev2 : Z) : Z := 135 + (i_lev3 * 512 + i_lev2) * 2 ^ 21.

Lemma pde_entry i3 i2 :
  Z.lor (Z.lor PRW PDE64_PS) (Z.shiftl i3 30 + Z.shiftl i2 21) = pde i3 i2.
Proof.
  replace (Z.shiftl i3 30 + Z.shiftl i2 21) with (Z.shiftl (i3 * 512 + i2) 21).
  - apply prw_ps_entry. lia.
  - rewrite !Z.shiftl_mul_pow2 by lia. lia.
Qed.

Lemma land_lnot1 v : 0 ≤ v → Z.land v (Z.lnot 1) = v - v mod 2.
Proof.
  intros Hv. change 1 with (2 ^ 1 - 1).
  assert (Z.land v (Z.lnot 1) = v - Z.land v 1) as H.
  { pose proof (Z.sub_nocarry_ldiff v (Z.land v 1)) as Hs.
    assert (Z.ldiff (Z.land v 1) v = 0) as H0.
    { apply Z.bits_inj'. intros n _. rewrite Z.ldiff_spec, Z.land_spec, Z.bits_0.
      by destruct (Z.testbit v n), (Z.testbit 1 n). }
    rewrite (Hs H0). apply Z.bits_inj'. intros n Hn.
    rewrite Z.land_spec, Z.lnot_spec, Z.ldiff_spec, Z.land_spec by done.
    by destruct (Z.testbit v n), (Z.testbit 1 n). }
  change (2 ^ 1 - 1) with 1. rewrite H. change 1 with (2 ^ 1 - 1) at 1.
  by rewrite land_ones_mod by lia.
Qed.

Lemma present_odd e : present_bit e = negb (e mod 2 =? 0).
Proof.
  unfold present_bit. rewrite Z.bit0_odd, Zodd_mod. rewrite Zmod_odd.
  by destruct (Z.odd e).
Qed.

(** ** The page tables *)

(** The pages that the inner loop maps. *)
Definition mapped (size i_lev3 i_lev2 : Z) : bool :=
  negb (i_lev3 =? last_index_lev3 size) || (i_lev2 <? n_entry_lev2 size).

Definition pd_entry_ok (size i_lev3 : Z) (m : mem) (i_lev2 : Z) : Prop :=
  let e := entry m (pd_addr i_lev3 + 8 * i_lev2) in
  if mapped size i_lev3 i_lev2 then e = pde i_lev3 i_lev2 else present_bit e = false.

Record pd_filled (size i_lev3 : Z) (m0 : mem) (k : Z) (m : mem) : Prop := {
  pf_size : msize m = msize m0;
  pf_wf : mem_wf m;
  pf_done : ∀ j, 0 ≤ j < k → pd_entry_ok size i_lev3 m j;
  pf_frame : ∀ a, a + 8 ≤ pd_addr i_lev3 ∨ pd_addr i_lev3 + 4096 ≤ a → entry m a = entry m0 a;
}.

Lemma fill_pd_step size i3 m0 j m :
  0 ≤ i3 < 4 → 0 ≤ j < 512 → 8388608 ≤ msize m0 → pd_filled size i3 m0 j m →
  ∃ m', fill_pd size i3 j m = Done (tt, m', []) ∧ pd_filled size i3 m0 (j + 1) m'.
Proof.
  intros Hi Hj Hsz [Hs Hwf Hd Hf].
  set (old := entry m (pd_addr i3 + 8 * j)).
  set (v := if mapped size i3 j then pde i3 j else Z.land old (Z.lnot 1)).
  assert (is_u64 old) as Hold by by apply entry_range.
  assert (is_u64 v) as Hv.
  { unfold v, pde, is_u64 in *. destruct (mapped size i3 j); [lia|].
    rewrite land_lnot1 by lia. Z.div_mod_to_equations. lia. }
  exists (mem_put (pd_addr i3 + 8 * j) (le_bytes 8 v) m). split.
  - unfold fill_pd. fold (mapped size i3 j). unfold v. destruct (mapped size i3 j).
    + rewrite pde_entry. apply store64_run; unfold pd_addr; lia.
    + erewrite bind_quiet by (apply load64_run; unfold pd_addr; lia).
      apply store64_run; unfold pd_addr; lia.
  - split.
    + done.
    + apply mem_put_wf; [done|apply le_bytes_u8].
    + intros j' Hj'. unfold pd_entry_ok. destruct (Z.eq_dec j' j) as [->|Hne].
      * rewrite entry_put_eq by done. unfold v. destruct (mapped size i3 j); [done|].
        rewrite present_odd, land_lnot1 by (unfold is_u64 in Hold; lia).
        rewrite Zminus_mod_idemp_r, Z.sub_diag. done.
      * rewrite entry_put_ne by lia. apply Hd. lia.
    + intros a Ha. rewrite entry_put_ne by (unfold pd_addr in *; lia). by apply Hf.
Qed.

Lemma fill_pd_loop size i3 m0 :
  0 ≤ i3 < 4 → 8388608 ≤ msize m0 → mem_wf m0 →
  ∃ m, for_each (seqZ 0 512) (fill_pd size i3) m0 = Done (tt, m, []) ∧
    pd_filled size i3 m0 512 m.
Proof.
  intros Hi Hsz Hwf. apply for_each_invariant; [lia| |].
  - split; try done. intros j Hj. lia.
  - intros j m Hj Hm. by apply fill_pd_step.
Qed.

Record tables_built (size : Z) (m0 : mem) (k : Z) (m : mem) : Prop := {
  tb_size : msize m = msize m0;
  tb_wf : mem_wf m;
  tb_root : entry m pml4_addr = 7 + pdpt_addr;
  tb_pdpt : ∀ i, 0 ≤ i < k → entry m (pdpt_addr + 8 * i) = 7 + pd_addr i;
  tb_pd : ∀ i j, 0 ≤ i < k → 0 ≤ j < 512 → pd_entry_ok size i m j;
  tb_frame : ∀ a, a + 8 ≤ 0x20000 ∨ 0x80000 ≤ a → entry m a = entry m0 a;
}.

Lemma fill_pdpt_step size m0 i m :
  0 ≤ i < 3 → 8388608 ≤ msize m0 → tables_built size m0 i m →
  ∃ m', fill_pdpt size i m = Done (tt, m', []) ∧ tables_built size m0 (i + 1) m'.
Proof.
  intros Hi Hsz [Hs Hwf Hr Hp Hd Hf].
  set (m1 := mem_put (pdpt_addr + 8 * i) (le_bytes 8 (7 + pd_addr i)) m).
  assert (mem_wf m1) as Hwf1 by (apply mem_put_wf; [done|apply le_bytes_u8]).
  destruct (fill_pd_loop size i m1) as (m2 & Hrun & [Hs2 Hwf2 Hd2 Hf2]); [lia|cbn; lia|done|].
  exists m2. split.
  { unfold fill_pdpt. rewrite pd_addr_entry.
    erewrite bind_quiet by (apply store64_run; unfold pdpt_addr; lia). exact Hrun. }
  assert (∀ a, a + 8 ≤ pdpt_addr + 8 * i ∨ pdpt_addr + 8 * i + 8 ≤ a →
    a + 8 ≤ pd_addr i ∨ pd_addr i + 4096 ≤ a → entry m2 a = entry m a) as Hkeep.
  { intros a H1 H2. rewrite Hf2 by done. unfold m1. by rewrite entry_put_ne. }
  split; unfold pdpt_addr, pml4_addr, pd_addr in *.
  - by rewrite Hs2.
  - done.
  - rewrite Hkeep by lia. done.
  - intros i' Hi'. destruct (Z.eq_dec i' i) as [->|Hne].
    + rewrite Hf2 by lia. unfold m1. rewrite entry_put_eq by (unfold is_u64; lia). done.
    + rewrite Hkeep by lia. apply Hp. lia.
  - intros i' j Hi' Hj. destruct (Z.eq_dec i' i) as [->|Hne]; [by apply Hd2|].
    unfold pd_entry_ok, pd_addr. rewrite Hkeep by lia. apply Hd; lia.
  - intros a Ha. rewrite Hkeep by lia. by apply Hf.
Qed.

Lemma last_index_bound size : 0 ≤ size < 3 * 2 ^ 30 → 0 ≤ last_index_lev3 size < 3.
Proof. intros H. unfold last_index_lev3. Z.div_mod_to_equations. lia. Qed.

Lemma page_tables_built size sregs m :
  0 ≤ size < 3 * 2 ^ 30 → 8388608 ≤ msize m → mem_wf m →
  let n := last_index_lev3 size + 1 in
  ∃ m', setup_page_tables size sregs m = Done (sregs <| cr3 := pml4_addr |>, m', []) ∧
    tables_built size m n m' ∧ entry m' (pdpt_addr + 8 * 3) = 7 + pd_addr n ∧
    entry m' (pd_addr n + 8 * 502) = pde 3 502 ∧ entry m' (pd_addr n + 8 * 503) = pde 3 503.
Proof.
  intros Hsz Hm Hwf n.
  pose proof (last_index_bound size Hsz) as Hl. fold n in Hl.
  set (m1 := mem_put pml4_addr (le_bytes 8 (7 + pdpt_addr)) m).
  destruct (for_each_invariant (fill_pdpt size) (tables_built size m) n m1)
    as (m2 & Hrun & [Hs2 Hwf2 Hr2 Hp2 Hd2 Hf2]); [lia| |intros; apply fill_pdpt_step; [lia|done|done]|].
  { split; try (intros; lia).
    - done.
    - apply mem_put_wf; [done|apply le_bytes_u8].
    - unfold m1. rewrite entry_put_eq; [done|unfold is_u64; cbv; split; congruence].
    - intros a Ha. unfold m1. rewrite entry_put_ne; [done|unfold pml4_addr; lia]. }
  eexists. split.
  { unfold setup_page_tables. rewrite Z.mul_0_r, Z.add_0_r.
    change (Z.lor PRW pdpt_addr) with (7 + pdpt_addr).
    erewrite bind_quiet by (apply store64_run; unfold pml4_addr; lia).
    fold n. erewrite bind_quiet by exact Hrun. rewrite pd_addr_entry.
    change (Z.lor (Z.lor PRW PDE64_PS) 0xfec00000) with (pde 3 502).
    change (Z.lor (Z.lor PRW PDE64_PS) 0xfee00000) with (pde 3 503).
    change (msize m1) with (msize m) in Hs2.
    do 4 (erewrite bind_quiet by (apply store64_run; unfold pdpt_addr, pd_addr; cbn [msize mem_put]; lia)).
    reflexivity. }
  assert (is_u64 (7 + pd_addr n)) as H64 by (unfold is_u64, pd_addr; lia).
  assert (is_u64 (pde 3 502) ∧ is_u64 (pde 3 503)) as [H502 H503].
  { split; unfold is_u64; cbv; split; congruence. }
  assert (∀ a, a + 8 ≤ pdpt_addr + 8 * 3 ∨ pdpt_addr + 8 * 3 + 8 ≤ a →
    a + 8 ≤ pd_addr n ∨ pd_addr n + 4096 ≤ a → ∀ v v' w w',
    entry (mem_put (pd_addr n + 8 * 503) (le_bytes 8 w') (mem_put (pdpt_addr + 8 * 3)
      (le_bytes 8 v') (mem_put (pd_addr n + 8 * 502) (le_bytes 8 w)
        (mem_put (pdpt_addr + 8 * 3) (le_bytes 8 v) m2)))) a = entry m2 a) as Hkeep.
  { intros a H1 H2 v v' w w'. rewrite !entry_put_ne by lia. done. }
  split_and!.
  - split; unfold pdpt_addr, pml4_addr, pd_addr in *.
    + exact Hs2.
    + do 4 (apply mem_put_wf; [|apply le_bytes_u8]). done.
    + rewrite Hkeep by lia. done.
    + intros i Hi. rewrite Hkeep by lia. by apply Hp2.
    + intros i j Hi Hj. unfold pd_entry_ok, pd_addr. rewrite Hkeep by lia. by apply Hd2.
    + intros a Ha. rewrite Hkeep by lia. by apply Hf2.
  - rewrite entry_put_ne by (unfold pd_addr, pdpt_addr; lia). by rewrite entry_put_eq.
  - rewrite entry_put_ne by lia. rewrite entry_put_ne by (unfold pd_addr, pdpt_addr; lia).
    by rewrite entry_put_eq.
  - by rewrite entry_put_eq.
Qed.

(** ** The walk through the tables *)

Lemma table_of_entry q : 0 ≤ q < 2 ^ 40 → table_of (7 + q * 2 ^ 12) = q * 2 ^ 12.
Proof.
  intros Hq. unfold table_of. rewrite Z.shiftr_div_pow2, land_ones_mod, Z.shiftl_mul_pow2 by lia.
  rewrite Z.div_add by lia. rewrite (Z.div_small 7) by lia. rewrite Z.add_0_l.
  by rewrite Z.mod_small by done.
Qed.

Lemma page_of_entry q : 0 ≤ q < 2 ^ 31 → page_of (135 + q * 2 ^ 21) = q * 2 ^ 21.
Proof.
  intros Hq. unfold page_of. rewrite Z.shiftr_div_pow2, land_ones_mod, Z.shiftl_mul_pow2 by lia.
  rewrite Z.div_add by lia. rewrite (Z.div_small 135) by lia. rewrite Z.add_0_l.
  by rewrite Z.mod_small by done.
Qed.

Lemma large_page_bits q : 
  present_bit (135 + q * 2 ^ 21) = true ∧ size_bit (135 + q * 2 ^ 21) = true.
Proof.
  unfold present_bit, size_bit. 
  rewrite !Z.testbit_odd, !Z.shiftr_div_pow2 by lia.
  replace (135 + q * 2 ^ 21) with (135 + (q * 2 ^ 14) * 2 ^ 7) at 2 by lia.
  rewrite Z.div_add by lia. rewrite Z.div_1_r.
  change (135 / 2 ^ 7) with 1. 
  replace (135 + q * 2 ^ 21) with (1 + 2 * (67 + q * 2 ^ 20)) by lia.
  replace (1 + q * 2 ^ 14) with (1 + 2 * (q * 2 ^ 13)) by lia.
  by rewrite !Z.odd_add_mul_2.
Qed.

Lemma table_bit q : present_bit (7 + q * 2 ^ 12) = true.
Proof.
  rewrite present_odd. replace (7 + q * 2 ^ 12) with (1 + (3 + q * 2 ^ 11) * 2) by lia.
  by rewrite Z.mod_add by lia.
Qed.

Lemma index_low va l : 0 ≤ l → index va l = va / 2 ^ (12 + 9 * l) mod 512.
Proof.
  intros Hl. unfold index. rewrite Z.shiftr_div_pow2 by lia. change 511 with (2 ^ 9 - 1).
  by rewrite land_ones_mod by lia.
Qed.

(** The walk down to the second level, for addresses below 4 GiB. *)
Lemma walk_second m i3 i2 off t :
  0 ≤ i3 < 4 → 0 ≤ i2 < 512 → 0 ≤ off < 2 ^ 21 → 0 ≤ t < 2 ^ 40 →
  entry m pml4_addr = 7 + pdpt_addr → entry m (pdpt_addr + 8 * i3) = 7 + t * 2 ^ 12 →
  let e2 := entry m (t * 2 ^ 12 + 8 * i2) in
  (e2 = pde i3 i2 → walk m pml4_addr ((i3 * 512 + i2) * 2 ^ 21 + off) =
    Some ((i3 * 512 + i2) * 2 ^ 21 + off)) ∧
  (present_bit e2 = false → walk m pml4_addr ((i3 * 512 + i2) * 2 ^ 21 + off) = None).
Proof.
  intros H3 H2 Hoff Ht Hroot Hpdpt e2. set (va := (i3 * 512 + i2) * 2 ^ 21 + off).
  assert (index va 3 = 0 ∧ index va 2 = i3 ∧ index va 1 = i2) as (Hi4 & Hi3 & Hi2).
  { rewrite !index_low by lia. unfold va. cbn [Z.mul Z.add Pos.mul Pos.add].
    split_and!; Z.div_mod_to_equations; lia. }
  assert (walk m pml4_addr va =
    if negb (present_bit e2) then None else
    if size_bit e2 then Some (page_of e2 + va mod 2 ^ 21) else
    let e1 := entry m (table_of e2 + 8 * index va 0) in
    if negb (present_bit e1) then None else Some (table_of e1 + va mod 2 ^ 12)) as Hwalk.
  { unfold walk. rewrite Hi4, Hi3, Hi2, Z.mul_0_r, Z.add_0_r, Hroot.
    change (7 + pdpt_addr) with (7 + 0x30 * 2 ^ 12). rewrite table_bit, table_of_entry by lia.
    change (0x30 * 2 ^ 12) with pdpt_addr. rewrite Hpdpt. cbn [negb].
    rewrite table_bit, table_of_entry by lia. cbn [negb]. done. }
  rewrite Hwalk. split.
  - intros ->. unfold pde. destruct (large_page_bits (i3 * 512 + i2)) as [-> ->]. cbn [negb].
    rewrite page_of_entry by lia. f_equal. unfold va.
    rewrite Z.add_comm with (m := off), Z.mod_add, Z.mod_small by lia. lia.
  - intros ->. done.
Qed.

Lemma split_address va :
  0 ≤ va < 2 ^ 32 → ∃ i3 i2 off, 0 ≤ i3 < 4 ∧ 0 ≤ i2 < 512 ∧ 0 ≤ off < 2 ^ 21 ∧
    va = (i3 * 512 + i2) * 2 ^ 21 + off.
Proof.
  intros H. exists (va / 2 ^ 30), (va / 2 ^ 21 mod 512), (va mod 2 ^ 21).
  split_and!; Z.div_mod_to_equations; lia.
Qed.

Lemma mapped_address size i3 i2 off :
  0 ≤ size → 0 ≤ i3 → 0 ≤ i2 < 512 → 0 ≤ off < 2 ^ 21 →
  (i3 * 512 + i2) * 2 ^ 21 + off < (last_index_lev3 size + 1) * 2 ^ 30 →
  mapped size i3 i2 = bool_decide ((i3 * 512 + i2) * 2 ^ 21 + off < size / 2 ^ 21 * 2 ^ 21).
Proof.
  intros Hs H3 H2 Ho Hva. unfold mapped, n_entry_lev2, last_index_lev3 in *.
  destruct (Z.eqb_spec i3 (size / 2 ^ 30)) as [He|He], (Z.ltb_spec i2 (size mod 2 ^ 30 / 2 ^ 21)) as [Hl|Hl];
    cbn [negb orb]; symmetry; (apply bool_decide_eq_true_2 || apply bool_decide_eq_false_2);
    Z.div_mod_to_equations; lia.
Qed.

(** The entries of the finished tables. *)
Record tables (size : Z) (m : mem) : Prop := {
  t_root : entry m pml4_addr = 7 + pdpt_addr;
  t_pdpt : ∀ i, 0 ≤ i ≤ last_index_lev3 size → entry m (pdpt_addr + 8 * i) = 7 + pd_addr i;
  t_pd : ∀ i j, 0 ≤ i ≤ last_index_lev3 size → 0 ≤ j < 512 → pd_entry_ok size i m j;
  t_apic : let n := last_index_lev3 size + 1 in
    entry m (pdpt_addr + 8 * 3) = 7 + pd_addr n ∧
    entry m (pd_addr n + 8 * 502) = pde 3 502 ∧ entry m (pd_addr n + 8 * 503) = pde 3 503;
}.

Lemma tables_ext size m m' :
  0 ≤ size < 3 * 2 ^ 30 → (∀ a, 0x20000 ≤ a → entry m' a = entry m a) →
  tables size m → tables size m'.
Proof.
  intros Hs He [Hr Hp Hd Ha]. pose proof (last_index_bound size Hs).
  split.
  - by rewrite He.
  - intros i Hi. rewrite He by (unfold pdpt_addr; lia). auto.
  - intros i j Hi Hj. unfold pd_entry_ok. rewrite He by (unfold pd_addr; lia). by apply Hd.
  - cbv zeta in *. by rewrite !He by (unfold pdpt_addr, pd_addr; lia).
Qed.

(** The page directories of the guest's memory. *)
Lemma walk_memory size m va :
  0 ≤ size < 3 * 2 ^ 30 → let n := last_index_lev3 size + 1 in
  tables size m → 0 ≤ va < n * 2 ^ 30 →
  walk m pml4_addr va = if decide (va < size / 2 ^ 21 * 2 ^ 21) then Some va else None.
Proof.
  intros Hs n [Hroot Hpdpt Hpd _] Hva. pose proof (last_index_bound size Hs) as Hl.
  destruct (split_address va) as (i3 & i2 & off & H3 & H2 & Ho & ->); [lia|].
  assert (i3 < n) as H3n by lia.
  destruct (walk_second m i3 i2 off (0x40 + 0x10 * i3)) as [Hyes Hno]; [lia..|done| |].
  { rewrite Hpdpt by lia. unfold pd_addr. lia. }
  specialize (Hpd i3 i2 ltac:(lia) H2). unfold pd_entry_ok in Hpd.
  rewrite (mapped_address size i3 i2 off) in Hpd by lia.
  replace ((0x40 + 0x10 * i3) * 2 ^ 12) with (pd_addr i3) in Hyes, Hno by (unfold pd_addr; lia).
  case_bool_decide as Hb; [rewrite decide_True by done|rewrite decide_False by done]; auto.
Qed.

(** The two pages of the interrupt controllers. *)
Lemma walk_apic size m va :
  0 ≤ size < 3 * 2 ^ 30 → tables size m →
  0xfec00000 ≤ va < 0xff000000 → walk m pml4_addr va = Some va.
Proof.
  intros Hs [Hroot _ _ (H3 & H502 & H503)] Hva. pose proof (last_index_bound size Hs).
  set (n := last_index_lev3 size + 1) in *.
  destruct (split_address va) as (i3 & i2 & off & Hi3 & Hi2 & Ho & ->); [lia|].
  assert (i3 = 3) as -> by lia. assert (i2 = 502 ∨ i2 = 503) as Hi by lia.
  destruct (walk_second m 3 i2 off (0x40 + 0x10 * n)) as [Hyes _]; [lia..|done| |].
  { rewrite H3. unfold pd_addr. lia. }
  replace ((0x40 + 0x10 * n) * 2 ^ 12) with (pd_addr n) in Hyes by (unfold pd_addr; lia).
  apply Hyes. by destruct Hi as [-> | ->].
Qed.

(** The tables that are set up, and what is left alone. *)
Lemma page_tables_run size sregs m :
  0 ≤ size < 3 * 2 ^ 30 → 8388608 ≤ msize m → mem_wf m →
  ∃ m', setup_page_tables size sregs m = Done (sregs <| cr3 := pml4_addr |>, m', []) ∧
    tables size m' ∧ mem_wf m' ∧ msize m' = msize m ∧
    (∀ a, a + 8 ≤ 0x20000 ∨ 0x80000 ≤ a → entry m' a = entry m a).
Proof.
  intros Hs Hm Hwf.
  destruct (page_tables_built size sregs m) as (m' & Hrun & [Hs' Hwf' Hr Hp Hd Hf] & Ha);
    [done..|].
  exists m'. split_and!; try done.
  split; try done; intros; [apply Hp; lia|apply Hd; lia].
Qed.

(** C23. In a host memory of 8 MiB and more, for every size of the guest's memory below 3
    GiB, the tables that the boot loader writes, walked as the processor walks them, map
    each address of every whole 2 MiB page of the memory and the window of the interrupt
    controllers to itself, leave the rest of the covered range unmapped, and touch no byte
    outside the region from 0x20000 to 0x7ffff. *)
Theorem boot_identity_map (size : Z) (sregs : kvm_sregs) (m : mem)
    (Hsize : 0 ≤ size < 3 * 2 ^ 30) (Hm : 8388608 ≤ msize m) (Hwf : mem_wf m) :
  ∃ m', setup_page_tables size sregs m = Done (sregs <| cr3 := pml4_addr |>, m', []) ∧
    (∀ va, 0 ≤ va < (last_index_lev3 size + 1) * 2 ^ 30 → walk m' pml4_addr va =
      if decide (va < size / 2 ^ 21 * 2 ^ 21) then Some va else None) ∧
    (∀ va, 0xfec00000 ≤ va < 0xff000000 → walk m' pml4_addr va = Some va) ∧
    msize m' = msize m ∧
    (∀ a, a + 8 ≤ 0x20000 ∨ 0x80000 ≤ a → entry m' a = entry m a).
Proof.
  destruct (page_tables_run size sregs m) as (m' & Hrun & Ht & _ & Hm' & Hf); [done..|].
  exists m'. split_and!; [done| | |done|done].
  - intros va Hva. by apply walk_memory.
  - intros va Hva. by apply (walk_apic size).
Qed.

Lemma boot_identity_map_witness :
  ∃ m' sregs, walk m' pml4_addr 0x7fffff = Some 0x7fffff ∧ walk m' pml4_addr 0x800000 = None ∧
    walk m' pml4_addr 0xfee00010 = Some 0xfee00010 ∧ cr3 sregs = 0x20000.
Proof.
  set (s0 := mk_sregs 0 0 0 0 zero_segment zero_segment zero_segment zero_segment zero_segment
    zero_segment).
  destruct (boot_identity_map 8388608 s0 (mk_mem 8388608 (λ _, 0xff)))
    as (m' & _ & Hlow & Hapic & _); [lia|done|done|].
  exists m', (s0 <| cr3 := pml4_addr |>). split_and!.
  - rewrite Hlow by (vm_compute; intuition congruence). by rewrite decide_True by (vm_compute; congruence).
  - rewrite Hlow by (vm_compute; intuition congruence). by rewrite decide_False by (vm_compute; congruence).
  - apply Hapic. lia.
  - done.
Defined.

(** ** Segment descriptors *)

(** The fields of a descriptor, as the processor reads them. *)
Definition field (d lo w : Z) : Z := Z.shiftr d lo mod 2 ^ w.
Definition desc_limit (d : Z) : Z := field d 0 16 + field d 48 4 * 2 ^ 16.
Definition desc_base (d : Z) : Z := field d 16 24 + field d 56 8 * 2 ^ 24.

Record segment_wf (seg : kvm_segment) : Prop := {
  sw_base : is_u64 (base seg); sw_limit : is_u32 (limit seg);
  sw_type : 0 ≤ type seg < 2 ^ 4; sw_dpl : 0 ≤ dpl seg < 2 ^ 2;
  sw_bits : Forall (λ b, 0 ≤ b < 2) [present seg; db seg; s_bit seg; l_bit seg; g_bit seg; avl seg];
}.

Definition unit_limit (seg : kvm_segment) : Z :=
  if g_bit seg =? 0 then limit seg else Z.shiftr (limit seg) 12.

Lemma land_field x s w : 0 ≤ s → 0 ≤ w →
  Z.land x (Z.shiftl (2 ^ w - 1) s) = Z.shiftl (x / 2 ^ s mod 2 ^ w) s.
Proof.
  intros Hs Hw. rewrite <- land_ones_mod, <- Z.shiftr_div_pow2 by done.
  apply Z.bits_inj'. intros n Hn. rewrite Z.land_spec.
  destruct (Z.lt_ge_cases n s).
  - rewrite !(Z.shiftl_spec_low _ s n) by done. by rewrite andb_false_r.
  - rewrite !Z.shiftl_spec, Z.land_spec, Z.shiftr_spec by lia.
    by replace (n - s + s) with n by lia.
Qed.

Lemma descriptor_sum seg : segment_wf seg →
  let l := unit_limit seg in
  descriptor seg = l mod 2 ^ 16 + base seg mod 2 ^ 24 * 2 ^ 16 + type seg * 2 ^ 40 +
    s_bit seg * 2 ^ 44 + dpl seg * 2 ^ 45 + present seg * 2 ^ 47 + l / 2 ^ 16 mod 2 ^ 4 * 2 ^ 48 +
    avl seg * 2 ^ 52 + l_bit seg * 2 ^ 53 + db seg * 2 ^ 54 + g_bit seg * 2 ^ 55.
Proof.
  intros [Hb Hl Ht Hd Hbits] l. unfold descriptor. fold (unit_limit seg). fold l.
  rewrite !Forall_cons in Hbits. destruct Hbits as (Hp & Hdb & Hs & Hlb & Hg & Hav & _).
  change 0xffff with (2 ^ 16 - 1). change 0xffffff with (2 ^ 24 - 1).
  change 0xf0000 with (Z.shiftl (2 ^ 4 - 1) 16). change 0xff000000 with (Z.shiftl (2 ^ 8 - 1) 24).
  rewrite !land_ones_mod, !land_field, Z.shiftr_shiftl_l, Z.sub_diag, Z.shiftl_0_r by lia.
  rewrite Z.shiftl_shiftl by lia. rewrite !Z.lor_assoc.
  pose proof (Z.mod_pos_bound l (2 ^ 16)). pose proof (Z.mod_pos_bound (base seg) (2 ^ 24)).
  pose proof (Z.mod_pos_bound (l / 2 ^ 16) (2 ^ 4)).
  pose proof (Z.mod_pos_bound (base seg / 2 ^ 24) (2 ^ 8)).
  do 11 match goal with |- context [Z.lor ?x (Z.shiftl ?y ?w)] =>
    lazymatch x with context [Z.lor] => fail | _ => rewrite (lor_shiftl_add x y w) by lia end end.
  unfold u64.
  replace (base seg / 2 ^ 24 mod 2 ^ 8 * 2 ^ (24 + 56))
    with (base seg / 2 ^ 24 mod 2 ^ 8 * 2 ^ 16 * 18446744073709551616) by lia.
  rewrite Z.mod_add by lia. apply Z.mod_small. lia.
Qed.

(** The descriptor the boot loader packs decodes, at the processor's bit positions, to the
    segment's type and flags, the 20 bits of its limit in its unit, and the low 24 bits of
    its base: the bits 24 to 31 of the base are lost. *)
Theorem gdt_descriptor (seg : kvm_segment) (Hseg : segment_wf seg) :
  let d := descriptor seg in
  desc_limit d = unit_limit seg mod 2 ^ 20 ∧ desc_base d = base seg mod 2 ^ 24 ∧
  field d 40 4 = type seg ∧ field d 44 1 = s_bit seg ∧ field d 45 2 = dpl seg ∧
  field d 47 1 = present seg ∧ field d 52 1 = avl seg ∧ field d 53 1 = l_bit seg ∧
  field d 54 1 = db seg ∧ field d 55 1 = g_bit seg.
Proof.
  intros d. pose proof (descriptor_sum seg Hseg) as Hd. fold d in Hd. cbn zeta in Hd.
  destruct Hseg as [Hb Hl Ht Hdpl Hbits].
  rewrite !Forall_cons in Hbits. destruct Hbits as (Hp & Hdb & Hs & Hlb & Hg & Hav & _).
  set (l := unit_limit seg) in *.
  pose proof (Z.mod_pos_bound l (2 ^ 16)). pose proof (Z.mod_pos_bound (base seg) (2 ^ 24)).
  pose proof (Z.mod_pos_bound (l / 2 ^ 16) (2 ^ 4)).
  assert (l mod 2 ^ 20 = l mod 2 ^ 16 + l / 2 ^ 16 mod 2 ^ 4 * 2 ^ 16) as Hmod.
  { change (2 ^ 20) with (2 ^ 16 * 2 ^ 4). rewrite Z.rem_mul_r by lia. lia. }
  remember (l mod 2 ^ 16) as l0. remember (l / 2 ^ 16 mod 2 ^ 4) as l1.
  remember (base seg mod 2 ^ 24) as b. rewrite Hmod. clear Heql0 Heql1 Heqb Hmod.
  clearbody d. unfold desc_limit, desc_base, field.
  rewrite !Z.shiftr_div_pow2 by lia. 
  split_and!; Z.div_mod_to_equations; lia.
Qed.

Lemma gdt_descriptor_witness :
  segment_wf (flat_segment <| base := 0x12345678 |>) ∧
  desc_base (descriptor (flat_segment <| base := 0x12345678 |>)) = 0x345678.
Proof.
  assert (segment_wf (flat_segment <| base := 0x12345678 |>)) as H.
  { split; cbn; unfold is_u64, is_u32; try lia. repeat constructor; lia. }
  split; [done|]. destruct (gdt_descriptor _ H) as (_ & -> & _). done.
Defined.

Definition code_descriptor : Z := 0x00cf9a000000ffff.
Definition data_descriptor : Z := 0x00cf93000000ffff.

(** The segment registers are the flat segments that the table describes. *)
Definition flat_registers (sregs : kvm_sregs) : Prop :=
  cr0 sregs = 0x11 ∧ gdt_base sregs = 0x10000 ∧ gdt_limit sregs = 23 ∧
  selector (cs sregs) = 8 ∧ descriptor (cs sregs) = code_descriptor ∧
  Forall (λ sg, selector sg = 16 ∧ descriptor sg = data_descriptor)
    [ds sregs; es sregs; fs sregs; gs sregs; ss sregs].

Lemma setup_protected_mode_run sregs m :
  0x10018 ≤ msize m →
  ∃ sregs' m', setup_protected_mode sregs m = Done (sregs', m', []) ∧ flat_registers sregs' ∧
    cr3 sregs' = cr3 sregs ∧ msize m' = msize m ∧ (mem_wf m → mem_wf m') ∧
    entry m' 0x10008 = code_descriptor ∧ entry m' 0x10010 = data_descriptor ∧
    (∀ a, a + 8 ≤ 0x10008 ∨ 0x10018 ≤ a → entry m' a = entry m a).
Proof.
  intros Hm. do 2 eexists. split.
  { unfold setup_protected_mode, fill_segment_descriptor. cbn zeta.
    do 2 (erewrite bind_quiet by (apply store64_run; [vm_compute; congruence|];
      etransitivity; [|exact Hm]; vm_compute; congruence)). reflexivity. }
  assert (is_u64 code_descriptor ∧ is_u64 data_descriptor) as [Hc Hd].
  { split; unfold is_u64; cbv; split; congruence. }
  set (m' := mem_put _ _ _).
  assert (m' = mem_put 0x10010 (le_bytes 8 data_descriptor)
    (mem_put 0x10008 (le_bytes 8 code_descriptor) m)) as -> by reflexivity.
  split_and!.
  - unfold flat_registers. repeat split; repeat constructor.
  - done.
  - done.
  - intros Hwf. do 2 (apply mem_put_wf; [|apply le_bytes_u8]). done.
  - rewrite entry_put_ne by lia. by apply entry_put_eq.
  - by apply entry_put_eq.
  - intros a Ha. by rewrite !entry_put_ne by lia.
Qed.

(** The boot loader leaves flat code and data segments, protection on and the page-table
    root set, and the descriptor table in memory holds at each selector the descriptor of
    the segment the register has cached: the two views of the segments agree. *)
Theorem boot_environment (size : Z) (sregs : kvm_sregs) (m : mem)
    (Hsize : 0 ≤ size < 3 * 2 ^ 30) (Hm : 8388608 ≤ msize m) (Hwf : mem_wf m) :
  ∃ sregs' m', (s ← setup_protected_mode sregs; setup_page_tables size s) m =
      Done (sregs', m', []) ∧
    flat_registers sregs' ∧ cr3 sregs' = pml4_addr ∧ msize m' = msize m ∧ mem_wf m' ∧
    entry m' (gdt_base sregs' + selector (cs sregs')) = descriptor (cs sregs') ∧
    entry m' (gdt_base sregs' + selector (ds sregs')) = descriptor (ds sregs') ∧
    (∀ a, a + 8 ≤ 0x10008 ∨ 0x80000 ≤ a → entry m' a = entry m a).
Proof.
  destruct (setup_protected_mode_run sregs m)
    as (s1 & m1 & Hrun1 & Hflat & _ & Hs1 & Hwf1 & Hc1 & Hd1 & Hf1); [lia|].
  destruct (page_tables_run size s1 m1) as (m2 & Hrun2 & _ & Hwf2 & Hs2 & Hf2); [lia|lia|auto|].
  do 2 eexists. split; [rewrite (bind_quiet _ _ _ _ _ Hrun1); exact Hrun2|].
  destruct Hflat as (H0 & Hgb & Hgl & Hcs & Hcd & Hds).
  inversion Hds as [|? ? [Hsel Hdesc] _]; subst.
  split_and!; [done|done|lia|done| | |].
  - change (entry m2 (gdt_base s1 + selector (cs s1)) = descriptor (cs s1)).
    rewrite Hgb, Hcs, Hcd, Hf2 by lia. done.
  - change (entry m2 (gdt_base s1 + selector (ds s1)) = descriptor (ds s1)).
    rewrite Hgb, Hsel, Hdesc, Hf2 by lia. done.
  - intros a Ha. rewrite Hf2, Hf1 by lia. done.
Qed.

Lemma boot_environment_witness :
  ∃ sregs' m', entry m' (gdt_base sregs' + selector (cs sregs')) = code_descriptor.
Proof.
  set (s0 := mk_sregs 0 0 0 0 zero_segment zero_segment zero_segment zero_segment zero_segment
    zero_segment).
  destruct (boot_environment 8388608 s0 (mk_mem 8388608 (λ _, 0xff)))
    as (s1 & m1 & _ & Hflat & _ & _ & _ & Hc & _); [lia|done|done|].
  exists s1, m1. rewrite Hc. by destruct Hflat as (_ & _ & _ & _ & -> & _).
Defined.

(** ** The start in long mode *)

Lemma entry_low_byte m a : mem_wf m → mget m a = entry m a mod 256.
Proof.
  intros [_ Hm]. unfold entry, mem_slice. cbn [seq map le_val]. change (Z.of_nat 0) with 0.
  rewrite Z.add_0_r, Z.mul_comm, Z.mod_add by lia. symmetry. by apply Z.mod_small, Hm.
Qed.

Lemma entry_ext m m' a : (∀ x, a ≤ x < a + 8 → mget m' x = mget m x) → entry m' a = entry m a.
Proof.
  intros H. unfold entry, mem_slice. f_equal. apply map_ext_in. intros i Hi%in_seq. apply H. lia.
Qed.

(** The registers, the tables and the memory with which the virtual CPU starts. *)
Lemma long_mode_start (size entry_point : Z) (sregs : kvm_sregs) (l : Elf.lista)
    (file : list Z) (F : Elf.format) (e : Elf.eseguibile) (m : mem)
    (Hsize : 0 ≤ size < 3 * 2 ^ 30) (Hm : 8388608 ≤ msize m) (Hwf : mem_wf m)
    (Hfile : Forall is_u8 file) (HF : Elf.fields_fit F)
    (Hfind : ∀ m, Elf.find_interpreter (S (length (Elf.testa l))) (Elf.rewind l) file m =
      Done (Some (F, e), m, []))
    (Hent : Elf.sizeof_phdr F ≤ Elf.phentsize F e)
    (Hseg : Forall Elf.segment_ok (Elf.loads F (Z.to_nat (Elf.phnum F e)) e 0)) :
  ∃ sregs' m',
    run_long_mode true true true sregs size entry_point l (Some file) m =
      Done ((sregs', mk_regs (Elf.entry_point F e) 0 entry_point 2), m', []) ∧
    flat_registers sregs' ∧
    (∀ va, 0 ≤ va < size / 2 ^ 21 * 2 ^ 21 → walk m' (cr3 sregs') va = Some va) ∧
    (∀ va, 0xfec00000 ≤ va < 0xff000000 → walk m' (cr3 sregs') va = Some va) ∧
    entry m' 0x10008 = code_descriptor ∧ entry m' 0x10010 = data_descriptor ∧
    (∀ x, 0x80000 ≤ x → mget m' x = mget m x) ∧ mem_wf m' ∧ msize m' = msize m ∧
    tables size m' ∧ cr3 sregs' = pml4_addr ∧
    ∃ m2, m' = foldl (Elf.place file 0x10000) m2 (Elf.loads F (Z.to_nat (Elf.phnum F e)) e 0).
Proof.
  destruct (setup_protected_mode_run sregs m)
    as (s1 & m1 & Hrun1 & Hflat & _ & Hs1 & Hwf1 & Hc1 & Hd1 & Hf1); [lia|].
  specialize (Hwf1 Hwf).
  destruct (page_tables_run size s1 m1) as (m2 & Hrun2 & Ht2 & Hwf2 & Hs2 & Hf2); [lia|lia|auto|].
  destruct (Elf.estrai_run l file F e 0x10000 m2)
    as (m3 & Hrun3 & Hm3 & Hs3 & Hf3); [done|done|lia|apply Hfind|done|done|].
  assert (∀ a, 0x10000 ≤ a → entry m3 a = entry m2 a) as He3.
  { intros a Ha. apply entry_ext. intros x Hx. apply Hf3. lia. }
  assert (tables size m3) as Ht3 by (apply (tables_ext size m2); [lia|intros; apply He3; lia|done]).
  do 2 eexists. split.
  { unfold run_long_mode, ioctl. erewrite bind_quiet by reflexivity.
    erewrite bind_quiet by exact Hrun1. erewrite bind_quiet by exact Hrun2.
    erewrite bind_quiet by reflexivity. erewrite bind_quiet by exact Hrun3.
    erewrite bind_quiet by reflexivity. reflexivity. }
  split_and!.
  - exact Hflat.
  - intros va Hva. change (walk m3 pml4_addr va = Some va).
    rewrite (walk_memory size) by (unfold last_index_lev3; Z.div_mod_to_equations; lia || done).
    by rewrite decide_True by lia.
  - intros va Hva. by apply (walk_apic size).
  - rewrite He3, Hf2 by lia. done.
  - rewrite He3, Hf2 by lia. done.
  - intros x Hx. rewrite Hf3 by lia. rewrite !entry_low_byte by done. by rewrite Hf2, Hf1 by lia.
  - rewrite Hm3. apply Elf.places_wf; auto.
  - lia.
  - done.
  - done.
  - by exists m2.
Qed.

(** A request of the boot loader that fails ends the process. *)
Lemma long_mode_fails (get_ok set_ok regs_ok : bool) size entry_point (sregs : kvm_sregs)
    (l : Elf.lista) (file : list Z) (F : Elf.format) (e : Elf.eseguibile) (m : mem) :
  0 ≤ size < 3 * 2 ^ 30 → 8388608 ≤ msize m → mem_wf m → Forall is_u8 file → Elf.fields_fit F →
  (∀ m, Elf.find_interpreter (S (length (Elf.testa l))) (Elf.rewind l) file m =
    Done (Some (F, e), m, [])) →
  Elf.sizeof_phdr F ≤ Elf.phentsize F e →
  Forall Elf.segment_ok (Elf.loads F (Z.to_nat (Elf.phnum F e)) e 0) →
  get_ok && set_ok && regs_ok = false →
  run_long_mode get_ok set_ok regs_ok sregs size entry_point l (Some file) m = Halt (ExitProcess 1).
Proof.
  intros Hsize Hm Hwf Hfile HF Hfind Hent Hseg Hok. unfold run_long_mode, ioctl.
  destruct get_ok; [|done]. erewrite bind_quiet by reflexivity.
  destruct (setup_protected_mode_run sregs m) as (s1 & m1 & Hrun1 & _ & _ & Hs1 & Hwf1 & _); [lia|].
  erewrite bind_quiet by exact Hrun1.
  destruct (page_tables_run size s1 m1) as (m2 & Hrun2 & _ & _ & Hs2 & _); [lia|lia|auto|].
  erewrite bind_quiet by exact Hrun2.
  destruct set_ok; [|done]. erewrite bind_quiet by reflexivity.
  destruct (Elf.estrai_run l file F e 0x10000 m2) as (m3 & Hrun3 & _);
    [done|done|lia|apply Hfind|done|done|].
  erewrite bind_quiet by exact Hrun3. by destruct regs_ok.
Qed.

End Bootloader.
