(* ===== verification/ConsoleInput.v ===== *)
(** * The console input (backend/ConsoleInput.h, backend/ConsoleInput.cpp)

The thread that reads characters from the terminal and forwards them to the
emulated keyboard as the keycodes of keys going down and up.  The state of
the thread and the keyboard it is attached to are one record, [world]. *)

From S2P Require Import Prelude IODevice Keyboard.

Module ConsoleInput.

(** ** The encoding table *)
Definition MAX_CODE : nat := 46.

(** [enc_t.tab]: the keycodes. *)
Definition tab : list Z :=
  [ 0x02; 0x03; 0x04; 0x05; 0x06; 0x07; 0x08; 0x09; 0x0a; 0x0b;
    0x0c;
    0x10; 0x11; 0x12; 0x13; 0x14; 0x15; 0x16; 0x17; 0x18; 0x19;
    0x1E; 0x1F; 0x20; 0x21; 0x22; 0x23; 0x24; 0x25;
    0x26; 0x29; 0x2C; 0x2D; 0x2E; 0x2F; 0x30; 0x31; 0x32;
    0x33; 0x34; 0x35; 0x56;
    0x39; 0x1C; 0x0e; 0x01 ].

(** [enc_t.tabmin] and [enc_t.tabmai]: the characters without and with shift. *)
Definition tabmin : list Z :=
  chars "1234567890'qwertyuiopasdfghjkl\zxcvbnm,.-< " ++ [13; 8; 0x1b].
Definition tabmai : list Z :=
  [33; 34] ++ chars "@$%&/()=?QWERTYUIOPASDFGHJKL|ZXCVBNM;:_> " ++ [10; 8; 0x1b].

(** The position at which a loop over a table stops: [MAX_CODE] if the value is
    not in it. *)
Fixpoint search (table : list Z) (v : Z) : nat :=
  match table with
  | [] => O
  | x :: table => if x =? v then O else S (search table v)
  end.

Definition ascii_to_keycode (ascii_c : Z) (shift : bool) : Z * bool :=
  let pos := search tabmin ascii_c in
  if decide (pos = MAX_CODE) then
    let pos := search tabmai ascii_c in
    if decide (pos = MAX_CODE) then (0, shift) else (nth pos tab 0, true)
  else (nth pos tab 0, false).

(** ** State *)
Record t : Type := mk {
  attached_keyboard : bool;   (* the pointer is not null *)
  thread : bool;              (* the thread was created *)
  is_shifted : bool;
  newchar : Z;                (* the local variable of [_mainThread] *)
}.

#[export] Instance eta_t : Eta t := λ x,
  mk (attached_keyboard x) (thread x) (is_shifted x) (newchar x).

Record world : Type := mk_world { console : t; keyb : keyboard.t }.

#[export] Instance eta_world : Eta world := λ x, mk_world (console x) (keyb x).

(** The constructor; [junk] is the value of the uninitialised local variable. *)
Definition init (junk : Z) : t := mk false false false junk.

(** ** Methods

    [None] is the end of the body of a function that should return a value. *)
Definition attachKeyboard : io t (option bool) :=
  s ← get;
  if attached_keyboard s then mret (Some false)
  else modify (λ s, s <| attached_keyboard := true |>);; mret None.

Definition startEventThread : io t (option bool) :=
  s ← get;
  if thread s || negb (attached_keyboard s) then mret (Some false)
  else modify (λ s, s <| thread := true |>);; mret None.

Definition insert_keycode_event (k : Z) : io world unit :=
  w ← get;
  if attached_keyboard (console w) then
    zoom keyb (λ kb w, w <| keyb := kb |>) (keyboard.insert_keycode_event k)
  else crash NullDeref.

(** What [read] returns. *)
Inductive read_result : Type :=
  | Char (c : Z)    (* one byte *)
  | EOF             (* the end of the input: 0 *)
  | Failed.         (* an error: negative *)

(** One turn of the loop of [_mainThread]; the result is the loop's condition. *)
Definition turn (res : read_result) : io world bool :=
  match res with
  | Char c => modify (λ w, w <| console := (console w) <| newchar := c |> |>)
  | _ => mret tt
  end;;
  w ← get;
  let This := console w in
  let '(newkeycode, new_shift) := ascii_to_keycode (newchar This) (is_shifted This) in
  (if negb (eqb (is_shifted This) new_shift) && new_shift then insert_keycode_event 0x2a
   else if negb (eqb (is_shifted This) new_shift) && negb new_shift
   then insert_keycode_event 0xaa
   else mret tt);;
  modify (λ w, w <| console := (console w) <| is_shifted := new_shift |> |>);;
  when (negb (newkeycode =? 0)) (
    insert_keycode_event newkeycode;;
    insert_keycode_event (Z.lor newkeycode 0x80));;
  mret (match res with Failed => false | _ => true end).

(** The loop, on the results of the reads. *)
Fixpoint _mainThread (results : list read_result) : io world unit :=
  match results with
  | [] => mret tt
  | res :: results => continue ← turn res; if (continue : bool) then _mainThread results else mret tt
  end.

(** ** The keycodes of a text *)
Definition codes_of (shift : bool) (c : Z) : list Z :=
  let '(k, shift') := ascii_to_keycode c shift in
  (if eqb shift shift' then [] else if shift' then [0x2a] else [0xaa]) ++
  (if k =? 0 then [] else [k; Z.lor k 0x80]).

Definition shift_after (shift : bool) (c : Z) : bool := (ascii_to_keycode c shift).2.

Fixpoint typed (shift : bool) (cs : list Z) : list Z :=
  match cs with
  | [] => []
  | c :: cs => codes_of shift c ++ typed (shift_after shift c) cs
  end.

(** ** A guest's keyboard driver

    It follows the shift key, ignores the other keys going up, and looks the keys
    going down up in the table of its layout. *)
Definition driver_step (st : bool * list Z) (k : Z) : bool * list Z :=
  let '(shift, out) := st in
  if k =? 0x2a then (true, out)
  else if k =? 0xaa then (false, out)
  else if 0x80 <=? k then (shift, out)
  else match (if shift then tabmai else tabmin) !! search tab k with
       | Some c => (shift, out ++ [c])
       | None => (shift, out)
       end.

Definition driver (shift : bool) (ks : list Z) : bool * list Z := foldl driver_step (shift, []) ks.

(** The characters that the layout has. *)
Definition known (c : Z) : Prop := c ∈ tabmin ∨ c ∈ tabmai.
#[global] Instance known_dec c : Decision (known c).
Proof. unfold known. apply _. Defined.

Lemma driver_step_out shift out k :
  driver_step (shift, out) k =
  ((driver_step (shift, []) k).1, out ++ (driver_step (shift, []) k).2).
Proof.
  unfold driver_step. destruct (k =? 42), (k =? 170), (128 <=? k); try by rewrite app_nil_r.
  destruct (_ !! _); [done|]. by rewrite app_nil_r.
Qed.

Lemma driver_out shift out ks :
  foldl driver_step (shift, out) ks = ((driver shift ks).1, out ++ (driver shift ks).2).
Proof.
  unfold driver. revert shift out.
  induction ks as [|k ks IH]; intros shift out; cbn [foldl]; [by rewrite app_nil_r|].
  rewrite (driver_step_out shift out). destruct (driver_step (shift, []) k) as [sh o].
  cbn [fst snd]. rewrite IH, (IH _ o). cbn [fst snd]. by rewrite app_assoc.
Qed.

Lemma driver_app shift ks ks' :
  driver shift (ks ++ ks') =
  ((driver (driver shift ks).1 ks').1, (driver shift ks).2 ++ (driver (driver shift ks).1 ks').2).
Proof.
  unfold driver at 1. rewrite foldl_app. fold (driver shift ks).
  destruct (driver shift ks) as [sh o]. apply driver_out.
Qed.

(** The codes of one character give it back: checked for every byte. *)
Definition codes_ok (shift : bool) (c : Z) : Prop :=
  driver shift (codes_of shift c) = (shift_after shift c, if decide (known c) then [c] else []).

#[global] Instance codes_ok_dec shift c : Decision (codes_ok shift c).
Proof. unfold codes_ok. apply _. Defined.

Lemma driver_codes shift c : 0 ≤ c < 256 → codes_ok shift c.
Proof.
  intros Hc.
  assert (forallb (λ c, bool_decide (codes_ok true c) && bool_decide (codes_ok false c))
    (seqZ 0 256) = true) as H by (vm_compute; reflexivity).
  rewrite forallb_forall in H. specialize (H c).
  rewrite andb_true_iff, !bool_decide_eq_true in H.
  destruct H as [Ht Hf]; [apply list_elem_of_In, elem_of_seqZ; lia|]. by destruct shift.
Qed.

Lemma driver_typed shift cs :
  Forall is_u8 cs → (driver shift (typed shift cs)).2 = filter known cs.
Proof.
  intros Hcs. revert shift. induction Hcs as [|c cs Hc Hcs IH]; intros shift; [done|].
  cbn [typed]. rewrite driver_app. pose proof (driver_codes shift c Hc) as ->. cbn [fst snd].
  rewrite IH, filter_cons. by case_decide.
Qed.

(** ** The thread and the keyboard *)

Lemma codes_of_length shift c : (length (codes_of shift c) ≤ 3)%nat.
Proof.
  unfold codes_of. destruct (ascii_to_keycode c shift) as [k []], shift, (k =? 0); cbn; lia.
Qed.

(** Keycodes that fit in the buffer of an enabled keyboard are all queued. *)
Lemma insert_all ks kb :
  keyboard.wf kb → keyboard.enabled kb = true →
  (length (keyboard.contents kb) + length ks ≤ 16)%nat →
  ∃ kb' ev, for_each ks keyboard.insert_keycode_event kb = Done (tt, kb', ev) ∧
    keyboard.wf kb' ∧ keyboard.enabled kb' = true ∧
    keyboard.contents kb' = keyboard.contents kb ++ ks.
Proof.
  revert kb. induction ks as [|k ks IH]; intros kb Hwf Hen Hlen.
  { exists kb, []. by rewrite app_nil_r. }
  cbn [length] in Hlen.
  pose proof (keyboard.insert_refines k kb Hwf) as Hins. unfold keyboard.spec_insert in Hins.
  cbn [keyboard.abs keyboard.q_on keyboard.queue] in Hins. rewrite Hen in Hins.
  rewrite (proj2 (Z.ltb_lt _ _)) in Hins by lia. cbn [andb] in Hins.
  destruct Hins as (kb1 & Hrun & Hwf1 & Habs).
  assert (keyboard.contents kb1 = keyboard.contents kb ++ [k]) as Hc1.
  { apply (f_equal keyboard.queue) in Habs. exact Habs. }
  assert (keyboard.enabled kb1 = true) as Hen1.
  { apply (f_equal keyboard.q_on) in Habs. cbn in Habs. by rewrite Habs. }
  destruct (IH kb1) as (kb2 & ev & Hrun2 & Hwf2 & Hen2 & Hc2);
    [done|done|rewrite Hc1, length_app; cbn; lia|].
  do 2 eexists. split.
  { cbn [for_each]. rewrite (bind_done _ _ _ _ _ _ Hrun), Hrun2. reflexivity. }
  rewrite Hc2, Hc1, <- app_assoc. done.
Qed.

(** A turn inserts the codes of its character. *)
Lemma turn_codes res w kb' ev :
  let c := match res with Char c => c | _ => newchar (console w) end in
  let sh := is_shifted (console w) in
  attached_keyboard (console w) = true →
  for_each (codes_of sh c) keyboard.insert_keycode_event (keyb w) = Done (tt, kb', ev) →
  turn res w = Done (match res with Failed => false | _ => true end,
    mk_world (mk true (thread (console w)) (shift_after sh c) c) kb', ev).
Proof.
  intros c sh. destruct w as [[att th shf nc] kb]. cbn in *. intros -> Hrun.
  unfold turn. erewrite bind_quiet with (s' := mk_world (mk true th shf c) kb) (a := tt)
    by (destruct res; reflexivity).
  erewrite bind_quiet by reflexivity. cbn [console newchar is_shifted].
  unfold codes_of, shift_after in *. unfold sh in *.
  destruct (ascii_to_keycode c shf) as [k sh']. unfold insert_keycode_event. revert Hrun.
  generalize keyboard.insert_keycode_event as ins. intros ins.
  destruct shf, sh', (k =? 0); cbn; io_unfold; cbn; intros Hrun;
    repeat (case_match; simplify_eq/=); rewrite ?app_nil_r, ?app_assoc; done.
Qed.

Lemma main_thread_types cs w :
  attached_keyboard (console w) = true →
  keyboard.wf (keyb w) → keyboard.enabled (keyb w) = true →
  let ks := typed (is_shifted (console w)) cs in
  (length (keyboard.contents (keyb w)) + length ks ≤ 16)%nat →
  ∃ w' ev, _mainThread (Char <$> cs) w = Done (tt, w', ev) ∧
    keyboard.contents (keyb w') = keyboard.contents (keyb w) ++ ks.
Proof.
  revert w. induction cs as [|c cs IH]; intros w Ha Hwf Hen ks Hlen.
  { exists w, []. unfold ks. by rewrite app_nil_r. }
  unfold ks in *. cbn [typed] in *. rewrite length_app in Hlen.
  destruct (insert_all (codes_of (is_shifted (console w)) c) (keyb w))
    as (kb & ev & Hrun & Hwf1 & Hen1 & Hc1); [done|done|lia|].
  pose proof (turn_codes (Char c) w kb ev Ha Hrun) as Ht.
  destruct (IH (mk_world (mk true (thread (console w)) (shift_after (is_shifted (console w)) c) c) kb))
    as (w' & ev' & Hrun' & Hc'); [done..|cbn; rewrite Hc1, length_app; lia|].
  exists w', (ev ++ ev'). cbn [fmap list_fmap _mainThread].
  rewrite (bind_done _ _ _ _ _ _ Ht), Hrun'. split; [done|].
  rewrite Hc'. cbn. by rewrite Hc1, app_assoc.
Qed.

(** The console as [initIO] leaves it. *)
Definition connected (junk : Z) : t := mk true true false junk.

Lemma console_connected junk :
  (attachKeyboard;; startEventThread) (init junk) = Done (None, connected junk, []).
Proof. reflexivity. Qed.

(** The characters typed on the console reach the keyboard as scan codes from which a guest
    driver with the same tables recovers exactly the characters the tables know, in order,
    with their shift state. *)
Theorem console_types (junk : Z) (cs : list Z) (kb : keyboard.t)
    (Hcs : Forall is_u8 cs) (Hwf : keyboard.wf kb) (Hen : keyboard.enabled kb = true)
    (Hroom : (length (keyboard.contents kb) + length (typed false cs) ≤ 16)%nat) :
  ∃ w ev, _mainThread (Char <$> cs) (mk_world (connected junk) kb) = Done (tt, w, ev) ∧
    keyboard.contents (keyb w) = keyboard.contents kb ++ typed false cs ∧
    (driver false (typed false cs)).2 = filter known cs.
Proof.
  destruct (main_thread_types cs (mk_world (connected junk) kb)) as (w & ev & Hrun & Hc);
    [done..|]. exists w, ev. split_and!; [done..|]. by apply driver_typed.
Qed.

Definition enabled_keyboard : keyboard.t :=
  keyboard.mk 0 0 0 0 true false (replicate 16 0) 0 0 0 false.

Lemma console_types_witness :
  ∃ w ev, _mainThread (Char <$> chars "Hi#!")
      (mk_world (connected 7) enabled_keyboard) = Done (tt, w, ev) ∧
    keyboard.contents (keyb w) = [0x2a; 0x23; 0xa3; 0xaa; 0x17; 0x97; 0x2a; 0x02; 0x82] ∧
    (driver false (keyboard.contents (keyb w))).2 = chars "Hi!".
Proof.
  destruct (console_types 7 (chars "Hi#!") enabled_keyboard)
    as (w & ev & Hrun & Hc & Hd).
  - vm_compute; repeat constructor; intros; discriminate.
  - split; cbn; done || lia.
  - done.
  - vm_compute. lia.
  - exists w, ev. split; [done|]. rewrite Hc. split; [done|]. exact Hd.
Defined.

Lemma turn_newchar res w b w' ev :
  turn res w = Done (b, w', ev) →
  newchar (console w') = match res with Char c => c | _ => newchar (console w) end.
Proof.
  unfold turn. destruct w as [[att th shf nc] kb].
  set (c := match res with Char c => c | _ => nc end).
  erewrite bind_quiet with (s' := mk_world (mk att th shf c) kb) (a := tt)
    by (destruct res; reflexivity).
  erewrite bind_quiet by reflexivity. cbn [console newchar is_shifted].
  destruct (ascii_to_keycode _ _) as [k sh']. unfold insert_keycode_event.
  cbn. io_unfold. cbn. intros Ht. repeat (case_match; simplify_eq/=); done.
Qed.

Lemma turn_eof w : turn EOF w = turn (Char (newchar (console w))) w.
Proof. unfold turn. by destruct w as [[att th shf nc] kb]. Qed.

(** At the end of the input the thread does not stop: every further turn types the
    last character again. *)
Theorem eof_types_again (c : Z) (n : nat) (w : world) :
  _mainThread (Char c :: replicate n EOF) w = _mainThread (replicate (S n) (Char c)) w.
Proof.
  revert w. induction n as [|n IH]; intros w; [done|].
  cbn [replicate _mainThread] in *. unfold mbind, io_bind in *.
  destruct (turn (Char c) w) as [[[[] w1] ev]|h] eqn:Ht; [|done|done].
  apply turn_newchar in Ht. rewrite turn_eof, Ht. by rewrite IH.
Qed.

End ConsoleInput.
