(* ===== verification/Machine.v ===== *)
(** * The supervisor (kvm.cpp)

The machine is the collection of the global objects of kvm.cpp.  The exit loop
dispatches what the virtual CPU reports to the devices and to the debug stub;
the console thread inserts keycodes between the exits. *)

From S2P Require Import Prelude IODevice Keyboard VgaController SerialPort DiskManager HardDisk.
From S2P Require Import PCIDevice PciHost GdbServer ConsoleInput ConsoleOutput.

Module kvm.

(** ** State *)
Record t : Type := mk {
  console_in : ConsoleInput.t;
  console_out : ConsoleOutput.t;
  keyb : keyboard.t;
  vga : VGAController.t;
  com1 : serial_port.t;
  com2 : serial_port.t;
  com3 : serial_port.t;
  com4 : serial_port.t;
  pci : pci_host.bus;       (* the bridge, and the objects of connected_PCI_devices *)
  hdd : HardDisk.t;
  gdb : gdbserver.t;        (* with guest_physical_memory and guest_debug *)
  debug_mode : bool;
}.

#[export] Instance eta_t : Eta t := λ m,
  mk (console_in m) (console_out m) (keyb m) (vga m) (com1 m) (com2 m) (com3 m) (com4 m) (pci m) (hdd m)
    (gdb m) (debug_mode m).

Definition on_keyb {A} : io keyboard.t A → io t A := zoom keyb (λ d m, m <| keyb := d |>).
Definition on_vga {A} : io VGAController.t A → io t A := zoom vga (λ d m, m <| vga := d |>).
Definition on_com1 {A} : io serial_port.t A → io t A := zoom com1 (λ d m, m <| com1 := d |>).
Definition on_com2 {A} : io serial_port.t A → io t A := zoom com2 (λ d m, m <| com2 := d |>).
Definition on_com3 {A} : io serial_port.t A → io t A := zoom com3 (λ d m, m <| com3 := d |>).
Definition on_com4 {A} : io serial_port.t A → io t A := zoom com4 (λ d m, m <| com4 := d |>).
Definition on_pci {A} : io pci_host.bus A → io t A := zoom pci (λ d m, m <| pci := d |>).
Definition on_hdd {A} : io HardDisk.t A → io t A := zoom hdd (λ d m, m <| hdd := d |>).
Definition on_gdb {A} : io gdbserver.t A → io t A := zoom gdb (λ d m, m <| gdb := d |>).
Definition on_console {A} : io ConsoleInput.world A → io t A :=
  zoom (λ m, ConsoleInput.mk_world (console_in m) (keyb m))
    (λ w m, m <| console_in := ConsoleInput.console w |> <| keyb := ConsoleInput.keyb w |>).

Definition on_display {A} : io ConsoleOutput.world A → io t A :=
  zoom (λ m, ConsoleOutput.mk_world (console_out m) (vga m))
    (λ w m, m <| console_out := ConsoleOutput.out w |> <| vga := ConsoleOutput.vga w |>).

(** [connected_PCI_devices[0]], which points to [ata_bridge]. *)
Definition ata (m : t) : PCIDevice.t := nth 0 (pci_host.objects (pci m)) [].

(** ** Input and output exits *)

Definition KVM_EXIT_IO_IN : Z := 0.
Definition KVM_EXIT_IO_OUT : Z := 1.

(** [kr->io], with the operands in the shared page. *)
Record io_exit : Type := mk_io {
  direction : Z; size : Z; port : Z; count : Z; data : list Z;
}.

(** [*io_param], [*io_param_word] and [*io_param_long]. *)
Definition operand (n : nat) (x : io_exit) : Z := le_val (take n (data x)).
Definition put_operand (n : nat) (v : Z) (x : io_exit) : list Z :=
  list_inserts 0 (le_bytes n v) (data x).

(** A branch that writes or reads one operand of [n] bytes; the result is what the
    shared page holds then. *)
Definition transfer (n : nat) (x : io_exit) (write : Z → io t unit) (read : io t Z)
    : io t (list Z) :=
  if direction x =? KVM_EXIT_IO_OUT then write (operand n x);; mret (data x)
  else if direction x =? KVM_EXIT_IO_IN then v ← read; mret (put_operand n v x)
  else mret (data x).

Definition single (n : Z) (x : io_exit) : bool := (size x =? n) && (count x =? 1).
Definition within (lo hi : Z) (x : io_exit) : bool := (lo <=? port x) && (port x <=? hi).

(** The branch of the registers of the PCI bridge. *)
Definition handle_pci (x : io_exit) : io t (list Z) :=
  let p := port x in
  if direction x =? KVM_EXIT_IO_OUT then
    (if size x =? 1 then on_pci (pci_host.write_reg_byte p (operand 1 x))
     else if size x =? 2 then on_pci (pci_host.write_reg_word p (operand 2 x))
     else if size x =? 4 then on_pci (pci_host.write_reg_long p (operand 4 x))
     else mret tt);;
    mret (data x)
  else if direction x =? KVM_EXIT_IO_IN then
    if size x =? 1 then v ← on_pci (pci_host.read_reg_byte p); mret (put_operand 1 v x)
    else if size x =? 2 then v ← on_pci (pci_host.read_reg_word p); mret (put_operand 2 v x)
    else if size x =? 4 then v ← on_pci (pci_host.read_reg_long p); mret (put_operand 4 v x)
    else mret (data x)
  else mret (data x).

(** The branches of the hard disk.  The bounds of the base addresses are computed on
    [uint32_t]. *)
Definition handle_hdd (x : io_exit) : io t (list Z) :=
  m ← get;
  let p := port x in
  let bar0 := PCIDevice.getBar 0 (ata m) in
  let bar1 := PCIDevice.getBar 1 (ata m) in
  if within bar0 (u32 (bar0 + 7)) x then
    if single 2 x then
      transfer 2 x (λ v, on_hdd (PCI_ATA.write_reg_word (ata m) p v))
        (on_hdd (PCI_ATA.read_reg_word (ata m) p))
    else if single 1 x then
      transfer 1 x (λ v, on_hdd (PCI_ATA.write_reg_byte (ata m) p v))
        (on_hdd (PCI_ATA.read_reg_byte (ata m) p))
    else mret (data x)
  else if within bar1 (u32 (bar1 + 1)) x then
    transfer 1 x (λ v, on_hdd (PCI_ATA.write_reg_byte (ata m) p v))
      (on_hdd (PCI_ATA.read_reg_byte (ata m) p))
  else mret (data x).

(** The case [KVM_EXIT_IO]. *)
Definition handle_io (x : io_exit) : io t (list Z) :=
  let p := port x in
  if single 1 x && ((p =? 0x60) || (p =? 0x64)) then
    transfer 1 x (λ v, on_keyb (keyboard.write_reg_byte p v)) (on_keyb (keyboard.read_reg_byte p))
  else if single 1 x && ((p =? 0x03D4) || (p =? 0x03D5)) then
    transfer 1 x (λ v, on_vga (VGAController.write_reg_byte p v))
      (on_vga (VGAController.read_reg_byte p))
  else if single 1 x && within 0x03f8 0x03ff x then
    transfer 1 x (λ v, on_com1 (serial_port.write_reg_byte p v))
      (on_com1 (serial_port.read_reg_byte p))
  else if single 1 x && within 0x02f8 0x02ff x then
    transfer 1 x (λ v, on_com2 (serial_port.write_reg_byte p v))
      (on_com2 (serial_port.read_reg_byte p))
  else if single 1 x && within 0x03e8 0x03ef x then
    transfer 1 x (λ v, on_com3 (serial_port.write_reg_byte p v))
      (on_com3 (serial_port.read_reg_byte p))
  else if single 1 x && within 0x02e8 0x02ef x then
    transfer 1 x (λ v, on_com4 (serial_port.write_reg_byte p v))
      (on_com4 (serial_port.read_reg_byte p))
  else if within 0xcfc 0xcff x || (p =? 0xcf8) then handle_pci x
  else handle_hdd x.

(** ** The registers of the virtual CPU and the debug stub *)

Record kvm_regs : Type := mk_regs {
  rax : Z; rbx : Z; rcx : Z; rdx : Z; rsi : Z; rdi : Z; rsp : Z; rbp : Z;
  r8 : Z; r9 : Z; r10 : Z; r11 : Z; r12 : Z; r13 : Z; r14 : Z; r15 : Z;
  rip : Z; rflags : Z;
}.

(** The parts of [kvm_sregs] that are shown. *)
Record kvm_sregs : Type := mk_sregs {
  cs : Z; ss : Z; ds : Z; es : Z; fs : Z; gs : Z;
  cr0 : Z; cr2 : Z; cr3 : Z; cr4 : Z; efer : Z;
}.

(** The requests KVM_GET_REGS and KVM_GET_SREGS: [None] if they fail. *)
Definition gdb_submit_registers (regs : option kvm_regs) (sregs : option kvm_sregs)
    : io gdbserver.t unit :=
  match regs with
  | None => mret tt
  | Some regs =>
      match sregs with
      | None => crash (ExitProcess 1)
      | Some sregs =>
          gdbserver.gdbserver_set_register 0 (rax regs);;
          gdbserver.gdbserver_set_register 1 (rbx regs);;
          gdbserver.gdbserver_set_register 2 (rcx regs);;
          gdbserver.gdbserver_set_register 3 (rdx regs);;
          gdbserver.gdbserver_set_register 4 (rsi regs);;
          gdbserver.gdbserver_set_register 5 (rdi regs);;
          gdbserver.gdbserver_set_register gdbserver.AMD64_RBP_REGNUM (rbp regs);;
          gdbserver.gdbserver_set_register gdbserver.AMD64_RSP_REGNUM (rsp regs);;
          gdbserver.gdbserver_set_register 8 (r8 regs);;
          gdbserver.gdbserver_set_register 9 (r9 regs);;
          gdbserver.gdbserver_set_register 10 (r10 regs);;
          gdbserver.gdbserver_set_register 11 (r11 regs);;
          gdbserver.gdbserver_set_register 12 (r12 regs);;
          gdbserver.gdbserver_set_register 13 (r13 regs);;
          gdbserver.gdbserver_set_register 14 (r14 regs);;
          gdbserver.gdbserver_set_register 15 (r15 regs);;
          gdbserver.gdbserver_set_register gdbserver.AMD64_RIP_REGNUM (rip regs);;
          gdbserver.gdbserver_set_register gdbserver.AMD64_EFLAGS_REGNUM (rflags regs);;
          gdbserver.gdbserver_set_register gdbserver.AMD64_CS_REGNUM (cs sregs);;
          gdbserver.gdbserver_set_register gdbserver.AMD64_SS_REGNUM (ss sregs);;
          gdbserver.gdbserver_set_register gdbserver.AMD64_DS_REGNUM (ds sregs);;
          gdbserver.gdbserver_set_register gdbserver.AMD64_ES_REGNUM (es sregs);;
          gdbserver.gdbserver_set_register gdbserver.AMD64_FS_REGNUM (fs sregs);;
          gdbserver.gdbserver_set_register gdbserver.AMD64_GS_REGNUM (gs sregs);;
          gdbserver.gdbserver_set_custom_register gdbserver.AMD64_CR4_REGNUM (cr4 sregs);;
          gdbserver.gdbserver_set_custom_register gdbserver.AMD64_CR3_REGNUM (cr3 sregs);;
          gdbserver.gdbserver_set_custom_register gdbserver.AMD64_CR2_REGNUM (cr2 sregs);;
          gdbserver.gdbserver_set_custom_register gdbserver.AMD64_CR0_REGNUM (cr0 sregs);;
          gdbserver.gdbserver_set_custom_register gdbserver.AMD64_EFER_REGNUM (efer sregs)
      end
  end.

Definition kvm_handle_debug_exit (regs : option kvm_regs) (sregs : option kvm_sregs) (pc : Z)
    : io gdbserver.t unit :=
  gdb_submit_registers regs sregs;;
  gdbserver.gdbserver_set_register gdbserver.AMD64_RIP_REGNUM pc;;
  gdbserver.gdbserver_handle_exception gdbserver.SIGTRAP.

(** ** The exit loop *)

(** The three requests of [trace_user_program]: the registers, the system registers
    and the pending events.  The output is a log. *)
Record trace_requests : Type := mk_trace { get_regs : bool; get_sregs : bool; get_events : bool }.

Definition trace_user_program (r : trace_requests) : io t unit :=
  if negb (get_regs r) then mret tt
  else if negb (get_sregs r) then crash (ExitProcess 1)
  else if negb (get_events r) then crash (ExitProcess 1)
  else mret tt.

(** What the request KVM_RUN gives. *)
Inductive kvm_exit : Type :=
  | RunFailed
  | ExitHlt
  | ExitIo (x : io_exit)
  | ExitMmio
  | ExitShutdown
  | ExitDebug (pc : Z) (regs : option kvm_regs) (sregs : option kvm_sregs) (r : trace_requests)
  | ExitFailEntry (r : trace_requests)
  | ExitInternalError (r : trace_requests)
  | ExitOther (reason : Z) (r : trace_requests).

(** The loop goes on, with the contents of the shared page, or [main] returns. *)
Inductive verdict : Type := Continue (page : list Z) | Return (code : Z).

Definition tell_gdb (sigval : Z) : io t unit :=
  m ← get;
  when (debug_mode m) (on_gdb (gdbserver.gdbserver_handle_exception sigval)).

Definition handle_exit (e : kvm_exit) : io t verdict :=
  match e with
  | RunFailed => mret (Return 1)
  | ExitHlt => tell_gdb gdbserver.SIGTERM;; mret (Return 1)
  | ExitIo x => page ← handle_io x; mret (Continue page)
  | ExitMmio => mret (Continue [])
  | ExitShutdown => tell_gdb gdbserver.SIGTERM;; mret (Return 1)
  | ExitDebug pc regs sregs r =>
      m ← get;
      if negb (debug_mode m) then trace_user_program r;; mret (Return 1)
      else on_gdb (kvm_handle_debug_exit regs sregs pc);; mret (Continue [])
  | ExitFailEntry r | ExitInternalError r | ExitOther _ r =>
      trace_user_program r;; tell_gdb gdbserver.SIGILL;; mret (Return 1)
  end.

Definition endIO (val : Z) : io t unit := crash (ExitProcess 0).

(** The loop, on the exits in order; the list ends where the observation does. *)
Fixpoint exit_loop (es : list kvm_exit) : io t (option Z) :=
  match es with
  | [] => mret None
  | e :: es =>
      v ← handle_exit e;
      match v with
      | Continue _ => exit_loop es
      | Return code => mret (Some code)
      end
  end.

(** ** Start *)

(** The check of the command line: the code [main] returns, if it does.  [logfile]
    tells whether the second argument is the option. *)
Definition check_arguments (argc : Z) (logfile : bool) : option Z :=
  if negb (argc =? 2) &&
     ((argc =? 1) || (argc =? 3) || ((argc =? 4) && negb logfile))
  then Some 1 else None.

Definition default_memory_size : Z := 8 * 1024 * 1024.

(** [memsize] is the [long] of the configuration file. *)
Definition guest_memory_size (memsize : Z) : Z :=
  let mem_size := u32 memsize in
  if (8 <=? mem_size) && (mem_size <? 1024) then
    let mem_size := if Z.land mem_size 1 =? 0 then mem_size else mem_size + 1 in
    u32 (mem_size * 1024 * 1024)
  else default_memory_size.

(** [initIO]: [dev] to [off] are the uninitialised members of the bridge.  The video
    memory is at this offset of the guest's. *)
Definition video_memory : Z := 0xB8000.

Definition initIO (dev nbus fn off : Z) : io t unit :=
  on_console (zoom ConsoleInput.console (λ c w, ConsoleInput.mk_world c (ConsoleInput.keyb w))
    (ConsoleInput.attachKeyboard;; ConsoleInput.startEventThread));;
  modify (λ m, m <| com1 := serial_port.init 0x3f8 |> <| com2 := serial_port.init 0x2f8 |>
                 <| com3 := serial_port.init 0x3e8 |> <| com4 := serial_port.init 0x2e8 |>);;
  on_pci (pci_host.construct dev nbus fn off pci_host.kvm_table);;
  on_vga (VGAController.setVMem video_memory);;
  on_display (zoom ConsoleOutput.out
      (λ c w, ConsoleOutput.mk_world c (ConsoleOutput.vga w)) ConsoleOutput.attachVGA;;
    ConsoleOutput.startThread);;
  mret tt.

(** The part of [main] that attaches a debugger before [initIO]. *)
Definition start_debugger (enable listening : bool) (regs : option kvm_regs)
    (sregs : option kvm_sregs) : io t unit :=
  modify (λ m, m <| debug_mode := enable |>);;
  when enable
    (on_gdb gdbserver.kvm_enable_guest_debug;;
     on_gdb (gdb_submit_registers regs sregs);;
     on_gdb (gdbserver.gdbserver_start listening)).

(** ** The port map

    Which device an exit reaches, with the width of the operand, as a table. *)
Inductive target : Type := ToKeyb | ToVga | ToCom1 | ToCom2 | ToCom3 | ToCom4 | ToPci | ToHdd.

#[global] Instance target_eq_dec : EqDecision target.
Proof. solve_decision. Defined.

(** The ports of the devices that take single bytes. *)
Definition byte_ports : list (Z * Z * target) :=
  [ (0x60, 0x60, ToKeyb); (0x64, 0x64, ToKeyb); (0x3d4, 0x3d5, ToVga);
    (0x3f8, 0x3ff, ToCom1); (0x2f8, 0x2ff, ToCom2); (0x3e8, 0x3ef, ToCom3);
    (0x2e8, 0x2ef, ToCom4) ].
Definition pci_ports : list (Z * Z * target) := [ (0xcf8, 0xcf8, ToPci); (0xcfc, 0xcff, ToPci) ].

Fixpoint find_port (ports : list (Z * Z * target)) (x : io_exit) : option target :=
  match ports with
  | [] => None
  | (lo, hi, tg) :: ports => if within lo hi x then Some tg else find_port ports x
  end.

(** The widths the bridge takes. *)
Definition pci_width (x : io_exit) : option nat :=
  if size x =? 1 then Some 1%nat else if size x =? 2 then Some 2%nat
  else if size x =? 4 then Some 4%nat else None.

Definition route (bar0 bar1 : Z) (x : io_exit) : option (target * nat) :=
  match (if single 1 x then find_port byte_ports x else None) with
  | Some tg => Some (tg, 1%nat)
  | None =>
      match find_port pci_ports x with
      | Some tg => n ← pci_width x; Some (tg, n)
      | None =>
          if within bar0 (u32 (bar0 + 7)) x then
            if single 2 x then Some (ToHdd, 2%nat)
            else if single 1 x then Some (ToHdd, 1%nat) else None
          else if within bar1 (u32 (bar1 + 1)) x then Some (ToHdd, 1%nat)
          else None
      end
  end.

Definition machine_route (m : t) (x : io_exit) : option (target * nat) :=
  route (PCIDevice.getBar 0 (ata m)) (PCIDevice.getBar 1 (ata m)) x.

(** The access that an exit asks for. *)
Definition access_of (n : nat) (x : io_exit) : option access :=
  let v := operand n x in
  let p := port x in
  if direction x =? KVM_EXIT_IO_OUT then
    Some (match n with 1%nat => WriteByte p v | 2%nat => WriteWord p v | _ => WriteLong p v end)
  else if direction x =? KVM_EXIT_IO_IN then
    Some (match n with 1%nat => ReadByte p | 2%nat => ReadWord p | _ => ReadLong p end)
  else None.

(** A serial port is not an [IODevice]: it takes bytes only. *)
Definition com_access (a : access) : io serial_port.t Z :=
  match a with
  | WriteByte p v => serial_port.step (serial_port.Write p v)
  | ReadByte p => serial_port.step (serial_port.Read p)
  | _ => mret 0
  end.

Definition perform (tg : target) (a : access) : io t Z :=
  match tg with
  | ToKeyb => on_keyb (dev_access a)
  | ToVga => on_vga (dev_access a)
  | ToCom1 => on_com1 (com_access a)
  | ToCom2 => on_com2 (com_access a)
  | ToCom3 => on_com3 (com_access a)
  | ToCom4 => on_com4 (com_access a)
  | ToPci => on_pci (dev_access a)
  | ToHdd => λ m, on_hdd (PCI_ATA.bridge_access (ata m) a) m
  end.

(** What the shared page holds after the access. *)
Definition page_after (n : nat) (v : Z) (x : io_exit) : list Z :=
  if direction x =? KVM_EXIT_IO_OUT then data x else put_operand n v x.

Definition io_spec (x : io_exit) (m : t) : outcome (list Z * t * list event) :=
  match machine_route m x with
  | None => Done (data x, m, [])
  | Some (tg, n) =>
      match access_of n x with
      | None => Done (data x, m, [])
      | Some a =>
          match perform tg a m with
          | Done (v, m', ev) => Done (page_after n v x, m', ev)
          | Halt h => Halt h
          end
      end
  end.

Lemma find_byte_port x :
  find_port byte_ports x =
  if (port x =? 0x60) || (port x =? 0x64) then Some ToKeyb
  else if (port x =? 0x3d4) || (port x =? 0x3d5) then Some ToVga
  else if within 0x3f8 0x3ff x then Some ToCom1
  else if within 0x2f8 0x2ff x then Some ToCom2
  else if within 0x3e8 0x3ef x then Some ToCom3
  else if within 0x2e8 0x2ef x then Some ToCom4 else None.
Proof.
  assert (∀ k, within k k x = (port x =? k)) as Hk.
  { intros k. unfold within. destruct (Z.eqb_spec (port x) k) as [->|H]; [by rewrite Z.leb_refl|].
    destruct (Z.leb_spec k (port x)), (Z.leb_spec (port x) k); lia || done. }
  cbn [find_port byte_ports]. rewrite !Hk.
  assert (within 0x3d4 0x3d5 x = (port x =? 0x3d4) || (port x =? 0x3d5)) as ->.
  { unfold within. destruct (Z.eqb_spec (port x) 0x3d4), (Z.eqb_spec (port x) 0x3d5),
      (Z.leb_spec 0x3d4 (port x)), (Z.leb_spec (port x) 0x3d5); lia || done. }
  by destruct (port x =? 0x60), (port x =? 0x64).
Qed.

Lemma find_pci_port x :
  find_port pci_ports x =
  if within 0xcfc 0xcff x || (port x =? 0xcf8) then Some ToPci else None.
Proof.
  cbn [find_port pci_ports].
  assert (within 0xcf8 0xcf8 x = (port x =? 0xcf8)) as ->.
  { unfold within. destruct (Z.eqb_spec (port x) 0xcf8), (Z.leb_spec 0xcf8 (port x)),
      (Z.leb_spec (port x) 0xcf8); lia || done. }
  by destruct (port x =? 0xcf8), (within 0xcfc 0xcff x).
Qed.

(** One branch of the exit loop against one row of the table. *)
Lemma transfer_spec n x tg (write : Z → io t unit) read m :
  ((direction x =? KVM_EXIT_IO_OUT) = true →
   ∃ a, access_of n x = Some a ∧ perform tg a m = (write (operand n x);; mret 0) m) →
  ((direction x =? KVM_EXIT_IO_OUT) = false → (direction x =? KVM_EXIT_IO_IN) = true →
   ∃ a, access_of n x = Some a ∧ perform tg a m = read m) →
  transfer n x write read m =
  match access_of n x with
  | None => Done (data x, m, [])
  | Some a =>
      match perform tg a m with
      | Done (v, m', ev) => Done (page_after n v x, m', ev)
      | Halt h => Halt h
      end
  end.
Proof.
  unfold transfer, page_after. intros Hw Hr.
  destruct (direction x =? KVM_EXIT_IO_OUT) eqn:Ho.
  - destruct Hw as (a & -> & ->); [done|]. unfold mbind, io_bind.
    destruct (write _ m) as [[[[] m'] ev]|]; [|done]. cbn. by rewrite app_nil_r.
  - destruct (direction x =? KVM_EXIT_IO_IN) eqn:Hi.
    + destruct Hr as (a & -> & ->); [done|done|]. unfold mbind, io_bind.
      destruct (read m) as [[[v m'] ev]|]; [|done]. cbn. by rewrite app_nil_r.
    + unfold access_of. by rewrite Ho, Hi.
Qed.

(** Branches on one device. *)
Lemma zoom_mret {S T} (view : S → T) put (m : io T unit) (s : S) :
  zoom view put (m;; mret 0) s = (zoom view put m;; mret 0) s.
Proof.
  unfold zoom, mbind, io_bind. destruct (m (view s)) as [[[[] t'] ev]|]; [|done].
  cbn. by rewrite !app_nil_r.
Qed.

Ltac branch :=
  let Hd := fresh in let Hd' := fresh in
  apply transfer_spec; [intros Hd|intros Hd Hd'];
    (eexists; unfold access_of; rewrite Hd, ?Hd'; split; [reflexivity|]);
    [apply zoom_mret|reflexivity].

(** The outcome of the access a row of the table names. *)
Definition row (tg : target) (n : nat) (x : io_exit) (m : t) : outcome (list Z * t * list event) :=
  match access_of n x with
  | None => Done (data x, m, [])
  | Some a =>
      match perform tg a m with
      | Done (v, m', ev) => Done (page_after n v x, m', ev)
      | Halt h => Halt h
      end
  end.

Lemma handle_pci_spec x m :
  handle_pci x m =
  match pci_width x with None => Done (data x, m, []) | Some n => row ToPci n x m end.
Proof.
  assert (∀ n w r, transfer n x w r m =
    (if direction x =? KVM_EXIT_IO_OUT then w (operand n x);; mret (data x)
     else if direction x =? KVM_EXIT_IO_IN then v ← r; mret (put_operand n v x)
     else mret (data x)) m) as Ht by done.
  unfold handle_pci, pci_width.
  destruct (size x =? 1); [|destruct (size x =? 2); [|destruct (size x =? 4)]].
  4: { by destruct (direction x =? KVM_EXIT_IO_OUT), (direction x =? KVM_EXIT_IO_IN). }
  - etransitivity; [symmetry; exact (Ht 1%nat (λ v, on_pci (pci_host.write_reg_byte (port x) v)) _)|].
    branch.
  - etransitivity; [symmetry; exact (Ht 2%nat (λ v, on_pci (pci_host.write_reg_word (port x) v)) _)|].
    branch.
  - etransitivity; [symmetry; exact (Ht 4%nat (λ v, on_pci (pci_host.write_reg_long (port x) v)) _)|].
    branch.
Qed.

Lemma handle_hdd_spec x m :
  handle_hdd x m =
  let bar0 := PCIDevice.getBar 0 (ata m) in
  let bar1 := PCIDevice.getBar 1 (ata m) in
  if within bar0 (u32 (bar0 + 7)) x then
    if single 2 x then row ToHdd 2 x m
    else if single 1 x then row ToHdd 1 x m else Done (data x, m, [])
  else if within bar1 (u32 (bar1 + 1)) x then row ToHdd 1 x m
  else Done (data x, m, []).
Proof.
  unfold handle_hdd. erewrite bind_quiet by reflexivity. cbv zeta.
  destruct (within (PCIDevice.getBar 0 _) _ x).
  - destruct (single 2 x); [branch|]. by destruct (single 1 x); [branch|].
  - by destruct (within (PCIDevice.getBar 1 _) _ x); [branch|].
Qed.

Lemma handle_io_spec x m : handle_io x m = io_spec x m.
Proof.
  unfold handle_io, io_spec, machine_route, route. rewrite find_byte_port, find_pci_port.
  assert (∀ r : io t (list Z), (if within 0xcfc 0xcff x || (port x =? 0xcf8) then handle_pci x
    else handle_hdd x) m =
    match
      match (if within 0xcfc 0xcff x || (port x =? 0xcf8) then Some ToPci else None) with
      | Some tg => n ← pci_width x; Some (tg, n)
      | None =>
          if within (PCIDevice.getBar 0 (ata m)) (u32 (PCIDevice.getBar 0 (ata m) + 7)) x then
            if single 2 x then Some (ToHdd, 2%nat)
            else if single 1 x then Some (ToHdd, 1%nat) else None
          else if within (PCIDevice.getBar 1 (ata m)) (u32 (PCIDevice.getBar 1 (ata m) + 1)) x
          then Some (ToHdd, 1%nat) else None
      end
    with Some (tg, n) => row tg n x m | None => Done (data x, m, []) end) as Hrest.
  { intros _. destruct (within 0xcfc 0xcff x || _).
    - rewrite handle_pci_spec. by destruct (pci_width x).
    - rewrite handle_hdd_spec. cbv zeta.
      destruct (within (PCIDevice.getBar 0 _) _ x);
        [by destruct (single 2 x), (single 1 x)|by destruct (within _ _ x)]. }
  destruct (single 1 x) eqn:Hs1; cbn [andb]; [|exact (Hrest (mret []))].
  destruct ((port x =? 0x60) || _); [branch|].
  destruct ((port x =? 0x3d4) || _); [branch|].
  destruct (within 0x3f8 0x3ff x); [branch|].
  destruct (within 0x2f8 0x2ff x); [branch|].
  destruct (within 0x3e8 0x3ef x); [branch|].
  destruct (within 0x2e8 0x2ef x); [branch|].
  exact (Hrest (mret [])).
Qed.

(** ** Well-formedness

    Every device satisfies its own invariant, and a function of the bus has been
    selected; [n] is the number of blocks of the disk. *)
Record wf (n : Z) (m : t) : Prop := {
  wf_keyb : keyboard.wf (keyb m);
  wf_vga : VGAController.wf (vga m);
  wf_com1 : serial_port.wf (com1 m);
  wf_com2 : serial_port.wf (com2 m);
  wf_com3 : serial_port.wf (com3 m);
  wf_com4 : serial_port.wf (com4 m);
  wf_pci : pci_host.wf (pci m);
  wf_selected : pci_host.selected (pci m);
  wf_ata : pci_host.devices (pci_host.host (pci m)) !! 0%nat = Some (Some 0%nat);
  wf_hdd : HardDisk.wf n (hdd m);
}.

(** What the virtual CPU reports: a 16-bit port, an operand of 1, 2 or 4 bytes. *)
Record valid_io (x : io_exit) : Prop := {
  vi_port : is_u16 (port x);
  vi_data : Forall is_u8 (data x);
  vi_size : size x = 1 ∨ size x = 2 ∨ size x = 4;
  vi_page : (4 ≤ length (data x))%nat;
}.

(** The hard disk as the bridge calls it. *)
Definition hdd_op (regs : PCIDevice.t) (a : access) : HardDisk.op :=
  let p := PCI_ATA.translate regs (PCIDevice.access_offset a) in
  match a with
  | WriteByte _ v => HardDisk.WriteB p v
  | WriteWord _ v | WriteLong _ v => HardDisk.WriteW p v
  | ReadByte _ => HardDisk.ReadB p
  | ReadWord _ | ReadLong _ => HardDisk.ReadW p
  end.

Lemma bridge_step regs a d :
  (PCIDevice.access_width a ≤ 2)%nat →
  PCI_ATA.bridge_access regs a d = HardDisk.step (hdd_op regs a) d.
Proof. intros Hw. destruct a; cbn in Hw; try lia; done. Qed.

(** The fault that an exit meets in the hard disk, if it does. *)
Definition disk_fault (m : t) (x : io_exit) : option halt :=
  match machine_route m x with
  | Some (ToHdd, n) =>
      match access_of n x with
      | Some a => HardDisk.fault (hdd_op (ata m) a) (hdd m)
      | None => None
      end
  | _ => None
  end.

Lemma operand_bound n x : Forall is_u8 (data x) → (n ≤ length (data x))%nat →
  0 ≤ operand n x < 256 ^ Z.of_nat n.
Proof.
  intros Hd Hn. unfold operand. rewrite <- (length_take_le (data x) n) at 3 by done.
  apply le_val_bound. by apply Forall_take.
Qed.

Lemma length_page_after n v x : length (page_after n v x) = length (data x).
Proof.
  unfold page_after, put_operand. destruct (_ =? _); [done|]. apply length_inserts.
Qed.

(** The access of a row. *)
Lemma access_of_facts n x a :
  valid_io x → access_of n x = Some a → n = 1%nat ∨ n = 2%nat ∨ n = 4%nat →
  PCIDevice.access_offset a = port x ∧ PCIDevice.access_width a = n ∧
  match a with WriteByte _ v => is_u8 v | WriteWord _ v => is_u16 v | _ => True end.
Proof.
  intros [Hp Hd _ Hl] Ha Hn. unfold access_of in Ha.
  assert (n ≤ length (data x))%nat as Hle by lia.
  pose proof (operand_bound n x Hd Hle) as Hb.
  destruct (direction x =? KVM_EXIT_IO_OUT); [|destruct (direction x =? KVM_EXIT_IO_IN); [|done]];
    injection Ha as <-; destruct Hn as [->|[->| ->]]; cbn; done.
Qed.

Lemma keyb_access_total a d : keyboard.wf d →
  ∃ v d' ev, dev_access a d = Done (v, d', ev) ∧ keyboard.wf d'.
Proof.
  intros Hd.
  assert (∀ o, ∃ v d' ev, keyboard.step o d = Done (v, d', ev) ∧ keyboard.wf d') as Hs.
  { intros o. pose proof (keyboard.step_refines o d Hd) as H.
    destruct (keyboard.spec_step o (keyboard.abs d)) as [[r q] ev].
    destruct H as (d' & H & Hd' & _). eauto. }
  destruct a as [p v|p v|p v|p|p|p];
    [exact (Hs (keyboard.Write p v))|by exists 0, d, []|by exists 0, d, []
    |exact (Hs (keyboard.Read p))|by exists 0, d, []|by exists 0, d, []].
Qed.

Lemma vga_access_total a d :
  VGAController.wf d → match a with WriteByte _ v => is_u8 v | _ => True end →
  ∃ v d' ev, dev_access a d = Done (v, d', ev) ∧ VGAController.wf d'.
Proof.
  intros Hd Ha.
  assert (∀ o, VGAController.valid o →
    ∃ v d' ev, VGAController.step o d = Done (v, d', ev) ∧ VGAController.wf d') as Hs.
  { intros o Ho. destruct (VGAController.cursor_step_refines o d Hd Ho) as (d' & H & Hd' & _). eauto. }
  destruct a as [p v|p v|p v|p|p|p];
    [exact (Hs (VGAController.Write p v) Ha)|by exists 0, d, []|by exists 0, d, []
    |exact (Hs (VGAController.Read p) I)|by exists 0, d, []|by exists 0, d, []].
Qed.

Lemma com_access_total a d : serial_port.wf d →
  ∃ v d' ev, com_access a d = Done (v, d', ev) ∧ serial_port.wf d'.
Proof.
  intros Hd. destruct a as [p v|p v|p v|p|p|p]; try by exists 0, d, [].
  - destruct (serial_port.write_step p v d Hd) as (d' & ev & Hr & Hd' & _).
    exists 0, d', ev. cbn. unfold serial_port.step. rewrite (bind_done _ _ _ _ _ _ Hr). cbn.
    by rewrite app_nil_r.
  - destruct (serial_port.read_step p d Hd) as (r & d' & Hr & Hd' & _). by exists r, d', [].
Qed.

Lemma zoom_done {S T A} (view : S → T) put (m : io T A) s v d' ev :
  m (view s) = Done (v, d', ev) → zoom view put m s = Done (v, put d' s, ev).
Proof. intros H. unfold zoom. by rewrite H. Qed.

Lemma on_gdb_run {A} (p : io gdbserver.t A) m a s' ev :
  p (gdb m) = Done (a, s', ev) → on_gdb p m = Done (a, m <| gdb := s' |>, ev).
Proof. intros H. unfold on_gdb. by rewrite (zoom_done _ _ _ _ _ _ _ H). Qed.

Lemma zoom_halt {S T A} (view : S → T) put (m : io T A) s h :
  m (view s) = Halt h → zoom view put m s = Halt h.
Proof. intros H. unfold zoom. by rewrite H. Qed.

Lemma on_gdb_halt {A} (p : io gdbserver.t A) m h : p (gdb m) = Halt h → on_gdb p m = Halt h.
Proof. intros H. unfold on_gdb. by rewrite (zoom_halt _ _ _ _ _ H). Qed.

Lemma perform_pci_total n m a :
  wf n m → pci_host.valid a →
  ∃ v m' ev, perform ToPci a m = Done (v, m', ev) ∧ wf n m'.
Proof.
  intros Hm Ha.
  destruct (pci_host.access_safe a (pci m)) as (r & b & Hr & Hb & Hs);
    [apply Hm|apply Hm|done|].
  do 3 eexists. split; [by apply zoom_done|].
  pose proof (pci_host.access_table a (pci m) r b []) as Htab.
  destruct Hm; split; try done. cbn [pci upd]. by rewrite Htab.
Qed.

Lemma perform_hdd_total n m a :
  wf n m →
  (PCIDevice.access_width a ≤ 2)%nat → HardDisk.valid (hdd_op (ata m) a) →
  match HardDisk.fault (hdd_op (ata m) a) (hdd m) with
  | Some h => perform ToHdd a m = Halt h
  | None => ∃ v m' ev, perform ToHdd a m = Done (v, m', ev) ∧ wf n m'
  end.
Proof.
  intros Hm Hw Hv. cbn [perform].
  pose proof (HardDisk.step_total n (hdd m) (hdd_op (ata m) a) (wf_hdd _ _ Hm) Hv) as Ht.
  rewrite <- (bridge_step (ata m) a (hdd m)) in Ht by done.
  destruct (HardDisk.fault _ _); [by apply zoom_halt|].
  destruct Ht as (r & d & ev & Hr & Hd & _).
  do 3 eexists. split; [by apply zoom_done|]. by destruct Hm; split.
Qed.

Definition byte_target (tg : target) : Prop := tg ≠ ToPci ∧ tg ≠ ToHdd.

Lemma route_cases bar0 bar1 x tg n :
  route bar0 bar1 x = Some (tg, n) →
  (byte_target tg ∧ n = 1%nat) ∨ (tg = ToHdd ∧ (n = 1%nat ∨ n = 2%nat)) ∨
  (tg = ToPci ∧ pci_host.host_port (port x) ∧ (n = 1%nat ∨ n = 2%nat ∨ n = 4%nat)).
Proof.
  unfold route. rewrite find_byte_port, find_pci_port.
  assert (within 0xcfc 0xcff x || (port x =? 0xcf8) = true → pci_host.host_port (port x)) as Hh.
  { unfold within, pci_host.host_port, pci_host.data_port, pci_host.CAP_addr. lia. }
  assert (∀ k, pci_width x = Some k → k = 1%nat ∨ k = 2%nat ∨ k = 4%nat) as Hw.
  { intros k. unfold pci_width. repeat case_match; intros [= <-]; auto. }
  assert (∀ tg', byte_target tg' → Some (tg', 1%nat) = Some (tg, n) → byte_target tg ∧ n = 1%nat)
    as Hb by (by intros tg' Hb [= -> <-]).
  assert (match (if within 0xcfc 0xcff x || (port x =? 0xcf8) then Some ToPci else None) with
    | Some tg => n ← pci_width x; Some (tg, n)
    | None => if within bar0 (u32 (bar0 + 7)) x then
          if single 2 x then Some (ToHdd, 2%nat)
          else if single 1 x then Some (ToHdd, 1%nat) else None
        else if within bar1 (u32 (bar1 + 1)) x then Some (ToHdd, 1%nat) else None
    end = Some (tg, n) → (tg = ToHdd ∧ (n = 1%nat ∨ n = 2%nat)) ∨
      (tg = ToPci ∧ pci_host.host_port (port x) ∧ (n = 1%nat ∨ n = 2%nat ∨ n = 4%nat))) as Hrest.
  { destruct (within 0xcfc 0xcff x || _) eqn:Hp.
    - destruct (pci_width x) as [k|] eqn:Hk; [|done]. intros [= <- <-]. auto 6.
    - repeat case_match; intros; simplify_eq; auto. }
  destruct (single 1 x); [|auto].
  repeat match goal with |- context [if ?b then Some _ else _] =>
    destruct b; [intros H; left; eapply Hb; [|exact H]; by split|] end. auto.
Qed.

(** An access to one of the devices that take bytes; [device] concludes from the
    totality of its operation. *)
Ltac device H Hm :=
  let v := fresh in let d := fresh in let ev := fresh in
  destruct H as (v & d & ev & ? & ?); do 3 eexists; split; [by apply zoom_done|];
  by destruct Hm; split.

Lemma perform_byte_total n m tg a :
  wf n m → byte_target tg → match a with WriteByte _ v => is_u8 v | _ => True end →
  ∃ v m' ev, perform tg a m = Done (v, m', ev) ∧ wf n m'.
Proof.
  intros Hm [Hp Hh] Ha.
  destruct tg; try done; cbn [perform].
  - device (keyb_access_total a (keyb m) (wf_keyb _ _ Hm)) Hm.
  - assert (match a with WriteByte _ v => is_u8 v | _ => True end) as Ha' by by destruct a.
    device (vga_access_total a (vga m) (wf_vga _ _ Hm) Ha') Hm.
  - device (com_access_total a (com1 m) (wf_com1 _ _ Hm)) Hm.
  - device (com_access_total a (com2 m) (wf_com2 _ _ Hm)) Hm.
  - device (com_access_total a (com3 m) (wf_com3 _ _ Hm)) Hm.
  - device (com_access_total a (com4 m) (wf_com4 _ _ Hm)) Hm.
Qed.

Lemma io_total n m x :
  wf n m → valid_io x →
  match disk_fault m x with
  | Some h => handle_io x m = Halt h
  | None => ∃ page m' ev, handle_io x m = Done (page, m', ev) ∧ wf n m' ∧
                          length page = length (data x)
  end.
Proof.
  intros Hm Hx. rewrite handle_io_spec. unfold io_spec, disk_fault.
  assert (∃ page m' ev, Done (data x, m, []) = @Done (list Z * t * list event) (page, m', ev) ∧
    wf n m' ∧ length page = length (data x)) as Hnone by by exists (data x), m, [].
  destruct (machine_route m x) as [[tg k]|] eqn:Hr; [|done].
  apply route_cases in Hr.
  destruct (access_of k x) as [a|] eqn:Ha; [|by destruct tg].
  destruct (access_of_facts k x a Hx Ha) as (Hoff & Hwid & Hval).
  { destruct Hr as [[_ ->]|[[_ Hk]|(_ & _ & Hk)]]; [|destruct Hk|]; auto. }
  assert (∀ r : outcome (Z * t * list event), (∃ v m' ev, r = Done (v, m', ev) ∧ wf n m') →
    ∃ page m' ev, match r with
      | Done (v, m', ev) => Done (page_after k v x, m', ev) | Halt h => Halt h end =
      Done (page, m', ev) ∧ wf n m' ∧ length page = length (data x)) as Hdone.
  { intros r (v & m' & ev & -> & Hm'). do 3 eexists. split; [done|]. split; [done|].
    apply length_page_after. }
  destruct Hr as [[Htg _]|[[-> Hk]|(-> & Hp & _)]].
  - pose proof (Hdone _ (perform_byte_total n m tg a Hm Htg ltac:(by destruct a))) as H.
    by destruct tg; try (by destruct Htg).
  - assert (HardDisk.valid (hdd_op (ata m) a)) as Hv by (destruct a; cbn in *; done || lia).
    pose proof (perform_hdd_total n m a Hm ltac:(lia) Hv) as Ht.
    destruct (HardDisk.fault _ _); [by rewrite Ht|]. by apply Hdone.
  - apply Hdone, perform_pci_total; [done|]. unfold pci_host.valid. by rewrite Hoff.
Qed.

(** What a served exit leaves alone: the debugger's side, which holds the guest's memory,
    and the console. *)
Lemma perform_frame tg a m v m' ev :
  perform tg a m = Done (v, m', ev) →
  gdb m' = gdb m ∧ debug_mode m' = debug_mode m ∧ console_out m' = console_out m ∧
  (tg ≠ ToHdd → hdd m' = hdd m).
Proof.
  destruct tg; cbn [perform];
    unfold on_keyb, on_vga, on_com1, on_com2, on_com3, on_com4, on_pci, on_hdd, zoom;
    repeat case_match; intros; simplify_eq; split_and!; done.
Qed.

Lemma handle_io_frame m x page m' ev :
  handle_io x m = Done (page, m', ev) → gdb m' = gdb m ∧ debug_mode m' = debug_mode m.
Proof.
  rewrite handle_io_spec. unfold io_spec.
  destruct (machine_route m x) as [[tg k]|]; [|by intros [= <- <- <-]].
  destruct (access_of k x) as [a|]; [|by intros [= <- <- <-]].
  destruct (perform tg a m) as [[[v m1] ev1]|] eqn:Hp; [|done]. intros [= <- <- <-].
  by destruct (perform_frame _ _ _ _ _ _ Hp) as (Hg & Hd & _).
Qed.

(** ** The line of the keyboard

No other device makes requests on line 1. *)

Lemma disk_read_emits P buf i : emits P (DiskManager.read buf i).
Proof. unfold DiskManager.read, DiskManager.check_consistency. emits_tac. Qed.

Lemma disk_write_emits P buf i : emits P (DiskManager.write buf i).
Proof. unfold DiskManager.write, DiskManager.check_consistency. emits_tac. Qed.

Lemma backend_emits : emits (off_line 1) HardDisk.read_from_backend.
Proof.
  unfold HardDisk.read_from_backend, HardDisk.raise_interrupt, HardDisk.on_disk, HardDisk.set_IRQline.
  pose proof (disk_read_emits (off_line 1)). emits_tac.
Qed.

Lemma write_BR_emits v : emits (off_line 1) (HardDisk.write_BR_register v).
Proof.
  unfold HardDisk.write_BR_register, HardDisk.store_byte, HardDisk.flush_sector,
    HardDisk.raise_interrupt, HardDisk.on_disk, HardDisk.set_IRQline.
  pose proof (disk_write_emits (off_line 1)). emits_tac.
Qed.

Lemma read_BR_emits : emits (off_line 1) HardDisk.read_BR_register.
Proof.
  unfold HardDisk.read_BR_register, HardDisk.new_buffer_get.
  pose proof backend_emits. emits_tac.
Qed.

Lemma hdd_emits regs a : emits (off_line 1) (PCI_ATA.bridge_access (D := HardDisk.t) regs a).
Proof.
  pose proof backend_emits. pose proof write_BR_emits. pose proof read_BR_emits.
  destruct a; cbn [PCI_ATA.bridge_access];
    unfold PCI_ATA.write_reg_byte, PCI_ATA.write_reg_word, PCI_ATA.write_reg_long,
      PCI_ATA.read_reg_byte, PCI_ATA.read_reg_word, PCI_ATA.read_reg_long;
    cbn [dev_write_byte dev_write_word dev_write_long dev_read_byte dev_read_word dev_read_long
         HardDisk.ops];
    unfold HardDisk.write_reg_byte, HardDisk.read_reg_byte, HardDisk.write_reg_word,
      HardDisk.read_reg_word, HardDisk.process_cmd, HardDisk.set_IRQline,
      IODevice.write_reg_long, IODevice.read_reg_long; emits_tac.
Qed.

Lemma call_emits {A} P p (m : io PCIDevice.t A) : emits P m → emits P (pci_host.call p m).
Proof.
  intros Hm b a b' ev. unfold pci_host.call. destruct (_ !! p) as [o|]; [|done].
  destruct (m o) as [[[r o'] ev1]|] eqn:E; [|done]. intros [= <- <- <-]. by eapply Hm.
Qed.

Lemma with_function_emits {A} P other (absent : A) m :
  (∀ p, emits P (m p)) → emits P (pci_host.with_function other absent m).
Proof. intros Hm. unfold pci_host.with_function. emits_tac. Qed.

Lemma pci_emits P a : emits P (dev_access (D := pci_host.bus) a).
Proof.
  destruct a; cbn; unfold pci_host.write_reg_byte, pci_host.write_reg_word,
    pci_host.write_reg_long, pci_host.read_reg_byte, pci_host.read_reg_word,
    pci_host.read_reg_long, pci_host.prepare_data;
  repeat first [case_match|apply emits_bind; intros|apply emits_ret|apply emits_get
    |apply emits_modify|apply with_function_emits; intros|apply call_emits];
    unfold PCIDevice.write_reg_byte_PCI, PCIDevice.write_reg_word_PCI,
      PCIDevice.write_reg_long_PCI, PCIDevice.read_reg_byte_PCI, PCIDevice.read_reg_word_PCI,
      PCIDevice.read_reg_long_PCI, PCIDevice.store, PCIDevice.load; emits_tac.
Qed.

Lemma vga_emits P a : emits P (dev_access (D := VGAController.t) a).
Proof.
  destruct a; cbn; unfold VGAController.write_reg_byte, VGAController.read_reg_byte,
    IODevice.write_reg_word, IODevice.write_reg_long, IODevice.read_reg_word,
    IODevice.read_reg_long; emits_tac.
Qed.

Lemma com_emits a : emits (off_line 1) (com_access a).
Proof.
  destruct a; cbn; unfold serial_port.step, serial_port.write_reg_byte, serial_port.read_reg_byte;
    emits_tac.
Qed.

Lemma perform_emits tg a : tg ≠ ToKeyb → emits (off_line 1) (perform tg a).
Proof.
  intros Htg. destruct tg; try done; cbn [perform];
    try (apply emits_zoom; first [apply vga_emits|apply com_emits|apply pci_emits]; fail).
  intros m v m' ev. exact (emits_zoom _ _ _ _ (hdd_emits (ata m) a) m v m' ev).
Qed.

(** ** Interleavings of the exits and of the console thread *)

Inductive op : Type := Exit (x : io_exit) | Insert (keycode : Z).

Definition step (o : op) : io t (list Z) :=
  match o with
  | Exit x => handle_io x
  | Insert k => on_console (ConsoleInput.insert_keycode_event k);; mret []
  end.

(** The operation on the keyboard. *)
Definition keyb_op (o : op) : option keyboard.op :=
  match o with
  | Insert k => Some (keyboard.Insert k)
  | Exit x =>
      if single 1 x && ((port x =? 0x60) || (port x =? 0x64)) then
        if direction x =? KVM_EXIT_IO_OUT then Some (keyboard.Write (port x) (operand 1 x))
        else if direction x =? KVM_EXIT_IO_IN then Some (keyboard.Read (port x)) else None
      else None
  end.

(** The result of an operation on the keyboard is what the guest finds in the page. *)
Definition answer (o : op) (page : list Z) (r : Z) : Prop :=
  match o with Exit x => page = page_after 1 r x | Insert _ => True end.

Fixpoint answers (ops : list op) (pages : list (list Z)) (rs : list Z) : Prop :=
  match ops, pages with
  | o :: ops, page :: pages =>
      match keyb_op o with
      | None => answers ops pages rs
      | Some _ =>
          match rs with r :: rs => answer o page r ∧ answers ops pages rs | [] => False end
      end
  | [], [] => rs = []
  | _, _ => False
  end.

Lemma keyb_route m x tg n :
  machine_route m x = Some (tg, n) →
  tg = ToKeyb ↔ single 1 x && ((port x =? 0x60) || (port x =? 0x64)) = true.
Proof.
  unfold machine_route, route. rewrite find_byte_port, find_pci_port.
  destruct (single 1 x); cbn [andb];
    [destruct ((port x =? 0x60) || (port x =? 0x64)); [by intros [= <- <-]|]|];
    destruct (within 0xcfc 0xcff x || _), (pci_width x); cbn; intros;
    repeat case_match; simplify_eq; by split.
Qed.

Lemma keyb_unrouted m x :
  machine_route m x = None → single 1 x && ((port x =? 0x60) || (port x =? 0x64)) = false.
Proof.
  unfold machine_route, route. rewrite find_byte_port, find_pci_port.
  destruct (single 1 x); [|done]. cbn [andb].
  by destruct ((port x =? 0x60) || (port x =? 0x64)).
Qed.

(** The other devices leave the keyboard and the console alone. *)
Lemma perform_keeps tg a m v m' ev :
  tg ≠ ToKeyb → perform tg a m = Done (v, m', ev) →
  keyb m' = keyb m ∧ console_in m' = console_in m.
Proof.
  intros Htg. destruct tg; try done; cbn [perform];
    unfold on_vga, on_com1, on_com2, on_com3, on_com4, on_pci, on_hdd, zoom;
    repeat case_match; intros; simplify_eq; done.
Qed.

Lemma step_projects o m page m' ev :
  ConsoleInput.attached_keyboard (console_in m) = true → step o m = Done (page, m', ev) →
  ConsoleInput.attached_keyboard (console_in m') = true ∧
  match keyb_op o with
  | None => keyb m' = keyb m ∧ line_events 1 ev = []
  | Some ko => ∃ r, keyboard.step ko (keyb m) = Done (r, keyb m', ev) ∧ answer o page r
  end.
Proof.
  intros Ha. destruct o as [x|k]; cbn [step keyb_op answer].
  - rewrite handle_io_spec. unfold io_spec.
    destruct (machine_route m x) as [[tg n]|] eqn:Hr.
    2: { rewrite (keyb_unrouted m x) by done. by intros [= <- <- <-]. }
    pose proof (route_cases _ _ _ _ _ Hr) as Hcases.
    apply keyb_route in Hr. destruct (decide (tg = ToKeyb)) as [->|Htg].
    + rewrite (proj1 Hr) by done. assert (n = 1%nat) as ->.
      { destruct Hcases as [[_ ?]|[[? _]|[? _]]]; done. }
      unfold access_of. cbn [perform]. unfold on_keyb, zoom.
      destruct (direction x =? KVM_EXIT_IO_OUT); [|destruct (direction x =? KVM_EXIT_IO_IN)].
      * intros H. repeat case_match; simplify_eq. split; [done|]. eexists. by split.
      * intros H. repeat case_match; simplify_eq. split; [done|]. eexists. by split.
      * by intros [= <- <- <-].
    + assert (single 1 x && ((port x =? 0x60) || (port x =? 0x64)) = false) as ->.
      { destruct (single 1 x && _); [|done]. by destruct Htg, Hr; auto. }
      destruct (access_of n x) as [a|]; [|by intros [= <- <- <-]].
      destruct (perform tg a m) as [[[v m1] ev1]|] eqn:Hp; [|done]. intros [= <- <- <-].
      destruct (perform_keeps _ _ _ _ _ _ Htg Hp) as [Hk Hc]. rewrite Hc.
      split; [done|]. split; [done|]. apply line_events_off.
      by apply (perform_emits tg a Htg m v m1).
  - unfold on_console, ConsoleInput.insert_keycode_event, keyboard.step, zoom.
    unfold mbind, io_bind. cbn [get ConsoleInput.console]. rewrite Ha. cbn [ConsoleInput.keyb].
    destruct (keyboard.insert_keycode_event k (keyb m)) as [[[[] d] ev1]|]; [|done].
    intros [= <- <- <-]. split; [done|]. exists 0. split; [|done]. cbn. by rewrite !app_nil_r.
Qed.

Lemma run_projects ops m pages m' ev :
  ConsoleInput.attached_keyboard (console_in m) = true →
  run step ops m = Done (pages, m', ev) →
  ∃ rs kev, run keyboard.step (omap keyb_op ops) (keyb m) = Done (rs, keyb m', kev) ∧
    line_events 1 ev = line_events 1 kev ∧ answers ops pages rs.
Proof.
  revert m pages m' ev. induction ops as [|o ops IH]; intros m pages m' ev Ha.
  { intros [= <- <- <-]. by exists [], []. }
  rewrite run_cons. destruct (step o m) as [[[pg m1] ev1]|] eqn:Ho; [|done].
  destruct (run step ops m1) as [[[pgs m2] ev2]|] eqn:Hrun; [|done]. intros [= <- <- <-].
  destruct (step_projects o m pg m1 ev1 Ha Ho) as [Ha1 Hp].
  destruct (IH m1 pgs m2 ev2 Ha1 Hrun) as (rs & kev & Hk & He & Hans).
  rewrite line_events_app, He. cbn [omap list_omap answers].
  destruct (keyb_op o) as [ko|].
  - destruct Hp as (r & Hko & Hr). exists (r :: rs), (ev1 ++ kev).
    rewrite run_cons, Hko, Hk, line_events_app. done.
  - destruct Hp as [Hkm ->]. exists rs, kev. rewrite <- Hkm. done.
Qed.

(** C3. The chain of port tests of the exit loop is the routing table [machine_route]: an
    access goes to exactly the device and width the table gives for its port, size, count
    and the two base registers of the ATA bridge, with its operand cut to that width, and an
    access the table does not know changes nothing. *)
Theorem io_routes (x : io_exit) (m : t) : handle_io x m = io_spec x m.
Proof. apply handle_io_spec. Qed.

(** C2. In a well-formed machine every I/O exit of the guest, of 1, 2 or 4 bytes at any
    port, in either direction and with any operand, is served without a fault, keeps the
    machine well formed and leaves the operand page at its length, with the one exception
    that [disk_fault] names exactly and that halts the supervisor: a disk access that
    dereferences an unset or exhausted sector buffer, or that transfers a sector when the
    counter of the sectors is already the greatest int. *)
Theorem io_safe (n : Z) (m : t) (x : io_exit) (Hm : wf n m) (Hx : valid_io x) :
  match disk_fault m x with
  | Some h => handle_io x m = Halt h
  | None => ∃ page m' ev, handle_io x m = Done (page, m', ev) ∧ wf n m' ∧
                          length page = length (data x)
  end.
Proof. by apply io_total. Qed.

(** C6. Whatever I/O exits the guest makes, to any device, and however the keystrokes of the
    console thread interleave with them, from a keyboard in its initial state that the
    console is attached to and as long as no access faults, the guest observes through its
    ports the bounded queue: every byte it reads from ports 0x60 and 0x64 and the level of
    interrupt line 1 are those of the abstract keyboard run on the keyboard's own operations
    alone. *)
Theorem machine_keyboard (ops : list op) (m : t) (pages : list (list Z)) (m' : t)
    (ev : list event)
    (Ha : ConsoleInput.attached_keyboard (console_in m) = true)
    (Hk : keyb m = keyboard.init) (Hrun : run step ops m = Done (pages, m', ev)) :
  let '(rs, q, kev) := keyboard.spec_run (omap keyb_op ops) keyboard.queue_init in
  keyboard.abs (keyb m') = q ∧ answers ops pages rs ∧
  line_level 1 0 ev = line_level 1 0 kev.
Proof.
  destruct (run_projects ops m pages m' ev Ha Hrun) as (rs & kev & Hkrun & Hev & Hans).
  rewrite Hk in Hkrun.
  pose proof (keyboard.run_refines_from (omap keyb_op ops) _ keyboard.init_wf) as Hspec.
  change (keyboard.abs keyboard.init) with keyboard.queue_init in Hspec.
  destruct (keyboard.spec_run _ _) as [[rs' q] kev'].
  destruct Hspec as (d & Hd & _ & <-). rewrite Hkrun in Hd. injection Hd as <- <- <-.
  split; [done|]. split; [done|].
  by rewrite <- line_level_events, Hev, line_level_events.
Qed.

(** ** The start of the machine *)

(** The global objects before [initIO]: the serial ports do not exist yet, and [c]
    stands for them. *)
Definition power_on (c : serial_port.t) (h : HardDisk.t) (g : gdbserver.t) (debug : bool) : t :=
  mk (ConsoleInput.init 0) ConsoleOutput.init keyboard.init VGAController.init c c c c pci_host.kvm_bus h g
    debug.

(** An exit that writes the address register of the bridge. *)
Definition address_write (x : io_exit) : Prop :=
  port x = pci_host.CAP_addr ∧ size x = 4 ∧ direction x = KVM_EXIT_IO_OUT.

(** The machine that [initIO] leaves. *)
Definition ready (h : HardDisk.t) (g : gdbserver.t) (debug : bool) (dev nbus fn off : Z) : t :=
  mk (ConsoleInput.connected 0) (ConsoleOutput.painting_at (Some video_memory)) keyboard.init (VGAController.mk 0 0 0 0 (Some video_memory))
    (serial_port.init 0x3f8) (serial_port.init 0x2f8) (serial_port.init 0x3e8)
    (serial_port.init 0x2e8) (pci_host.constructed dev nbus fn off) h g debug.

Lemma initIO_run c h g debug dev nbus fn off :
  initIO dev nbus fn off (power_on c h g debug) = Done (tt, ready h g debug dev nbus fn off, []).
Proof.
  assert (pci_host.construct dev nbus fn off pci_host.kvm_table pci_host.kvm_bus =
    Done (tt, pci_host.constructed dev nbus fn off, [])) as Hc by (vm_compute; reflexivity).
  unfold initIO. erewrite bind_quiet by reflexivity. erewrite bind_quiet by reflexivity.
  erewrite bind_quiet by (apply zoom_done; exact Hc). reflexivity.
Qed.

(** Exits on the ports of the bridge. *)
Lemma pci_exit_run m x n a :
  find_port byte_ports x = None → find_port pci_ports x = Some ToPci →
  pci_width x = Some n → access_of n x = Some a →
  handle_io x m =
    match dev_access a (pci m) with
    | Done (v, b, ev) => Done (page_after n v x, m <| pci := b |>, ev)
    | Halt h => Halt h
    end.
Proof.
  intros Hb Hp Hw Ha. rewrite handle_io_spec. unfold io_spec, machine_route, route.
  rewrite Hb, Hp, Hw. replace (if single 1 x then None else None) with (@None target)
    by by destruct (single 1 x). cbn [mbind option_bind]. rewrite Ha. cbn [perform].
  unfold on_pci, zoom. by destruct (dev_access a (pci m)) as [[[v b] ev]|].
Qed.

Lemma address_write_run m x :
  address_write x →
  ∃ v, handle_io x m =
    match dev_access (WriteLong pci_host.CAP_addr v) (pci m) with
    | Done (_, b, ev) => Done (data x, m <| pci := b |>, ev)
    | Halt h => Halt h
    end.
Proof.
  intros (Hp & Hs & Hd). exists (operand 4 x).
  assert (∀ n v, page_after n v x = data x) as Hpage by (intros; unfold page_after; by rewrite Hd).
  rewrite (pci_exit_run m x 4 (WriteLong pci_host.CAP_addr (operand 4 x))).
  - match goal with |- context [@dev_access ?D ?i ?a (pci m)] =>
      destruct (@dev_access D i a (pci m)) as [[[v b] ev]|] end; [by rewrite Hpage|done].
  - rewrite find_byte_port. unfold within. by rewrite Hp.
  - rewrite find_pci_port. unfold within. by rewrite Hp.
  - unfold pci_width. by rewrite Hs.
  - unfold access_of. by rewrite Hd, Hp.
Qed.

(** The guest's first write of the PCI address register. *)
Lemma first_address_write n h g debug dev nbus fn off x :
  HardDisk.wf n h → address_write x →
  let m := ready h g debug dev nbus fn off in
  ∃ b, handle_io x m = Done (data x, m <| pci := b |>, []) ∧ wf n (m <| pci := b |>).
Proof.
  intros Hh Hw m. destruct (address_write_run m x Hw) as [v ->].
  destruct (pci_host.cap_access_run (WriteLong pci_host.CAP_addr v)
    (pci_host.constructed dev nbus fn off) eq_refl (pci_host.constructed_wf dev nbus fn off))
    as (r & b & Hr & Hb & _ & Hsel).
  change (pci m) with (pci_host.constructed dev nbus fn off).
  rewrite Hr. exists b. split; [reflexivity|].
  pose proof keyboard.init_wf as Hk.
  assert (VGAController.wf (VGAController.mk 0 0 0 0 (Some video_memory))) as Hv.
  { split; cbn; unfold is_u8; lia. }
  pose proof (Hsel v eq_refl) as Hs.
  assert (pci_host.devices (pci_host.host b) !! 0%nat = Some (Some 0%nat)) as Ht.
  { assert (pci_host.devices (pci_host.host b) = pci_host.kvm_table) as ->; [|done].
    rewrite <- (pci_host.constructed_devices dev nbus fn off). revert Hr.
    generalize (pci_host.constructed dev nbus fn off). by intros b0 [= _ <-]. }
  split; first [apply serial_port.port_init_wf; lia|assumption].
Qed.

(** The start of the devices succeeds, gives the display its memory, starts the console's
    event thread, and the guest's first write of the PCI address register makes the whole
    machine well formed. *)
Theorem machine_ready (n : Z) (c : serial_port.t) (h : HardDisk.t) (g : gdbserver.t)
    (debug : bool) (dev nbus fn off : Z) (Hh : HardDisk.wf n h) :
  ∃ m, initIO dev nbus fn off (power_on c h g debug) = Done (tt, m, []) ∧
    VGAController.getVMem (vga m) = Some video_memory ∧
    ConsoleOutput._videoMatrix (console_out m) = VGAController.getVMem (vga m) ∧
    ConsoleInput.thread (console_in m) = true ∧
    ConsoleOutput._videoThread (console_out m) = true ∧
    ∀ x, valid_io x → address_write x →
      ∃ m', handle_io x m = Done (data x, m', []) ∧ wf n m'.
Proof.
  eexists. split; [exact (initIO_run c h g debug dev nbus fn off)|].
  do 4 (split; [done|]). intros x _ Hw.
  destruct (first_address_write n h g debug dev nbus fn off x Hh Hw) as (b & Hrun & Hwf).
  by eexists.
Qed.

(** ** Moving the hard disk *)

Lemma bridge_at regs a d :
  PCI_ATA.bridge_access (D := HardDisk.t) regs a d =
  dev_access (PCI_ATA.at_port a (PCI_ATA.translate regs (PCIDevice.access_offset a))) d.
Proof. by destruct a. Qed.

(** A single operand of one or two bytes. *)
Definition hdd_width (w : nat) (x : io_exit) : Prop :=
  (w = 1%nat ∧ single 1 x = true) ∨ (w = 2%nat ∧ single 2 x = true).

Lemma singles x : single 1 x = true → single 2 x = false.
Proof. unfold single. destruct (size x =? 2) eqn:H; [|done]. apply Z.eqb_eq in H. by rewrite H. Qed.

Lemma access_of_port n x a :
  access_of n x = Some a → PCIDevice.access_offset a = port x.
Proof.
  unfold access_of. destruct (direction x =? KVM_EXIT_IO_OUT);
    [|destruct (direction x =? KVM_EXIT_IO_IN); [|done]]; intros [= <-];
    destruct n as [|[|[|]]]; done.
Qed.

Lemma hdd_exit_run m x w a i :
  let bar0 := PCIDevice.getBar 0 (ata m) in
  0 ≤ bar0 < 65536 - 7 → 0 ≤ i ≤ 7 → port x = bar0 + i →
  find_port byte_ports x = None → find_port pci_ports x = None → hdd_width w x →
  access_of w x = Some a →
  handle_io x m =
    match dev_access (PCI_ATA.at_port a (0x01F0 + i)) (hdd m) with
    | Done (v, d, ev) => Done (page_after w v x, m <| hdd := d |>, ev)
    | Halt h => Halt h
    end.
Proof.
  intros bar0 Hbar Hi Hport Hb Hp Hw Ha. rewrite handle_io_spec.
  assert (within bar0 (u32 (bar0 + 7)) x = true) as Hin.
  { unfold within. rewrite Hport, u32_id by (unfold is_u32; lia). lia. }
  assert (machine_route m x = Some (ToHdd, w)) as Hr.
  { unfold machine_route, route. fold bar0. rewrite Hb, Hp, Hin.
    replace (if single 1 x then None else None) with (@None target) by by destruct (single 1 x).
    destruct Hw as [[-> Hs]|[-> Hs]]; rewrite Hs; [by rewrite singles|done]. }
  unfold io_spec. rewrite Hr, Ha. cbn [perform]. unfold on_hdd, zoom.
  rewrite bridge_at, (access_of_port w x a Ha), Hport.
  assert (bar0 = u16 (PCIDevice.getBar 0 (ata m))) as Hu.
  { fold bar0. unfold u16. rewrite Z.mod_small; lia. }
  rewrite Hu, PCI_ATA.translate_command by done.
  by destruct (dev_access _ (hdd m)) as [[[v d] ev]|].
Qed.

(** The two exits of a configuration cycle that writes [v] to a register of the ATA
    function. *)
Definition config_write (off v : Z) : list io_exit :=
  [ mk_io KVM_EXIT_IO_OUT 4 0xcf8 1 (le_bytes 4 (pci_host.address 0 0 0 off));
    mk_io KVM_EXIT_IO_OUT 4 0xcfc 1 (le_bytes 4 v) ].

Lemma run_pci_exits m xs accs rs b :
  Forall2 (λ x a, find_port byte_ports x = None ∧ find_port pci_ports x = Some ToPci ∧
    pci_width x = Some 4%nat ∧ direction x = KVM_EXIT_IO_OUT ∧ access_of 4 x = Some a) xs accs →
  run dev_access accs (pci m) = Done (rs, b, []) →
  run handle_io xs m = Done (data <$> xs, m <| pci := b |>, []).
Proof.
  intros Hxs. revert m rs b. induction Hxs as [|x a xs accs (Hb & Hp & Hw & Hd & Ha) _ IH];
    intros m rs b.
  { intros [= <- <-]. cbn. by destruct m. }
  rewrite !run_cons. rewrite (pci_exit_run m x 4 a) by done.
  destruct (dev_access a (pci m)) as [[[v b1] ev1]|]; [|done].
  specialize (IH (m <| pci := b1 |>)).
  change (pci (m <| pci := b1 |>)) with b1 in IH.
  destruct (run dev_access accs b1) as [[[rs1 b2] ev2]|]; [|done]. intros [= <- <- Hev].
  apply app_nil in Hev as [-> ->]. rewrite (IH rs1 b2) by done.
  unfold page_after. rewrite Hd. cbn. by destruct m.
Qed.

Lemma operand_le_bytes d p c v : is_u32 v → operand 4 (mk_io d 4 p c (le_bytes 4 v)) = v.
Proof.
  intros Hv. unfold operand. cbn [data]. rewrite take_ge by (by rewrite length_le_bytes).
  rewrite le_val_bytes. by apply Z.mod_small.
Qed.

(** The object of the ATA function. *)
Lemma ata_object n m :
  wf n m → pci_host.objects (pci m) !! 0%nat = Some (ata m) ∧ PCIDevice.wf (ata m).
Proof.
  intros Hm. pose proof (pci_host.wf_pointers _ (wf_pci _ _ Hm)) as Hp.
  pose proof (Forall_lookup_1 _ _ _ _ Hp (wf_ata _ _ Hm)) as Hlt. cbn in Hlt.
  pose proof (pci_host.wf_objects _ (wf_pci _ _ Hm)) as Ho. unfold ata.
  destruct (pci_host.objects (pci m)) as [|o os]; [cbn in Hlt; lia|].
  split; [done|]. by apply Forall_cons in Ho as [Ho _].
Qed.

Lemma bar_write_run n m v :
  wf n m → is_u32 v →
  ∃ m', run handle_io (config_write 0x10 v) m = Done (data <$> config_write 0x10 v, m', []) ∧
    wf n m' ∧ hdd m' = hdd m ∧ PCIDevice.getBar 0 (ata m') = v.
Proof.
  intros Hm Hv. destruct (ata_object n m Hm) as [Hobj Hwo].
  set (a := WriteLong 0xCFC v). set (s := pci_host.select 0 0 0 0x10 (pci m)).
  destruct (pci_host.cycle_run (pci m) 0 0 0 0x10 a) as [Hrun Hwf];
    [apply Hm|unfold is_u8; lia|lia|lia|unfold is_u8; lia|unfold pci_host.data_port; cbn; lia|].
  fold s in Hrun, Hwf.
  assert (pci_host.current s = Some 0%nat) as Hcur.
  { change (pci_host.current s) with
      (match pci_host.devices (pci_host.host (pci m)) !! 0%nat with
       | Some (Some p) => Some p | _ => None end). by rewrite (wf_ata _ _ Hm). }
  assert ((pci_host.data_spec a s).2 =
    pci_host.mk_bus (pci_host.host s)
      (<[0%nat := PCIDevice.set_field 4 0x10 v (ata m)]> (pci_host.objects (pci m)))) as Hspec.
  { unfold pci_host.data_spec. rewrite Hcur. cbn [pci_host.is_word_read andb a].
    change (pci_host.objects s) with (pci_host.objects (pci m)). by rewrite Hobj. }
  exists (m <| pci := (pci_host.data_spec a s).2 |>). split_and!.
  - eapply (run_pci_exits m _ (pci_host.cycle 0 0 0 0x10 a)); [|exact Hrun].
    assert (is_u32 (pci_host.address 0 0 0 0x10)) as Haddr by (split; vm_compute; congruence).
    repeat constructor; unfold access_of;
      cbn [direction port KVM_EXIT_IO_OUT Z.eqb Pos.eqb]; by rewrite operand_le_bytes.
  - rewrite Hspec in Hwf |- *. by destruct Hm; split.
  - done.
  - rewrite Hspec. unfold ata at 1. cbn [pci upd pci_host.objects].
    destruct (pci_host.objects (pci m)) as [|o os]; [done|]. cbn [insert list_insert nth].
    unfold PCIDevice.getBar. cbn [Z.ltb Z.compare orb Pos.compare Pos.compare_cont].
    change (PCIDevice.BAR 0) with 0x10. rewrite PCIDevice.field_set_eq;
      [by apply Z.mod_small|done|unfold PCIDevice.fits; lia].
Qed.

(** C12. After the guest writes base register 0 of the ATA bridge through the PCI
    configuration ports, with any base below 65529, the disk's command block answers at the
    new ports: an access to port base+i that no fixed device claims behaves as the drive's
    own register 0x1F0+i, whatever the drive's state. *)
Theorem hdd_moves (n : Z) (m : t) (base : Z) (Hm : wf n m) (Hbase : 0 ≤ base < 65536 - 7) :
  ∃ m', run handle_io (config_write 0x10 base) m =
      Done (data <$> config_write 0x10 base, m', []) ∧ wf n m' ∧ hdd m' = hdd m ∧
    ∀ x w a i, 0 ≤ i ≤ 7 → port x = base + i →
      find_port byte_ports x = None → find_port pci_ports x = None →
      hdd_width w x → access_of w x = Some a →
      handle_io x m' =
        match dev_access (PCI_ATA.at_port a (0x01F0 + i)) (hdd m') with
        | Done (v, d, ev) => Done (page_after w v x, m' <| hdd := d |>, ev)
        | Halt h => Halt h
        end.
Proof.
  destruct (bar_write_run n m base Hm) as (m' & Hrun & Hm' & Hh & Hbar); [unfold is_u32; lia|].
  exists m'. split; [done|]. split; [done|]. split; [done|].
  intros x w a i Hi Hp Hb Hpci Hw Ha. by apply hdd_exit_run; rewrite ?Hbar.
Qed.

(** ** The size of the memory *)

Lemma memory_size_bounds (memsize : Z) :
  let s := guest_memory_size memsize in
  s mod 2 ^ 21 = 0 ∧ 8388608 ≤ s ≤ 2 ^ 30 ∧
  (8 ≤ memsize < 1024 → s = (memsize + memsize mod 2) * 2 ^ 20) ∧
  (0 ≤ memsize < 8 ∨ 1024 ≤ memsize < 4294967296 → s = default_memory_size).
Proof.
  unfold guest_memory_size, default_memory_size.
  assert (Z.land (u32 memsize) 1 = u32 memsize mod 2) as ->.
  { change 1 with (2 ^ 1 - 1) at 1. by rewrite land_ones_mod by lia. }
  pose proof (u32_range memsize) as Hr. unfold is_u32 in Hr.
  assert (0 ≤ memsize < 4294967296 → u32 memsize = memsize) as Hid by apply u32_id.
  destruct (Z.leb_spec 8 (u32 memsize)), (Z.ltb_spec (u32 memsize) 1024); cbn [andb];
    try (split_and!; [reflexivity|lia|lia|intros; lia|intros; lia]).
  all: try (split_and!; [reflexivity|lia|intros; lia|reflexivity]).
  destruct (Z.eqb_spec (u32 memsize mod 2) 0); unfold u32 at 1 2 3 4;
    split_and!; intros; try (rewrite Hid in * by lia); unfold u32 in *; Z.div_mod_to_equations; lia.
Qed.

(** Whatever the configured number of mebibytes, the guest's memory is between 8 MiB and 1
    GiB and a multiple of 2 MiB: an accepted odd number is rounded up and any other is
    replaced by the default. *)
Theorem memory_size (memsize : Z) :
  let s := guest_memory_size memsize in
  s mod 2 ^ 21 = 0 ∧ 8388608 ≤ s ≤ 2 ^ 30 ∧
  (8 ≤ memsize < 1024 → s = (memsize + memsize mod 2) * 2 ^ 20) ∧
  (0 ≤ memsize < 8 ∨ 1024 ≤ memsize < 4294967296 → s = default_memory_size).
Proof. apply memory_size_bounds. Qed.

(** ** The debug stub *)

(** The caches as the client sees them: the registers of the protocol and the
    extended ones. *)
Definition cached (r : kvm_regs) (sr : kvm_sregs) (pc : Z) : list Z :=
  [rax r; rbx r; rcx r; rdx r; rsi r; rdi r; rbp r; rsp r; r8 r; r9 r; r10 r; r11 r; r12 r;
   r13 r; r14 r; r15 r; pc; rflags r; cs sr; ss sr; ds sr; es sr; fs sr; gs sr].
Definition cached_extended (sr : kvm_sregs) : list Z := [cr4 sr; cr3 sr; cr2 sr; cr0 sr; efer sr].

(** The registers in the cache of the debug stub. *)
Lemma submit_run r sr s :
  length (gdbserver.registers s) = 24%nat → length (gdbserver.extended_registers s) = 5%nat →
  gdb_submit_registers (Some r) (Some sr) s =
  Done (tt, gdbserver.mk (gdbserver.input s) (gdbserver.remcomInBuffer s)
    (gdbserver.remcomOutBuffer s) (gdbserver.remote_debug s) (cached r sr (rip r))
    (cached_extended sr) (gdbserver.memory s) (gdbserver.guest_debug s) (gdbserver.requests s), []).
Proof.
  destruct s as [inp ib ob rd regs ext gm gd rq]. cbn. intros Hr He.
  do 24 (destruct regs as [|? regs]; [discriminate|]). destruct regs; [|discriminate].
  do 5 (destruct ext as [|? ext]; [discriminate|]). destruct ext; [|discriminate].
  vm_compute. reflexivity.
Qed.

(** The registers submitted to the debugger's cache, with the program counter corrected, are
    those loaded back into the virtual CPU when the two requests to KVM succeed, but for the
    segment registers, which are never loaded; the cache holds them in the debugger's
    numbering. *)
Theorem gdb_cache (r : kvm_regs) (sr : kvm_sregs) (pc : Z) (s : gdbserver.t)
    (Hr : length (gdbserver.registers s) = 24%nat)
    (He : length (gdbserver.extended_registers s) = 5%nat) :
  ∃ s', (gdb_submit_registers (Some r) (Some sr);;
         gdbserver.gdbserver_set_register gdbserver.AMD64_RIP_REGNUM pc) s = Done (tt, s', []) ∧
    gdbserver.registers s' = cached r sr pc ∧
    gdbserver.extended_registers s' = cached_extended sr ∧
    gdbserver.memory s' = gdbserver.memory s ∧ gdbserver.input s' = gdbserver.input s ∧
    ((gdbserver.load_result (gdbserver.requests s)).1 = true →
     ∃ s'', gdbserver.kvm_load_registers_from_gdbcache s' =
       Done (tt, s'', [VcpuRegisters [rax r; rbx r; rcx r; rdx r; rsi r; rdi r; rsp r; rbp r; r8 r;
         r9 r; r10 r; r11 r; r12 r; r13 r; r14 r; r15 r; pc; rflags r]]) ∧
       gdbserver.registers s'' = gdbserver.registers s').
Proof.
  eexists. split.
  - erewrite bind_quiet by by apply submit_run. reflexivity.
  - split_and!; try done. intros Hok. rewrite gdbserver.load_registers_run by done.
    eexists. split; [|shelve]. unfold gdbserver.load_events.
    match goal with |- context [gdbserver.load_result (gdbserver.requests ?s')] =>
      change (gdbserver.requests s') with (gdbserver.requests s) end.
    rewrite Hok. reflexivity.
    Unshelve. reflexivity.
Qed.

(** ** Witnesses *)

(** The machine of a disk of four blocks, when the members the bridge leaves
    uninitialised happen to be zero. *)
Definition machine0 : t :=
  ready HardDisk.hdd4 (gdbserver.init [] (mk_mem 8388608 (λ _, 0)) []) false 0 0 0 0.

Lemma machine0_wf : wf 4 machine0.
Proof.
  assert (VGAController.wf (VGAController.mk 0 0 0 0 (Some video_memory))) as Hv.
  { split; cbn; unfold is_u8; lia. }
  pose proof keyboard.init_wf as Hk. pose proof HardDisk.hdd4_wf as Hh.
  pose proof (pci_host.constructed_wf 0 0 0 0) as Hp.
  assert (pci_host.selected (pci_host.constructed 0 0 0 0)) as Hs.
  { split; vm_compute; intuition congruence. }
  assert (pci_host.devices (pci_host.host (pci_host.constructed 0 0 0 0)) !! 0%nat =
    Some (Some 0%nat)) as Ht by (vm_compute; reflexivity).
  split; first [apply serial_port.port_init_wf; lia|assumption].
Qed.

(** Exits with operands of one, two and four bytes. *)
Definition out_byte (p v : Z) : io_exit := mk_io KVM_EXIT_IO_OUT 1 p 1 [v; 0; 0; 0].
Definition in_byte (p : Z) : io_exit := mk_io KVM_EXIT_IO_IN 1 p 1 [0; 0; 0; 0].
Definition in_word (p : Z) : io_exit := mk_io KVM_EXIT_IO_IN 2 p 1 [0; 0; 0; 0].

Ltac byte_list := repeat (apply Forall_cons_2; [unfold is_u8; lia|]); apply Forall_nil_2.

Lemma io_safe_witness :
  wf 4 machine0 ∧ disk_fault machine0 (in_byte 0x1f7) = None ∧
  ∃ page m' ev, handle_io (in_byte 0x1f7) machine0 = Done (page, m', ev) ∧ wf 4 m' ∧
    length page = 4%nat.
Proof.
  assert (disk_fault machine0 (in_byte 0x1f7) = None) as Hf by (vm_compute; reflexivity).
  split; [exact machine0_wf|]. split; [exact Hf|].
  pose proof (io_safe 4 machine0 (in_byte 0x1f7) machine0_wf) as H. rewrite Hf in H.
  apply H. split; cbn; [unfold is_u16; lia|byte_list|by left|lia].
Defined.

Lemma machine_ready_witness :
  HardDisk.wf 4 HardDisk.hdd4 ∧
  ∃ m m', initIO 4000 1 2 3
      (power_on (serial_port.init 0) HardDisk.hdd4 (gdbserver.init [] (mk_mem 0 (λ _, 0)) []) false) =
      Done (tt, m, []) ∧
    handle_io (mk_io KVM_EXIT_IO_OUT 4 0xcf8 1 [0; 0; 0; 0x80]) m =
      Done ([0; 0; 0; 0x80], m', []) ∧ wf 4 m'.
Proof.
  split; [exact HardDisk.hdd4_wf|].
  destruct (machine_ready 4 (serial_port.init 0) HardDisk.hdd4
    (gdbserver.init [] (mk_mem 0 (λ _, 0)) []) false 4000 1 2 3 HardDisk.hdd4_wf)
    as (m & Hm & _ & _ & _ & _ & Hx).
  destruct (Hx (mk_io KVM_EXIT_IO_OUT 4 0xcf8 1 [0; 0; 0; 0x80])) as (m' & Hrun & Hwf).
  - split; cbn; [unfold is_u16; lia|byte_list|by right; right|lia].
  - done.
  - exists m, m'. done.
Defined.

Lemma hdd_moves_witness :
  wf 4 machine0 ∧
  ∃ m', run handle_io (config_write 0x10 0xc000) machine0 =
      Done (data <$> config_write 0x10 0xc000, m', []) ∧
    handle_io (out_byte 0xc002 4) m' =
      match dev_access (WriteByte 0x1f2 4) (hdd m') with
      | Done (v, d, ev) => Done (page_after 1 v (out_byte 0xc002 4), m' <| hdd := d |>, ev)
      | Halt h => Halt h
      end.
Proof.
  split; [exact machine0_wf|].
  destruct (hdd_moves 4 machine0 0xc000 machine0_wf ltac:(lia)) as (m' & Hrun & _ & _ & Hx).
  exists m'. split; [exact Hrun|].
  refine (Hx (out_byte 0xc002 4) 1%nat (WriteByte 0xc002 4) 2 _ eq_refl eq_refl eq_refl _ eq_refl).
  - lia.
  - by left.
Defined.

(** Reading the status of the keyboard, a key, and its interrupt. *)
Definition typing : list op :=
  [Exit (out_byte 0x64 0x60); Exit (out_byte 0x60 1); Insert 0x1e; Exit (in_byte 0x3d4);
   Exit (in_byte 0x60)].
Definition after_typing : list (list Z) * t * list event :=
  match run step typing machine0 with Done r => r | Halt _ => ([], machine0, []) end.

Lemma machine_keyboard_witness :
  run step typing machine0 = Done after_typing ∧
  keyboard.abs (keyb after_typing.1.2) =
    keyboard.mk_queue [] 0x1e 1 0x60 true true false ∧
  answers typing after_typing.1.1 [0; 0; 0; 0x1e] ∧ line_level 1 0 after_typing.2 = 0.
Proof.
  assert (run step typing machine0 = Done after_typing) as Hrun by (vm_compute; reflexivity).
  split; [exact Hrun|]. destruct after_typing as [[pages m'] ev].
  exact (machine_keyboard typing machine0 pages m' ev eq_refl eq_refl Hrun).
Defined.

Lemma gdb_cache_witness :
  ∃ s', (gdb_submit_registers (Some (mk_regs 1 2 3 4 5 6 7 8 9 10 11 12 13 14 15 16 17 2))
           (Some (mk_sregs 8 16 16 16 16 16 17 0 0 0 0));;
         gdbserver.gdbserver_set_register gdbserver.AMD64_RIP_REGNUM 0x1000)
      (gdbserver.init [] (mk_mem 0 (λ _, 0)) []) = Done (tt, s', []) ∧
    ∃ s'', gdbserver.kvm_load_registers_from_gdbcache s' = Done (tt, s'',
      [VcpuRegisters [1; 2; 3; 4; 5; 6; 7; 8; 9; 10; 11; 12; 13; 14; 15; 16; 0x1000; 2]]).
Proof.
  destruct (gdb_cache (mk_regs 1 2 3 4 5 6 7 8 9 10 11 12 13 14 15 16 17 2)
    (mk_sregs 8 16 16 16 16 16 17 0 0 0 0) 0x1000
    (gdbserver.init [] (mk_mem 0 (λ _, 0)) []) eq_refl eq_refl) as (s' & Hrun & _ & _ & _ & _ & Hl).
  destruct (Hl eq_refl) as (s'' & Hload & _). exists s'. split; [exact Hrun|]. by exists s''.
Defined.

End kvm.
