(* ===== verification/Display.v ===== *)
(** * What the guest sees on the terminal (kvm.cpp, vgaController.cpp, ConsoleOutput.cpp)

The composition of the display: the guest writes its text page in memory and moves the
cursor through the ports of the controller, the painting thread reads both, and the
terminal shows them. *)

From S2P Require Import Prelude IODevice VgaController HardDisk ConsoleOutput GdbServer Machine.
Import kvm.

Module display.

(** The cell [_videoMatrix[k]] of the page at [base]: a 16-bit word of the memory. *)
Definition text_cell (base : Z) (m : mem) (k : Z) : Z := le_val (mem_slice (base + 2 * k) 2 m).

(** What the painting thread reads of a machine that does not move during the refresh,
    on a terminal of [rows] and [cols], with the phases of the blinking it meets. *)
Definition observe (rows cols : Z) (blink_char blink_cursor : Z → bool) (m : t)
    : option ConsoleOutput.refresh :=
  base ← ConsoleOutput._videoMatrix (console_out m);
  Some (ConsoleOutput.mk_refresh rows cols (VGAController.cursorPosition (vga m))
          (text_cell base (gdbserver.memory (gdb m))) blink_char blink_cursor).

(** The exits that set the cursor. *)
Definition out (p v : Z) : io_exit := mk_io KVM_EXIT_IO_OUT 1 p 1 [v; 0; 0; 0].
Definition set_cursor (high low : Z) : list io_exit :=
  [out VGAController.IND_addr VGAController.CUR_HIGH_ind; out VGAController.DAT_addr high;
   out VGAController.IND_addr VGAController.CUR_LOW_ind; out VGAController.DAT_addr low].

Lemma set_cursor_run high low m :
  run handle_io (set_cursor high low) m =
    Done (data <$> set_cursor high low,
          m <| vga := VGAController.mk VGAController.CUR_LOW_ind (low + 256 * 0) (high + 256 * 0)
                        (low + 256 * 0) (VGAController.memoryStart (vga m)) |>, []).
Proof. reflexivity. Qed.

(** The character and the attribute in the two bytes of a cell. *)
Lemma text_cell_bytes base m k :
  mem_wf m →
  u8 (text_cell base m k) = mget m (base + 2 * k) ∧
  ConsoleOutput.text_attr (text_cell base m k) = mget m (base + 2 * k + 1) mod 16 ∧
  ConsoleOutput.back_attr (text_cell base m k) = mget m (base + 2 * k + 1) / 16 mod 8 ∧
  ConsoleOutput.blink_attr (text_cell base m k) = (128 <=? mget m (base + 2 * k + 1)).
Proof.
  intros [_ Hwf]. pose proof (Hwf (base + 2 * k)) as Hc. pose proof (Hwf (base + 2 * k + 1)) as Ha.
  assert (text_cell base m k = mget m (base + 2 * k) + 256 * mget m (base + 2 * k + 1)) as ->.
  { unfold text_cell, mem_slice. cbn [map seq le_val]. change (Z.of_nat 0) with 0.
    change (Z.of_nat 1) with 1. rewrite Z.add_0_r. lia. }
  set (c := mget m (base + 2 * k)) in *. set (a := mget m (base + 2 * k + 1)) in *.
  unfold ConsoleOutput.text_attr, ConsoleOutput.back_attr, ConsoleOutput.blink_attr.
  split_and!; [width_lia..|].
  rewrite Z.testbit_eqb by lia. change (2 ^ 15) with 32768.
  destruct (Z.leb_spec 128 a); [rewrite Z.eqb_eq|rewrite Z.eqb_neq]; width_lia.
Qed.

(** A page of visible text: 80 columns and 25 rows of printable characters. *)
Definition text_page (base : Z) (m : mem) : Prop :=
  ∀ k, 0 ≤ k < ConsoleOutput.ROWS * ConsoleOutput.COLS →
    ConsoleOutput.printable (mget m (base + 2 * k)).

(** C9. The guest's display end to end, when all 2000 cells of the page of text hold
    printable characters (32 to 126): after the guest sets the cursor through the ports of
    the controller, a clean terminal that receives what the painting thread prints shows at
    every row and column of the window the character and the colours of the guest's memory
    at that cell, a blinking one as it is or as a blank, a bright one bright, and underlines
    the cell of the cursor and no other. *)
Theorem machine_displays (m : t) (high low rows cols : Z) (blink_char blink_cursor : Z → bool)
    (s : ConsoleOutput.terminal)
    (Hbase : ConsoleOutput._videoMatrix (console_out m) = Some video_memory)
    (Hpage : text_page video_memory (gdbserver.memory (gdb m)))
    (Hm : mem_wf (gdbserver.memory (gdb m))) (Hhigh : is_u8 high) (Hlow : is_u8 low)
    (Hrows : 0 ≤ rows) (Hcols : 0 ≤ cols)
    (Hs : ConsoleOutput.clean s) (Hplain : ConsoleOutput.rend s = ConsoleOutput.plain) :
  ∃ m' r, run handle_io (set_cursor high low) m = Done (data <$> set_cursor high low, m', []) ∧
    observe rows cols blink_char blink_cursor m' = Some r ∧
    let shown := ConsoleOutput.screen
      (ConsoleOutput.run_terminal rows cols (ConsoleOutput._mainThread [r]) s) in
    ∀ i j, 0 ≤ i < rows → 0 ≤ j < cols → i < 25 → j < 80 →
      let k := 80 * i + j in
      let c := mget (gdbserver.memory (gdb m)) (video_memory + 2 * k) in
      let a := mget (gdbserver.memory (gdb m)) (video_memory + 2 * k + 1) in
      (shown i j).1 = (if (128 <=? a) && negb (blink_char k) then 32 else c) ∧
      ConsoleOutput.fg (shown i j).2 = 30 + ConsoleOutput.ansi (a mod 16) ∧
      ConsoleOutput.bg (shown i j).2 = 40 + ConsoleOutput.ansi (a / 16 mod 8) ∧
      (8 ≤ a mod 16 → ConsoleOutput.bold (shown i j).2 = true) ∧
      ConsoleOutput.under (shown i j).2 = (k =? 256 * high + low) && blink_cursor k.
Proof.
  do 2 eexists. split; [apply set_cursor_run|]. split.
  { unfold observe. cbn -[text_cell VGAController.cursorPosition]. by rewrite Hbase. }
  set (r := ConsoleOutput.mk_refresh _ _ _ _ _ _).
  assert (ConsoleOutput.observed rows cols r) as Hr.
  { split; [done..|]. intros k Hk. cbn -[text_cell].
    rewrite (proj1 (text_cell_bytes _ _ k Hm)). by apply Hpage. }
  destruct (ConsoleOutput.main_run rows cols Hrows Hcols [] r s Hs Hplain
    (proj2 (Forall_singleton _ _) Hr)) as [_ Hshown].
  cbv zeta. intros i j Hi Hj Hi25 Hj80. cbn [app] in Hshown. rewrite Hshown by done.
  unfold ConsoleOutput.ROWS, ConsoleOutput.COLS.
  replace ((i <? 25) && (j <? 80)) with true by lia.
  unfold ConsoleOutput.shown, ConsoleOutput.COLS. set (b := ConsoleOutput.bold_row _ _ _ _).
  replace (i * 80 + j) with (80 * i + j) by lia. set (k := 80 * i + j).
  destruct (text_cell_bytes video_memory (gdbserver.memory (gdb m)) k Hm) as (Hc & Ht & Hb & Hl).
  unfold ConsoleOutput.glyph. change (ConsoleOutput.video r k) with
    (text_cell video_memory (gdbserver.memory (gdb m)) k).
  unfold ConsoleOutput.bright. rewrite Hc, Ht, Hb, Hl. cbn [fst snd]. split_and!; [done..| |].
  - intros Hbright. cbn [ConsoleOutput.bold]. rewrite (proj2 (Z.leb_le 8 _)) by done.
    apply orb_true_r.
  - cbn [ConsoleOutput.under]. unfold ConsoleOutput.marked. f_equal. f_equal.
    cbn -[VGAController.cursorPosition]. unfold VGAController.cursorPosition. cbn.
    rewrite !Z.add_0_r, Z.shiftl_mul_pow2 by lia. width_lia.
Qed.

(** A machine whose page is full of the letter A, white on blue. *)
Definition page0 : mem := mk_mem 8388608 (λ a, if a mod 2 =? 0 then 65 else 0x17).
Definition machine1 : kvm.t :=
  ready HardDisk.hdd4 (gdbserver.init [] page0 []) false 0 0 0 0.

Lemma machine_displays_witness :
  ∃ m' r, run handle_io (set_cursor 0 81) machine1 = Done (data <$> set_cursor 0 81, m', []) ∧
    observe 25 80 (λ _, true) (λ _, true) m' = Some r ∧
    let cell := ConsoleOutput.screen (ConsoleOutput.run_terminal 25 80
      (ConsoleOutput._mainThread [r]) ConsoleOutput.terminal0) 1 1 in
    cell.1 = 65 ∧ ConsoleOutput.fg cell.2 = 37 ∧ ConsoleOutput.bg cell.2 = 44 ∧
    ConsoleOutput.under cell.2 = true.
Proof.
  destruct (machine_displays machine1 0 81 25 80 (λ _, true) (λ _, true) ConsoleOutput.terminal0)
    as (m' & r & Hrun & Hr & Hshown).
  - reflexivity.
  - intros k Hk. cbn [gdbserver.memory]. change (ConsoleOutput.printable
      (if (video_memory + 2 * k) mod 2 =? 0 then 65 else 0x17)).
    replace ((video_memory + 2 * k) mod 2) with 0 by (unfold video_memory; width_lia).
    unfold ConsoleOutput.printable. cbn. lia.
  - split; [cbn; lia|]. intros a. cbn. destruct (a mod 2 =? 0); unfold is_u8; lia.
  - unfold is_u8. lia.
  - unfold is_u8. lia.
  - lia.
  - lia.
  - by split.
  - reflexivity.
  - exists m', r. split; [exact Hrun|]. split; [exact Hr|].
    destruct (Hshown 1 1 ltac:(lia) ltac:(lia) ltac:(lia) ltac:(lia)) as (Hc & Hf & Hb & _ & Hu).
    split; [exact Hc|]. split; [exact Hf|]. split; [exact Hb|exact Hu].
Defined.

End display.
