(* ===== verification/IniReader.v ===== *)
(** * The configuration reader (INIReader.h)

The parser of configuration files that main uses: a loop on the lines of the file, as
[fgets] cuts them, that calls a handler for each name and value, and the class that keeps
them in a map.  Characters are bytes; a C string ends at its first zero.

The second half gives the grammar of the files, as a printer of the items that a line can
be, and shows that the parser gives every item its meaning. *)

From stdpp Require Import gmap.
From S2P Require Import Prelude.

Module ini.

(** ** Characters and strings *)

Definition INI_MAX_LINE : nat := 200.
Definition MAX_SECTION : nat := 50.
Definition MAX_NAME : nat := 50.

(** [isspace] in the locale of the program. *)
Definition isspace (c : Z) : bool := ((9 <=? c) && (c <=? 13)) || (c =? 32).

(** The characters of an array up to the terminator. *)
Fixpoint c_str (s : list Z) : list Z :=
  match s with
  | [] => []
  | c :: s => if c =? 0 then [] else c :: c_str s
  end.

(** The character at a pointer: the terminator at the end. *)
Definition char_at (s : list Z) : Z := hd 0 s.

Fixpoint rstrip (s : list Z) : list Z :=
  match s with
  | [] => []
  | c :: s =>
      match rstrip s with
      | [] => if isspace c then [] else [c]
      | s => c :: s
      end
  end.

Fixpoint lskip (s : list Z) : list Z :=
  match s with
  | [] => []
  | c :: s' => if isspace c then lskip s' else s
  end.

(** [strchr], on a character of a string. *)
Definition strchr (cs : list Z) (c : Z) : bool := bool_decide (c ∈ cs).

Definition inline_comment_prefixes : list Z := [59].

(** The characters before the one that is found, and those from it on; [None] is the null
    pointer. *)
Fixpoint find_loop (was_space : bool) (s : list Z) (cs : option (list Z)) : list Z * list Z :=
  match s with
  | [] => ([], [])
  | c :: s' =>
      if match cs with Some cs => strchr cs c | None => false end ||
         (was_space && strchr inline_comment_prefixes c)
      then ([], s)
      else let '(before, found) := find_loop (isspace c) s' cs in (c :: before, found)
  end.

Definition find_chars_or_comment (s : list Z) (cs : option (list Z)) : list Z * list Z :=
  find_loop false s cs.

Definition strncpy0 (src : list Z) (size : nat) : list Z := take (size - 1) src.

(** [fgets], with room for [n] characters: the line, and the rest of the file. *)
Fixpoint fgets (n : nat) (stream : list Z) : list Z * list Z :=
  match n with
  | O => ([], stream)
  | S n =>
      match stream with
      | [] => ([], [])
      | c :: stream =>
          if c =? 10 then ([c], stream)
          else let '(line, rest) := fgets n stream in (c :: line, rest)
      end
  end.

(** ** ini_parse_stream *)

Section parser.
Context {U : Type}.

(** The handler: what it makes of the user's data, and whether it succeeds. *)
Context (handler : list Z → list Z → list Z → U → U * bool).

Record parser : Type := mk_parser {
  section : list Z;
  prev_name : list Z;
  lineno : Z;
  error : Z;
  user : U;
}.

#[export] Instance eta_parser : Eta parser := λ s,
  mk_parser (section s) (prev_name s) (lineno s) (error s) (user s).

(** The first error is kept. *)
Definition set_error (s : parser) : parser :=
  if error s =? 0 then s <| error := lineno s |> else s.

Definition call_handler (name value : list Z) (s : parser) : parser :=
  let '(u, ok) := handler (section s) name value (user s) in
  let s := s <| user := u |> in
  if ok then s else set_error s.

(** What is done with the text of a line; [moved] tells whether the line has something
    before it. *)
Definition parse_text (start : list Z) (moved : bool) (s : parser) : parser :=
  let c := char_at start in
  if (c =? 59) || (c =? 35) then s
  else if negb (char_at (prev_name s) =? 0) && negb (c =? 0) && moved then
    let '(value, _) := find_chars_or_comment start None in
    call_handler (prev_name s) (rstrip value) s
  else if c =? 91 then
    let '(name, found) := find_chars_or_comment (tail start) (Some [93]) in
    if char_at found =? 93
    then s <| section := strncpy0 name MAX_SECTION |> <| prev_name := [] |>
    else set_error s
  else if negb (c =? 0) then
    let '(name, found) := find_chars_or_comment start (Some [61; 58]) in
    if (char_at found =? 61) || (char_at found =? 58) then
      let name := rstrip name in
      let '(value, _) := find_chars_or_comment (lskip (tail found)) None in
      let s := s <| prev_name := strncpy0 name MAX_NAME |> in
      call_handler name (rstrip value) s
    else set_error s
  else s.

(** The body of the loop; [line] is the array that [fgets] fills. *)
Definition parse_line (line : list Z) (s : parser) : parser :=
  let s := s <| lineno := lineno s + 1 |> in
  let line := c_str line in
  let bom := (lineno s =? 1) && bool_decide ([0xEF; 0xBB; 0xBF] `prefix_of` line) in
  let stripped := rstrip (if bom then drop 3 line else line) in
  let start := lskip stripped in
  parse_text start (bom || negb (length start =? length stripped)%nat) s.

(** Every turn takes at least a character off the stream. *)
Fixpoint parse_loop (fuel : nat) (stream : list Z) (s : parser) : parser :=
  match fuel with
  | O => s
  | S fuel =>
      match stream with
      | [] => s
      | _ =>
          let '(line, rest) := fgets (INI_MAX_LINE - 1) stream in
          parse_loop fuel rest (parse_line line s)
      end
  end.

Definition ini_parse_stream (stream : list Z) (u : U) : Z * U :=
  let s := parse_loop (length stream) stream (mk_parser [] [] 0 0 u) in
  (error s, user s).

(** [None] is a file that does not open. *)
Definition ini_parse (file : option (list Z)) (u : U) : Z * U :=
  match file with
  | None => (-1, u)
  | Some stream => ini_parse_stream stream u
  end.

End parser.
Arguments parser U : clear implicits.

End ini.

Module INIReader.
Import ini.

(** ** Numbers of the standard library *)

Definition digit_value (c : Z) : Z :=
  if (48 <=? c) && (c <=? 57) then c - 48
  else if (97 <=? c) && (c <=? 122) then c - 97 + 10
  else if (65 <=? c) && (c <=? 90) then c - 65 + 10
  else 36.

Definition LONG_MAX : Z := 9223372036854775807.
Definition LONG_MIN : Z := -9223372036854775808.

(** The digits of a base at the start of a string. *)
Fixpoint digits (base : Z) (s : list Z) : list Z :=
  match s with
  | [] => []
  | c :: s => if digit_value c <? base then digit_value c :: digits base s else []
  end.

Definition number (base : Z) (ds : list Z) : Z := foldl (λ n d, n * base + d) 0 ds.

(** [strtol] with base 0: the value, and whether a number was found. *)
Definition strtol (s : list Z) : Z * bool :=
  let s := lskip s in
  let '(negative, s) :=
    match s with
    | c :: s' => if c =? 45 then (true, s') else if c =? 43 then (false, s') else (false, s)
    | [] => (false, [])
    end in
  let '(base, s) :=
    match s with
    | c :: x :: d :: s' =>
        if (c =? 48) && ((x =? 120) || (x =? 88)) && (digit_value d <? 16)
        then (16, d :: s') else (if c =? 48 then 8 else 10, s)
    | c :: _ => (if c =? 48 then 8 else 10, s)
    | [] => (10, [])
    end in
  match digits base s with
  | [] => (0, false)
  | ds =>
      let n := number base ds in
      (if negative then Z.max LONG_MIN (- n) else Z.min LONG_MAX n, true)
  end.

(** ** The class *)

Record t : Type := mk {
  _error : Z;
  _values : gmap (list Z) (list Z);
  _sections : gset (list Z);
}.

#[export] Instance eta_t : Eta t := λ r, mk (_error r) (_values r) (_sections r).

Definition tolower (c : Z) : Z := if (65 <=? c) && (c <=? 90) then c + 32 else c.

Definition MakeKey (section name : list Z) : list Z := map tolower (section ++ [61] ++ name).

Definition ValueHandler (section name value : list Z) (r : t) : t * bool :=
  let key := MakeKey section name in
  let old := default [] (_values r !! key) in
  let old := if (0 <? length old)%nat then old ++ [10] else old in
  (r <| _values := <[key := old ++ value]> (_values r) |>
     <| _sections := {[ section ]} ∪ _sections r |>, true).

Definition init (file : option (list Z)) : t :=
  let '(error, r) := ini_parse ValueHandler file (mk 0 ∅ ∅) in
  r <| _error := error |>.

Definition ParseError (r : t) : Z := _error r.
Definition Sections (r : t) : gset (list Z) := _sections r.

Definition Get (r : t) (section name default_value : list Z) : list Z :=
  default default_value (_values r !! MakeKey section name).

Definition GetInteger (r : t) (section name : list Z) (default_value : Z) : Z :=
  let '(n, found) := strtol (Get r section name []) in
  if found then n else default_value.

(** [strtod] gives a real number of the machine, and whether one was found; the program
    does not ask for any. *)
Definition GetReal {R : Type} (strtod : list Z → R * bool) (r : t) (section name : list Z)
    (default_value : R) : R :=
  let '(n, found) := strtod (Get r section name []) in
  if found then n else default_value.

Definition GetBoolean (r : t) (section name : list Z) (default_value : bool) : bool :=
  let valstr := map tolower (Get r section name []) in
  if bool_decide (valstr ∈ map chars ["true"; "yes"; "on"; "1"]) then true
  else if bool_decide (valstr ∈ map chars ["false"; "no"; "off"; "0"]) then false
  else default_value.

End INIReader.

(** ** The grammar of the files *)
Module grammar.
Import ini.
#[local] Existing Instance INIReader.eta_t.

(** What a line can be.  [w] are blanks; an [inline] comment is the blanks before it and its
    text. *)
Definition inline : Type := option (list Z * list Z).

Inductive item : Type :=
  | Blank (w : list Z)
  | Comment (w : list Z) (mark : Z) (text : list Z)
  | Header (name after : list Z)
  | Pair (name w : list Z) (sep : Z) (w' value : list Z) (c : inline)
  | Continuation (w value : list Z) (c : inline)
  | Unclosed (name : list Z)
  | Bare (name : list Z).

Definition print_inline (c : inline) : list Z :=
  match c with None => [] | Some (w, text) => w ++ 59 :: text end.

Definition print_item (i : item) : list Z :=
  match i with
  | Blank w => w
  | Comment w mark text => w ++ mark :: text
  | Header name after => 91 :: name ++ 93 :: after
  | Pair name w sep w' value c => name ++ w ++ sep :: w' ++ value ++ print_inline c
  | Continuation w value c => w ++ value ++ print_inline c
  | Unclosed name => 91 :: name
  | Bare name => name
  end.

Definition print_file (items : list item) : list Z :=
  concat (map (λ i, print_item i ++ [10]) items).

(** Characters of a line, of a text before a comment, and words without blanks around. *)
Definition line_char (c : Z) : Prop := c ≠ 0 ∧ c ≠ 10.
Definition word_char (c : Z) : Prop := line_char c ∧ c ≠ 59.
Definition blank (c : Z) : Prop := c = 32 ∨ c = 9.
Definition trimmed (s : list Z) : Prop := rstrip s = s ∧ lskip s = s.

Definition inline_ok (c : inline) : Prop :=
  match c with
  | None => True
  | Some (w, text) => Forall blank w ∧ w ≠ [] ∧ Forall line_char text
  end.

(** The word that starts a line which is a pair, or is meant to be one. *)
Record word_ok (name : list Z) : Prop := {
  word_chars : Forall (λ c, word_char c ∧ c ≠ 61 ∧ c ≠ 58) name;
  word_trimmed : trimmed name;
  word_start : char_at name ∉ [0; 59; 35; 91; 0xEF];
}.

Definition valid (i : item) : Prop :=
  match i with
  | Blank w => Forall blank w
  | Comment w mark text => Forall blank w ∧ (mark = 59 ∨ mark = 35) ∧ Forall line_char text
  | Header name after =>
      Forall (λ c, word_char c ∧ c ≠ 93) name ∧ Forall line_char after
  | Pair name w sep w' value c =>
      word_ok name ∧ Forall blank w ∧ (sep = 61 ∨ sep = 58) ∧ Forall blank w' ∧
      Forall word_char value ∧ trimmed value ∧ inline_ok c ∧ (c ≠ None → value ≠ [])
  | Continuation w value c => Forall blank w ∧ w ≠ [] ∧ word_ok value ∧ inline_ok c
  | Unclosed name => Forall (λ c, word_char c ∧ c ≠ 93) name
  | Bare name => word_ok name
  end.

(** A line that the array of the parser can hold. *)
Definition fits (i : item) : Prop := (length (print_item i) < INI_MAX_LINE - 1)%nat.

(** What an item means: a continuation belongs to the last pair of its section, and is an
    error without one. *)
Section meaning.
Context {U : Type} (handler : list Z → list Z → list Z → U → U * bool).

Definition meaning (s : parser U) (i : item) : parser U :=
  let s := s <| lineno := lineno s + 1 |> in
  match i with
  | Blank _ | Comment _ _ _ => s
  | Header name _ => s <| section := take 49 name |> <| prev_name := [] |>
  | Pair name _ _ _ value _ =>
      call_handler handler name value (s <| prev_name := take 49 name |>)
  | Continuation _ value _ =>
      if char_at (prev_name s) =? 0 then set_error s
      else call_handler handler (prev_name s) value s
  | Unclosed _ | Bare _ => set_error s
  end.

Definition start (u : U) : parser U := mk_parser [] [] 0 0 u.
End meaning.

(** *** Strings *)

Lemma c_str_line s : Forall (λ c, c ≠ 0) s → c_str s = s.
Proof.
  induction 1 as [|c s Hc _ IH]; [done|]. cbn. rewrite (proj2 (Z.eqb_neq c 0)) by done.
  by rewrite IH.
Qed.

Lemma blank_space c : blank c → isspace c = true.
Proof. by intros [->| ->]. Qed.

Lemma blanks_space w : Forall blank w → Forall (λ c, isspace c = true) w.
Proof. intros H. eapply Forall_impl; [exact H|]. apply blank_space. Qed.

Lemma rstrip_spaces w : Forall (λ c, isspace c = true) w → rstrip w = [].
Proof. induction 1 as [|c w Hc _ IH]; [done|]. cbn. by rewrite IH, Hc. Qed.

Lemma rstrip_app_spaces s w : Forall (λ c, isspace c = true) w → rstrip (s ++ w) = rstrip s.
Proof.
  intros Hw. induction s as [|c s IH]; [by apply rstrip_spaces|]. cbn [app rstrip]. by rewrite IH.
Qed.

Lemma rstrip_app_word s c s' : isspace c = false → rstrip (s ++ c :: s') = s ++ c :: rstrip s'.
Proof.
  intros Hc. induction s as [|d s IH]; cbn [app rstrip].
  - rewrite Hc. by destruct (rstrip s').
  - rewrite IH. by destruct s.
Qed.

Lemma rstrip_app_nonempty s v : rstrip v ≠ [] → rstrip (s ++ v) = s ++ rstrip v.
Proof.
  intros Hn. induction s as [|c s IH]; [done|]. cbn [app rstrip]. rewrite IH.
  destruct (rstrip v) as [|d v']; [done|]. by destruct s.
Qed.

Lemma rstrip_app_trimmed s v : rstrip v = v → v ≠ [] → rstrip (s ++ v) = s ++ v.
Proof. intros Hv Hn. rewrite rstrip_app_nonempty; by rewrite Hv. Qed.

Lemma rstrip_Forall P s : Forall P s → Forall P (rstrip s).
Proof.
  induction 1 as [|c s Hc _ IH]; [constructor|]. cbn [rstrip].
  destruct (rstrip s) as [|d s']; [destruct (isspace c)|];
    auto using Forall_nil_2, Forall_cons_2.
Qed.

Lemma lskip_app_spaces w s : Forall (λ c, isspace c = true) w → lskip (w ++ s) = lskip s.
Proof. induction 1 as [|c w Hc _ IH]; [done|]. cbn [app lskip]. by rewrite Hc. Qed.

Lemma trimmed_start c s : trimmed (c :: s) → isspace c = false.
Proof.
  intros [_ H]. cbn in H. destruct (isspace c); [|done].
  assert (∀ s, (length (lskip s) ≤ length s)%nat) as Hl.
  { clear. induction s as [|d s IH]; [done|]. cbn. destruct (isspace d); cbn; lia. }
  specialize (Hl s). rewrite H in Hl. cbn in Hl. lia.
Qed.

Lemma lskip_trimmed v s : trimmed v → v ≠ [] → lskip (v ++ s) = v ++ s.
Proof.
  intros Hv Hn. destruct v as [|c v]; [done|]. cbn. by rewrite (trimmed_start c v).
Qed.

(** *** Searching *)

Definition stops (cs : option (list Z)) (c : Z) : bool :=
  match cs with Some cs => strchr cs c | None => false end.

Lemma find_pass sp s cs s' :
  Forall (λ c, c ≠ 59 ∧ stops cs c = false) s →
  find_loop sp (s ++ s') cs =
    let '(b, f) := find_loop (match last s with Some c => isspace c | None => sp end) s' cs in
    (s ++ b, f).
Proof.
  intros H. revert sp. induction H as [|c s [Hc Hs] _ IH]; intros sp.
  { cbn [app last]. by destruct (find_loop sp s' cs). }
  cbn [app find_loop]. fold (stops cs c). rewrite Hs.
  unfold strchr at 1. rewrite bool_decide_false; [|intros E; by apply list_elem_of_singleton in E].
  rewrite andb_false_r. cbn [orb]. rewrite IH. destruct s as [|d s]; cbn [app].
  - cbn [last]. by destruct (find_loop (isspace c) s' cs).
  - destruct (last (d :: s)) as [l|] eqn:E; [|by apply last_None in E].
    replace (last (c :: d :: s)) with (Some l). by destruct (find_loop (isspace l) s' cs).
Qed.

Lemma find_none s cs :
  Forall (λ c, c ≠ 59 ∧ stops cs c = false) s → find_chars_or_comment s cs = (s, []).
Proof.
  intros H. unfold find_chars_or_comment. rewrite <- (app_nil_r s) at 1.
  rewrite find_pass by done. cbn. by rewrite app_nil_r.
Qed.

Lemma find_stop s cs c s' :
  Forall (λ c, c ≠ 59 ∧ stops cs c = false) s → stops cs c = true →
  find_chars_or_comment (s ++ c :: s') cs = (s, c :: s').
Proof.
  intros H Hc. unfold find_chars_or_comment. rewrite find_pass by done.
  cbn [find_loop]. fold (stops cs c). rewrite Hc. cbn. by rewrite app_nil_r.
Qed.

(** A comment after blanks. *)
Lemma find_comment s w cs text :
  Forall (λ c, c ≠ 59 ∧ stops cs c = false) s → Forall blank w → w ≠ [] →
  Forall (λ c, stops cs c = false) w →
  find_chars_or_comment (s ++ w ++ 59 :: text) cs = (s ++ w, 59 :: text).
Proof.
  intros Hs Hw Hn Hws. unfold find_chars_or_comment. rewrite app_assoc.
  destruct (exists_last Hn) as (w' & c & ->).
  apply Forall_app in Hw as [Hw' Hc]. apply Forall_cons in Hc as [Hc _].
  rewrite find_pass.
  - rewrite app_assoc, last_snoc. cbn [find_loop]. rewrite (blank_space c Hc).
    rewrite orb_true_r. by rewrite app_nil_r.
  - apply Forall_app. split; [done|]. apply Forall_and. split; [|done].
    apply Forall_app. split; [|by repeat constructor; destruct Hc; subst].
    eapply Forall_impl; [exact Hw'|]. by intros ? [->| ->].
Qed.

(** *** Lines *)

(** The array after [fgets], and what the line starts with once it is stripped. *)
Lemma line_c_str l : Forall line_char l → c_str (l ++ [10]) = l ++ [10].
Proof.
  intros H. apply c_str_line, Forall_app. split; [|by repeat constructor].
  eapply Forall_impl; [exact H|]. by intros c [Hc _].
Qed.

Lemma line_rstrip l : rstrip (l ++ [10]) = rstrip l.
Proof. apply rstrip_app_spaces. by repeat constructor. Qed.

(** The byte order mark begins with a character that starts no item. *)
Lemma no_bom l : char_at l ≠ 0xEF → bool_decide ([0xEF; 0xBB; 0xBF] `prefix_of` l ++ [10]) = false.
Proof.
  intros H. apply bool_decide_false. intros [s E]. destruct l as [|c l]; [discriminate|].
  injection E as -> _. by apply H.
Qed.

(** The words of a line, without the characters that end a search. *)
Lemma word_pass cs s :
  Forall (λ c, word_char c ∧ stops cs c = false) s → Forall (λ c, c ≠ 59 ∧ stops cs c = false) s.
Proof. intros H. eapply Forall_impl; [exact H|]. by intros c [[_ Hc] Hs]. Qed.

Lemma word_pass_none s : Forall word_char s → Forall (λ c, c ≠ 59 ∧ stops None c = false) s.
Proof. intros H. eapply Forall_impl; [exact H|]. by intros c [_ Hc]. Qed.

Lemma separators_stop c : c ≠ 61 → c ≠ 58 → stops (Some [61; 58]) c = false.
Proof.
  intros H1 H2. apply bool_decide_false. intros E. apply elem_of_cons in E as [E|E]; [done|].
  by apply list_elem_of_singleton in E.
Qed.

Lemma bracket_stop c : c ≠ 93 → stops (Some [93]) c = false.
Proof. intros H. apply bool_decide_false. intros E. by apply list_elem_of_singleton in E. Qed.

Lemma blanks_pass cs w :
  Forall blank w → cs = None ∨ cs = Some [61; 58] → Forall (λ c, c ≠ 59 ∧ stops cs c = false) w.
Proof.
  intros H Hcs. eapply Forall_impl; [exact H|].
  intros c Hc. split; [by destruct Hc; subst|]. destruct Hcs as [-> | ->]; [done|].
  apply separators_stop; destruct Hc; by subst.
Qed.

(** A value and its comment: what is left of the line when the value has been cut. *)
Lemma value_run w value c :
  Forall blank w → Forall word_char value → trimmed value → inline_ok c → (c ≠ None → value ≠ []) →
  rstrip (find_chars_or_comment (lskip (rstrip (w ++ value ++ print_inline c))) None).1 = value.
Proof.
  intros Hw Hv [Hr Hl] Hc Hne. pose proof (blanks_space _ Hw) as Hsp.
  destruct c as [[w' text]|]; cbn [print_inline].
  - destruct Hc as (Hw' & Hn & _). specialize (Hne ltac:(done)).
    rewrite 2!app_assoc, (rstrip_app_word _ 59) by done. rewrite <- 2!app_assoc.
    rewrite lskip_app_spaces, lskip_trimmed by done.
    rewrite find_comment; [|by apply word_pass_none|done..|].
    + cbn [fst]. by rewrite rstrip_app_spaces by by apply blanks_space.
    + eapply Forall_impl; [exact Hw'|]. by intros.
  - rewrite app_nil_r. destruct (decide (value = [])) as [->|Hn].
    + rewrite app_nil_r. by rewrite (rstrip_spaces w Hsp).
    + rewrite rstrip_app_trimmed, lskip_app_spaces, Hl by done.
      by rewrite find_none by by apply word_pass_none.
Qed.

(** *** Items *)

Section items.
Context {U : Type} (handler : list Z → list Z → list Z → U → U * bool).
Implicit Types s : parser U.

Lemma parse_line_text l s :
  Forall line_char l → char_at l ≠ 0xEF →
  parse_line handler (l ++ [10]) s =
  parse_text handler (lskip (rstrip l)) (negb (length (lskip (rstrip l)) =? length (rstrip l))%nat)
    (s <| lineno := lineno s + 1 |>).
Proof.
  intros Hl Hc. unfold parse_line. rewrite line_c_str, no_bom by done.
  rewrite andb_false_r. by rewrite line_rstrip.
Qed.

Lemma text_comment mark text moved s :
  mark = 59 ∨ mark = 35 → parse_text handler (mark :: text) moved s = s.
Proof. by intros [->| ->]. Qed.

Lemma text_empty moved s : parse_text handler [] moved s = s.
Proof. unfold parse_text. cbn. by rewrite andb_false_r. Qed.

Lemma text_header name after s :
  Forall (λ c, word_char c ∧ c ≠ 93) name →
  parse_text handler (91 :: name ++ 93 :: after) false s =
  s <| section := take 49 name |> <| prev_name := [] |>.
Proof.
  intros Hn. unfold parse_text. cbn [char_at hd tail]. rewrite andb_false_r.
  cbn [Z.eqb Pos.eqb orb]. rewrite find_stop; [done| |done].
  apply word_pass. eapply Forall_impl; [exact Hn|]. intros c [H1 H2].
  split; [done|by apply bracket_stop].
Qed.

Lemma text_unclosed name s :
  Forall (λ c, word_char c ∧ c ≠ 93) name → parse_text handler (91 :: name) false s = set_error s.
Proof.
  intros Hn. unfold parse_text. cbn [char_at hd tail]. rewrite andb_false_r.
  cbn [Z.eqb Pos.eqb orb]. rewrite find_none; [done|].
  apply word_pass. eapply Forall_impl; [exact Hn|]. intros c [H1 H2].
  split; [done|by apply bracket_stop].
Qed.

(** The tests on the first character of a word. *)
Lemma word_tests name :
  word_ok name → ∃ c name', name = c :: name' ∧
    (c =? 59) = false ∧ (c =? 35) = false ∧ (c =? 91) = false ∧ (c =? 0) = false ∧ c ≠ 0xEF.
Proof.
  intros [_ _ H]. destruct name as [|c name]; [by destruct H; left|].
  exists c, name. cbn in H. split; [done|].
  rewrite !not_elem_of_cons in H. destruct H as (H1 & H2 & H3 & H4 & H5 & _).
  split_and!; try (by apply Z.eqb_neq); done.
Qed.

Lemma word_separators name :
  word_ok name → Forall (λ c, c ≠ 59 ∧ stops (Some [61; 58]) c = false) name.
Proof.
  intros [H _ _]. apply word_pass. eapply Forall_impl; [exact H|].
  intros c (H1 & H2 & H3). split; [done|by apply separators_stop].
Qed.

Lemma word_chars_of name : word_ok name → Forall word_char name.
Proof. intros [H _ _]. eapply Forall_impl; [exact H|]. by intros c []. Qed.

Lemma text_pair name w sep rest value s :
  word_ok name → Forall blank w → sep = 61 ∨ sep = 58 →
  rstrip (find_chars_or_comment (lskip rest) None).1 = value →
  parse_text handler (name ++ w ++ sep :: rest) false s =
  call_handler handler name value (s <| prev_name := take 49 name |>).
Proof.
  intros Hn Hw Hsep Hv. destruct (word_tests name Hn) as (c & name' & Heq & H1 & H2 & H3 & H4 & _).
  assert (find_chars_or_comment (name ++ w ++ sep :: rest) (Some [61; 58]) =
          (name ++ w, sep :: rest)) as Hfind.
  { rewrite app_assoc. apply find_stop; [|by destruct Hsep; subst].
    apply Forall_app. split; [by apply word_separators|]. apply blanks_pass; auto. }
  unfold parse_text. rewrite Hfind.
  assert (char_at (name ++ w ++ sep :: rest) = c) as -> by by rewrite Heq.
  rewrite H1, H2, H3, H4, andb_false_r. cbn [orb negb char_at hd tail].
  replace ((sep =? 61) || (sep =? 58)) with true by (by destruct Hsep; subst).
  rewrite (rstrip_app_spaces name w) by by apply blanks_space.
  destruct (word_trimmed _ Hn) as [-> _].
  destruct (find_chars_or_comment (lskip rest) None) as [v f]. cbn [fst] in Hv. by rewrite Hv.
Qed.

Lemma text_bare name s :
  word_ok name → parse_text handler name false s = set_error s.
Proof.
  intros Hn. destruct (word_tests name Hn) as (c & name' & Heq & H1 & H2 & H3 & H4 & _).
  unfold parse_text. rewrite (find_none name (Some [61; 58])) by by apply word_separators.
  assert (char_at name = c) as -> by by rewrite Heq.
  by rewrite H1, H2, H3, H4, andb_false_r.
Qed.

(** The text of a line that begins with blanks, stripped. *)
Lemma inline_stripped value c :
  trimmed value → value ≠ [] → inline_ok c → ∃ tl, rstrip (value ++ print_inline c) = value ++ tl ∧
    (∀ cs, cs = None ∨ cs = Some [61; 58] → Forall (λ c, c ≠ 59 ∧ stops cs c = false) value →
     ∃ before found, find_chars_or_comment (value ++ tl) cs = (before, found) ∧
       rstrip before = value ∧ (char_at found = 0 ∨ char_at found = 59)).
Proof.
  intros Hv Hn Hc. destruct Hv as [Hr _]. destruct c as [[w text]|]; cbn [print_inline].
  - destruct Hc as (Hw & Hnw & _). exists (w ++ 59 :: rstrip text).
    rewrite app_assoc, rstrip_app_word, <- app_assoc by done. split; [done|].
    intros cs Hcs Hp. exists (value ++ w), (59 :: rstrip text). split; [|split; [|by right]].
    + apply find_comment; [done..|]. eapply Forall_impl; [by apply (blanks_pass cs)|].
      by intros ? [].
    + by rewrite rstrip_app_spaces by by apply blanks_space.
  - exists []. rewrite !app_nil_r. split; [done|]. intros cs _ Hp.
    exists value, []. split; [by apply find_none|]. split; [done|by left].
Qed.

Lemma text_continuation value tl s :
  word_ok value →
  (∀ cs, cs = None ∨ cs = Some [61; 58] → Forall (λ c, c ≠ 59 ∧ stops cs c = false) value →
   ∃ before found, find_chars_or_comment (value ++ tl) cs = (before, found) ∧
     rstrip before = value ∧ (char_at found = 0 ∨ char_at found = 59)) →
  parse_text handler (value ++ tl) true s =
  if char_at (prev_name s) =? 0 then set_error s else call_handler handler (prev_name s) value s.
Proof.
  intros Hv Hfind. destruct (word_tests value Hv) as (c & v' & Heq & H1 & H2 & H3 & H4 & _).
  unfold parse_text. assert (char_at (value ++ tl) = c) as -> by by rewrite Heq.
  rewrite H1, H2, H3, H4. cbn [orb negb]. rewrite !andb_true_r.
  destruct (char_at (prev_name s) =? 0); cbn [negb].
  - destruct (Hfind (Some [61; 58])) as (b & f & -> & _ & Hf);
      [by right|by apply word_separators|]. by destruct Hf as [-> | ->].
  - destruct (Hfind None) as (b & f & -> & <- & _); [by left| |done].
    apply word_pass_none, word_chars_of. done.
Qed.

Lemma valid_line i : valid i → Forall line_char (print_item i) ∧ char_at (print_item i) ≠ 0xEF.
Proof.
  assert (∀ w, Forall blank w → Forall line_char w) as Hb.
  { intros w H. eapply Forall_impl; [exact H|]. intros c [->| ->]; split; congruence. }
  assert (∀ l, Forall word_char l → Forall line_char l) as Hw.
  { intros l H. eapply Forall_impl; [exact H|]. by intros c []. }
  assert (∀ c, inline_ok c → Forall line_char (print_inline c)) as Hi.
  { intros [[w t]|] H; [|constructor]. destruct H as (H1 & _ & H2). cbn [print_inline].
    apply Forall_app. split; [auto|]. by constructor. }
  assert (∀ l c, word_ok l → char_at (l ++ c) ≠ 0xEF) as Hs.
  { intros l c H. destruct (word_tests l H) as (d & s' & -> & _ & _ & _ & _ & Hd). done. }
  assert (∀ w l, Forall blank w → char_at l ≠ 0xEF → char_at (w ++ l) ≠ 0xEF) as Hbs.
  { intros w l H. destruct H as [|c w Hc _]; [done|]. by destruct Hc; subst. }
  destruct i; cbn [valid print_item].
  - intros H. split; [auto|]. rewrite <- (app_nil_r w). apply Hbs; [done|]. by cbn.
  - intros (H1 & H2 & H3). split.
    + apply Forall_app. split; [auto|]. constructor; [by destruct H2; subst|done].
    + apply Hbs; [done|]. by destruct H2; subst.
  - intros (H1 & H2). split; [|done]. constructor; [done|]. apply Forall_app. split.
    + apply Hw. eapply Forall_impl; [exact H1|]. by intros c [].
    + by constructor.
  - intros (H1 & H2 & H3 & H4 & H5 & _ & H6 & _). split; [|by apply Hs].
    apply Forall_app. split; [by apply Hw, word_chars_of|]. apply Forall_app. split; [auto|].
    constructor; [by destruct H3; subst|]. rewrite !Forall_app. auto.
  - intros (H1 & _ & H2 & H3). split.
    + rewrite !Forall_app. split_and!; auto. by apply Hw, word_chars_of.
    + apply Hbs; [done|]. by apply Hs.
  - intros H. split; [|done]. constructor; [done|]. apply Hw.
    eapply Forall_impl; [exact H|]. by intros c [].
  - intros H. split; [by apply Hw, word_chars_of|]. rewrite <- (app_nil_r name). by apply Hs.
Qed.

(** Each item means what the parser does with its line. *)
Lemma parse_item i s :
  valid i → parse_line handler (print_item i ++ [10]) s = meaning handler s i.
Proof.
  intros Hv. destruct (valid_line i Hv) as [Hl Hc]. rewrite parse_line_text by done.
  assert (∀ l : list Z, negb (length l =? length l)%nat = false) as Hsame
    by (intros l; by rewrite Nat.eqb_refl).
  unfold meaning. set (s' := s <| lineno := lineno s + 1 |>).
  destruct i; cbn [print_item valid] in *.
  - rewrite rstrip_spaces by by apply blanks_space. cbn [lskip]. apply text_empty.
  - destruct Hv as (Hw & Hm & Ht). assert (isspace mark = false) as Hsp by by destruct Hm; subst.
    rewrite rstrip_app_word, lskip_app_spaces by (done || by apply blanks_space).
    cbn [lskip]. rewrite Hsp. by apply text_comment.
  - destruct Hv as [Hn Ha]. change (91 :: name ++ 93 :: after) with ((91 :: name) ++ 93 :: after).
    rewrite rstrip_app_word by done. cbn [app lskip isspace]. rewrite Hsame. by apply text_header.
  - destruct Hv as (Hn & Hw & Hsep & Hw' & Hval & Ht & Hi & Hne).
    assert (isspace sep = false) as Hsp by by destruct Hsep; subst.
    rewrite app_assoc, rstrip_app_word, <- app_assoc by done.
    rewrite lskip_trimmed by (apply Hn || by intros ->; destruct (word_tests [] Hn) as (? & ? & ? & _)).
    rewrite Hsame. apply text_pair; [done..|]. by apply value_run.
  - destruct Hv as (Hw & Hn & Hval & Hi).
    assert (value ≠ []) as Hne by (intros ->; destruct (word_tests [] Hval) as (? & ? & ? & _); done).
    destruct (inline_stripped value c (word_trimmed _ Hval) Hne Hi) as (tl & Hr & Hfind).
    assert (rstrip (w ++ value ++ print_inline c) = w ++ value ++ tl) as ->.
    { rewrite rstrip_app_nonempty, Hr; [done|]. intros E. rewrite Hr in E.
      by apply app_eq_nil in E as [-> _]. }
    rewrite lskip_app_spaces by by apply blanks_space.
    rewrite lskip_trimmed by (done || apply Hval).
    replace (negb _) with true.
    2: { rewrite !length_app. destruct w; [done|]. cbn [length]. symmetry. apply negb_true_iff, Nat.eqb_neq. lia. }
    by apply text_continuation.
  - pose proof (rstrip_app_word [] 91 name eq_refl) as E. cbn [app] in E. rewrite E.
    cbn [lskip isspace]. rewrite Hsame.
    by apply text_unclosed, rstrip_Forall.
  - destruct (word_trimmed _ Hv) as [-> ->]. rewrite Hsame. by apply text_bare.
Qed.

(** *** Files *)

Lemma fgets_line n (l rest : list Z) :
  Forall (λ c, c ≠ 10) l → (length l < n)%nat → fgets n (l ++ 10 :: rest) = (l ++ [10], rest).
Proof.
  intros Hl. revert n. induction Hl as [|c l Hc _ IH]; intros [|n] Hn; cbn in Hn; try lia.
  - done.
  - cbn [app fgets]. rewrite (proj2 (Z.eqb_neq c 10)) by done. by rewrite IH by lia.
Qed.

Lemma fgets_rest n stream :
  (0 < n)%nat → stream ≠ [] → (length (fgets n stream).2 < length stream)%nat.
Proof.
  assert (∀ n stream, length (fgets n stream).2 ≤ length stream)%nat as Hle.
  { clear. induction n as [|n IH]; intros [|c stream]; cbn; try lia.
    destruct (c =? 10); cbn; [lia|]. specialize (IH stream).
    destruct (fgets n stream) as [l r]. cbn in *. lia. }
  intros Hn Hs. destruct n as [|n]; [lia|]. destruct stream as [|c stream]; [done|]. cbn.
  destruct (c =? 10); cbn; [lia|]. specialize (Hle n stream).
  destruct (fgets n stream) as [l r]. cbn in *. lia.
Qed.

(** The fuel does not matter, once it covers the characters. *)
Lemma parse_loop_fuel fuel fuel' stream s :
  (length stream ≤ fuel)%nat → (length stream ≤ fuel')%nat →
  parse_loop handler fuel stream s = parse_loop handler fuel' stream s.
Proof.
  revert fuel' stream s. induction fuel as [|fuel IH]; intros fuel' stream s H1 H2.
  - destruct stream; [|cbn in H1; lia]. by destruct fuel'.
  - destruct fuel' as [|fuel']; [destruct stream; [done|cbn in H2; lia]|].
    cbn [parse_loop]. destruct stream as [|c stream]; [done|].
    pose proof (fgets_rest (INI_MAX_LINE - 1) (c :: stream) ltac:(cbn; lia) ltac:(done)) as Hr.
    destruct (fgets (INI_MAX_LINE - 1) (c :: stream)) as [l r]. cbn [snd] in Hr. apply IH; lia.
Qed.

(** The loop on a file that starts with a line. *)
Lemma parse_loop_line (l rest : list Z) fuel s :
  Forall (λ c, c ≠ 10) l → (length l < INI_MAX_LINE - 1)%nat →
  (length (l ++ 10%Z :: rest) ≤ fuel)%nat →
  parse_loop handler fuel (l ++ 10 :: rest) s =
  parse_loop handler (length rest) rest (parse_line handler (l ++ [10]) s).
Proof.
  intros Hl Hn Hf. rewrite length_app in Hf. cbn [length] in Hf.
  destruct fuel as [|fuel]; [lia|]. cbn [parse_loop].
  assert (∃ c r, l ++ 10 :: rest = c :: r) as (c & r & E) by (destruct l; cbn; eauto).
  rewrite E at 1. rewrite fgets_line by done. apply parse_loop_fuel; lia.
Qed.

Lemma parse_file items s :
  Forall valid items → Forall fits items →
  parse_loop handler (length (print_file items)) (print_file items) s =
  foldl (meaning handler) s items.
Proof.
  intros Hv. revert s. induction Hv as [|i items Hi _ IH]; intros s Hf; [done|].
  apply Forall_cons in Hf as [Hfi Hf].
  assert (print_file (i :: items) = print_item i ++ 10 :: print_file items) as ->
    by (unfold print_file; cbn [map concat]; by rewrite <- app_assoc).
  destruct (valid_line i Hi) as [Hl _]. rewrite parse_loop_line; [|  |exact Hfi|done].
  - rewrite parse_item by done. by apply IH.
  - eapply Forall_impl; [exact Hl|]. by intros c [].
Qed.

End items.

(** ** What a file gives *)

(** The pairs of a file in their order, each with its section. *)
Fixpoint entries (sec prev : list Z) (items : list item) : list (list Z * list Z * list Z) :=
  match items with
  | [] => []
  | Header name _ :: items => entries (take 49 name) [] items
  | Pair name _ _ _ value _ :: items => (sec, name, value) :: entries sec (take 49 name) items
  | Continuation _ value _ :: items =>
      match prev with
      | [] => entries sec prev items
      | _ => (sec, prev, value) :: entries sec prev items
      end
  | _ :: items => entries sec prev items
  end.

(** The number of the first line that is not one of the grammar, 0 if there is none. *)
Fixpoint first_fault (line : Z) (prev : list Z) (items : list item) : Z :=
  match items with
  | [] => 0
  | Header _ _ :: items => first_fault (line + 1) [] items
  | Pair name _ _ _ _ _ :: items => first_fault (line + 1) (take 49 name) items
  | Continuation _ _ _ :: items =>
      match prev with [] => line | _ => first_fault (line + 1) prev items end
  | (Unclosed _ | Bare _) :: _ => line
  | _ :: items => first_fault (line + 1) prev items
  end.

(** Repeated values of a name are lines of one value. *)
Definition joined (old value : list Z) : list Z :=
  (if (0 <? length old)%nat then old ++ [10] else old) ++ value.

Definition values_of (key : list Z) (es : list (list Z * list Z * list Z)) : list (list Z) :=
  snd <$> filter (λ e, INIReader.MakeKey e.1.1 e.1.2 = key) es.

Definition value_of (key : list Z) (es : list (list Z * list Z * list Z)) : option (list Z) :=
  match values_of key es with
  | [] => None
  | vs => Some (foldl joined [] vs)
  end.

(** The pair of a file handled by the reader. *)
Definition handled (r : INIReader.t) (e : list Z * list Z * list Z) : INIReader.t :=
  (INIReader.ValueHandler e.1.1 e.1.2 e.2 r).1.

Lemma take_name_start name : word_ok name → char_at (take 49 name) ≠ 0 ∧ take 49 name ≠ [].
Proof.
  intros H. destruct (word_tests name H) as (c & name' & -> & _ & _ & _ & Hc & _).
  cbn. split; [by apply Z.eqb_neq|done].
Qed.

Lemma set_error_keep {U} (s : parser U) : error s ≠ 0 → set_error s = s.
Proof. intros H. unfold set_error. by rewrite (proj2 (Z.eqb_neq _ _)). Qed.

(** The meaning of the items, on a reader. *)
Lemma meaning_entries items sec prev n err r :
  Forall valid items → (prev = [] ∨ char_at prev ≠ 0) → 0 ≤ n →
  let s := foldl (meaning INIReader.ValueHandler) (mk_parser sec prev n err r) items in
  user s = foldl handled r (entries sec prev items) ∧
  error s = if err =? 0 then first_fault (n + 1) prev items else err.
Proof.
  intros Hv. revert sec prev n err r. induction Hv as [|i items Hi _ IH]; intros sec prev n err r Hp Hn.
  { cbn. split; [done|]. by destruct (Z.eqb_spec err 0). }
  assert (∀ sec prev, set_error (mk_parser sec prev (n + 1) err r) =
    mk_parser sec prev (n + 1) (if err =? 0 then n + 1 else err) r) as Hset.
  { intros sec' prev'. unfold set_error. cbn [error]. by destruct (err =? 0). }
  assert (((if err =? 0 then n + 1 else err) =? 0) = false) as Hne.
  { destruct (Z.eqb_spec err 0); apply Z.eqb_neq; lia. }
  pose proof (λ sec prev err r H, IH sec prev (n + 1) err r H ltac:(lia)) as IH'.
  cbn [foldl]. destruct i; cbn [valid] in Hi; cbn [entries first_fault].
  - exact (IH' sec prev err r Hp).
  - exact (IH' sec prev err r Hp).
  - exact (IH' (take 49 name) [] err r (or_introl eq_refl)).
  - destruct Hi as (Hname & _). destruct (take_name_start name Hname) as [Hc _].
    exact (IH' sec (take 49 name) err (handled r (sec, name, value)) (or_intror Hc)).
  - destruct prev as [|d prev].
    + change (meaning _ _ _) with (set_error (mk_parser sec [] (n + 1) err r)). rewrite Hset.
      destruct (IH' sec [] (if err =? 0 then n + 1 else err) r Hp) as [H1 H2].
      rewrite Hne in H2. done.
    + destruct Hp as [|Hp]; [done|].
      assert (meaning INIReader.ValueHandler (mk_parser sec (d :: prev) n err r)
                (Continuation w value c) =
              mk_parser sec (d :: prev) (n + 1) err (handled r (sec, d :: prev, value))) as ->.
      { unfold meaning. cbn in Hp |- *. by rewrite (proj2 (Z.eqb_neq _ _) Hp). }
      apply IH'. by right.
  - change (meaning _ _ _) with (set_error (mk_parser sec prev (n + 1) err r)). rewrite Hset.
    destruct (IH' sec prev (if err =? 0 then n + 1 else err) r Hp) as [H1 H2].
    rewrite Hne in H2. done.
  - change (meaning _ _ _) with (set_error (mk_parser sec prev (n + 1) err r)). rewrite Hset.
    destruct (IH' sec prev (if err =? 0 then n + 1 else err) r Hp) as [H1 H2].
    rewrite Hne in H2. done.
Qed.

Lemma handled_values es r key :
  INIReader._values (foldl handled r es) !! key =
  match values_of key es with
  | [] => INIReader._values r !! key
  | vs => Some (foldl joined (default [] (INIReader._values r !! key)) vs)
  end.
Proof.
  revert r. induction es as [|[[sec name] value] es IH]; intros r; [done|].
  cbn [foldl]. rewrite IH. unfold values_of. rewrite filter_cons. cbn [fst snd handled].
  unfold handled. cbn [fst snd INIReader.ValueHandler]. set (k := INIReader.MakeKey sec name).
  destruct (decide (k = key)) as [<-|Hk].
  - cbn [INIReader._values upd INIReader.eta_t fmap list_fmap]. rewrite lookup_insert_eq.
    fold (values_of k es). by destruct (values_of k es).
  - cbn [INIReader._values upd INIReader.eta_t]. by rewrite lookup_insert_ne.
Qed.

Lemma handled_sections es r :
  INIReader._sections (foldl handled r es) =
  INIReader._sections r ∪ list_to_set ((λ e, e.1.1) <$> es).
Proof.
  revert r. induction es as [|[[sec name] value] es IH]; intros r;
    [cbn; by rewrite union_empty_r_L|].
  cbn [foldl]. rewrite IH. unfold handled.
  cbn [INIReader._sections upd INIReader.eta_t fst snd INIReader.ValueHandler fmap list_fmap
       list_to_set].
  by rewrite (union_comm_L {[sec]}), union_assoc_L.
Qed.

Lemma config_reading (items : list item) (Hv : Forall valid items) (Hf : Forall fits items) :
  let r := INIReader.init (Some (print_file items)) in
  let es := entries [] [] items in
  INIReader.ParseError r = first_fault 1 [] items ∧
  INIReader.Sections r = list_to_set ((λ e, e.1.1) <$> es) ∧
  ∀ sec name d, INIReader.Get r sec name d = default d (value_of (INIReader.MakeKey sec name) es).
Proof.
  intros r es. set (r0 := INIReader.mk 0 ∅ ∅).
  destruct (meaning_entries items [] [] 0 0 r0 Hv ltac:(by left) ltac:(done)) as [Hu He].
  cbn [Z.eqb] in He.
  assert (r = (foldl handled r0 es) <| INIReader._error := first_fault 1 [] items |>) as ->.
  { unfold r, INIReader.init, ini_parse, ini_parse_stream. rewrite parse_file by done.
    fold r0. cbv zeta. rewrite He, Hu. reflexivity. }
  split; [done|]. split.
  - unfold INIReader.Sections. cbn [INIReader._sections upd INIReader.eta_t].
    rewrite handled_sections. apply union_empty_l_L.
  - intros sec name d. unfold INIReader.Get, value_of.
    cbn [INIReader._values upd INIReader.eta_t]. rewrite handled_values.
    cbn [INIReader._values r0]. rewrite lookup_empty. by destruct (values_of _ es).
Qed.

(** C37. Reading a printed configuration gives back its meaning: for every sequence of lines
    of the grammar, with sections, pairs, continuations, comments, blank lines and lines
    that are none of these, the reader reports the first line in error, lists the sections
    that have a pair, and gives for a section and a name, in any case of letters, the values
    that the file gives them, joined by line feeds. *)
Theorem config_read (items : list item) (Hv : Forall valid items) (Hf : Forall fits items) :
  let r := INIReader.init (Some (print_file items)) in
  let es := entries [] [] items in
  INIReader.ParseError r = first_fault 1 [] items ∧
  INIReader.Sections r = list_to_set ((λ e, e.1.1) <$> es) ∧
  ∀ sec name d, INIReader.Get r sec name d = default d (value_of (INIReader.MakeKey sec name) es).
Proof. exact (config_reading items Hv Hf). Qed.

(** *** Names *)

(** The last equals sign of a key separates the section from the name. *)
Lemma append_separator (x y a b : list Z) :
  61 ∉ a → 61 ∉ b → x ++ 61 :: a = y ++ 61 :: b → x = y ∧ a = b.
Proof.
  revert y. induction x as [|c x IH]; intros [|d y] Ha Hb E; cbn in E.
  - by injection E.
  - injection E as <- ->. destruct Ha. apply elem_of_app. right. by left.
  - injection E as -> <-. destruct Hb. apply elem_of_app. right. by left.
  - injection E as <- E. destruct (IH y Ha Hb E) as [-> ->]. done.
Qed.

Lemma tolower_separator c : INIReader.tolower c = 61 ↔ c = 61.
Proof. unfold INIReader.tolower. case_match; lia. Qed.

Lemma MakeKey_inj sec name sec' name' :
  61 ∉ name → 61 ∉ name' → INIReader.MakeKey sec name = INIReader.MakeKey sec' name' →
  map INIReader.tolower sec = map INIReader.tolower sec' ∧
  map INIReader.tolower name = map INIReader.tolower name'.
Proof.
  intros Hn Hn' E. unfold INIReader.MakeKey in E. rewrite !map_app in E. cbn [map] in E.
  assert (∀ l, 61 ∉ l → 61 ∉ map INIReader.tolower l) as Hm.
  { intros l Hl H. apply list_elem_of_fmap in H as (c & Hc & H). symmetry in Hc.
    by apply tolower_separator in Hc as ->. }
  apply append_separator in E; auto.
Qed.

(** *** Integers *)

(** A number in a base, in [k] digits. *)
Fixpoint in_base (base : Z) (k : nat) (n : Z) : list Z :=
  match k with
  | O => []
  | S k => in_base base k (n / base) ++ [n mod base]
  end.

Definition digit (d : Z) : Z := if d <? 10 then 48 + d else 87 + d.
Definition numeral (base : Z) (k : nat) (n : Z) : list Z := map digit (in_base base k n).

Lemma digit_value_digit d : 0 ≤ d < 16 → INIReader.digit_value (digit d) = d.
Proof. unfold digit, INIReader.digit_value. intros H. repeat case_match; lia. Qed.

Lemma in_base_digits base k n : 1 < base → Forall (λ d, 0 ≤ d < base) (in_base base k n).
Proof.
  intros Hb. revert n. induction k as [|k IH]; intros n; [constructor|]. cbn.
  apply Forall_app. split; [done|]. constructor; [|constructor]. apply Z.mod_pos_bound. lia.
Qed.

Lemma digits_numeral base k n tl :
  1 < base ≤ 16 → base ≤ INIReader.digit_value (char_at tl) →
  INIReader.digits base (numeral base k n ++ tl) = in_base base k n.
Proof.
  intros Hb Htl. unfold numeral. pose proof (in_base_digits base k n ltac:(lia)) as H.
  induction H as [|d ds Hd _ IH]; cbn [map app INIReader.digits].
  - destruct tl as [|c tl]; [done|]. cbn in Htl |- *. by rewrite (proj2 (Z.ltb_ge _ _)).
  - rewrite digit_value_digit by lia. rewrite (proj2 (Z.ltb_lt d base)) by lia. by rewrite IH.
Qed.

Lemma number_in_base base k n :
  1 < base → 0 ≤ n < base ^ Z.of_nat k → INIReader.number base (in_base base k n) = n.
Proof.
  intros Hb. revert n. induction k as [|k IH]; intros n Hn.
  - cbn in *. lia.
  - cbn [in_base]. unfold INIReader.number. rewrite foldl_app. cbn [foldl].
    fold (INIReader.number base (in_base base k (n / base))).
    rewrite IH; [pose proof (Z.div_mod n base ltac:(lia)); lia|].
    rewrite Nat2Z.inj_succ, Z.pow_succ_r in Hn by lia.
    split; [apply Z.div_pos; lia|]. apply Z.div_lt_upper_bound; lia.
Qed.

(** A number without leading zeros. *)
Definition minimal (k : nat) (n : Z) : Prop :=
  (0 < k)%nat ∧ 10 ^ (Z.of_nat k - 1) ≤ n < 10 ^ Z.of_nat k.

Lemma minimal_start k n :
  minimal k n → ∃ d ds, in_base 10 k n = d :: ds ∧ 1 ≤ d < 10.
Proof.
  revert n. induction k as [|k IH]; intros n [Hk Hn]; [lia|]. cbn [in_base].
  rewrite Nat2Z.inj_succ in Hn. replace (Z.succ (Z.of_nat k) - 1) with (Z.of_nat k) in Hn by lia.
  destruct k as [|k].
  - cbn in Hn |- *. exists (n mod 10), []. rewrite Z.mod_small by lia. split; [done|lia].
  - destruct (IH (n / 10)) as (d & ds & -> & Hd); [split; [lia|]|].
    + rewrite Nat2Z.inj_succ in Hn |- *. rewrite !Z.pow_succ_r in Hn by lia.
      replace (Z.succ (Z.of_nat k) - 1) with (Z.of_nat k) by lia. rewrite Z.pow_succ_r by lia.
      split; [apply Z.div_le_lower_bound; lia|apply Z.div_lt_upper_bound; lia].
    + by exists d, (ds ++ [n mod 10]).
Qed.

Lemma in_base_cons base k n : ∃ d ds, in_base base (S k) n = d :: ds.
Proof.
  cbn. destruct (in_base base k (n / base)) as [|d ds]; [by exists (n mod base), []|].
  by exists d, (ds ++ [n mod base]).
Qed.

Definition clamp (negative : bool) (n : Z) : Z :=
  if negative then Z.max INIReader.LONG_MIN (- n) else Z.min INIReader.LONG_MAX n.

Definition sign (negative : bool) : list Z := if negative then [45] else [].

(** The part of [strtol] after the sign. *)
Lemma strtol_sign (neg : bool) s :
  char_at s ≠ 45 → char_at s ≠ 43 → isspace (char_at s) = false → s ≠ [] →
  INIReader.strtol (sign neg ++ s) =
    let '(base, s) :=
      match s with
      | c :: x :: d :: s' =>
          if (c =? 48) && ((x =? 120) || (x =? 88)) && (INIReader.digit_value d <? 16)
          then (16, d :: s') else (if c =? 48 then 8 else 10, s)
      | c :: _ => (if c =? 48 then 8 else 10, s)
      | [] => (10, [])
      end in
    match INIReader.digits base s with
    | [] => (0, false)
    | ds => (clamp neg (INIReader.number base ds), true)
    end.
Proof.
  intros H1 H2 H3 Hn. unfold INIReader.strtol. destruct s as [|c s]; [done|]. cbn in H1, H2, H3.
  destruct neg; cbn [sign app].
  - cbn [lskip isspace Z.leb Z.compare Pos.compare Pos.compare_cont andb orb Z.eqb Pos.eqb]. done.
  - cbn [lskip]. rewrite H3. by rewrite (proj2 (Z.eqb_neq c 45)), (proj2 (Z.eqb_neq c 43)).
Qed.

Lemma numeral_cons base k n tl :
  1 < base ≤ 16 → ∃ d ds, numeral base (S k) n ++ tl = digit d :: ds ∧ 0 ≤ d < base.
Proof.
  intros Hb. destruct (in_base_cons base k n) as (d & ds & E).
  pose proof (in_base_digits base (S k) n ltac:(lia)) as H. rewrite E in H.
  apply Forall_cons in H as [Hd _]. exists d, (map digit ds ++ tl). unfold numeral. by rewrite E.
Qed.

Lemma digit_start d : 0 ≤ d < 16 → digit d ≠ 45 ∧ digit d ≠ 43 ∧ isspace (digit d) = false ∧
  digit d ≠ 120 ∧ digit d ≠ 88.
Proof. unfold digit, isspace. intros H. case_match; split_and!; lia. Qed.

Lemma strtol_decimal neg k n tl :
  minimal k n → 10 ≤ INIReader.digit_value (char_at tl) →
  INIReader.strtol (sign neg ++ numeral 10 k n ++ tl) = (clamp neg n, true).
Proof.
  intros Hk Htl. pose proof (digits_numeral 10 k n tl ltac:(lia) Htl) as Hdig.
  destruct (minimal_start k n Hk) as (d & ds & E & Hd).
  destruct (digit_start d ltac:(lia)) as (H1 & H2 & H3 & _).
  assert (numeral 10 k n ++ tl = digit d :: map digit ds ++ tl) as Hs
    by (unfold numeral; by rewrite E).
  assert (digit d ≠ 48) as Hz by (unfold digit; case_match; lia).
  rewrite Hs in Hdig |- *. rewrite strtol_sign by done. cbv zeta.
  apply Z.eqb_neq in Hz. rewrite Hz. cbn [andb].
  assert (INIReader.number 10 (d :: ds) = n) as Hv.
  { rewrite <- E. apply number_in_base; [lia|]. destruct Hk. pose proof (Z.pow_nonneg 10 (Z.of_nat k - 1)). lia. }
  destruct (map digit ds ++ tl) as [|x [|y s]]; rewrite Hdig, E; by rewrite Hv.
Qed.

Lemma strtol_octal neg k n tl :
  0 ≤ n < 8 ^ Z.of_nat (S k) → 8 ≤ INIReader.digit_value (char_at tl) →
  INIReader.strtol (sign neg ++ 48 :: numeral 8 (S k) n ++ tl) = (clamp neg n, true).
Proof.
  intros Hn Htl. pose proof (digits_numeral 8 (S k) n tl ltac:(lia) Htl) as Hdig.
  destruct (numeral_cons 8 k n tl ltac:(lia)) as (x & s & Hs & Hx).
  destruct (digit_start x ltac:(lia)) as (_ & _ & _ & H1 & H2).
  rewrite Hs in Hdig |- *. rewrite strtol_sign by done. cbv zeta.
  rewrite (proj2 (Z.eqb_neq _ _) H1), (proj2 (Z.eqb_neq _ _) H2). cbn [orb andb Z.eqb Pos.eqb].
  assert (INIReader.digits 8 (48 :: digit x :: s) = 0 :: in_base 8 (S k) n) as Hd.
  { cbn [INIReader.digits] in Hdig |- *. by rewrite <- Hdig. }
  assert (INIReader.number 8 (0 :: in_base 8 (S k) n) = n) as Hv by by apply number_in_base.
  destruct s as [|y s]; rewrite Hd; by rewrite Hv.
Qed.

Lemma strtol_hexadecimal neg k n x tl :
  0 ≤ n < 16 ^ Z.of_nat (S k) → x = 120 ∨ x = 88 → 16 ≤ INIReader.digit_value (char_at tl) →
  INIReader.strtol (sign neg ++ 48 :: x :: numeral 16 (S k) n ++ tl) = (clamp neg n, true).
Proof.
  intros Hn Hx Htl. pose proof (digits_numeral 16 (S k) n tl ltac:(lia) Htl) as Hdig.
  destruct (numeral_cons 16 k n tl ltac:(lia)) as (d & s & Hs & Hd).
  rewrite Hs in Hdig |- *. rewrite strtol_sign by done. cbv zeta.
  rewrite digit_value_digit by lia. rewrite (proj2 (Z.ltb_lt d 16)) by lia.
  replace ((x =? 120) || (x =? 88)) with true by by destruct Hx; subst.
  cbn [andb Z.eqb Pos.eqb]. rewrite Hdig. destruct (in_base_cons 16 k n) as (e & es & E).
  rewrite E. rewrite <- E. by rewrite number_in_base by lia.
Qed.

(** Integers are read in decimal, octal after a zero and hexadecimal after 0x, with a sign,
    up to the first character that is no digit and cut to 64 bits; a missing value is the
    default. *)
Theorem integer_notations (r : INIReader.t) (sec name s : list Z) (neg : bool) (k : nat) (n d : Z)
    (tl : list Z) :
  let v := INIReader.Get r sec name [] in
  let i := INIReader.GetInteger r sec name d in
  let after base := base ≤ INIReader.digit_value (char_at tl) in
  (v = sign neg ++ numeral 10 k n ++ tl → minimal k n → after 10 → i = clamp neg n) ∧
  (v = sign neg ++ 48 :: numeral 8 (S k) n ++ tl → 0 ≤ n < 8 ^ Z.of_nat (S k) → after 8 →
    i = clamp neg n) ∧
  (v = sign neg ++ 48 :: 120 :: numeral 16 (S k) n ++ tl → 0 ≤ n < 16 ^ Z.of_nat (S k) →
    after 16 → i = clamp neg n) ∧
  (v = [] → i = d).
Proof.
  intros v i after. unfold i, INIReader.GetInteger. fold v.
  split_and!; intros ->.
  - intros Hk Ha. by rewrite strtol_decimal.
  - intros Hn Ha. by rewrite strtol_octal.
  - intros Hn Ha. by rewrite strtol_hexadecimal by auto.
  - done.
Qed.

(** ** Any file at all *)

Definition no_nul (s : list Z) : Prop := Forall (λ c, c ≠ 0) s.
Definition unspaced (s : list Z) : Prop := isspace (char_at s) = false.

(** The map of a reader holds C strings, under keys of the sections it lists. *)
Record typed (r : INIReader.t) : Prop := {
  typed_values : ∀ key v, INIReader._values r !! key = Some v →
    no_nul v ∧ unspaced v ∧
    ∃ sec name, key = INIReader.MakeKey sec name ∧ no_nul name ∧ sec ∈ INIReader._sections r;
  typed_sections : ∀ sec, sec ∈ INIReader._sections r → no_nul sec ∧ (length sec < MAX_SECTION)%nat;
}.

Record parser_typed (s : parser INIReader.t) : Prop := {
  pt_section : no_nul (section s) ∧ (length (section s) < MAX_SECTION)%nat;
  pt_name : no_nul (prev_name s) ∧ (length (prev_name s) < MAX_NAME)%nat;
  pt_error : 0 ≤ error s ≤ lineno s;
  pt_user : typed (user s);
}.

Lemma find_no_nul s cs :
  no_nul s → no_nul (find_chars_or_comment s cs).1 ∧ no_nul (find_chars_or_comment s cs).2.
Proof.
  unfold find_chars_or_comment. generalize false. intros sp H. revert sp.
  induction H as [|c s Hc H IH]; intros sp; [by split; constructor|]. cbn [find_loop].
  case_match; [split; [constructor|by constructor]|].
  specialize (IH (isspace c)). destruct (find_loop (isspace c) s cs) as [b f]. cbn in *.
  destruct IH. split; [by constructor|done].
Qed.

Lemma find_unspaced s cs : unspaced s → unspaced (find_chars_or_comment s cs).1.
Proof.
  unfold find_chars_or_comment. destruct s as [|c s]; [done|]. cbn [find_loop]. intros H.
  case_match; [done|]. by destruct (find_loop (isspace c) s cs).
Qed.

Lemma lskip_unspaced s : unspaced (lskip s).
Proof.
  induction s as [|c s IH]; [done|]. cbn. destruct (isspace c) eqn:Hc; [done|]. exact Hc.
Qed.

Lemma lskip_no_nul s : no_nul s → no_nul (lskip s).
Proof.
  induction 1 as [|c s Hc H IH]; [constructor|]. cbn. destruct (isspace c); [done|by constructor].
Qed.

Lemma rstrip_unspaced s : unspaced s → unspaced (rstrip s).
Proof.
  destruct s as [|c s]; [done|]. cbn. intros H.
  destruct (rstrip s); [destruct (isspace c)|]; done.
Qed.

Lemma rstrip_no_nul s : no_nul s → no_nul (rstrip s).
Proof. apply rstrip_Forall. Qed.

Lemma c_str_no_nul s : no_nul (c_str s).
Proof.
  induction s as [|c s IH]; [constructor|]. cbn. destruct (Z.eqb_spec c 0); by constructor.
Qed.

#[local] Hint Resolve rstrip_no_nul lskip_no_nul rstrip_unspaced lskip_unspaced find_unspaced
  c_str_no_nul : core.

Lemma handler_typed r sec name value :
  typed r → no_nul sec → (length sec < MAX_SECTION)%nat → no_nul name → no_nul value →
  unspaced value → typed (INIReader.ValueHandler sec name value r).1.
Proof.
  intros [Hv Hs] H1 H2 H3 H4 H5. unfold INIReader.ValueHandler. cbn [fst]. split.
  - cbn [INIReader._values INIReader._sections upd INIReader.eta_t]. intros key v Hk.
    destruct (decide (INIReader.MakeKey sec name = key)) as [<-|Hne].
    + rewrite lookup_insert_eq in Hk. injection Hk as <-.
      assert (no_nul (default [] (INIReader._values r !! INIReader.MakeKey sec name)) ∧
              unspaced (default [] (INIReader._values r !! INIReader.MakeKey sec name))) as [Ho1 Ho2].
      { destruct (INIReader._values r !! _) as [o|] eqn:E; [|by split; [constructor|]].
        by destruct (Hv _ _ E) as (? & ? & _). }
      destruct (default [] (INIReader._values r !! _)) as [|c o] eqn:E; cbn [length Nat.ltb Nat.leb app].
      * split; [done|]. split; [done|]. exists sec, name. split_and!; [done..|set_solver].
      * split; [|split; [exact Ho2|exists sec, name; split_and!; [done..|set_solver]]].
        change (no_nul (((c :: o) ++ [10]) ++ value)). unfold no_nul in *.
        rewrite !Forall_app. split_and!; [done|by repeat constructor|done].
    + rewrite lookup_insert_ne in Hk by done. destruct (Hv _ _ Hk) as (? & ? & s' & n' & ? & ? & ?).
      split_and!; [done..|]. exists s', n'. split_and!; [done..|set_solver].
  - cbn [INIReader._sections upd INIReader.eta_t]. intros s' Hin.
    apply elem_of_union in Hin as [Hin|Hin]; [|by apply Hs].
    apply elem_of_singleton in Hin as ->. done.
Qed.

Lemma set_error_typed s : parser_typed s → 0 ≤ lineno s → parser_typed (set_error s).
Proof.
  intros [H1 H2 H3 H4] Hl. unfold set_error. case_match; split; cbn; auto. lia.
Qed.

Lemma call_handler_typed name value s :
  parser_typed s → no_nul name → no_nul value → unspaced value →
  parser_typed (call_handler INIReader.ValueHandler name value s).
Proof.
  intros [H1 H2 H3 H4] Hn Hv Hu. unfold call_handler.
  pose proof (handler_typed (user s) (section s) name value H4 ltac:(apply H1) ltac:(apply H1) Hn Hv Hu)
    as Ht.
  by split; cbn.
Qed.

Lemma strncpy0_typed s size :
  no_nul s → (0 < size)%nat → no_nul (strncpy0 s size) ∧ (length (strncpy0 s size) < size)%nat.
Proof.
  intros Hs Hn. unfold strncpy0. rewrite length_take. split; [by apply Forall_take|lia].
Qed.

Lemma tail_no_nul s : no_nul s → no_nul (tail s).
Proof. destruct 1; [constructor|done]. Qed.

Lemma parse_text_typed text moved s :
  no_nul text → unspaced text → parser_typed s → 0 ≤ lineno s →
  parser_typed (parse_text INIReader.ValueHandler text moved s).
Proof.
  intros Hn Hu Hs Hl. unfold parse_text. case_match; [done|]. case_match.
  { destruct (find_no_nul text None Hn) as [Hb _]. pose proof (find_unspaced text None Hu) as Hub.
    destruct (find_chars_or_comment text None) as [v f]. cbn in *.
    apply call_handler_typed; auto. apply Hs. }
  case_match.
  { destruct (find_no_nul (tail text) (Some [93]) (tail_no_nul _ Hn)) as [Hb _].
    destruct (find_chars_or_comment (tail text) (Some [93])) as [v f]. cbn in *.
    case_match; [|by apply set_error_typed].
    pose proof (strncpy0_typed v MAX_SECTION Hb ltac:(unfold MAX_SECTION; lia)).
    destruct Hs. split; cbn; auto. split; [constructor|unfold MAX_NAME; lia]. }
  case_match; [|done].
  destruct (find_no_nul text (Some [61; 58]) Hn) as [Hb Hf].
  destruct (find_chars_or_comment text (Some [61; 58])) as [name f]. cbn [fst snd] in *.
  case_match; [|by apply set_error_typed].
  assert (no_nul (lskip (tail f))) as Ht by auto using tail_no_nul.
  destruct (find_no_nul _ None Ht) as [Hvn _].
  pose proof (find_unspaced (lskip (tail f)) None (lskip_unspaced _)) as Hvu.
  destruct (find_chars_or_comment (lskip (tail f)) None) as [v f']. cbn [fst] in *.
  apply call_handler_typed; auto.
  pose proof (strncpy0_typed (rstrip name) MAX_NAME ltac:(auto) ltac:(unfold MAX_NAME; lia)).
  destruct Hs. by split; cbn.
Qed.

Lemma parse_line_typed line s :
  parser_typed s → parser_typed (parse_line INIReader.ValueHandler line s).
Proof.
  intros Hs. unfold parse_line. cbv zeta. apply parse_text_typed; auto.
  - apply lskip_no_nul, rstrip_no_nul. case_match; [apply Forall_drop|]; apply c_str_no_nul.
  - destruct Hs as [H1 H2 H3 H4]. split; cbn; auto. lia.
  - destruct Hs as [_ _ H3 _]. cbn. lia.
Qed.

Lemma lineno_meaning line s :
  lineno (parse_line INIReader.ValueHandler line s) = lineno s + 1.
Proof.
  unfold parse_line, parse_text. cbv zeta. unfold call_handler, set_error.
  repeat case_match; simplify_eq/=; done.
Qed.

(** A line takes at least a character off the file. *)
Lemma parse_loop_typed fuel stream s :
  parser_typed s →
  let s' := parse_loop INIReader.ValueHandler fuel stream s in
  parser_typed s' ∧ lineno s ≤ lineno s' ≤ lineno s + Z.of_nat (length stream).
Proof.
  revert stream s. induction fuel as [|fuel IH]; intros stream s Hs; [cbn; split; [done|lia]|].
  cbn [parse_loop]. destruct stream as [|c stream]; [cbn; split; [done|lia]|].
  pose proof (fgets_rest (INI_MAX_LINE - 1) (c :: stream) ltac:(cbn; lia) ltac:(done)) as Hr.
  destruct (fgets (INI_MAX_LINE - 1) (c :: stream)) as [line rest].
  specialize (IH rest _ (parse_line_typed line s Hs)). cbn zeta in IH. rewrite lineno_meaning in IH.
  destruct IH as [H1 H2]. split; [done|].
  cbn [length snd] in *. lia.
Qed.

Lemma typed_empty : typed (INIReader.mk 0 ∅ ∅).
Proof. split; cbn; [intros key v H; by rewrite lookup_empty in H|set_solver]. Qed.

Lemma reading_typed (file : option (list Z)) :
  let r := INIReader.init file in
  typed r ∧
  match file with
  | None => INIReader.ParseError r = -1 ∧ INIReader.Sections r = ∅
  | Some text => 0 ≤ INIReader.ParseError r ≤ Z.of_nat (length text)
  end.
Proof.
  unfold INIReader.init. destruct file as [text|]; cbn [ini_parse].
  - unfold ini_parse_stream.
    pose proof (parse_loop_typed (length text) text (mk_parser [] [] 0 0 (INIReader.mk 0 ∅ ∅))) as H.
    destruct H as [[H1 H2 H3 [H4 H5]] H6].
    { split; cbn; [| |lia|apply typed_empty]; (split; [constructor|unfold MAX_SECTION, MAX_NAME; lia]). }
    cbn [lineno] in H6. cbn. split; [by split|]. lia.
  - cbn. split; [|done]. destruct typed_empty as [H1 H2]. by split.
Qed.

(** C38. Whatever bytes the configuration file holds, reading it ends with a well-typed
    reader: its values are C strings that start with no blank, under keys of the sections it
    lists, the names of the sections fit their array, and the result is -1 exactly when the
    file does not open and else between 0 and the number of its characters. *)
Theorem config_typed (file : option (list Z)) :
  let r := INIReader.init file in
  typed r ∧
  match file with
  | None => INIReader.ParseError r = -1 ∧ INIReader.Sections r = ∅
  | Some text => 0 ≤ INIReader.ParseError r ≤ Z.of_nat (length text)
  end.
Proof. exact (reading_typed file). Qed.

(** ** Decidability *)

#[export] Instance word_ok_dec name : Decision (word_ok name).
Proof.
  refine (cast_if (decide (Forall (λ c, word_char c ∧ c ≠ 61 ∧ c ≠ 58) name ∧ trimmed name ∧
                           char_at name ∉ [0; 59; 35; 91; 0xEF])));
    [by split; destruct_and!|intros [H1 H2 H3]; by destruct_and?; auto].
Defined.

#[export] Instance inline_ok_dec c : Decision (inline_ok c).
Proof. destruct c as [[w text]|]; apply _. Defined.

#[export] Instance valid_dec i : Decision (valid i).
Proof. destruct i; apply _. Defined.

#[export] Instance minimal_dec k n : Decision (minimal k n).
Proof. apply _. Defined.

(** ** Witnesses *)

(** The file that the repository ships, with the stub of the debugger enabled or not. *)
Definition setting (name value : string) : item := Pair (chars name) [] 61 [] (chars value) None.

Definition shipped (enable : string) : list item :=
  [ Comment [] 59 (chars " Test config file for ini_example.c and INIReaderTest.cpp"); Blank [];
    Header (chars "vm-spec") []; Comment [] 35 (chars "mem size in MB"); setting "memsize" "10";
    Blank []; Header (chars "debug-server") []; setting "enable" "no"; setting "port" "5553";
    Blank []; Header (chars "gdb-server") []; setting "enable" enable;
    setting "address" "127.0.0.1"; setting "port" "1234" ].

Lemma shipped_ok enable :
  enable = "no" ∨ enable = "yes" → Forall valid (shipped enable) ∧ Forall fits (shipped enable).
Proof. intros [-> | ->]; (split; apply (bool_decide_unpack _); vm_compute; exact I). Qed.

Definition unlines (ls : list string) : list Z := concat (map (λ l, chars l ++ [10]) ls).

(** The file of the repository, character by character. *)
Theorem shipped_text :
  print_file (shipped "no") = unlines
    ["; Test config file for ini_example.c and INIReaderTest.cpp"; ""; "[vm-spec]";
     "#mem size in MB"; "memsize=10"; ""; "[debug-server]"; "enable=no"; "port=5553"; "";
     "[gdb-server]"; "enable=no"; "address=127.0.0.1"; "port=1234"].
Proof. vm_compute. reflexivity. Qed.

Lemma config_read_witness :
  let r := INIReader.init (Some (print_file (shipped "no"))) in
  INIReader.ParseError r = 0 ∧
  INIReader.Get r (chars "VM-Spec") (chars "MEMSIZE") [] = chars "10" ∧
  INIReader.Get r (chars "gdb-server") (chars "address") [] = chars "127.0.0.1" ∧
  INIReader.Get r (chars "vm-spec") (chars "port") (chars "none") = chars "none".
Proof.
  intros r. destruct (shipped_ok "no" ltac:(by left)) as [Hv Hf].
  destruct (config_read (shipped "no") Hv Hf) as (He & _ & Hget). fold r in He, Hget.
  rewrite He, !Hget. vm_compute. by repeat split.
Defined.

(** A line of the grammar continued, an inline comment, and a line that is not one. *)
Definition sample : list item :=
  [ Header (chars "a") []; Pair (chars "x") [32] 58 [32] (chars "one") (Some ([32], chars "c"));
    Continuation [32; 32] (chars "two") None; Bare (chars "three"); setting "X" "four" ].

Lemma sample_meaning :
  first_fault 1 [] sample = 4 ∧
  value_of (INIReader.MakeKey (chars "A") (chars "x")) (entries [] [] sample) =
    Some (chars "one" ++ [10] ++ chars "two" ++ [10] ++ chars "four").
Proof. split; vm_compute; reflexivity. Qed.

Lemma integer_notations_witness :
  let r := INIReader.init (Some (unlines ["[s]"; "d=-1234"; "o=010"; "h=0x1f"; "t=12abc";
                                          "b=9999999999999999999"])) in
  let i name := INIReader.GetInteger r (chars "s") (chars name) 7 in
  i "d" = -1234 ∧ i "o" = 8 ∧ i "h" = 31 ∧ i "t" = 12 ∧ i "b" = INIReader.LONG_MAX ∧ i "n" = 7.
Proof.
  intros r i.
  pose proof (λ name, integer_notations r (chars "s") (chars name)) as H. cbv zeta in H.
  split_and!.
  - refine (proj1 (H "d" [] true 4%nat 1234 7 []) _ _ _);
      [vm_compute; reflexivity|apply (bool_decide_unpack _); exact I|vm_compute; congruence].
  - refine (proj1 (proj2 (H "o" [] false 1%nat 8 7 [])) _ _ _);
      [vm_compute; reflexivity|apply (bool_decide_unpack _); exact I|vm_compute; congruence].
  - refine (proj1 (proj2 (proj2 (H "h" [] false 1%nat 31 7 []))) _ _ _);
      [vm_compute; reflexivity|apply (bool_decide_unpack _); exact I|vm_compute; congruence].
  - refine (proj1 (H "t" [] false 2%nat 12 7 (chars "abc")) _ _ _);
      [vm_compute; reflexivity|apply (bool_decide_unpack _); exact I|vm_compute; congruence].
  - refine (proj1 (H "b" [] false 19%nat 9999999999999999999 7 []) _ _ _);
      [vm_compute; reflexivity|apply (bool_decide_unpack _); exact I|vm_compute; congruence].
  - refine (proj2 (proj2 (proj2 (H "n" [] false 0%nat 0 7 []))) _). vm_compute. reflexivity.
Defined.

(** A line of 200 characters and more is cut: its rest is read as another line. *)
Theorem long_line_cut :
  let text := chars "x=" ++ replicate 197 97 ++ chars "y=b" ++ [10] in
  let r := INIReader.init (Some text) in
  INIReader.Get r [] (chars "x") [] = replicate 197 97 ∧
  INIReader.Get r [] (chars "y") [] = chars "b".
Proof. split; vm_compute; reflexivity. Qed.

(** An empty value takes the comment that follows it. *)
Theorem empty_value_comment :
  INIReader.Get (INIReader.init (Some (unlines ["name= ; comment"]))) [] (chars "name") [] =
  chars "; comment".
Proof. vm_compute. reflexivity. Qed.

End grammar.
