(* ===== verification/GuestKeyboard.v ===== *)
(** * A guest of the machine: the keyboard program (target/keyboard_program.s)

The program that runs inside the virtual machine, one instruction at a time on the
registers of the virtual CPU that it uses, with the exits of its instructions served by the
machine of Machine.v and the keystrokes of the console thread at any point between two
instructions. *)

From S2P Require Import Prelude IODevice Keyboard VgaController SerialPort ConsoleInput Machine.

Module keyboard_program.
#[local] Existing Instance kvm.eta_t.
#[local] Existing Instance serial_port.eta_t.

(** ** The program *)

(** Instructions, with the targets of the jumps as indices in the program. *)
Inductive instr : Type :=
  | movb_al (v : Z)
  | movw_dx (v : Z)
  | outb (port : Z)
  | outb_dx
  | inb (port : Z)
  | test_al (mask : Z)
  | jz (target : nat)
  | jmp (target : nat).

Definition wait_char : nat := 3.

Definition start : list instr :=
  [ movb_al 0x60; outb 0x64; outb 0x60;
    inb 0x64; test_al 0x01; jz wait_char;
    inb 0x60; movw_dx 0x2f8; outb_dx; movb_al 10; outb_dx; jmp wait_char ].

(** ** The virtual CPU *)

Record cpu : Type := mk_cpu { pc : nat; al : Z; dx : Z; zf : bool }.
#[export] Instance eta_cpu : Eta cpu := λ c, mk_cpu (pc c) (al c) (dx c) (zf c).

Record t : Type := mk { vcpu : cpu; machine : kvm.t }.
#[export] Instance eta_t : Eta t := λ s, mk (vcpu s) (machine s).

Definition set_cpu (f : cpu → cpu) : io t unit := modify (λ s, s <| vcpu := f (vcpu s) |>).

Definition exit (x : kvm.io_exit) : io t (list Z) :=
  zoom machine (λ m s, s <| machine := m |>) (kvm.handle_io x).

Definition next (c : cpu) : cpu := c <| pc := S (pc c) |>.

Definition exec (i : instr) : io t unit :=
  s ← get;
  let c := vcpu s in
  match i with
  | movb_al v => set_cpu (λ c, next (c <| al := v |>))
  | movw_dx v => set_cpu (λ c, next (c <| dx := v |>))
  | outb p => exit (kvm.out_byte p (al c));; set_cpu next
  | outb_dx => exit (kvm.out_byte (dx c) (al c));; set_cpu next
  | inb p => page ← exit (kvm.in_byte p); set_cpu (λ c, next (c <| al := hd 0 page |>))
  | test_al mask => set_cpu (λ c, next (c <| zf := negb (has_bits (al c) mask) |>))
  | jz target => set_cpu (λ c, if zf c then c <| pc := target |> else next c)
  | jmp target => set_cpu (λ c, c <| pc := target |>)
  end.

Definition turn : io t unit :=
  s ← get;
  match start !! pc (vcpu s) with
  | Some i => exec i
  | None => crash OutOfBounds
  end.

(** An instruction of the guest, or a keystroke of the console thread. *)
Inductive tick : Type := Turn | Key (keycode : Z).

Definition step (k : tick) : io t unit :=
  match k with
  | Turn => turn
  | Key code =>
      zoom machine (λ m s, s <| machine := m |>) (kvm.step (kvm.Insert code));; mret tt
  end.

(** The guest at its entry, on the machine that the supervisor starts. *)
Definition boot (m : kvm.t) : t := mk (mk_cpu 0 0 0 false) m.

(** The keycodes that the keyboard takes. *)
Definition takes (m : kvm.t) : bool :=
  keyboard.enabled (kvm.keyb m) &&
  (keyboard.buffer_element_count (kvm.keyb m) <? keyboard.INTERNAL_BUFFER_SIZE).

Fixpoint accepted (ks : list tick) (s : t) : list Z :=
  match ks with
  | [] => []
  | k :: ks =>
      match step k s with
      | Halt _ => []
      | Done (_, s', _) =>
          match k with
          | Key code => (if takes (machine s) then [code] else []) ++ accepted ks s'
          | Turn => accepted ks s'
          end
      end
  end.

(** What the program prints for a keycode. *)
Definition lines (codes : list Z) : list Z := concat (map (λ k, [k; 10]) codes).

(** ** The exits of the program *)

Lemma operand_out p v : kvm.operand 1 (kvm.out_byte p v) = v.
Proof. unfold kvm.operand. cbn -[Z.add Z.mul]. lia. Qed.

Lemma keyb_write p v m d ev :
  p = 0x60 ∨ p = 0x64 → keyboard.write_reg_byte p v (kvm.keyb m) = Done (tt, d, ev) →
  kvm.handle_io (kvm.out_byte p v) m = Done ([v; 0; 0; 0], m <| kvm.keyb := d |>, ev).
Proof.
  intros Hp Hd. unfold kvm.handle_io.
  assert (kvm.single 1 (kvm.out_byte p v) && ((p =? 0x60) || (p =? 0x64)) = true) as Hs
    by by destruct Hp; subst.
  change (kvm.port (kvm.out_byte p v)) with p. rewrite Hs. unfold kvm.transfer.
  cbn [kvm.direction kvm.out_byte kvm.KVM_EXIT_IO_OUT Z.eqb Pos.eqb].
  change (kvm.mk_io _ _ _ _ _) with (kvm.out_byte p v). rewrite operand_out.
  unfold kvm.on_keyb. erewrite zoom_bind_done by exact Hd. cbn. by rewrite app_nil_r.
Qed.

Lemma keyb_read p m v d ev :
  p = 0x60 ∨ p = 0x64 → keyboard.read_reg_byte p (kvm.keyb m) = Done (v, d, ev) →
  kvm.handle_io (kvm.in_byte p) m = Done ([u8 v; 0; 0; 0], m <| kvm.keyb := d |>, ev).
Proof.
  intros Hp Hd. unfold kvm.handle_io.
  assert (kvm.single 1 (kvm.in_byte p) && ((p =? 0x60) || (p =? 0x64)) = true) as Hs
    by by destruct Hp; subst.
  change (kvm.port (kvm.in_byte p)) with p. rewrite Hs. unfold kvm.transfer.
  cbn [kvm.direction kvm.in_byte kvm.KVM_EXIT_IO_OUT kvm.KVM_EXIT_IO_IN Z.eqb].
  unfold kvm.on_keyb. erewrite zoom_bind_done by exact Hd. cbn. by rewrite app_nil_r.
Qed.

Lemma com2_write v m :
  serial_port.THR_addr (kvm.com2 m) = 0x2f8 →
  ∃ d, kvm.handle_io (kvm.out_byte 0x2f8 v) m =
      Done ([v; 0; 0; 0], m <| kvm.com2 := d |>, [SerialChar v]) ∧
    serial_port.base_addr d = serial_port.base_addr (kvm.com2 m).
Proof.
  intros Hb. exists ((kvm.com2 m) <| serial_port.THR := u8 0x2f8 |>). split; [|done].
  unfold kvm.handle_io. change (kvm.port (kvm.out_byte 0x2f8 v)) with 0x2f8.
  change (kvm.single 1 (kvm.out_byte 0x2f8 v)) with true.
  change (kvm.within 0x2f8 0x2ff (kvm.out_byte 0x2f8 v)) with true.
  change (kvm.within 0x3f8 0x3ff (kvm.out_byte 0x2f8 v)) with false.
  cbn [andb orb Z.eqb Pos.eqb]. unfold kvm.transfer. rewrite operand_out.
  change (kvm.direction (kvm.out_byte 0x2f8 v) =? kvm.KVM_EXIT_IO_OUT) with true. cbv match.
  unfold kvm.on_com2.
  erewrite zoom_bind_done with (ev := [SerialChar v]) (a := tt)
    (t := (kvm.com2 m) <| serial_port.THR := u8 0x2f8 |>); [reflexivity|].
  unfold serial_port.write_reg_byte. erewrite bind_quiet by reflexivity. rewrite Hb. reflexivity.
Qed.


(** ** The invariant *)

Definition codes (s : t) : list Z := keyboard.contents (kvm.keyb (machine s)).

(** What the program knows at each instruction. *)
Definition at_instruction (c : cpu) (k : keyboard.t) : Prop :=
  match pc c with
  | 0%nat => True
  | 1%nat => al c = 0x60
  | 2%nat => al c = 0x60 ∧ keyboard.CMR k = 0x60
  | 4%nat => has_bits (al c) 0x01 = true → keyboard.contents k ≠ []
  | 5%nat => zf c = false → keyboard.contents k ≠ []
  | 6%nat => keyboard.contents k ≠ []
  | 8%nat | 9%nat => dx c = 0x2f8
  | 10%nat => dx c = 0x2f8 ∧ al c = 10
  | _ => True
  end.

Record inv (s : t) : Prop := {
  inv_keyb : keyboard.wf (kvm.keyb (machine s));
  inv_attached : ConsoleInput.attached_keyboard (kvm.console_in (machine s)) = true;
  inv_com2 : serial_port.THR_addr (kvm.com2 (machine s)) = 0x2f8;
  inv_codes : Forall is_u8 (codes s);
  inv_pc : (pc (vcpu s) < 12)%nat;
  inv_at : at_instruction (vcpu s) (kvm.keyb (machine s));
  inv_enabled : (3 ≤ pc (vcpu s))%nat → keyboard.enabled (kvm.keyb (machine s)) = true;
}.

(** What is still to be printed for the keycodes taken so far. *)
Definition in_flight (c : cpu) : list Z :=
  match pc c with
  | 7%nat | 8%nat => [al c; 10]
  | 9%nat | 10%nat => [10]
  | _ => []
  end.

Definition todo (s : t) : list Z := in_flight (vcpu s) ++ lines (codes s).

(** A bound on the number of instructions until it is printed. *)
Definition offset (c : cpu) : Z :=
  match pc c with
  | 0%nat => 3
  | 1%nat => 2
  | 2%nat => 1
  | 4%nat => if has_bits (al c) 0x01 then -1 else 2
  | 5%nat => if zf c then 1 else -2
  | 6%nat => -3
  | 7%nat => 5
  | 8%nat => 4
  | 9%nat => 3
  | 10%nat => 2
  | 11%nat => 1
  | _ => 0
  end.

Definition rank (s : t) : Z := 9 * (Z.of_nat (length (codes s)) + 1) + offset (vcpu s).

(** The effect of a turn. *)
Definition turns (s s' : t) (ev : list event) : Prop :=
  inv s' ∧ todo s = serial_output ev ++ todo s' ∧ (todo s = [] ∨ rank s' < rank s).

(** ** One instruction *)

Lemma turn_exec s i : start !! pc (vcpu s) = Some i → turn s = exec i s.
Proof. intros Hi. unfold turn. erewrite bind_quiet by reflexivity. by rewrite Hi. Qed.

Lemma exec_out c m p page m' ev :
  kvm.handle_io (kvm.out_byte p (al c)) m = Done (page, m', ev) →
  exec (outb p) (mk c m) = Done (tt, mk (next c) m', ev).
Proof.
  intros H. unfold exec, exit. erewrite bind_quiet by reflexivity.
  erewrite zoom_bind_done by exact H. unfold set_cpu, modify. by rewrite app_nil_r.
Qed.

Lemma exec_out_dx c m page m' ev :
  kvm.handle_io (kvm.out_byte (dx c) (al c)) m = Done (page, m', ev) →
  exec outb_dx (mk c m) = Done (tt, mk (next c) m', ev).
Proof. exact (exec_out c m (dx c) page m' ev). Qed.

Lemma exec_in c m p v page m' ev :
  kvm.handle_io (kvm.in_byte p) m = Done (v :: page, m', ev) →
  exec (inb p) (mk c m) = Done (tt, mk (next (c <| al := v |>)) m', ev).
Proof.
  intros H. unfold exec, exit. erewrite bind_quiet by reflexivity.
  erewrite zoom_bind_done by exact H. unfold set_cpu, modify. by rewrite app_nil_r.
Qed.

(** The rank of the next instruction. *)
Ltac by_rank :=
  right; unfold rank, codes, offset;
  cbn -[Z.mul Z.add has_bits Z.of_nat keyboard.contents]; repeat case_match; try lia.

(** The invariant, when the instruction does not reach the devices. *)
Ltac keep_inv Hen :=
  split; cbn -[has_bits]; [assumption..|unfold wait_char; lia|auto|intros; first [apply Hen; lia|lia]].

(** Instructions without an exit. *)
Lemma turn_quiet c m :
  inv (mk c m) → pc c ∈ [0; 4; 5; 7; 9; 11]%nat →
  ∃ s', turn (mk c m) = Done (tt, s', []) ∧ turns (mk c m) s' [].
Proof.
  intros [Hk Ha H2 Hc Hpc Hat Hen] Hin. destruct c as [pc al dx zf]. cbn -[has_bits] in *.
  repeat (apply elem_of_cons in Hin as [->|Hin]); [..|by apply elem_of_nil in Hin];
    (eexists; split; [by erewrite turn_exec by reflexivity|]).
  - split; [keep_inv Hen|]. split; [done|by_rank].
  - split; [keep_inv Hen|].
    + intros Hz. apply Hat. by apply negb_false_iff in Hz.
    + split; [done|]. by_rank; destruct (has_bits al 1); done.
  - destruct zf; (split; [keep_inv Hen|]; split; [done|by_rank]).
  - split; [keep_inv Hen|]. split; [done|by_rank].
  - split; [keep_inv Hen|]. split; [done|by_rank].
  - split; [keep_inv Hen|]. split; [done|by_rank].
Qed.

(** The keyboard as a queue. *)
Lemma abs_fields k q :
  keyboard.abs k = q →
  keyboard.contents k = keyboard.queue q ∧ keyboard.RBR k = keyboard.q_last q ∧
  keyboard.CMR k = keyboard.q_cmd q ∧ keyboard.enabled k = keyboard.q_on q.
Proof. by intros <-. Qed.

(** The two exits that configure the keyboard. *)
Lemma turn_configure c m :
  inv (mk c m) → pc c = 1%nat ∨ pc c = 2%nat →
  ∃ s' ev, turn (mk c m) = Done (tt, s', ev) ∧ serial_output ev = [] ∧ turns (mk c m) s' ev.
Proof.
  intros [Hk Ha H2 Hc Hpc Hat Hen] Hin. destruct c as [pc al dx zf]. cbn -[has_bits] in *.
  destruct Hin as [-> | ->]; cbn in Hat.
  - subst al. pose proof (keyboard.write_refines 0x64 0x60 _ Hk) as (k & Hrun & Hwf & Hq).
    destruct (abs_fields _ _ Hq) as (Hq1 & _ & Hq2 & _). cbn in Hq1, Hq2.
    eexists _, []. split.
    { erewrite turn_exec by reflexivity. eapply exec_out. eapply keyb_write; [auto|exact Hrun]. }
    split; [done|]. split; [split; cbn|split; unfold todo, codes; cbn]; unfold codes in *; cbn;
      rewrite ?Hq1; auto; try lia. by_rank; rewrite Hq1; lia.
  - destruct Hat as [-> Hcmd].
    pose proof (keyboard.write_refines 0x60 0x60 _ Hk) as H60. cbn in H60. rewrite Hcmd in H60. cbn in H60.
    destruct H60 as (k & Hrun & Hwf & Hq). rewrite orb_false_r in Hq.
    destruct (abs_fields _ _ Hq) as (Hq1 & _ & _ & Hq2). cbn in Hq1, Hq2.
    eexists _, []. split.
    { erewrite turn_exec by reflexivity. eapply exec_out. eapply keyb_write; [auto|exact Hrun]. }
    split; [done|]. split; [split; cbn|split; unfold todo, codes; cbn]; unfold codes in *; cbn;
      rewrite ?Hq1; auto; try lia. by_rank; rewrite Hq1; lia.
Qed.

(** The poll of the status register. *)
Lemma turn_poll c m :
  inv (mk c m) → pc c = 3%nat →
  ∃ s', turn (mk c m) = Done (tt, s', []) ∧ turns (mk c m) s' [].
Proof.
  intros [Hk Ha H2 Hc Hpc Hat Hen] Hp. destruct c as [pc al dx zf]. cbn -[has_bits] in *. subst pc.
  pose proof (keyboard.read_refines 0x64 _ Hk) as (k & Hrun & Hwf & Hq).
  destruct (abs_fields _ _ Hq) as (Hq1 & _ & _ & Hq2). cbn in Hq1, Hq2.
  eexists. split.
  { erewrite turn_exec by reflexivity. eapply exec_in. eapply keyb_read; [auto|exact Hrun]. }
  unfold codes in *. cbn -[has_bits keyboard.contents] in *. split.
  - split; cbn -[has_bits]; unfold codes; cbn -[has_bits]; rewrite ?Hq1; auto; try lia.
    + by destruct (keyboard.contents (kvm.keyb m)).
    + intros _. rewrite Hq2. apply Hen. lia.
  - unfold todo, codes. cbn. rewrite Hq1. split; [done|].
    destruct (keyboard.contents (kvm.keyb m)) as [|d ds] eqn:Hcs; [by left|].
    right. change (u8 (level_of (keyboard.nonempty (d :: ds)))) with 1. unfold rank, codes, offset.
    cbn -[Z.mul Z.add Z.of_nat keyboard.contents has_bits]. rewrite Hq1, Hcs.
    change (has_bits 1 1) with true. lia.
Qed.

(** The read of a keycode. *)
Lemma turn_read c m :
  inv (mk c m) → pc c = 6%nat →
  ∃ s' ev, turn (mk c m) = Done (tt, s', ev) ∧ serial_output ev = [] ∧ turns (mk c m) s' ev.
Proof.
  intros [Hk Ha H2 Hc Hpc Hat Hen] Hp. destruct c as [pc al dx zf]. cbn in *. subst pc.
  pose proof (keyboard.read_refines 0x60 _ Hk) as (k & Hrun & Hwf & Hq).
  destruct (abs_fields _ _ Hq) as (Hq1 & _ & _ & Hq2). cbn in Hq1, Hq2.
  eexists _, _. split.
  { erewrite turn_exec by reflexivity. eapply exec_in. eapply keyb_read; [auto|exact Hrun]. }
  assert (∀ b : bool, serial_output (if b then [keyboard.irq1 1] else []) = [])
    as Hser by by intros [].
  split; [apply Hser|]. unfold codes in *. cbn -[has_bits keyboard.contents] in *.
  destruct (keyboard.contents (kvm.keyb m)) as [|d ds] eqn:Hcs; [done|].
  apply Forall_cons in Hc as [Hd Hds]. cbn [hd tl] in *. split.
  - split; cbn -[has_bits]; unfold codes; cbn; rewrite ?Hq1; auto; try lia.
    intros _. rewrite Hq2. apply Hen. lia.
  - cbn [serial_output keyboard.irq1]. rewrite Hser. unfold todo, codes. cbn. rewrite Hcs, Hq1, u8_id by done. split; [done|].
    right. unfold rank, codes. cbn -[Z.mul Z.add Z.of_nat keyboard.contents].
    rewrite Hq1, Hcs. cbn [length]. lia.
Qed.

(** The two characters that are sent. *)
Lemma turn_send c m :
  inv (mk c m) → pc c = 8%nat ∨ pc c = 10%nat →
  ∃ s' ev, turn (mk c m) = Done (tt, s', ev) ∧ turns (mk c m) s' ev.
Proof.
  intros [Hk Ha H2 Hc Hpc Hat Hen] Hp. destruct c as [pc al dx zf]. cbn -[has_bits] in *.
  destruct (com2_write al m H2) as (d & Hrun & Hb).
  assert (serial_port.THR_addr d = 0x2f8) as Hd by by unfold serial_port.THR_addr; rewrite Hb.
  assert (dx = 0x2f8) as -> by by destruct Hp; subst; apply Hat || destruct Hat.
  exists (mk (next (mk_cpu pc al 0x2f8 zf)) (m <| kvm.com2 := d |>)), [SerialChar al]. split.
  { destruct Hp as [-> | ->]; (erewrite turn_exec by reflexivity);
      (eapply exec_out_dx; cbn [keyboard_program.dx keyboard_program.al]; exact Hrun). }
  destruct Hp as [-> | ->].
  - split; [keep_inv Hen|]. split; [done|by_rank].
  - cbn in Hat. destruct Hat as [_ ->].
    split; [keep_inv Hen|]. split; [done|by_rank].
Qed.

Lemma turn_step s : inv s → ∃ s' ev, turn s = Done (tt, s', ev) ∧ turns s s' ev.
Proof.
  intros Hs. destruct s as [c m]. pose proof (inv_pc _ Hs) as Hpc. cbn in Hpc.
  destruct (decide (pc c ∈ [0; 4; 5; 7; 9; 11]%nat)) as [Hq|Hq].
  { destruct (turn_quiet c m Hs Hq) as (s' & ? & ?); eauto. }
  destruct (decide (pc c = 3%nat)) as [H3|H3].
  { destruct (turn_poll c m Hs H3) as (s' & ? & ?); eauto. }
  destruct (decide (pc c = 6%nat)) as [H6|H6].
  { destruct (turn_read c m Hs H6) as (s' & ev & ? & _ & ?); eauto. }
  destruct (decide (pc c = 1%nat ∨ pc c = 2%nat)) as [H1|H1].
  { destruct (turn_configure c m Hs H1) as (s' & ev & ? & _ & ?); eauto. }
  apply turn_send; [done|]. rewrite !not_elem_of_cons in Hq. lia.
Qed.

(** ** A keystroke *)

Lemma lines_app a b : lines (a ++ b) = lines a ++ lines b.
Proof. unfold lines. by rewrite map_app, concat_app. Qed.

Lemma insert_run code m k ev :
  ConsoleInput.attached_keyboard (kvm.console_in m) = true →
  keyboard.insert_keycode_event code (kvm.keyb m) = Done (tt, k, ev) →
  kvm.step (kvm.Insert code) m = Done ([], m <| kvm.keyb := k |>, ev).
Proof.
  intros Ha Hk. unfold kvm.step, kvm.on_console.
  erewrite zoom_bind_done with (t := ConsoleInput.mk_world (kvm.console_in m) k) (ev := ev) (a := tt).
  - unfold mret, io_ret. rewrite app_nil_r. by destruct m.
  - unfold ConsoleInput.insert_keycode_event. erewrite bind_quiet by reflexivity.
    cbn [ConsoleInput.console]. rewrite Ha. unfold zoom. cbn [ConsoleInput.keyb]. by rewrite Hk.
Qed.

Lemma key_step s code :
  inv s → is_u8 code →
  ∃ s' ev, step (Key code) s = Done (tt, s', ev) ∧ inv s' ∧ serial_output ev = [] ∧
    todo s' = todo s ++ lines (if takes (machine s) then [code] else []).
Proof.
  intros [Hk Ha H2 Hc Hpc Hat Hen] Hcode. destruct s as [c m]. cbn [machine vcpu] in *.
  pose proof (keyboard.insert_refines code _ Hk) as Hins.
  unfold keyboard.spec_insert in Hins. cbn [keyboard.abs keyboard.q_on keyboard.queue] in Hins.
  rewrite (keyboard.length_contents _ Hk) in Hins.
  change (keyboard.enabled (kvm.keyb m) && _) with (takes m) in Hins.
  unfold codes in Hc. cbn [machine] in Hc.
  assert (∀ b : bool, serial_output (if b then [keyboard.irq1 1] else []) = []) as Hser
    by by intros [].
  destruct (takes m) eqn:Ht; destruct Hins as (k & Hrun & Hwf & Hq);
    destruct (abs_fields _ _ Hq) as (Hq1 & _ & Hcmd & Hon); cbn in Hq1, Hcmd, Hon;
    (eexists _, _; split;
      [unfold step; erewrite zoom_bind_done by (apply insert_run; [exact Ha|exact Hrun]);
       unfold mret, io_ret; rewrite app_nil_r; reflexivity|]).
  - split; [|split; [apply Hser|]].
    + split; cbn [machine vcpu upd kvm.keyb kvm.console_in kvm.com2 kvm.eta_t eta_t]; auto.
      * unfold codes. cbn [machine upd kvm.keyb]. rewrite Hq1. apply Forall_app_2; [done|by constructor].
      * unfold at_instruction in *. rewrite Hq1, Hcmd. repeat case_match; auto;
          intros; by destruct (keyboard.contents (kvm.keyb m)).
      * intros H. rewrite Hon. by apply Hen.
    + unfold todo, codes. cbn [machine vcpu upd kvm.keyb]. rewrite Hq1, lines_app. by rewrite app_assoc.
  - split; [|split; [done|]].
    + split; cbn [machine vcpu upd kvm.keyb kvm.console_in kvm.com2 kvm.eta_t eta_t]; auto.
      * unfold codes. cbn [machine upd kvm.keyb]. by rewrite Hq1.
      * unfold at_instruction in *. by rewrite Hq1, Hcmd.
      * intros H. rewrite Hon. by apply Hen.
    + unfold todo, codes. cbn [machine vcpu upd kvm.keyb]. rewrite Hq1. by rewrite app_nil_r.
Qed.

(** ** Runs *)

Definition key_ok (k : tick) : Prop := match k with Turn => True | Key code => is_u8 code end.

Lemma program_run ks s :
  inv s → Forall key_ok ks →
  ∃ rs s' ev, run step ks s = Done (rs, s', ev) ∧ inv s' ∧
    serial_output ev ++ todo s' = todo s ++ lines (accepted ks s).
Proof.
  intros Hs Hks. revert s Hs. induction Hks as [|k ks Hk _ IH]; intros s Hs.
  { exists [], s, []. split; [done|]. split; [done|]. cbn. by rewrite app_nil_r. }
  cbn [accepted]. destruct k as [|code].
  - destruct (turn_step s Hs) as (s1 & ev1 & H1 & Hs1 & Ht & _). cbn [step]. rewrite H1.
    destruct (IH s1 Hs1) as (rs & s2 & ev2 & H2 & Hs2 & He).
    exists (tt :: rs), s2, (ev1 ++ ev2). rewrite run_cons. cbn [step]. rewrite H1, H2.
    split; [done|]. split; [done|]. by rewrite serial_output_app, <- app_assoc, He, Ht, app_assoc.
  - destruct (key_step s code Hs Hk) as (s1 & ev1 & H1 & Hs1 & Hev & Ht). rewrite H1.
    destruct (IH s1 Hs1) as (rs & s2 & ev2 & H2 & Hs2 & He).
    exists (tt :: rs), s2, (ev1 ++ ev2). rewrite run_cons, H1, H2.
    split; [done|]. split; [done|].
    rewrite serial_output_app, <- app_assoc, He, Ht, Hev, lines_app. by rewrite <- app_assoc.
Qed.

(** Left alone, the program prints what it has to. *)
Lemma turns_drain n s :
  inv s → rank s ≤ Z.of_nat n →
  ∃ rs s' ev, run step (replicate n Turn) s = Done (rs, s', ev) ∧ inv s' ∧
    serial_output ev = todo s ∧ todo s' = [].
Proof.
  assert (∀ s0, 0 < rank s0) as Hpos.
  { intros s0. unfold rank, offset. repeat case_match; lia. }
  revert s. induction n as [|n IH]; intros s Hs Hr.
  - specialize (Hpos s). lia.
  - destruct (turn_step s Hs) as (s1 & ev1 & H1 & Hs1 & Ht & Hd).
    assert (todo s = [] ∨ rank s1 ≤ Z.of_nat n) as Hd' by (destruct Hd; [by left|right; lia]).
    cbn [replicate]. destruct Hd' as [Hnil|Hr1].
    + rewrite Hnil in Ht. symmetry in Ht. apply app_nil in Ht as [Hev Ht1].
      destruct (program_run (replicate n Turn) s1 Hs1) as (rs & s2 & ev2 & H2 & Hs2 & He).
      { by apply Forall_replicate. }
      assert (accepted (replicate n Turn) s1 = []) as Hacc.
      { clear. revert s1. induction n as [|n IH]; intros s1; [done|]. cbn [replicate accepted].
        by destruct (step Turn s1) as [[[u s2] ev]|]. }
      rewrite Hacc, Ht1 in He. cbn in He. apply app_nil in He as [He1 He2].
      exists (tt :: rs), s2, (ev1 ++ ev2). rewrite run_cons. cbn [step]. rewrite H1, H2.
      split; [done|]. split; [done|]. by rewrite serial_output_app, Hev, He1, Hnil.
    + destruct (IH s1 Hs1 Hr1) as (rs & s2 & ev2 & H2 & Hs2 & He & Hz).
      exists (tt :: rs), s2, (ev1 ++ ev2). rewrite run_cons. cbn [step]. rewrite H1, H2.
      split; [done|]. split; [done|]. by rewrite serial_output_app, He, Ht.
Qed.

(** The first three instructions configure the keyboard, and no jump returns to them. *)
Lemma turn_pc s s' ev :
  turn s = Done (tt, s', ev) → (3 `min` S (pc (vcpu s)) ≤ pc (vcpu s'))%nat.
Proof.
  destruct s as [[p a d z] m]. unfold turn. erewrite bind_quiet by reflexivity. cbn [vcpu pc].
  do 12 (destruct p as [|p];
    [cbn [start lookup list_lookup]; unfold exec, exit, set_cpu, wait_char; io_unfold;
     repeat case_match; intros; simplify_eq/=; repeat case_match; cbn; lia|]).
  done.
Qed.

Definition is_turn (k : tick) : bool := match k with Turn => true | Key _ => false end.

Lemma run_pc ks s rs s' ev :
  run step ks s = Done (rs, s', ev) →
  (3 `min` (pc (vcpu s) + length (filter is_turn ks)) ≤ pc (vcpu s'))%nat.
Proof.
  revert s rs s' ev. induction ks as [|k ks IH]; intros s rs s' ev.
  { intros [= <- <- <-]. change (length (filter is_turn [])) with 0%nat. lia. }
  rewrite run_cons. destruct (step k s) as [[[u s1] ev1]|] eqn:H1; [|done].
  destruct (run step ks s1) as [[[rs1 s2] ev2]|] eqn:H2; [|done]. intros [= <- <- <-].
  specialize (IH _ _ _ _ H2). rewrite filter_cons. destruct k as [|code]; cbn [is_turn step] in *.
  - destruct u. pose proof (turn_pc s s1 ev1 H1). case_decide; [cbn [length]; lia|done].
  - case_decide; [done|]. assert (vcpu s1 = vcpu s) as Hv; [|by rewrite <- Hv].
    revert H1. unfold zoom. io_unfold. repeat case_match; intros; simplify_eq/=; done.
Qed.

(** ** The program *)

(** A machine as [initIO] leaves it. *)
Record started (m : kvm.t) : Prop := {
  st_keyb : kvm.keyb m = keyboard.init;
  st_attached : ConsoleInput.attached_keyboard (kvm.console_in m) = true;
  st_com2 : serial_port.THR_addr (kvm.com2 m) = 0x2f8;
}.

Lemma ready_started h g debug dev nbus fn off : started (kvm.ready h g debug dev nbus fn off).
Proof. by split. Qed.

Lemma boot_inv m : started m → inv (boot m) ∧ todo (boot m) = [].
Proof.
  intros [Hk Ha H2]. unfold todo, codes. cbn [boot machine vcpu]. rewrite Hk.
  split; [|done]. split; unfold codes; cbn [boot machine vcpu pc]; rewrite ?Hk;
    first [lia|apply keyboard.init_wf|done|by constructor].
Qed.

(** Two characters for each code of the buffer, and the code in flight. *)
Lemma todo_bound s : inv s → (length (todo s) ≤ 34)%nat ∧ rank s ≤ 158.
Proof.
  intros Hs. pose proof (keyboard.length_contents _ (inv_keyb _ Hs)) as Hl.
  pose proof (keyboard.wf_count _ (inv_keyb _ Hs)) as Hc.
  assert (∀ l, length (lines l) = (2 * length l)%nat) as Hlines.
  { induction l as [|k l IH]; [done|]. change (lines (k :: l)) with (k :: 10 :: lines l).
    cbn [length]. lia. }
  unfold todo, rank, codes. rewrite length_app, Hlines. split.
  - assert (length (in_flight (vcpu s)) ≤ 2)%nat by (unfold in_flight; repeat case_match; cbn; lia). lia.
  - assert (offset (vcpu s) ≤ 5) by (unfold offset; repeat case_match; lia). lia.
Qed.

(** C7. The keyboard program of the repository on the machine as it starts, instruction by
    instruction, with keystrokes at any point between two instructions: it runs without a
    fault, enables the keyboard in three instructions, what it has sent to the second serial
    port is always a prefix of the keycodes that the keyboard took, each on a line, at most
    34 characters behind, and 158 instructions after the last keystroke it has printed them
    all. *)
Theorem keyboard_program_echoes (ks : list tick) (m : kvm.t) (Hm : started m)
    (Hks : Forall key_ok ks) :
  let codes := accepted ks (boot m) in
  ∃ rs s ev, run step ks (boot m) = Done (rs, s, ev) ∧
    (∃ rest, lines codes = serial_output ev ++ rest ∧ (length rest ≤ 34)%nat) ∧
    ((3 ≤ length (filter is_turn ks))%nat → keyboard.enabled (kvm.keyb (machine s)) = true) ∧
    ∀ n, (158 ≤ n)%nat → ∃ rs' s' ev',
      run step (ks ++ replicate n Turn) (boot m) = Done (rs', s', ev') ∧
      serial_output ev' = lines codes.
Proof.
  intros codes. destruct (boot_inv m Hm) as [Hi Ht].
  destruct (program_run ks (boot m) Hi Hks) as (rs & s & ev & Hrun & Hs & He).
  rewrite Ht in He. cbn [app] in He. destruct (todo_bound s Hs) as [Hl Hr].
  exists rs, s, ev. split; [done|]. split; [by exists (todo s)|]. split.
  - intros Hn. pose proof (run_pc _ _ _ _ _ Hrun) as Hpc. apply inv_enabled; [done|].
    cbn [boot vcpu pc] in Hpc. lia.
  - intros n Hn. destruct (turns_drain n s Hs ltac:(lia)) as (rs' & s' & ev' & Hrun' & _ & He' & _).
    exists (rs ++ rs'), s', (ev ++ ev'). rewrite run_app, Hrun, Hrun'. split; [done|].
    by rewrite serial_output_app, He', He.
Qed.

(** ** Witness *)

(** A key before the keyboard is enabled, and two after it. *)
Definition ticks0 : list tick := [Key 0x10; Turn; Turn; Turn; Key 0x1e; Turn; Turn; Key 0x9e].

Lemma keyboard_program_echoes_witness :
  accepted ticks0 (boot kvm.machine0) = [0x1e; 0x9e] ∧
  ∃ rs s ev, run step (ticks0 ++ replicate 158 Turn) (boot kvm.machine0) = Done (rs, s, ev) ∧
    serial_output ev = [0x1e; 10; 0x9e; 10].
Proof.
  assert (accepted ticks0 (boot kvm.machine0) = [0x1e; 0x9e]) as Ha by (vm_compute; reflexivity).
  split; [exact Ha|].
  destruct (keyboard_program_echoes ticks0 kvm.machine0) as (rs & s & ev & _ & _ & _ & Hdrain).
  - apply ready_started.
  - repeat constructor; (try exact I); vm_compute; intuition congruence.
  - destruct (Hdrain 158%nat ltac:(lia)) as (rs' & s' & ev' & Hrun & He).
    exists rs', s', ev'. split; [exact Hrun|]. rewrite He, Ha. reflexivity.
Defined.

End keyboard_program.
