(* ===== verification/GuestLine.v ===== *)
(** * A guest of the machine: the line reader (target-sources/int-tastiera)

A program that reads a line from the keyboard by interrupts: [leggi_linea] enables the
interrupts of the keyboard and waits on a semaphore, and the driver that each interrupt runs
takes one keycode.  A routine is a tree of actions, so that a keystroke or an interrupt can
come between any two of them; its accesses to the ports are exits that the machine of
Machine.v serves, and the interrupt line is the one that the emulated keyboard drives.

The library libce is not part of the repository: its functions are the fields of a record,
on a state of their own, and what they are documented to do is a second record.  The program
is followed up to its call of [pause]. *)

From S2P Require Import Prelude IODevice Keyboard ConsoleInput Machine GuestKeyboard.

Module int_tastiera.
#[local] Existing Instance kvm.eta_t.

Definition iRBR : Z := 0x0060.
Definition iTBR : Z := 0x0060.
Definition iCMR : Z := 0x0064.
Definition sincr_t : Z := 1.

(** ** The library *)

(** The functions that the program calls: [conv] looks at the variable [shift], and
    [sem_wait] has no result while its caller has to wait. *)
Record libce : Type := mk_libce {
  library : Type;
  conv : bool → Z → Z;
  sem_wait : Z → library → option library;
  sem_signal : Z → library → library;
  char_write : Z → library → library;
}.

(** What they do: the counter of the semaphore [sincr_t], and the characters shown. *)
Record documented (lc : libce) : Type := mk_documented {
  counter : library lc → Z;
  shown : library lc → list Z;
  sem_wait_law l :
    match sem_wait lc sincr_t l with
    | Some l' => 0 < counter l ∧ counter l' = counter l - 1 ∧ shown l' = shown l
    | None => counter l ≤ 0
    end;
  sem_signal_law l :
    counter (sem_signal lc sincr_t l) = counter l + 1 ∧ shown (sem_signal lc sincr_t l) = shown l;
  char_write_law c l :
    shown (char_write lc c l) = shown l ++ [c] ∧ counter (char_write lc c l) = counter l;
}.
Arguments counter {lc}.
Arguments shown {lc}.
Arguments sem_wait_law {lc}.
Arguments sem_signal_law {lc}.
Arguments char_write_law {lc}.

Section libce.
Context (lc : libce).

(** ** Routines *)

(** The memory that the routines share: the globals of mod_tas.cpp with [punt] as an index
    in the buffer [vv], the variable [shift] of libce, and the state of libce. *)
Record memory : Type := mk_memory {
  cont : Z; punt : Z; vv : list Z; shift : bool; lib : library lc
}.
#[export] Instance eta_memory : Eta memory := λ d,
  mk_memory (cont d) (punt d) (vv d) (shift d) (lib d).

Inductive action : Type :=
  | Io (x : kvm.io_exit)
  | Mem (f : io memory Z)
  | Sem_wait (sem : Z)
  | Pause.

(** A routine: its actions in order, each with what follows its result. *)
Inductive prog : Type :=
  | Ret (z : Z)
  | Act (a : action) (k : Z → prog).

Fixpoint seq_prog (p : prog) (q : Z → prog) : prog :=
  match p with
  | Ret z => q z
  | Act a k => Act a (λ z, seq_prog (k z) q)
  end.

Definition outputb (v p : Z) : prog := Act (Io (kvm.out_byte p v)) (λ _, Ret 0).
Definition inputb (p : Z) : prog := Act (Io (kvm.in_byte p)) Ret.
Definition mem (f : io memory Z) : prog := Act (Mem f) Ret.
Definition wait (sem : Z) : prog := Act (Sem_wait sem) Ret.
Definition pause : prog := Act Pause Ret.

#[local] Notation "z <- p ; q" := (seq_prog p (λ z, q)) (at level 100, p at next level, right associativity).
#[local] Notation "p ;> q" := (seq_prog p (λ _, q)) (at level 100, right associativity).

(** A call that returns. *)
Definition call (f : library lc → library lc) : io memory unit :=
  modify (λ d, d <| lib := f (lib d) |>).

(** [abilit. richieste interruzione tastiera]. *)
Definition enable : prog := outputb 0x60 iCMR;> outputb 0x61 iTBR.

Definition c_leggi_linea (nn : Z) : prog :=
  mem (modify (λ d, d <| cont := u32 nn |> <| punt := 0 |>);; mret 0);>
  enable;>
  wait sincr_t;>
  mem (d ← get; mret (u32 (nn - cont d))).

Definition get_code_int : prog := inputb iRBR.

Definition new_shift (sh : bool) (a : Z) : bool :=
  if a =? 0x2A then true else if a =? 0xAA then false else sh.

(** The code is followed and converted. *)
Definition convert (a : Z) : io memory Z :=
  modify (λ d, d <| shift := new_shift (shift d) a |>);;
  d ← get; mret (u8 (conv lc (shift d) a)).

(** The character is stored; the result is 1 for the last one. *)
Definition store (a : Z) : io memory Z :=
  modify (λ d, d <| cont := u32 (cont d - 1) |>);;
  d ← get;
  vv' ← array_set (vv d) (punt d) a;
  modify (λ d, d <| vv := vv' |>);;
  call (char_write lc a);;
  if (a =? 10) || (cont d =? 0)
  then call (sem_signal lc sincr_t);; mret 1
  else modify (λ d, d <| punt := punt d + 1 |>);; mret 0.

Definition c_driv_tasint : prog :=
  outputb 0x60 iCMR;> outputb 0x60 iTBR;>
  a <- get_code_int;
  a <- mem (convert a);
  if a =? 0 then enable
  else
    last <- mem (store a);
    if last =? 1 then Ret 0 else enable.

(** The characters read, shown again. *)
Definition show (quanti : Z) : io memory Z :=
  for_each (seqZ 0 quanti) (λ i, d ← get; c ← array_get (vv d) i; call (char_write lc c));; mret 0.

(** [main] of tas_int.cpp, which reads at most [nn] = 80 characters. *)
Definition read_line (nn : Z) : prog :=
  quanti <- c_leggi_linea nn;
  mem (show quanti);>
  pause;>
  Ret 0.
Definition main : prog := read_line 80.

(** ** The virtual CPU *)

(** The main routine, the driver while an interrupt is served, and the level of the line. *)
Record t : Type := mk {
  caller : prog; handler : option prog; shared : memory; machine : kvm.t; line : Z
}.
#[export] Instance eta_t : Eta t := λ s,
  mk (caller s) (handler s) (shared s) (machine s) (line s).

(** An operation of the machine, and its effect on the line. *)
Definition serve {A} (p : io kvm.t A) : io t A := λ s,
  match p (machine s) with
  | Done (a, m, ev) =>
      Done (a, s <| machine := m |> <| line := line_level keyboard.INT_KEYBOARD (line s) ev |>, ev)
  | Halt h => Halt h
  end.

Definition set_shared (d : memory) (s : t) : t := s <| shared := d |>.

(** One action of a routine; the result is the rest of it.  [pause] is not left. *)
Definition act (p : prog) : io t prog :=
  match p with
  | Ret z => mret (Ret z)
  | Act (Io x) k => page ← serve (kvm.handle_io x); mret (k (hd 0 page))
  | Act (Mem f) k => z ← zoom shared set_shared f; mret (k z)
  | Act (Sem_wait sem) k =>
      s ← get;
      match sem_wait lc sem (lib (shared s)) with
      | Some l => modify (λ s, s <| shared := (shared s) <| lib := l |> |>);; mret (k 0)
      | None => mret p
      end
  | Act Pause _ => mret p
  end.

(** The driver ends with the end of the interrupt and the return from it. *)
Definition turn : io t unit :=
  s ← get;
  match handler s with
  | Some (Ret _) => modify (λ s, s <| handler := None |>)
  | Some p => p' ← act p; modify (λ s, s <| handler := Some p' |>)
  | None => p' ← act (caller s); modify (λ s, s <| caller := p' |>)
  end.

(** The interrupt is taken while the line is high and none is served. *)
Definition interrupt : io t unit :=
  s ← get;
  match handler s with
  | None => when (line s =? 1) (modify (λ s, s <| handler := Some c_driv_tasint |>))
  | Some _ => mret tt
  end.

(** An action of the guest, an interrupt, or a keystroke of the console thread. *)
Inductive tick : Type := Turn | Irq | Key (keycode : Z).

Definition step (k : tick) : io t unit :=
  match k with
  | Turn => turn
  | Irq => interrupt
  | Key code => serve (kvm.step (kvm.Insert code));; mret tt
  end.

(** The keycodes that the keyboard takes. *)
Fixpoint accepted (ks : list tick) (s : t) : list Z :=
  match ks with
  | [] => []
  | k :: ks =>
      match step k s with
      | Halt _ => []
      | Done (_, s', _) =>
          match k with
          | Key code => (if keyboard_program.takes (machine s) then [code] else []) ++ accepted ks s'
          | _ => accepted ks s'
          end
      end
  end.

(** ** What is typed *)

(** The characters of a sequence of keycodes. *)
Definition char_of (sh : bool) (k : Z) : list Z :=
  let c := u8 (conv lc (new_shift sh k) k) in if c =? 0 then [] else [c].

Fixpoint text (sh : bool) (ks : list Z) : list Z :=
  match ks with
  | [] => []
  | k :: ks => char_of sh k ++ text (new_shift sh k) ks
  end.

(** The line of a text: up to a newline, and at most [n] characters. *)
Fixpoint line_of (n : nat) (cs : list Z) : list Z :=
  match n, cs with
  | S n, c :: cs => c :: if c =? 10 then [] else line_of n cs
  | _, _ => []
  end.

Definition complete (n : nat) (l : list Z) : bool :=
  bool_decide (length l = n) || bool_decide (last l = Some 10).


Lemma text_app sh ks ks' :
  text sh (ks ++ ks') = text sh ks ++ text (foldl new_shift sh ks) ks'.
Proof.
  revert sh. induction ks as [|k ks IH]; intros sh; [done|]. cbn [app text foldl].
  by rewrite IH, app_assoc.
Qed.

(** A line that is being read: a newline or the last character ends it. *)
Definition open_line (n : nat) (l : list Z) : Prop := (length l < n)%nat ∧ (10 : Z) ∉ l.

Lemma line_of_open n l cs : open_line n l → line_of n (l ++ cs) = l ++ line_of (n - length l) cs.
Proof.
  intros [Hl Hn]. revert n Hl. induction l as [|c l IH]; intros n Hl; cbn [app length] in *.
  { by rewrite Nat.sub_0_r. }
  apply not_elem_of_cons in Hn as [Hc Hn]. destruct n as [|n]; [lia|]. cbn [line_of].
  rewrite (proj2 (Z.eqb_neq c 10)) by done. by rewrite IH by (done || lia).
Qed.

Definition ended (n : nat) (l : list Z) : Prop :=
  ∃ l' c, l = l' ++ [c] ∧ open_line n l' ∧ (c = 10 ∨ length l = n).

Lemma line_of_ended n l cs : ended n l → line_of n (l ++ cs) = l ∧ complete n l = true.
Proof.
  intros (l' & c & -> & Ho & Hc). rename l' into l. split.
  - rewrite <- app_assoc, line_of_open by done. destruct Ho as [Hl _]. cbn [app].
    destruct (n - length l)%nat as [|k] eqn:Hk; [lia|]. cbn [line_of].
    destruct Hc as [->|Hc]; [done|]. rewrite length_app in Hc. cbn in Hc.
    assert (k = 0%nat) as -> by lia. by destruct (c =? 10), cs.
  - unfold complete. apply orb_true_iff. destruct Hc as [->|Hc].
    + right. apply bool_decide_eq_true. apply last_snoc.
    + left. by apply bool_decide_eq_true.
Qed.

Lemma open_incomplete n l : open_line n l → complete n l = false.
Proof.
  intros [Hl Hn]. unfold complete. rewrite !bool_decide_false; [done| |lia].
  intros H%last_Some. destruct H as [l' ->]. apply Hn, elem_of_app. right. apply list_elem_of_here.
Qed.

Lemma open_snoc n l c :
  open_line n l → c ≠ 10 → length (l ++ [c]) ≠ n → open_line n (l ++ [c]).
Proof.
  intros [Hl Hn] Hc Hlen. rewrite length_app in Hlen. cbn in Hlen. split.
  - rewrite length_app. cbn. lia.
  - rewrite not_elem_of_app, list_elem_of_singleton. by split.
Qed.


(** ** The states of a run *)

Section reading.

Context (doc : documented lc) (nn : Z) (vv0 : list Z) (sh0 : bool).
Context (Hnn : 0 < nn ≤ Z.of_nat (length vv0)) (Hint : nn ≤ INT_MAX).

(** Where the two routines are: before the wait, between two interrupts, in the driver
    ([Got] holds a keycode, [Conv] a character), and after the last character. *)
Inductive phase : Type :=
  | Open0 | Open1 | Open2
  | Idle
  | Irq0 | Irq1 | Irq2 | Got (a : Z) | Conv (c : Z) | On0 | On1 | On2
  | End0 | End1 | End2 | End3 (n : Z) | End4.

#[local] Instance phase_eq_dec : EqDecision phase.
Proof. solve_decision. Defined.

(** From the result of [leggi_linea] on. *)
Definition shows_line (quanti : Z) : prog := mem (show quanti);> pause;> Ret 0.

Definition waits : prog :=
  wait sincr_t;> quanti <- mem (d ← get; mret (u32 (nn - cont d))); shows_line quanti.

Definition caller_at (ph : phase) : prog :=
  match ph with
  | Open0 => read_line nn
  | Open1 => enable;> waits
  | Open2 => outputb 0x61 iTBR;> waits
  | End2 => quanti <- mem (d ← get; mret (u32 (nn - cont d))); shows_line quanti
  | End3 n => shows_line n
  | End4 => pause;> Ret 0
  | _ => waits
  end.

Definition converted (c : Z) : prog :=
  if c =? 0 then enable else last <- mem (store c); if last =? 1 then Ret 0 else enable.

Definition handler_at (ph : phase) : option prog :=
  match ph with
  | Irq0 => Some c_driv_tasint
  | Irq1 => Some (outputb 0x60 iTBR;> a <- get_code_int; a <- mem (convert a); converted a)
  | Irq2 => Some (a <- get_code_int; a <- mem (convert a); converted a)
  | Got a => Some (a <- mem (convert a); converted a)
  | Conv c => Some (last <- mem (store c); if last =? 1 then Ret 0 else enable)
  | On0 => Some enable
  | On1 => Some (outputb 0x61 iTBR)
  | On2 | End0 => Some (Ret 0)
  | _ => None
  end.

(** What the keyboard holds. *)
Definition keyb_at (ph : phase) (k : keyboard.t) : Prop :=
  let on := keyboard.enabled k = true in
  let int := keyboard.interrupt_enabled k in
  let raised := keyboard.interrupt_raised k in
  match ph with
  | Open0 | Open1 =>
      keyboard.enabled k = false ∧ int = false ∧ raised = false ∧ keyboard.contents k = []
  | Open2 =>
      keyboard.enabled k = false ∧ int = false ∧ raised = false ∧ keyboard.contents k = [] ∧
      keyboard.CMR k = 0x60
  | Idle | On2 => on ∧ int = true
  | Irq0 => on ∧ int = true ∧ keyboard.contents k ≠ []
  | Irq1 => on ∧ int = true ∧ keyboard.contents k ≠ [] ∧ keyboard.CMR k = 0x60
  | Irq2 => on ∧ int = false ∧ keyboard.contents k ≠ []
  | On1 => on ∧ int = false ∧ raised = false ∧ keyboard.CMR k = 0x60
  | _ => on ∧ int = false ∧ raised = false
  end.

(** What the memory holds when the characters [out] have been read. *)
Definition memory_at (ph : phase) (out : list Z) (d : memory) : Prop :=
  match ph with
  | Open0 => out = [] ∧ counter doc (lib d) = 0
  | End0 | End1 => ended (Z.to_nat nn) out ∧ counter doc (lib d) = 1
  | End2 | End4 => ended (Z.to_nat nn) out
  | End3 n => ended (Z.to_nat nn) out ∧ n = Z.of_nat (length out)
  | _ => open_line (Z.to_nat nn) out ∧ counter doc (lib d) = 0 ∧ punt d = Z.of_nat (length out)
  end.

Definition counted (ph : phase) (out : list Z) (d : memory) : Prop :=
  (length out ≤ Z.to_nat nn)%nat ∧
  (match ph with Open0 => True | _ => cont d = nn - Z.of_nat (length out) end) ∧
  vv d = out ++ drop (length out) vv0 ∧
  shown doc (lib d) = (match ph with End4 => out ++ out | _ => out end).

(** The keycodes and the characters on their way through the driver. *)
Definition codes_at (ph : phase) : list Z := match ph with Got a => [a] | _ => [] end.
Definition chars_at (ph : phase) : list Z := match ph with Conv c => [c] | _ => [] end.

Definition queued (ph : phase) (s : t) : list Z :=
  codes_at ph ++ keyboard.contents (kvm.keyb (machine s)).

Record inv (ph : phase) (acc out : list Z) (s : t) : Prop := {
  inv_keyb : keyboard.wf (kvm.keyb (machine s));
  inv_attached : ConsoleInput.attached_keyboard (kvm.console_in (machine s)) = true;
  inv_line : line s = level_of (keyboard.interrupt_raised (kvm.keyb (machine s)));
  inv_codes : Forall is_u8 (queued ph s);
  inv_caller : caller s = caller_at ph;
  inv_handler : handler s = handler_at ph;
  inv_at : keyb_at ph (kvm.keyb (machine s));
  inv_memory : memory_at ph out (shared s);
  inv_counted : counted ph out (shared s);
  inv_chars : Forall (λ c, c ≠ 0) (chars_at ph);
  inv_text : out ++ chars_at ph ++ text (shift (shared s)) (queued ph s) = text sh0 acc;
  inv_shift : foldl new_shift (shift (shared s)) (queued ph s) = foldl new_shift sh0 acc;
}.


(** ** The accesses of the routines *)

Definition set_keyb (s : t) (k : keyboard.t) : t :=
  s <| machine := (machine s) <| kvm.keyb := k |> |>
    <| line := level_of (keyboard.interrupt_raised k) |>.

Lemma serve_done {A} (p : io kvm.t A) s a m ev :
  p (machine s) = Done (a, m, ev) →
  serve p s = Done (a, s <| machine := m |>
                         <| line := line_level keyboard.INT_KEYBOARD (line s) ev |>, ev).
Proof. intros H. unfold serve. by rewrite H. Qed.

Lemma act_out p v k s :
  p = 0x60 ∨ p = 0x64 → keyboard.wf (kvm.keyb (machine s)) →
  line s = level_of (keyboard.interrupt_raised (kvm.keyb (machine s))) →
  ∃ kb ev, act (Act (Io (kvm.out_byte p v)) k) s = Done (k v, set_keyb s kb, ev) ∧
    keyboard.wf kb ∧ keyboard.abs kb = (keyboard.spec_write p v (keyboard.abs (kvm.keyb (machine s)))).1.
Proof.
  intros Hp Hwf Hl. pose proof (keyboard.write_refines p v _ Hwf) as H.
  pose proof (keyboard.spec_step_line (keyboard.Write p v) (keyboard.abs (kvm.keyb (machine s)))) as Hline.
  cbn [keyboard.spec_step] in Hline.
  destruct (keyboard.spec_write p v _) as [q ev]. destruct H as (kb & Hrun & Hk & <-).
  exists kb, ev. split; [|done]. unfold act.
  erewrite bind_done by (eapply serve_done, keyboard_program.keyb_write; [done|exact Hrun]).
  cbn [mret io_ret hd]. rewrite app_nil_r. do 3 f_equal. unfold set_keyb. rewrite Hl.
  cbn [keyboard.q_raised keyboard.abs] in Hline. by rewrite Hline.
Qed.

Lemma act_in k s :
  keyboard.wf (kvm.keyb (machine s)) →
  line s = level_of (keyboard.interrupt_raised (kvm.keyb (machine s))) →
  let '(r, q, _) := keyboard.spec_read 0x60 (keyboard.abs (kvm.keyb (machine s))) in
  ∃ kb ev, act (Act (Io (kvm.in_byte 0x60)) k) s = Done (k (u8 r), set_keyb s kb, ev) ∧
    keyboard.wf kb ∧ keyboard.abs kb = q.
Proof.
  intros Hwf Hl. pose proof (keyboard.read_refines 0x60 _ Hwf) as H.
  pose proof (keyboard.spec_step_line (keyboard.Read 0x60) (keyboard.abs (kvm.keyb (machine s)))) as Hline.
  cbn [keyboard.spec_step] in Hline.
  destruct (keyboard.spec_read _ _) as [[r q] ev]. destruct H as (kb & Hrun & Hk & <-).
  exists kb, ev. split; [|done]. unfold act.
  erewrite bind_done by (eapply serve_done, keyboard_program.keyb_read; [by left|exact Hrun]).
  cbn [mret io_ret hd]. rewrite app_nil_r. do 3 f_equal. unfold set_keyb. rewrite Hl.
  cbn [keyboard.q_raised keyboard.abs] in Hline. by rewrite Hline.
Qed.

(** The next action is that of the driver, or else that of the main routine. *)
Definition next_action (ph : phase) (a : action) (k : Z → prog) : Prop :=
  handler_at ph = Some (Act a k) ∨ handler_at ph = None ∧ caller_at ph = Act a k.

Definition goes_on (ph ph' : phase) (p : prog) : Prop :=
  match handler_at ph with
  | Some _ => handler_at ph' = Some p ∧ caller_at ph' = caller_at ph
  | None => handler_at ph' = None ∧ caller_at ph' = p
  end.

Lemma turn_act ph ph' a k s p s1 ev :
  handler s = handler_at ph → caller s = caller_at ph → next_action ph a k →
  act (Act a k) s = Done (p, s1, ev) → handler s1 = handler s → caller s1 = caller s →
  goes_on ph ph' p →
  turn s = Done (tt, s1 <| caller := caller_at ph' |> <| handler := handler_at ph' |>, ev).
Proof.
  intros Hh Hc Hn Ha Hh1 Hc1 Hg. unfold turn. erewrite bind_quiet by reflexivity. rewrite Hh.
  unfold goes_on in Hg. destruct Hn as [Hn|[Hn Hn']]; rewrite Hn in *.
  - destruct Hg as [-> ->]. rewrite (bind_done _ _ _ _ _ _ Ha). unfold modify.
    rewrite app_nil_r. do 3 f_equal. rewrite <- Hc, <- Hc1. by destruct s1.
  - destruct Hg as [-> ->]. rewrite Hc, Hn', (bind_done _ _ _ _ _ _ Ha). unfold modify.
    rewrite app_nil_r. do 3 f_equal. rewrite <- Hh, <- Hh1. by destruct s1.
Qed.

(** ** One action *)

(** A bound on the number of rounds until the routines rest. *)
Definition weight (ph : phase) : Z :=
  match ph with
  | Open0 => 3 | Open1 => 2 | Open2 => 1
  | Idle => 0
  | Irq0 => -1 | Irq1 => -2 | Irq2 => -3
  | Got _ => 12 | Conv _ => 11 | On0 => 10 | On1 => 9 | On2 => 8
  | End0 => 4 | End1 => 3 | End2 => 2 | End3 _ => 1 | End4 => 0
  end.

Definition rank (ph : phase) (s : t) : Z :=
  16 * Z.of_nat (length (keyboard.contents (kvm.keyb (machine s)))) + weight ph.

(** A turn goes on, or the main routine waits or has ended. *)
Definition turns (ph : phase) (acc out : list Z) (s : t) : Prop :=
  ∃ ph' out' s' ev, turn s = Done (tt, s', ev) ∧ inv ph' acc out' s' ∧
    (rank ph' s' < rank ph s ∨ s' = s ∧ ph' = ph ∧ (ph = Idle ∨ ph = End4)).

(** The invariant after an access to the keyboard that takes no keycode. *)
Lemma inv_set_keyb ph ph' acc out s kb s' :
  inv ph acc out s → keyboard.wf kb →
  keyboard.contents kb = keyboard.contents (kvm.keyb (machine s)) →
  keyb_at ph' kb → codes_at ph' = codes_at ph → chars_at ph' = chars_at ph →
  (memory_at ph out (shared s) → memory_at ph' out (shared s)) →
  (counted ph out (shared s) → counted ph' out (shared s)) →
  machine s' = (machine s) <| kvm.keyb := kb |> →
  line s' = level_of (keyboard.interrupt_raised kb) → shared s' = shared s →
  caller s' = caller_at ph' → handler s' = handler_at ph' →
  inv ph' acc out s'.
Proof.
  intros [] Hwf Hc Hat Hcodes Hchars Hm Hn Hmach Hl Hd Hcaller Hhandler.
  unfold queued in *.
  split; unfold queued; rewrite ?Hmach, ?Hd, ?Hcodes, ?Hchars; cbn [upd kvm.keyb kvm.console_in];
    rewrite ?Hc; auto.
Qed.

Lemma abs_write k q : keyboard.abs k = q →
  keyboard.contents k = keyboard.queue q ∧ keyboard.CMR k = keyboard.q_cmd q ∧
  keyboard.enabled k = keyboard.q_on q ∧ keyboard.interrupt_enabled k = keyboard.q_int q ∧
  keyboard.interrupt_raised k = keyboard.q_raised q.
Proof. by intros <-. Qed.

(** A write to the keyboard. *)
Lemma turn_write ph ph' acc out s p v k :
  inv ph acc out s → p = 0x60 ∨ p = 0x64 →
  next_action ph (Io (kvm.out_byte p v)) k → goes_on ph ph' (k v) →
  codes_at ph' = codes_at ph → chars_at ph' = chars_at ph →
  (memory_at ph out (shared s) → memory_at ph' out (shared s)) →
  (counted ph out (shared s) → counted ph' out (shared s)) →
  (∀ kb, keyboard.abs kb = (keyboard.spec_write p v (keyboard.abs (kvm.keyb (machine s)))).1 →
    keyboard.contents kb = keyboard.contents (kvm.keyb (machine s)) ∧ keyb_at ph' kb) →
  weight ph' < weight ph → turns ph acc out s.
Proof.
  intros Hs Hp Hnext Hgo Hcodes Hchars Hm Hn Hk Hr.
  destruct (act_out p v k s Hp (inv_keyb _ _ _ _ Hs) (inv_line _ _ _ _ Hs))
    as (kb & ev & Hact & Hwf & Habs).
  destruct (Hk kb Habs) as [Hc Hat].
  pose proof (turn_act ph ph' _ _ s _ _ _ (inv_handler _ _ _ _ Hs) (inv_caller _ _ _ _ Hs)
    Hnext Hact eq_refl eq_refl Hgo) as Ht.
  exists ph', out. eexists _, _. split; [exact Ht|]. split.
  - by eapply (inv_set_keyb ph ph' acc out s kb).
  - left. unfold rank. cbn [upd set_keyb machine kvm.keyb]. rewrite Hc. lia.
Qed.

Ltac go_on := first [left; reflexivity | right; split; reflexivity | split; reflexivity].

(** The keyboard after a write, from its state before it. *)
Ltac by_write :=
  let q := fresh "q" in
  intros kb (Hq & Hcmd & Hon & Hint' & Hra)%abs_write; cbn in Hq, Hcmd, Hon, Hint', Hra;
  change (has_bits 0x60 0x10) with false in *; change (has_bits 0x61 0x10) with false in *;
  change (has_bits 0x60 0x01) with false in *; change (has_bits 0x61 0x01) with true in *;
  cbn in Hon, Hra; rewrite ?orb_false_r in Hra;
  split; [exact Hq|]; cbn; rewrite ?Hq, ?Hcmd, ?Hon, ?Hint', ?Hra; tauto.

Lemma turn_writes ph acc out s :
  inv ph acc out s → ph ∈ [Open1; Open2; Irq0; Irq1; On0; On1] → turns ph acc out s.
Proof.
  intros Hs Hin. pose proof (inv_at _ _ _ _ Hs) as Hat.
  repeat (apply elem_of_cons in Hin as [->|Hin]); [..|by apply elem_of_nil in Hin]; cbn in Hat.
  - apply (turn_write Open1 Open2 acc out s 0x64 0x60 (λ _, outputb 0x61 iTBR;> waits));
      [done|by right|go_on|go_on|done|done|done|done|by_write|done].
  - apply (turn_write Open2 Idle acc out s 0x60 0x61 (λ _, waits));
      [done|by left|go_on|go_on|done|done|done|done| |done].
    pose proof (proj2 (proj2 (proj2 (proj2 Hat)))) as Hc. cbn. rewrite Hc. by_write.
  - apply (turn_write Irq0 Irq1 acc out s 0x64 0x60
      (λ _, outputb 0x60 iTBR;> a <- get_code_int; a <- mem (convert a); converted a));
      [done|by right|go_on|go_on|done|done|done|done|by_write|done].
  - apply (turn_write Irq1 Irq2 acc out s 0x60 0x60
      (λ _, a <- get_code_int; a <- mem (convert a); converted a));
      [done|by left|go_on|go_on|done|done|done|done| |done].
    pose proof (proj2 (proj2 (proj2 Hat))) as Hc. cbn. rewrite Hc. by_write.
  - apply (turn_write On0 On1 acc out s 0x64 0x60 (λ _, outputb 0x61 iTBR));
      [done|by right|go_on|go_on|done|done|done|done|by_write|done].
  - apply (turn_write On1 On2 acc out s 0x60 0x61 (λ _, Ret 0));
      [done|by left|go_on|go_on|done|done|done|done| |done].
    pose proof (proj2 (proj2 (proj2 Hat))) as Hc. cbn. rewrite Hc. by_write.
Qed.

(** The invariant after a step that leaves the keyboard alone. *)
Lemma inv_moves ph ph' acc out out' s s' :
  inv ph acc out s → machine s' = machine s → line s' = line s →
  caller s' = caller_at ph' → handler s' = handler_at ph' →
  (keyb_at ph (kvm.keyb (machine s)) → keyb_at ph' (kvm.keyb (machine s))) →
  memory_at ph' out' (shared s') → counted ph' out' (shared s') →
  codes_at ph' = [] → Forall (λ c, c ≠ 0) (chars_at ph') →
  out' ++ chars_at ph' ++ text (shift (shared s')) (keyboard.contents (kvm.keyb (machine s))) =
    out ++ chars_at ph ++ text (shift (shared s)) (queued ph s) →
  foldl new_shift (shift (shared s')) (keyboard.contents (kvm.keyb (machine s))) =
    foldl new_shift (shift (shared s)) (queued ph s) →
  inv ph' acc out' s'.
Proof.
  intros [] Hm Hl Hcaller Hhandler Hat Hmem Hcount Hcodes Hchars Ht Hsh.
  assert (Forall is_u8 (keyboard.contents (kvm.keyb (machine s)))) as Hu.
  { unfold queued in inv_codes0. by apply Forall_app in inv_codes0 as [_ ?]. }
  split; unfold queued; rewrite ?Hm, ?Hl, ?Hcodes; cbn [app]; auto; congruence.
Qed.

(** A step that changes neither the memory nor what the routines hold. *)
Lemma turns_move ph ph' acc out s s' :
  inv ph acc out s → turn s = Done (tt, s', []) →
  s' = s <| caller := caller_at ph' |> <| handler := handler_at ph' |> →
  (keyb_at ph (kvm.keyb (machine s)) → keyb_at ph' (kvm.keyb (machine s))) →
  (memory_at ph out (shared s) → memory_at ph' out (shared s)) →
  (counted ph out (shared s) → counted ph' out (shared s)) →
  codes_at ph = [] → chars_at ph = [] → codes_at ph' = [] → chars_at ph' = [] →
  weight ph' < weight ph → turns ph acc out s.
Proof.
  intros Hs Ht -> Hk Hm Hn Hc Hch Hc' Hch' Hw.
  exists ph', out. eexists _, _. split; [exact Ht|]. split.
  - eapply (inv_moves ph ph' acc out out s); try done.
    + apply Hm, Hs.
    + apply Hn, Hs.
    + by rewrite Hch'.
    + unfold queued. by rewrite Hch', Hch, Hc.
    + unfold queued. by rewrite Hc.
  - left. unfold rank. cbn [upd machine]. lia.
Qed.

(** The ends of the driver. *)
Lemma turns_return ph acc out s :
  inv ph acc out s → ph = On2 ∨ ph = End0 → turns ph acc out s.
Proof.
  intros Hs Hph. pose proof (inv_handler _ _ _ _ Hs) as Hh. pose proof (inv_caller _ _ _ _ Hs) as Hc.
  assert (turn s = Done (tt, s <| handler := None |>, [])) as Ht.
  { unfold turn. erewrite bind_quiet by reflexivity. rewrite Hh. by destruct Hph; subst. }
  destruct Hph as [-> | ->].
  - apply (turns_move On2 Idle acc out s _ Hs Ht); try done. destruct s. cbn in *. by subst.
  - apply (turns_move End0 End1 acc out s _ Hs Ht); try done. destruct s. cbn in *. by subst.
Qed.

(** A step in the memory. *)
Lemma turns_mem ph ph' acc out out' s f k z d :
  inv ph acc out s → next_action ph (Mem f) k → f (shared s) = Done (z, d, []) →
  goes_on ph ph' (k z) →
  (keyb_at ph (kvm.keyb (machine s)) → keyb_at ph' (kvm.keyb (machine s))) →
  memory_at ph' out' d → counted ph' out' d → codes_at ph' = [] →
  Forall (λ c, c ≠ 0) (chars_at ph') →
  out' ++ chars_at ph' ++ text (shift d) (keyboard.contents (kvm.keyb (machine s))) =
    out ++ chars_at ph ++ text (shift (shared s)) (queued ph s) →
  foldl new_shift (shift d) (keyboard.contents (kvm.keyb (machine s))) =
    foldl new_shift (shift (shared s)) (queued ph s) →
  weight ph' < weight ph → turns ph acc out s.
Proof.
  intros Hs Hnext Hf Hgo Hat Hm Hn Hcodes Hchars Ht Hsh Hw.
  assert (act (Act (Mem f) k) s = Done (k z, s <| shared := d |>, [])) as Hact.
  { unfold act. by erewrite zoom_bind_done by exact Hf. }
  pose proof (turn_act ph ph' _ _ s _ _ _ (inv_handler _ _ _ _ Hs) (inv_caller _ _ _ _ Hs)
    Hnext Hact eq_refl eq_refl Hgo) as Hturn.
  exists ph', out'. eexists _, _. split; [exact Hturn|]. split.
  - by eapply (inv_moves ph ph' acc out out' s).
  - left. unfold rank. cbn [upd machine]. lia.
Qed.

Lemma nn_range : 0 < nn < 4294967296.
Proof. unfold INT_MAX in Hint. lia. Qed.

Lemma turns_open acc out s : inv Open0 acc out s → turns Open0 acc out s.
Proof.
  intros Hs. pose proof nn_range as Hr.
  destruct (inv_memory _ _ _ _ Hs) as [-> Hsem]. destruct (inv_counted _ _ _ _ Hs) as (_ & _ & Hv & Hsc).
  apply (turns_mem Open0 Open1 acc [] [] s
    (modify (λ d, d <| cont := u32 nn |> <| punt := 0 |>);; mret 0) (λ _, enable;> waits) 0
    ((shared s) <| cont := u32 nn |> <| punt := 0 |>)); try done; try go_on.
  - split; [|done]. split; [cbn; lia|apply not_elem_of_nil].
  - split; [cbn; lia|]. cbn [upd cont vv lib]. rewrite u32_id by (unfold is_u32; lia).
    split; [cbn; lia|]. by split.
Qed.

Lemma turns_convert a acc out s : inv (Got a) acc out s → turns (Got a) acc out s.
Proof.
  intros Hs. set (sh := new_shift (shift (shared s)) a). set (c := u8 (conv lc sh a)).
  destruct (inv_memory _ _ _ _ Hs) as (Ho & Hsem & Hp). pose proof (inv_counted _ _ _ _ Hs) as Hn.
  assert (convert a (shared s) = Done (c, (shared s) <| shift := sh |>, [])) as Hf by reflexivity.
  assert (∀ ks, text (shift (shared s)) (a :: ks) = (if c =? 0 then [] else [c]) ++ text sh ks)
    as Htext by reflexivity.
  destruct (c =? 0) eqn:Hc.
  - apply (turns_mem (Got a) On0 acc out out s _ converted c _ Hs ltac:(go_on) Hf); try done.
    + split; [|reflexivity]. cbn. unfold converted. by rewrite Hc.
    + cbn [chars_at app]. unfold queued. cbn [codes_at app]. by rewrite Htext.
  - apply (turns_mem (Got a) (Conv c) acc out out s _ converted c _ Hs ltac:(go_on) Hf); try done.
    + split; [|reflexivity]. cbn. unfold converted. by rewrite Hc.
    + constructor; [|constructor]. by apply Z.eqb_neq.
    + cbn [chars_at app]. unfold queued. cbn [codes_at app]. by rewrite Htext.
Qed.

(** The buffer after one more character. *)
Lemma buffer_snoc out c (d : memory) :
  (length out < length vv0)%nat → vv d = out ++ drop (length out) vv0 →
  <[length out := c]> (vv d) = (out ++ [c]) ++ drop (length (out ++ [c])) vv0.
Proof.
  intros Hl ->. rewrite insert_app_r_alt by lia. rewrite Nat.sub_diag.
  destruct (lookup_lt_is_Some_2 vv0 (length out) Hl) as [x Hx].
  rewrite (drop_S vv0 x (length out) Hx), length_app, Nat.add_1_r.
  cbn. by rewrite <- app_assoc.
Qed.

Lemma character_stored c out d :
  open_line (Z.to_nat nn) out → punt d = Z.of_nat (length out) →
  cont d = nn - Z.of_nat (length out) → vv d = out ++ drop (length out) vv0 →
  let out' := out ++ [c] in
  let last := (c =? 10) || (nn - Z.of_nat (length out') =? 0) in
  ∃ l, store c d = Done (level_of last,
      mk_memory (nn - Z.of_nat (length out')) (if last then punt d else punt d + 1)
        (out' ++ drop (length out') vv0) (shift d) l, []) ∧
    counter doc l = (if last then counter doc (lib d) + 1 else counter doc (lib d)) ∧
    shown doc l = shown doc (lib d) ++ [c].
Proof.
  intros [Hl _] Hp Hc Hv. cbn zeta. pose proof nn_range as Hr.
  assert (u32 (cont d - 1) = nn - Z.of_nat (length (out ++ [c]))) as Hcont.
  { rewrite length_app, u32_id by (unfold is_u32; lia). cbn. lia. }
  unfold store. erewrite bind_quiet by reflexivity. erewrite bind_quiet by reflexivity.
  cbn [upd vv punt cont]. rewrite Hcont.
  erewrite bind_quiet by (apply array_set_in; rewrite Hp, Hv, length_app, length_drop; lia).
  rewrite Hp, Nat2Z.id, (buffer_snoc out c d) by (done || lia).
  set (v := (out ++ [c]) ++ _). clearbody v.
  destruct (char_write_law doc c (lib d)) as [Hs Hn].
  destruct (sem_signal_law doc (char_write lc c (lib d))) as [Hn' Hs'].
  do 2 erewrite bind_quiet by reflexivity.
  destruct ((c =? 10) || (nn - Z.of_nat (length (out ++ [c])) =? 0));
    destruct d; cbn in *; subst; (eexists; split; [by erewrite bind_quiet by reflexivity|]);
    cbn [lib]; by rewrite ?Hn', ?Hs', ?Hn, ?Hs.
Qed.

Lemma turns_store c acc out s : inv (Conv c) acc out s → turns (Conv c) acc out s.
Proof.
  intros Hs. destruct (inv_memory _ _ _ _ Hs) as (Ho & Hsem & Hp).
  destruct (inv_counted _ _ _ _ Hs) as (Hlen & Hc & Hv & Hsc).
  destruct (character_stored c out (shared s) Ho Hp Hc Hv) as (l & Hf & Hcl & Hsl).
  cbn zeta in Hf.
  set (k := λ last : Z, if last =? 1 then Ret 0 else enable).
  assert (length (out ++ [c]) ≤ Z.to_nat nn)%nat as Hlen'.
  { rewrite length_app. destruct Ho. cbn. lia. }
  assert ((out ++ [c]) ++ text (shift (shared s)) (keyboard.contents (kvm.keyb (machine s))) =
    out ++ chars_at (Conv c) ++ text (shift (shared s)) (queued (Conv c) s)) as Ht
    by by rewrite <- app_assoc.
  destruct ((c =? 10) || (nn - Z.of_nat (length (out ++ [c])) =? 0)) eqn:He.
  - apply (turns_mem (Conv c) End0 acc out (out ++ [c]) s _ k 1 _ Hs ltac:(go_on) Hf); try done.
    + apply orb_true_iff in He. split; [|cbn; lia].
      exists out, c. split; [done|]. split; [done|].
      destruct He as [He|He]; [left|right]; [by apply Z.eqb_eq|apply Z.eqb_eq in He; lia].
    + split; [done|]. cbn. rewrite Hsl, Hsc. by split.
  - apply orb_false_iff in He as [He1 He2]. apply Z.eqb_neq in He1, He2.
    apply (turns_mem (Conv c) On0 acc out (out ++ [c]) s _ k 0 _ Hs ltac:(go_on) Hf); try done.
    + split; [apply open_snoc; [done|done|lia]|]. cbn. rewrite Hp, Hcl, length_app. cbn. split; [done|lia].
    + split; [done|]. cbn. rewrite Hsl, Hsc. by split.
Qed.

Lemma show_run out rest d :
  vv d = out ++ rest →
  ∃ l, show (Z.of_nat (length out)) d = Done (0, d <| lib := l |>, []) ∧
    counter doc l = counter doc (lib d) ∧ shown doc l = shown doc (lib d) ++ out.
Proof.
  intros Hv. unfold show.
  destruct (for_each_invariant (λ i, d ← get; c ← array_get (vv d) i; call (char_write lc c))
    (λ i d', ∃ l, d' = d <| lib := l |> ∧ counter doc l = counter doc (lib d) ∧
       shown doc l = shown doc (lib d) ++ take (Z.to_nat i) out) (Z.of_nat (length out)) d)
    as (d' & Hrun & l & -> & Hc & Hs).
  - lia.
  - exists (lib d). cbn. rewrite app_nil_r. by destruct d.
  - intros i d' Hi (l & -> & Hc & Hs). destruct (lookup_lt_is_Some_2 out (Z.to_nat i)) as [c Hx]; [lia|].
    destruct (char_write_law doc c l) as [Hs' Hc']. eexists. split.
    + erewrite bind_quiet by reflexivity. cbn [upd vv].
      erewrite bind_quiet by (apply (array_get_in _ _ c); [lia|rewrite Hv; by apply lookup_app_l_Some]).
      reflexivity.
    + exists (char_write lc c l). split; [done|]. rewrite Hs', Hc', Hs, Hc. split; [done|].
      replace (Z.to_nat (i + 1)) with (S (Z.to_nat i)) by lia.
      rewrite (take_S_r _ _ c) by done. by rewrite app_assoc.
  - exists l. erewrite bind_quiet by exact Hrun. rewrite Nat2Z.id, firstn_all in Hs. done.
Qed.

Lemma turns_end ph acc out s :
  inv ph acc out s → (ph = End2 ∨ ∃ n, ph = End3 n) → turns ph acc out s.
Proof.
  intros Hs Hph. pose proof nn_range as Hr.
  destruct (inv_counted _ _ _ _ Hs) as (Hlen & Hc & Hv & Hsc). destruct Hph as [->|[n ->]].
  - cbn in Hc. assert (u32 (nn - cont (shared s)) = Z.of_nat (length out)) as Hz.
    { rewrite Hc, u32_id by (unfold is_u32; lia). lia. }
    apply (turns_mem End2 (End3 (Z.of_nat (length out))) acc out out s
      (d ← get; mret (u32 (nn - cont d))) shows_line (Z.of_nat (length out))
      (shared s)); try done; try go_on.
    + by rewrite <- Hz.
    + split; [apply Hs|done].
  - destruct (inv_memory _ _ _ _ Hs) as [Hcomp ->].
    destruct (show_run out _ _ Hv) as (l & Hshow & _ & Hsl).
    apply (turns_mem (End3 (Z.of_nat (length out))) End4 acc out out s _ (λ _, pause;> Ret 0) 0 _ Hs
      ltac:(go_on) Hshow); try done; try go_on.
    split; [done|]. cbn. rewrite Hsl, Hsc. by split.
Qed.

(** The main routine waits for the signal, or in [pause]. *)
Lemma turn_still ph acc out s :
  inv ph acc out s → ph = Idle ∨ ph = End4 → turn s = Done (tt, s, []).
Proof.
  intros Hs Hph. pose proof (inv_handler _ _ _ _ Hs) as Hh. pose proof (inv_caller _ _ _ _ Hs) as Hc.
  pose proof (inv_memory _ _ _ _ Hs) as Hm. unfold turn. erewrite bind_quiet by reflexivity.
  rewrite Hh, Hc. destruct Hph as [-> | ->]; cbn [handler_at].
  - destruct Hm as (_ & Hm & _). erewrite bind_quiet with (s' := s) (a := waits).
    + unfold modify. destruct s. cbn in *. by subst.
    + unfold act, caller_at. cbn [waits wait seq_prog].
      erewrite bind_quiet by reflexivity. pose proof (sem_wait_law doc (lib (shared s))) as Hw.
      destruct (sem_wait lc sincr_t (lib (shared s))); [lia|done].
  - erewrite bind_quiet by reflexivity. unfold modify. destruct s. cbn in *. by subst.
Qed.

Lemma turns_wait acc out s : inv End1 acc out s → turns End1 acc out s.
Proof.
  intros Hs. pose proof (inv_handler _ _ _ _ Hs) as Hh. pose proof (inv_caller _ _ _ _ Hs) as Hc.
  destruct (inv_memory _ _ _ _ Hs) as [Hcomp Hsem]. destruct (inv_counted _ _ _ _ Hs) as (Hl & Hct & Hv & Hsc).
  pose proof (sem_wait_law doc (lib (shared s))) as Hw.
  destruct (sem_wait lc sincr_t (lib (shared s))) as [l|] eqn:Hwait; [|lia].
  destruct Hw as (_ & _ & Hsl).
  pose proof (turn_act End1 End2 (Sem_wait sincr_t)
    (λ _, caller_at End2) s (caller_at End2) (s <| shared := (shared s) <| lib := l |> |>) []
    Hh Hc ltac:(go_on)) as Ht.
  eexists End2, out, _, []. split.
  - apply Ht; [|done|done|split; reflexivity]. cbn [act]. erewrite bind_quiet by reflexivity.
    rewrite Hwait. reflexivity.
  - split; [|left; unfold rank; cbn; lia].
    eapply (inv_moves End1 End2 acc out out s); try done.
    split; [done|]. split; [done|]. split; [done|]. cbn. by rewrite Hsl.
Qed.

Lemma turns_read acc out s : inv Irq2 acc out s → turns Irq2 acc out s.
Proof.
  intros Hs. destruct (inv_at _ _ _ _ Hs) as (Hon & Hint' & Hne).
  pose proof (act_in (λ z, a <- Ret z; a <- mem (convert a); converted a) s
    (inv_keyb _ _ _ _ Hs) (inv_line _ _ _ _ Hs)) as Ha.
  unfold keyboard.spec_read in Ha. cbn [Z.eqb keyboard.RBR_addr Pos.eqb] in Ha.
  destruct Ha as (kb & ev & Hact & Hwf & Habs). cbn [keyboard.abs keyboard.queue keyboard.q_int] in *.
  pose proof (inv_codes _ _ _ _ Hs) as Hcodes. pose proof (inv_text _ _ _ _ Hs) as Ht.
  pose proof (inv_shift _ _ _ _ Hs) as Hsh. unfold queued in Hcodes, Ht, Hsh. cbn [codes_at app] in *.
  destruct (keyboard.contents (kvm.keyb (machine s))) as [|a ks] eqn:Hks; [done|].
  cbn [hd tl keyboard.q_last] in *. rewrite u8_id in Hact by by inversion Hcodes.
  apply abs_write in Habs as (Hq & _ & Hon' & Hint2 & Hra). cbn in Hq, Hon', Hint2, Hra.
  pose proof (turn_act Irq2 (Got a) _ _ s _ _ _ (inv_handler _ _ _ _ Hs) (inv_caller _ _ _ _ Hs)
    ltac:(left; reflexivity) Hact eq_refl eq_refl ltac:(split; reflexivity)) as Hturn.
  exists (Got a), out. eexists _, _. split; [exact Hturn|]. split.
  - destruct Hs. split; unfold queued; cbn [upd set_keyb machine line caller handler shared kvm.keyb
      kvm.console_in codes_at app]; rewrite ?Hq; auto.
    cbn. rewrite Hon', Hint2, Hra, Hint'. by rewrite andb_false_r.
  - left. unfold rank. cbn [upd set_keyb machine kvm.keyb]. rewrite Hq, Hks. cbn [length weight]. lia.
Qed.

Lemma line_turn_step ph acc out s : inv ph acc out s → turns ph acc out s.
Proof.
  intros Hs. destruct ph.
  all: first [ by apply turns_open | by apply turns_read | by apply turns_convert
             | by apply turns_store | by apply turns_return; auto | by apply turns_end; eauto
             | apply turn_writes; [done|]; rewrite !elem_of_cons; tauto
             | by apply turns_wait
             | eexists _, out, s, []; split; [eapply turn_still; [exact Hs|by auto]|];
               split; [exact Hs|]; by auto 10 ].
Qed.

(** ** Interrupts and keystrokes *)

(** The keycodes that wait raise the line. *)
Lemma idle_raised acc out s :
  inv Idle acc out s →
  (keyboard.interrupt_raised (kvm.keyb (machine s)) = true ↔
   keyboard.contents (kvm.keyb (machine s)) ≠ []).
Proof.
  intros Hs. destruct (inv_at _ _ _ _ Hs) as [_ Hi]. pose proof (inv_keyb _ _ _ _ Hs) as Hk.
  pose proof (keyboard.length_contents _ Hk) as Hlen. split.
  - intros Hr He. apply (keyboard.wf_raised _ Hk Hr). by rewrite He in Hlen.
  - intros Hne. apply (keyboard.wf_not_lost _ Hk Hi). destruct (keyboard.contents _); [done|].
    cbn in Hlen. lia.
Qed.

(** Without one, or while the driver runs, no interrupt is taken. *)
Lemma irq_still ph acc out s :
  inv ph acc out s → (ph = Idle → keyboard.contents (kvm.keyb (machine s)) = []) →
  interrupt s = Done (tt, s, []).
Proof.
  intros Hs Hidle. unfold interrupt. erewrite bind_quiet by reflexivity.
  pose proof (inv_at _ _ _ _ Hs) as Hat. rewrite (inv_handler _ _ _ _ Hs), (inv_line _ _ _ _ Hs).
  destruct (keyboard.interrupt_raised _) eqn:Hr; [|by destruct (handler_at ph)].
  destruct ph; try done; cbn in Hat; exfalso; try (intuition congruence).
  apply (idle_raised acc out s Hs) in Hr. by apply Hr, Hidle.
Qed.

Lemma irq_step ph acc out s :
  inv ph acc out s →
  ∃ ph' s', interrupt s = Done (tt, s', []) ∧ inv ph' acc out s' ∧
    (ph = Idle ∧ ph' = Irq0 ∧ rank ph' s' < rank ph s ∨ ph' = ph ∧ s' = s).
Proof.
  intros Hs. destruct (decide (ph = Idle ∧ keyboard.contents (kvm.keyb (machine s)) ≠ []))
    as [[-> Hne]|Hno].
  - exists Irq0, (s <| handler := Some c_driv_tasint |>). split.
    { unfold interrupt. erewrite bind_quiet by reflexivity.
      rewrite (inv_handler _ _ _ _ Hs), (inv_line _ _ _ _ Hs), (proj2 (idle_raised _ _ _ Hs) Hne).
      reflexivity. }
    split; [|left; split_and!; [done..|unfold rank; cbn; lia]].
    eapply (inv_moves Idle Irq0 acc out out s); try done; [apply Hs| |apply Hs..].
    intros [Hon Hi]. by split_and!.
  - exists ph, s. split; [|by split; [|right]]. apply (irq_still ph acc out); [done|].
    intros ->. destruct (keyboard.contents _); [done|]. exfalso. by apply Hno.
Qed.

Lemma line_key_step ph acc out s code :
  inv ph acc out s → is_u8 code →
  ∃ s' ev, step (Key code) s = Done (tt, s', ev) ∧
    inv ph (acc ++ (if keyboard_program.takes (machine s) then [code] else [])) out s'.
Proof.
  intros Hs Hcode. pose proof (inv_keyb _ _ _ _ Hs) as Hk.
  pose proof (keyboard.insert_refines code _ Hk) as Hins.
  pose proof (keyboard.spec_step_line (keyboard.Insert code) (keyboard.abs (kvm.keyb (machine s)))) as Hline.
  cbn [keyboard.spec_step] in Hline. unfold keyboard.spec_insert in *.
  cbn [keyboard.abs keyboard.q_on keyboard.queue keyboard.q_raised keyboard.q_int] in *.
  rewrite (keyboard.length_contents _ Hk) in *.
  change (keyboard.enabled (kvm.keyb (machine s)) && _) with (keyboard_program.takes (machine s)) in *.
  pose proof (inv_at _ _ _ _ Hs) as Hat.
  destruct (keyboard_program.takes (machine s)) eqn:Ht; destruct Hins as (kb & Hrun & Hwf & Habs);
    apply abs_write in Habs as (Hq & Hcmd & Hon & Hint' & Hra); cbn in Hq, Hcmd, Hon, Hint', Hra, Hline;
    rewrite <- (inv_line _ _ _ _ Hs) in Hline; try rewrite <- Hra in Hline;
    (eexists _, _; split;
      [unfold step; erewrite bind_done by (eapply serve_done, keyboard_program.insert_run;
         [apply Hs|exact Hrun]); cbn [mret io_ret]; rewrite app_nil_r; reflexivity|]).
  - assert (keyboard.enabled (kvm.keyb (machine s)) = true) as He.
    { unfold keyboard_program.takes in Ht. by apply andb_true_iff in Ht as [? _]. }
    assert (keyb_at ph kb) as Hat'.
    { assert (keyboard.interrupt_enabled (kvm.keyb (machine s)) = false →
        keyboard.interrupt_raised kb = keyboard.interrupt_raised (kvm.keyb (machine s))) as Hra'
        by (intros Hi; by rewrite Hra, Hi, orb_false_r).
      assert (keyboard.contents kb ≠ []) as Hne by (rewrite Hq; by intros [_ ?]%app_nil).
      clear Hra Hq Hline. destruct ph; cbn in *; intuition congruence. }
    assert (queued ph (s <| machine := (machine s) <| kvm.keyb := kb |> |>) = queued ph s ++ [code])
      as Hqueue by (unfold queued; cbn [upd machine kvm.keyb]; rewrite Hq; by rewrite app_assoc).
    destruct Hs. split; try assumption; cbn [upd shared machine line kvm.keyb kvm.console_in caller handler];
      try assumption; change (queued ph _) with
        (queued ph (s <| machine := (machine s) <| kvm.keyb := kb |> |>)); rewrite Hqueue.
    + apply Forall_app_2; [done|by constructor].
    + rewrite text_app, inv_shift0. rewrite text_app, <- inv_text0. by rewrite !app_assoc.
    + by rewrite !foldl_app, inv_shift0.
  - rewrite app_nil_r. eapply (inv_set_keyb ph ph acc out s kb); try done.
    + destruct ph; cbn in *; rewrite ?Hcmd, ?Hon, ?Hint', ?Hra, ?Hq; done.
    + cbn. rewrite Hra. apply Hs.
    + apply Hs.
    + apply Hs.
Qed.

(** ** Runs *)

Definition key_ok (k : tick) : Prop := match k with Key code => is_u8 code | _ => True end.

Lemma line_run ks ph acc out s :
  inv ph acc out s → Forall key_ok ks →
  ∃ rs ph' out' s' ev, run step ks s = Done (rs, s', ev) ∧ inv ph' (acc ++ accepted ks s) out' s'.
Proof.
  intros Hs Hks. revert ph acc out s Hs. induction Hks as [|k ks Hk _ IH]; intros ph acc out s Hs.
  { exists [], ph, out, s, []. cbn [accepted]. by rewrite app_nil_r. }
  assert (∃ acc' ph' out' s' ev, step k s = Done (tt, s', ev) ∧ inv ph' acc' out' s' ∧
    acc ++ accepted (k :: ks) s = acc' ++ accepted ks s') as (acc' & ph1 & out1 & s1 & ev1 & H1 & Hs1 & Ha).
  { cbn [accepted]. destruct k as [| |code].
    - destruct (line_turn_step ph acc out s Hs) as (ph' & out' & s' & ev & H1 & Hs' & _).
      exists acc. eexists _, _, _, _. split; [exact H1|]. split; [exact Hs'|]. cbn [step]. by rewrite H1.
    - destruct (irq_step ph acc out s Hs) as (ph' & s' & H1 & Hs' & _).
      exists acc. eexists _, _, _, _. split; [exact H1|]. split; [exact Hs'|]. cbn [step]. by rewrite H1.
    - destruct (line_key_step ph acc out s code Hs Hk) as (s' & ev & H1 & Hs').
      eexists _, _, _, _, _. split; [exact H1|]. split; [exact Hs'|]. rewrite H1. by rewrite app_assoc. }
  destruct (IH ph1 acc' out1 s1 Hs1) as (rs & ph2 & out2 & s2 & ev2 & H2 & Hs2).
  exists (tt :: rs), ph2, out2, s2, (ev1 ++ ev2). rewrite run_cons, H1, H2. by rewrite Ha.
Qed.

(** Rounds of an interrupt, if there is one, and an action. *)
Definition rounds (n : nat) : list tick := concat (replicate n [Irq; Turn]).

Definition rested (ph : phase) (s : t) : Prop :=
  ph = End4 ∨ ph = Idle ∧ keyboard.contents (kvm.keyb (machine s)) = [].

Lemma run_round s s1 s2 ev1 ev2 :
  interrupt s = Done (tt, s1, ev1) → turn s1 = Done (tt, s2, ev2) →
  run step [Irq; Turn] s = Done ([tt; tt], s2, ev1 ++ ev2).
Proof.
  intros H1 H2. rewrite run_cons. cbn [step]. rewrite H1, run_cons. cbn [step]. rewrite H2.
  cbn [run mret io_ret]. by rewrite app_nil_r.
Qed.

Lemma round_rested ph acc out s :
  inv ph acc out s → rested ph s → run step [Irq; Turn] s = Done ([tt; tt], s, []).
Proof.
  intros Hs Hr. apply (run_round s s s [] []).
  - eapply irq_still; [exact Hs|]. intros ->. by destruct Hr as [|[_ ?]].
  - eapply turn_still; [exact Hs|]. destruct Hr as [|[? _]]; auto.
Qed.

Lemma round_step ph acc out s :
  inv ph acc out s →
  ∃ ph' out' s' ev, run step [Irq; Turn] s = Done ([tt; tt], s', ev) ∧ inv ph' acc out' s' ∧
    (rank ph' s' < rank ph s ∨ rested ph s ∧ s' = s ∧ ph' = ph).
Proof.
  intros Hs. destruct (decide (ph = End4)) as [->|H4].
  { exists End4, out, s, []. split; [eapply round_rested; [exact Hs|by left]|]. split; [done|].
    right. by split; [left|]. }
  destruct (decide (ph = Idle ∧ keyboard.contents (kvm.keyb (machine s)) = [])) as [Hi|Hi].
  { exists ph, out, s, []. split; [eapply round_rested; [exact Hs|by right]|]. split; [done|].
    right. by split; [right|]. }
  destruct (irq_step ph acc out s Hs) as (ph1 & s1 & H1 & Hs1 & Hr).
  destruct (line_turn_step ph1 acc out s1 Hs1) as (ph2 & out2 & s2 & ev2 & H2 & Hs2 & Ht).
  exists ph2, out2, s2, ev2. split; [by eapply (run_round s s1 s2 [])|]. split; [done|]. left.
  destruct Hr as [(-> & -> & Hr)|(-> & ->)], Ht as [Ht|(-> & -> & [Hp|Hp])]; try lia; try done.
  subst ph. exfalso. revert H1. unfold interrupt. erewrite bind_quiet by reflexivity.
  rewrite (inv_handler _ _ _ _ Hs), (inv_line _ _ _ _ Hs), (proj2 (idle_raised _ _ _ Hs)) by tauto.
  intros [= Hst]. apply (f_equal handler) in Hst. by rewrite (inv_handler _ _ _ _ Hs) in Hst.
Qed.

Lemma rank_rested ph acc out s : inv ph acc out s → rank ph s ≤ 0 → rested ph s.
Proof.
  intros Hs Hr. unfold rank, rested in *. pose proof (inv_at _ _ _ _ Hs) as Hat.
  destruct (keyboard.contents (kvm.keyb (machine s))) eqn:Hc; cbn [length] in Hr.
  - destruct ph; cbn [weight] in Hr; try lia; [by right|..|by left];
      cbn in Hat; rewrite Hc in Hat; tauto.
  - destruct ph; cbn [weight] in Hr; lia.
Qed.

Lemma rounds_rest n ph acc out s :
  inv ph acc out s → rank ph s ≤ Z.of_nat n ∨ rested ph s →
  ∃ rs ph' out' s' ev, run step (rounds n) s = Done (rs, s', ev) ∧ inv ph' acc out' s' ∧ rested ph' s'.
Proof.
  revert ph out s. induction n as [|n IH]; intros ph out s Hs Hr.
  - exists [], ph, out, s, []. split; [done|]. split; [done|]. destruct Hr as [Hr|Hr]; [|done].
    by eapply rank_rested.
  - change (rounds (S n)) with ([Irq; Turn] ++ rounds n).
    assert (∃ ph' out' s' ev, run step [Irq; Turn] s = Done ([tt; tt], s', ev) ∧ inv ph' acc out' s' ∧
      (rank ph' s' ≤ Z.of_nat n ∨ rested ph' s')) as (ph1 & out1 & s1 & ev1 & H1 & Hs1 & Hr1).
    { destruct Hr as [Hr|Hr].
      - destruct (round_step ph acc out s Hs) as (ph1 & out1 & s1 & ev1 & H1 & Hs1 & Hd).
        exists ph1, out1, s1, ev1. split_and!; [done..|].
        destruct Hd as [Hd|(Hd & -> & ->)]; [left; lia|by right].
      - exists ph, out, s, []. split_and!; [by eapply round_rested|done|by right]. }
    destruct (IH ph1 out1 s1 Hs1 Hr1) as (rs2 & ph2 & out2 & s2 & ev2 & H2 & Hs2 & Hr2).
    exists ([tt; tt] ++ rs2), ph2, out2, s2, (ev1 ++ ev2). rewrite run_app, H1, H2. done.
Qed.

(** What has been read is the start of the line. *)
Lemma inv_line_of ph acc out s :
  inv ph acc out s →
  ∃ rest, line_of (Z.to_nat nn) (text sh0 acc) = out ++ rest ∧
    (rested ph s → rest = [] ∧ complete (Z.to_nat nn) out = bool_decide (ph = End4)).
Proof.
  intros Hs. pose proof (inv_text _ _ _ _ Hs) as Ht. rewrite <- Ht.
  pose proof (inv_memory _ _ _ _ Hs) as Hm.
  assert (open_line (Z.to_nat nn) out ∧ ph ≠ End4 ∨ ended (Z.to_nat nn) out ∧ ph ≠ Idle) as [[Ho Hph]|[He Hph]].
  { destruct ph; cbn in Hm; try (left; split; [tauto|done]); try (right; split; [tauto|done]).
    left. destruct Hm as [-> _]. split; [|done]. split; [cbn; lia|apply not_elem_of_nil]. }
  - rewrite line_of_open by done. eexists. split; [done|]. intros [?|[-> Hc]]; [done|].
    unfold queued. rewrite Hc. cbn [chars_at codes_at app text]. split; [by destruct (_ - _)%nat|].
    by rewrite (open_incomplete _ _ Ho).
  - destruct (line_of_ended _ _ (chars_at ph ++ text (shift (shared s)) (queued ph s)) He) as [Hl Hcomp].
    exists []. rewrite Hl, app_nil_r. split; [done|]. intros [->|[? _]]; done.
Qed.

End reading.

(** ** The line reader *)

(** The program at its start, on the machine that the supervisor starts. *)
Definition boot (nn : Z) (d : memory) (m : kvm.t) : t := mk (read_line nn) None d m 0.

Lemma line_boot_inv doc nn d m :
  keyboard_program.started m → 0 < nn → counter doc (lib d) = 0 → shown doc (lib d) = [] →
  inv doc nn (vv d) (shift d) Open0 [] [] (boot nn d m).
Proof.
  intros [Hk Ha _] Hn Hsem Hsc.
  split; cbn [boot machine line shared caller handler]; unfold queued; cbn [boot machine]; rewrite ?Hk;
    first [done|apply keyboard.init_wf|by split_and!; [cbn; lia|..]|by constructor].
Qed.

(** C8. The interrupt-driven line reader of the repository on the machine as it starts,
    action by action, with keystrokes and interrupts at any point, for any library that does
    what is documented of its semaphore and of its output: it never faults, its buffer
    always holds a prefix of the line typed, the characters of the keycodes that the
    keyboard took up to a newline or the size asked for, and 268 rounds after the last
    keystroke it holds the whole line; if the line is complete the program has shown it
    again and is at its call of pause, which is its last, and otherwise it waits for the
    semaphore with no keycode lost. *)
Theorem line_typed (doc : documented lc) (nn : Z) (d : memory) (m : kvm.t) (ks : list tick)
    (Hnn : 0 < nn ≤ Z.of_nat (length (vv d))) (Hint : nn ≤ INT_MAX)
    (Hsem : counter doc (lib d) = 0) (Hscreen : shown doc (lib d) = [])
    (Hm : keyboard_program.started m) (Hks : Forall key_ok ks) :
  let codes := accepted ks (boot nn d m) in
  let typed := line_of (Z.to_nat nn) (text (shift d) codes) in
  (∃ rs s ev out rest, run step ks (boot nn d m) = Done (rs, s, ev) ∧
    typed = out ++ rest ∧ vv (shared s) = out ++ drop (length out) (vv d)) ∧
  ∀ n, (268 ≤ n)%nat → ∃ rs s ev, run step (ks ++ rounds n) (boot nn d m) = Done (rs, s, ev) ∧
    handler s = None ∧ vv (shared s) = typed ++ drop (length typed) (vv d) ∧
    if complete (Z.to_nat nn) typed
    then caller s = (pause;> Ret 0) ∧ shown doc (lib (shared s)) = typed ++ typed
    else caller s = waits nn ∧ shown doc (lib (shared s)) = typed.
Proof.
  intros codes typed.
  pose proof (line_boot_inv doc nn d m Hm ltac:(lia) Hsem Hscreen) as Hboot.
  destruct (line_run doc nn (vv d) (shift d) Hnn Hint ks Open0 [] [] _ Hboot Hks)
    as (rs & ph & out & s & ev & Hrun & Hs). cbn [app] in Hs. fold codes in Hs.
  destruct (inv_line_of _ _ _ _ Hnn _ _ _ _ Hs) as (rest & Hrest & _). split.
  { exists rs, s, ev, out, rest. split_and!; [done..|]. apply Hs. }
  intros n Hn. destruct (rounds_rest doc nn (vv d) (shift d) Hnn Hint n ph codes out s Hs)
    as (rs' & ph' & out' & s' & ev' & Hrun' & Hs' & Hr).
  { left. pose proof (keyboard.length_contents _ (inv_keyb _ _ _ _ _ _ _ _ Hs)) as Hl.
    pose proof (keyboard.wf_count _ (inv_keyb _ _ _ _ _ _ _ _ Hs)) as Hc.
    unfold rank. assert (weight ph ≤ 12) by (destruct ph; cbn; lia). lia. }
  destruct (inv_line_of _ _ _ _ Hnn _ _ _ _ Hs') as (rest' & Hrest' & Hdone).
  destruct (Hdone Hr) as [-> Hcomp]. rewrite app_nil_r in Hrest'. fold typed in Hrest'.
  destruct (inv_counted _ _ _ _ _ _ _ _ Hs') as (_ & _ & Hv & Hsc).
  pose proof (inv_handler _ _ _ _ _ _ _ _ Hs') as Hh. pose proof (inv_caller _ _ _ _ _ _ _ _ Hs') as Hc.
  exists (rs ++ rs'), s', (ev ++ ev'). rewrite run_app, Hrun, Hrun', Hrest', Hcomp.
  split; [done|]. destruct Hr as [-> | [-> _]]; by split_and!.
Qed.

End libce.

(** ** Witness *)

(** A conversion with the tables of the console. *)
Definition conv0 (sh : bool) (k : Z) : Z :=
  if 0x80 <=? k then 0
  else default 0 ((if sh then ConsoleInput.tabmai else ConsoleInput.tabmin) !! ConsoleInput.search ConsoleInput.tab k).

(** A library: the counter of the semaphore and the characters shown. *)
Definition libce0 : libce :=
  mk_libce (Z * list Z) conv0
    (λ _ l, if 0 <? fst l then Some (fst l - 1, snd l) else None)
    (λ _ l, (fst l + 1, snd l)) (λ c l, (fst l, snd l ++ [c])).

Program Definition documented0 : documented libce0 := mk_documented libce0 fst snd _ _ _.
Next Obligation. cbn. intros [n cs]. cbn. destruct (Z.ltb_spec 0 n); [by split_and!|lia]. Qed.
Next Obligation. done. Qed.
Next Obligation. done. Qed.

Definition conv0_ok (sh : bool) (k : Z) : Prop :=
  ConsoleInput.driver_step (sh, []) k = (new_shift sh k, char_of libce0 sh k).

#[local] Instance conv0_ok_dec sh k : Decision (conv0_ok sh k).
Proof. unfold conv0_ok. apply _. Defined.

Lemma conv0_step sh k : is_u8 k → conv0_ok sh k.
Proof.
  intros Hk.
  assert (forallb (λ k, bool_decide (conv0_ok true k) && bool_decide (conv0_ok false k))
    (seqZ 0 256) = true) as H by (vm_compute; reflexivity).
  rewrite forallb_forall in H. specialize (H k).
  rewrite andb_true_iff, !bool_decide_eq_true in H.
  destruct H as [Ht Hf]; [apply list_elem_of_In, elem_of_seqZ; unfold is_u8 in Hk; lia|]. by destruct sh.
Qed.

(** With this conversion the driver recovers what is typed on the console. *)
Lemma text_driver sh ks :
  Forall is_u8 ks → text libce0 sh ks = (ConsoleInput.driver sh ks).2.
Proof.
  intros Hks. revert sh. induction Hks as [|k ks Hk _ IH]; intros sh; [done|]. cbn [text].
  change (k :: ks) with ([k] ++ ks). rewrite ConsoleInput.driver_app.
  change (ConsoleInput.driver sh [k]) with (ConsoleInput.driver_step (sh, []) k).
  pose proof (conv0_step sh k Hk) as ->. cbn [fst snd]. by rewrite IH.
Qed.

Definition memory0 : memory libce0 := mk_memory libce0 0 0 (replicate 80 0) false (0, []).

(** The keys of a line, and one after it. *)
Definition ticks0 : list tick :=
  [Turn; Turn; Turn] ++ map Key (ConsoleInput.typed false (chars "Hi!" ++ [10])) ++ [Irq; Turn; Key 0x10].

Lemma line_typed_witness :
  line_of 80 (text libce0 false (accepted libce0 ticks0 (boot libce0 80 memory0 kvm.machine0))) =
    chars "Hi!" ++ [10] ∧
  ∃ rs s ev, run (step libce0) (ticks0 ++ rounds 268) (boot libce0 80 memory0 kvm.machine0) = Done (rs, s, ev) ∧
    take 4 (vv libce0 (shared libce0 s)) = chars "Hi!" ++ [10] ∧
    snd (lib libce0 (shared libce0 s)) = (chars "Hi!" ++ [10]) ++ chars "Hi!" ++ [10] ∧
    caller libce0 s = Act libce0 (Pause libce0) (λ _, Ret libce0 0).
Proof.
  assert (line_of 80 (text libce0 false (accepted libce0 ticks0 (boot libce0 80 memory0 kvm.machine0))) =
    chars "Hi!" ++ [10]) as Hl by (vm_compute; reflexivity).
  split; [exact Hl|].
  destruct (line_typed libce0 documented0 80 memory0 kvm.machine0 ticks0) as [_ Hrest].
  - cbn. lia.
  - unfold INT_MAX. lia.
  - reflexivity.
  - reflexivity.
  - apply keyboard_program.ready_started.
  - repeat constructor; (try exact I); vm_compute; intuition congruence.
  - change (Z.to_nat 80) with 80%nat in Hrest. cbn [shift memory0] in Hrest. rewrite Hl in Hrest.
    destruct (Hrest 268%nat ltac:(lia)) as (rs & s & ev & Hrun & _ & Hv & Hc & Hs).
    exists rs, s, ev. split; [exact Hrun|]. split; [rewrite Hv; reflexivity|].
    split; [exact Hs|exact Hc].
Defined.

End int_tastiera.
