(* ===== verification/GuestDisk.v ===== *)
(** * Guests of the machine: the disk programs (target-sources/pci-hdd-1.cpp, pci-hdd-2.cpp)

The two programs find the disk on the PCI bus, read its base registers and transfer sectors
by polling.  They call the library libce, which is not part of the repository: the two
functions that read the configuration space, the two that write on the screen and the one
that waits at the end are arguments, and an input or output of a port is an exit of the
virtual CPU that the machine of Machine.v serves.  What a program shows is stated by the
calls that it makes of the functions that write. *)

From S2P Require Import Prelude IODevice VgaController DiskManager HardDisk PCIDevice PciHost Machine.

Module guest.

(** ** Registers *)

Definition iBR : Z := 0x01F0 - 0x01F0.
Definition iCNL : Z := 0x01F4 - 0x01F0.
Definition iCNH : Z := 0x01F5 - 0x01F0.
Definition iSNR : Z := 0x01F3 - 0x01F0.
Definition iHND : Z := 0x01F6 - 0x01F0.
Definition iSCR : Z := 0x01F2 - 0x01F0.
Definition iCMD : Z := 0x01F7 - 0x01F0.
Definition iSTS : Z := 0x01F7 - 0x01F0.
Definition iDCR : Z := 0x03F6 - 0x03F6.

(** ** The programs *)

Section libce.

(** The state that an exit is served on, and what serves it: the supervisor below, or the
    supervisor with a record of the exits (Sessions.v). *)
Context {St : Type} (handle_io : kvm.io_exit → io St (list Z)).

(** What the page that the virtual CPU shares holds at an input, before the supervisor
    serves it: the supervisor leaves it alone at a port that it does not know. *)
Context (page : list Z).

(** [pci_read_confw] and [pci_read_confl] of libce: bus, device, function and offset. *)
Context (pci_read_confw pci_read_confl : Z → Z → Z → Z → io St Z).

(** [str_write], [char_write] and [pause] of libce. *)
Context (str_write : list Z → io St unit) (char_write : Z → io St unit) (pause : io St unit).

Definition inputb (p : Z) : io St Z :=
  page ← handle_io (kvm.mk_io kvm.KVM_EXIT_IO_IN 1 p 1 page);
  mret (le_val (take 1 page)).
Definition inputw (p : Z) : io St Z :=
  page ← handle_io (kvm.mk_io kvm.KVM_EXIT_IO_IN 2 p 1 page);
  mret (le_val (take 2 page)).
Definition outputb (v p : Z) : io St unit :=
  handle_io (kvm.mk_io kvm.KVM_EXIT_IO_OUT 1 p 1 (le_bytes 4 v));; mret tt.
Definition outputw (v p : Z) : io St unit :=
  handle_io (kvm.mk_io kvm.KVM_EXIT_IO_OUT 2 p 1 (le_bytes 4 v));; mret tt.

(** [do inputb(port, s); while (again(s))]: out of fuel, it still waits. *)
Fixpoint poll (fuel : nat) (port : Z) (again : Z → bool) : io St unit :=
  match fuel with
  | O => crash NeedInput
  | S fuel => s ← inputb port; if again s then poll fuel port again else mret tt
  end.

Definition busy (s : Z) : bool := has_bits s 0x80.
Definition no_data (s : Z) : bool := negb (Z.land s 0x88 =? 0x08).

(** The two loops: the pairs are tried in order, and after the last one the variables hold
    the values that end the loops. *)
Fixpoint cerca (ps : list (Z * Z)) : io St (Z * Z) :=
  match ps with
  | [] => mret (32, 8)
  | (dev, fun_) :: ps =>
      w ← pci_read_confw 0 dev fun_ 10;
      if w =? 0x0101 then mret (dev, fun_) else cerca ps
  end.

Definition functions : list (Z * Z) :=
  concat (map (λ dev, map (λ fun_, (dev, fun_)) (seqZ 0 8)) (seqZ 0 32)).

Definition cerca_bm : io St (Z * Z) := cerca functions.

(** The registers of a command, up to the command itself. *)
Definition program (bar0 bar1 lba quanti cmd : Z) : io St unit :=
  let lba_0 := u8 lba in
  let lba_1 := u8 (Z.shiftr lba 8) in
  let lba_2 := u8 (Z.shiftr lba 16) in
  let lba_3 := u8 (Z.shiftr lba 24) in
  outputb lba_0 (iSNR + bar0);;
  outputb lba_1 (iCNL + bar0);;
  outputb lba_2 (iCNH + bar0);;
  let hnd := u8 (Z.lor (Z.land lba_3 0x0F) 0xE0) in
  outputb hnd (iHND + bar0);;
  outputb quanti (iSCR + bar0);;
  outputb 0x0A (iDCR + bar1);;
  outputb cmd (iCMD + bar0).

(** [vetto[i*512/2 + j]] for [j] from 0. *)
Definition scrivi (bar0 : Z) (vetto : list Z) (i : Z) : io St unit :=
  for_each (seqZ 0 256) (λ j,
    w ← array_get vetto (i * 512 / 2 + j); outputw w (iBR + bar0)).

Definition scrivisett (fuel : nat) (bar0 bar1 lba quanti : Z) (vetto : list Z) : io St unit :=
  poll fuel iSTS busy;;
  program bar0 bar1 lba quanti 0x30;;
  for_each (seqZ 0 quanti) (λ i,
    poll fuel (iSTS + bar0) no_data;;
    scrivi bar0 vetto i).

(** [n] words from the data register, in their order. *)
Fixpoint leggi (n : nat) (bar0 : Z) : io St (list Z) :=
  match n with
  | O => mret []
  | S n => w ← inputw (iBR + bar0); ws ← leggi n bar0; mret (w :: ws)
  end.

(** The words of [n] sectors. *)
Fixpoint leggi_settori (fuel n : nat) (bar0 : Z) : io St (list Z) :=
  match n with
  | O => mret []
  | S n =>
      poll fuel (iSTS + bar0) no_data;;
      ws ← leggi 256 bar0;
      rest ← leggi_settori fuel n bar0;
      mret (ws ++ rest)
  end.

(** The words that go to [vetti]. *)
Definition leggisett (fuel : nat) (bar0 bar1 lba quanti : Z) : io St (list Z) :=
  poll fuel (iSTS + bar0) busy;;
  program bar0 bar1 lba quanti 0x20;;
  leggi_settori fuel (Z.to_nat quanti) bar0.

(** The bytes of [buff] as words, and back. *)
Definition as_words (n : nat) (bytes : list Z) : list Z :=
  map (λ i, le_val (slice (2 * i) 2 bytes)) (seq 0 n).

Definition base_registers : io St (Z * Z) :=
  found ← cerca_bm;
  bar0 ← pci_read_confl 0 (fst found) (snd found) 16;
  bar1 ← pci_read_confl 0 (fst found) (snd found) 20;
  mret (bar0, bar1).

(** [main] of pci-hdd-1.cpp; the array [buff] has 4096 bytes. *)
Definition main_write (fuel : nat) : io St Z :=
  bars ← base_registers;
  let buff := replicate (2 * 512) 99 ++ replicate (6 * 512) 0 in
  scrivisett fuel (fst bars) (snd bars) 1 2 (as_words 2048 buff);;
  str_write (chars "OK" ++ [10]);;
  pause;;
  mret 0.

(** [main] of pci-hdd-2.cpp: [buff] starts with what has been read. *)
Definition main_read (fuel : nat) : io St Z :=
  bars ← base_registers;
  vetti ← leggisett fuel (fst bars) (snd bars) 1 2;
  let buff := HardDisk.words_bytes vetti ++ replicate (6 * 512) 0 in
  for_each (seqZ 0 (2 * 512)) (λ i, c ← array_get buff i; char_write c);;
  char_write 10;;
  pause;;
  mret 0.

(** The characters of a text, one by one, and the end of a program. *)
Definition shows (text : list Z) : io St Z := for_each text char_write;; pause;; mret 0.

(** What the programs do before they show it. *)
Definition before_write (fuel : nat) : io St unit :=
  bars ← base_registers;
  scrivisett fuel (fst bars) (snd bars) 1 2
    (as_words 2048 (replicate (2 * 512) 99 ++ replicate (6 * 512) 0)).

Definition before_read (fuel : nat) : io St (list Z) :=
  bars ← base_registers;
  leggisett fuel (fst bars) (snd bars) 1 2.

Lemma main_write_ends fuel m m' ev :
  before_write fuel m = Done (tt, m', ev) →
  main_write fuel m = emitting ev ((str_write (chars "OK" ++ [10]);; pause;; mret 0) m').
Proof.
  intros H.
  assert (main_write fuel m = (before_write fuel;; str_write (chars "OK" ++ [10]);; pause;; mret 0) m)
    as -> by (unfold before_write, main_write; by rewrite bind_assoc).
  exact (bind_emits _ (λ _, str_write (chars "OK" ++ [10]);; pause;; mret 0) _ _ _ _ H).
Qed.

(** The characters at the start of an array, written one by one. *)
Lemma show_from pre text rest (m : St) :
  for_each (seqZ (Z.of_nat (length pre)) (Z.of_nat (length text)))
    (λ i, c ← array_get (pre ++ text ++ rest) i; char_write c) m = for_each text char_write m.
Proof.
  revert pre m. induction text as [|c text IH]; intros pre m; [done|].
  rewrite seqZ_cons by (cbn [length]; lia). cbn [for_each]. apply bind_cong.
  { apply bind_quiet, array_get_in; [lia|]. rewrite Nat2Z.id. by apply list_lookup_middle. }
  intros _ m'. rewrite <- (IH (pre ++ [c])), length_app, <- app_assoc. cbn [length app].
  by replace (Z.pred (Z.of_nat (S (length text)))) with (Z.of_nat (length text)) by lia;
    replace (Z.of_nat (length pre + 1)) with (Z.succ (Z.of_nat (length pre))) by lia.
Qed.

Lemma for_each_last (text : list Z) c (f : io St Z) m :
  (for_each text char_write;; char_write c;; f) m = (for_each (text ++ [c]) char_write;; f) m.
Proof.
  revert m. induction text as [|d text IH]; intros m; cbn [for_each app].
  - rewrite bind_assoc. erewrite bind_quiet by reflexivity. apply bind_cong; [done|].
    intros _ m'. by erewrite bind_quiet by reflexivity.
  - rewrite !bind_assoc. apply bind_cong; [done|]. intros _ m'. apply IH.
Qed.

Lemma main_read_ends fuel vetti text m m' ev :
  before_read fuel m = Done (vetti, m', ev) →
  HardDisk.words_bytes vetti = text → Z.of_nat (length text) = 2 * 512 →
  main_read fuel m = emitting ev (shows (text ++ [10]) m').
Proof.
  intros H Ht Hl.
  assert (main_read fuel m = (before_read fuel ≫= λ vetti,
    for_each (seqZ 0 (2 * 512)) (λ i,
      c ← array_get (HardDisk.words_bytes vetti ++ replicate (6 * 512) 0) i; char_write c);;
    char_write 10;; pause;; mret 0) m) as ->.
  { unfold before_read, main_read. by rewrite bind_assoc. }
  rewrite (bind_emits _ _ _ _ _ _ H), Ht. f_equal. unfold shows. rewrite <- for_each_last, <- Hl.
  apply bind_cong; [apply (show_from [])|done].
Qed.

(** The configuration mechanism of the bus, through its two ports. *)
Definition conf_read (w : nat) (bus dev fun_ off : Z) : io St Z :=
  handle_io (kvm.mk_io kvm.KVM_EXIT_IO_OUT 4 0xCF8 1
    (le_bytes 4 (pci_host.address bus dev fun_ (off - off mod 4))));;
  page ← handle_io (kvm.mk_io kvm.KVM_EXIT_IO_IN (Z.of_nat w) (0xCFC + off mod 4) 1 page);
  mret (le_val (take w page)).

End libce.
End guest.

Module pci_hdd.
Import guest.
#[local] Existing Instance kvm.eta_t.
#[local] Existing Instance pci_host.eta_bus.
#[local] Existing Instance HardDisk.eta_t.

Section libce.
Context (page : list Z) (pci_read_confw pci_read_confl : Z → Z → Z → Z → io kvm.t Z).

(** The programs on the machine. *)
#[local] Notation inputb := (guest.inputb kvm.handle_io page).
#[local] Notation inputw := (guest.inputw kvm.handle_io page).
#[local] Notation outputb := (guest.outputb kvm.handle_io).
#[local] Notation outputw := (guest.outputw kvm.handle_io).
#[local] Notation poll := (guest.poll kvm.handle_io page).
#[local] Notation cerca := (guest.cerca pci_read_confw).
#[local] Notation cerca_bm := (guest.cerca_bm pci_read_confw).
#[local] Notation program := (guest.program kvm.handle_io).
#[local] Notation scrivi := (guest.scrivi kvm.handle_io).
#[local] Notation scrivisett := (guest.scrivisett kvm.handle_io page).
#[local] Notation leggi := (guest.leggi kvm.handle_io page).
#[local] Notation leggi_settori := (guest.leggi_settori kvm.handle_io page).
#[local] Notation leggisett := (guest.leggisett kvm.handle_io page).
#[local] Notation before_write := (guest.before_write kvm.handle_io page pci_read_confw pci_read_confl).
#[local] Notation before_read := (guest.before_read kvm.handle_io page pci_read_confw pci_read_confl).
#[local] Notation base_registers := (guest.base_registers pci_read_confw pci_read_confl).
#[local] Notation conf_read := (guest.conf_read kvm.handle_io page).

(** ** The exits of the programs *)

(** A machine whose bus is as the supervisor starts it. *)
Record presented (b : pci_host.bus) : Prop := {
  pr_wf : pci_host.wf b;
  pr_objects : pci_host.objects b = pci_host.started_objects;
  pr_devices : pci_host.devices (pci_host.host b) = pci_host.kvm_table;
}.

Lemma presented_bars m :
  presented (kvm.pci m) →
  PCIDevice.getBar 0 (kvm.ata m) = 0x1F0 ∧ PCIDevice.getBar 1 (kvm.ata m) = 0x3F6.
Proof. intros [_ Ho _]. unfold kvm.ata. rewrite Ho. by split; vm_compute. Qed.

(** The drive's own operations, as exits: [p] is [q] on the drive. *)
Definition lifts {A} (p : io kvm.t A) (q : io HardDisk.t A) : Prop :=
  ∀ m, presented (kvm.pci m) → p m = kvm.on_hdd q m.

Lemma lifts_bind {A B} (p : io kvm.t A) q (f : A → io kvm.t B) g :
  lifts p q → (∀ a, lifts (f a) (g a)) → lifts (p ≫= f) (q ≫= g).
Proof.
  intros Hp Hf m Hm. unfold mbind, io_bind. rewrite (Hp m Hm). unfold kvm.on_hdd, zoom.
  destruct (q (kvm.hdd m)) as [[[a d] ev]|]; [|done].
  rewrite (Hf a); [|exact Hm]. unfold kvm.on_hdd, zoom. cbn [kvm.hdd upd kvm.eta_t].
  by destruct (g a d) as [[[b d'] ev']|].
Qed.

Lemma lifts_ret {A} (a : A) : lifts (mret a) (mret a).
Proof. intros m _. by destruct m. Qed.

Lemma lifts_crash {A} h : lifts (crash h : io kvm.t A) (crash h).
Proof. by intros m _. Qed.

Lemma lifts_get_array l i : lifts (array_get l i : io kvm.t Z) (array_get l i).
Proof.
  unfold array_get. case_decide; [|apply lifts_crash]. case_match; [apply lifts_ret|apply lifts_crash].
Qed.

Lemma lifts_for_each idx f g : (∀ i, lifts (f i) (g i)) → lifts (for_each idx f) (for_each idx g).
Proof.
  intros H. induction idx as [|i idx IH]; [apply lifts_ret|]. cbn [for_each].
  apply lifts_bind; [apply H|by intros []].
Qed.

(** An exit at a register of the command block, of one or two bytes. *)
Lemma command_exit m w x a i :
  presented (kvm.pci m) → 0 ≤ i ≤ 7 → kvm.port x = i + 0x1F0 → kvm.hdd_width w x →
  kvm.access_of w x = Some a →
  kvm.handle_io x m =
    match dev_access (PCI_ATA.at_port a (0x01F0 + i)) (kvm.hdd m) with
    | Done (v, d, ev) => Done (kvm.page_after w v x, m <| kvm.hdd := d |>, ev)
    | Halt h => Halt h
    end.
Proof.
  intros Hm Hi Hp Hw Ha. destruct (presented_bars m Hm) as [H0 _].
  assert (∃ k, (k < 8)%nat ∧ i = Z.of_nat k) as (k & Hk & ->).
  { exists (Z.to_nat i). lia. }
  apply kvm.hdd_exit_run; rewrite ?H0; try lia; try done; [..].
  - rewrite kvm.find_byte_port. unfold kvm.within. rewrite Hp.
    by do 8 (destruct k as [|k]; [done|]); lia.
  - rewrite kvm.find_pci_port. unfold kvm.within. rewrite Hp.
    by do 8 (destruct k as [|k]; [done|]); lia.
Qed.

Lemma outputb_lifts i v :
  0 ≤ i ≤ 7 → lifts (outputb v (i + 0x1F0)) (HardDisk.write_reg_byte (0x1F0 + i) (u8 v)).
Proof.
  intros Hi m Hm. unfold guest.outputb, mbind, io_bind.
  set (x := kvm.mk_io kvm.KVM_EXIT_IO_OUT 1 (i + 0x1F0) 1 (le_bytes 4 v)).
  rewrite (command_exit m 1 x (WriteByte (i + 0x1F0) (u8 v)) i); [|done|done|done|by left|].
  - cbn [PCI_ATA.at_port dev_access dev_write_byte HardDisk.ops]. unfold kvm.on_hdd, zoom.
    unfold mbind, io_bind. destruct (HardDisk.write_reg_byte _ _ _) as [[[[] d] ev]|]; [|done].
    cbn [mret io_ret]. by rewrite !app_nil_r.
  - unfold kvm.access_of. cbn [kvm.direction x kvm.KVM_EXIT_IO_OUT Z.eqb Pos.eqb].
    do 2 f_equal. unfold kvm.operand. cbn -[Z.mul Z.add u8]. lia.
Qed.

Lemma outputw_lifts v :
  lifts (outputw v (iBR + 0x1F0)) (HardDisk.write_reg_word HardDisk.BR_addr (u16 v)).
Proof.
  intros m Hm. unfold guest.outputw, mbind, io_bind.
  set (x := kvm.mk_io kvm.KVM_EXIT_IO_OUT 2 (iBR + 0x1F0) 1 (le_bytes 4 v)).
  rewrite (command_exit m 2 x (WriteWord (iBR + 0x1F0) (u16 v)) 0); [|done|lia|done|by right|].
  - cbn [PCI_ATA.at_port dev_access dev_write_word HardDisk.ops]. unfold kvm.on_hdd, zoom.
    unfold mbind, io_bind. change (0x01F0 + 0) with HardDisk.BR_addr.
    destruct (HardDisk.write_reg_word _ _ _) as [[[[] d] ev]|]; [|done].
    cbn [mret io_ret]. by rewrite !app_nil_r.
  - unfold kvm.access_of. cbn [kvm.direction x kvm.KVM_EXIT_IO_OUT Z.eqb Pos.eqb].
    do 2 f_equal. unfold kvm.operand. change (take 2 (kvm.data x)) with (le_bytes 2 v).
    by rewrite le_val_bytes.
Qed.

(** The page is large enough for an operand. *)
Hypothesis page_size : (4 ≤ length page)%nat.

Lemma page_operand w v x :
  (w ≤ 4)%nat → kvm.direction x = kvm.KVM_EXIT_IO_IN → kvm.data x = page →
  le_val (take w (kvm.page_after w v x)) = v mod 256 ^ Z.of_nat w.
Proof.
  intros Hw Hd Hp. unfold kvm.page_after, kvm.put_operand. rewrite Hd, Hp.
  cbn [kvm.KVM_EXIT_IO_IN kvm.KVM_EXIT_IO_OUT Z.eqb].
  change (take w ?l) with (slice 0 w l). rewrite <- (length_le_bytes w v) at 1.
  rewrite slice_inserts_eq by (rewrite length_le_bytes; lia). apply le_val_bytes.
Qed.

Lemma inputb_lifts i :
  0 ≤ i ≤ 7 →
  lifts (inputb (i + 0x1F0)) (v ← HardDisk.read_reg_byte (0x1F0 + i); mret (u8 v)).
Proof.
  intros Hi m Hm. unfold guest.inputb.
  set (x := kvm.mk_io kvm.KVM_EXIT_IO_IN 1 (i + 0x1F0) 1 page).
  unfold mbind at 1, io_bind at 1.
  rewrite (command_exit m 1 x (ReadByte (i + 0x1F0)) i); [|done|done|done|by left|done].
  cbn [PCI_ATA.at_port dev_access dev_read_byte HardDisk.ops]. unfold kvm.on_hdd, zoom.
  unfold mbind, io_bind. destruct (HardDisk.read_reg_byte _ _) as [[[v d] ev]|]; [|done].
  rewrite page_operand by (done || lia). cbn [mret io_ret]. by rewrite app_nil_r.
Qed.

Lemma inputw_lifts :
  lifts (inputw (iBR + 0x1F0)) (v ← HardDisk.read_reg_word HardDisk.BR_addr; mret (u16 v)).
Proof.
  intros m Hm. unfold guest.inputw.
  set (x := kvm.mk_io kvm.KVM_EXIT_IO_IN 2 (iBR + 0x1F0) 1 page).
  unfold mbind at 1, io_bind at 1.
  rewrite (command_exit m 2 x (ReadWord (iBR + 0x1F0)) 0); [|done|lia|done|by right|done].
  cbn [PCI_ATA.at_port dev_access dev_read_word HardDisk.ops]. unfold kvm.on_hdd, zoom.
  change (0x01F0 + 0) with HardDisk.BR_addr.
  unfold mbind, io_bind. destruct (HardDisk.read_reg_word _ _) as [[[v d] ev]|]; [|done].
  rewrite page_operand by (done || lia). cbn [mret io_ret]. by rewrite app_nil_r.
Qed.

(** The device control register, behind the second base register. *)
Lemma control_lifts v :
  lifts (outputb v (iDCR + 0x3F6)) (HardDisk.write_reg_byte HardDisk.DCR_addr (u8 v)).
Proof.
  intros m Hm. destruct (presented_bars m Hm) as [H0 H1]. unfold guest.outputb.
  set (x := kvm.mk_io kvm.KVM_EXIT_IO_OUT 1 (iDCR + 0x3F6) 1 (le_bytes 4 v)).
  assert (kvm.machine_route m x = Some (kvm.ToHdd, 1%nat)) as Hr.
  { unfold kvm.machine_route. rewrite H0, H1. by vm_compute. }
  assert (kvm.access_of 1 x = Some (WriteByte 0x3F6 (u8 v))) as Ha.
  { unfold kvm.access_of. cbn [kvm.direction x kvm.KVM_EXIT_IO_OUT Z.eqb Pos.eqb].
    do 2 f_equal. unfold kvm.operand. cbn -[Z.mul Z.add u8]. lia. }
  unfold mbind, io_bind. rewrite kvm.handle_io_spec. unfold kvm.io_spec. rewrite Hr, Ha.
  cbn [kvm.perform]. unfold kvm.on_hdd, zoom. rewrite kvm.bridge_at.
  assert (PCI_ATA.translate (kvm.ata m) 0x3F6 = 0x3F6) as Ht.
  { unfold PCI_ATA.translate. rewrite H0, H1. by vm_compute. }
  cbn [PCIDevice.access_offset]. rewrite Ht.
  cbn [PCI_ATA.at_port dev_access dev_write_byte HardDisk.ops].
  unfold mbind, io_bind. change HardDisk.DCR_addr with 0x3F6.
  destruct (HardDisk.write_reg_byte _ _ _) as [[[[] d] ev]|]; [|done].
  cbn [mret io_ret]. by rewrite !app_nil_r.
Qed.

(** A port that the machine does not know leaves the page alone. *)
Lemma stray_poll fuel m again :
  presented (kvm.pci m) →
  poll fuel iSTS again m =
    match fuel with
    | O => Halt NeedInput
    | S _ => if again (le_val (take 1 page)) then Halt NeedInput else Done (tt, m, [])
    end.
Proof.
  intros Hm. destruct (presented_bars m Hm) as [H0 H1].
  assert (inputb iSTS m = Done (le_val (take 1 page), m, [])) as Hin.
  { unfold guest.inputb. set (x := kvm.mk_io kvm.KVM_EXIT_IO_IN 1 iSTS 1 page).
    erewrite bind_quiet; [reflexivity|]. rewrite kvm.handle_io_spec. unfold kvm.io_spec.
    unfold kvm.machine_route. by rewrite H0, H1. }
  induction fuel as [|fuel IH]; [done|]. cbn [guest.poll]. erewrite bind_quiet by exact Hin.
  destruct (again _); [|done]. rewrite IH. by destruct fuel.
Qed.

(** ** The transfers, on the drive *)

(** The drive when its registers are set, with its interrupts disabled. *)
Definition programmed (a q cmd : Z) (d : HardDisk.t) : HardDisk.t :=
  d <| HardDisk.SNR := u8 a |> <| HardDisk.CNL := u8 (Z.shiftr a 8) |>
    <| HardDisk.CNH := u8 (Z.shiftr a 16) |>
    <| HardDisk.HND := u8 (Z.lor (Z.land (u8 (Z.shiftr a 24)) 0x0F) 0xE0) |>
    <| HardDisk.SCR := q |> <| HardDisk.DCR := 0x02 |>
    <| HardDisk.interrupt_enabled := false |> <| HardDisk.interrupt_raised := false |>
    <| HardDisk.CMD := cmd |>.

Lemma registers_wf n a q cmd d :
  HardDisk.wf n d → is_u8 q → HardDisk.wf n (programmed a q cmd d).
Proof. intros [] Hq. split; cbn; auto using u8_range. Qed.

Lemma registers_lba a q cmd d :
  0 ≤ a < 268435456 → HardDisk.compute_lba (programmed a q cmd d) = a.
Proof.
  intros Ha. rewrite HardDisk.compute_lba_val by apply u8_range.
  cbn [programmed upd HardDisk.SNR HardDisk.CNL HardDisk.CNH HardDisk.HND].
  rewrite !Z.shiftr_div_pow2 by lia. change (2 ^ 8) with 256. change (2 ^ 16) with 65536.
  change (2 ^ 24) with 16777216. change 0x0F with (2 ^ 4 - 1). rewrite land_ones_mod by lia.
  rewrite Z.lor_comm. rewrite Z.lor_comm.
  change 0xE0 with (Z.shiftl 14 4). rewrite lor_shiftl_add by (try apply Z.mod_pos_bound; lia).
  change (2 ^ 4) with 16. width_lia.
Qed.

Definition quiet_drive (d : HardDisk.t) : Prop :=
  HardDisk.interrupt_enabled d = false ∧ HardDisk.interrupt_raised d = false.

Lemma command_programmed n m a q cmd :
  presented (kvm.pci m) → HardDisk.wf n (kvm.hdd m) → is_u8 q → is_u8 cmd →
  HardDisk.current_sector_number (kvm.hdd m) < INT_MAX →
  program 0x1F0 0x3F6 a q cmd m =
    Done (tt, m <| kvm.hdd := HardDisk.commanded n (programmed a q cmd (kvm.hdd m)) |>, []).
Proof.
  intros Hm Hd Hq Hcmd Hc. set (d := kvm.hdd m) in *.
  pose proof (HardDisk.process_cmd_run n (programmed a q cmd d)
    (registers_wf n a q cmd d Hd Hq) (λ _, Hc)) as Hrun.
  assert (HardDisk.command_events (programmed a q cmd d) = []) as Hev.
  { unfold HardDisk.command_events. repeat case_match; done. }
  rewrite Hev in Hrun.
  assert (lifts (program 0x1F0 0x3F6 a q cmd)
    (HardDisk.write_reg_byte (0x1F0 + iSNR) (u8 (u8 a));;
     HardDisk.write_reg_byte (0x1F0 + iCNL) (u8 (u8 (Z.shiftr a 8)));;
     HardDisk.write_reg_byte (0x1F0 + iCNH) (u8 (u8 (Z.shiftr a 16)));;
     HardDisk.write_reg_byte (0x1F0 + iHND)
       (u8 (u8 (Z.lor (Z.land (u8 (Z.shiftr a 24)) 0x0F) 0xE0)));;
     HardDisk.write_reg_byte (0x1F0 + iSCR) (u8 q);;
     HardDisk.write_reg_byte HardDisk.DCR_addr (u8 0x0A);;
     HardDisk.write_reg_byte (0x1F0 + iCMD) (u8 cmd))) as Hl.
  { unfold guest.program. cbv zeta.
    do 5 (apply lifts_bind; [by apply outputb_lifts|intros _]).
    apply lifts_bind; [by apply control_lifts|intros _]. by apply outputb_lifts. }
  rewrite (Hl m Hm). unfold kvm.on_hdd, zoom. fold d.
  rewrite !(u8_id (u8 _)) by apply u8_range. rewrite (u8_id q), (u8_id cmd) by done.
  do 6 (erewrite bind_quiet by reflexivity).
  change (HardDisk.write_reg_byte (0x1F0 + iCMD) cmd) with
    (modify (λ d, d <| HardDisk.CMD := cmd |>);; HardDisk.process_cmd).
  erewrite bind_quiet by reflexivity.
  match goal with |- context [HardDisk.process_cmd ?x] => change x with (programmed a q cmd d) end.
  by rewrite Hrun.
Qed.

(** A read of the status register, without an interrupt to acknowledge. *)
Lemma status_read m :
  presented (kvm.pci m) → HardDisk.interrupt_raised (kvm.hdd m) = false →
  inputb (iSTS + 0x1F0) m = Done (u8 (HardDisk.STS (kvm.hdd m)), m, []).
Proof.
  intros Hm Hr. rewrite (inputb_lifts iSTS); [|done|done]. unfold kvm.on_hdd, zoom.
  erewrite bind_done by apply HardDisk.read_byte_run. rewrite Hr.
  cbn [mret io_ret]. rewrite andb_false_r. cbn [app].
  assert (HardDisk.acknowledged (0x1F0 + iSTS) (kvm.hdd m) = kvm.hdd m) as ->.
  { unfold HardDisk.acknowledged. cbn -[kvm.hdd]. destruct m as [? ? ? ? ? ? ? ? ? d]. cbn in *.
    destruct d. cbn in *. by subst. }
  by destruct m.
Qed.

(** The poll of the status register, when it does not wait. *)
Lemma poll_run fuel m again :
  presented (kvm.pci m) → HardDisk.interrupt_raised (kvm.hdd m) = false →
  again (u8 (HardDisk.STS (kvm.hdd m))) = false → (0 < fuel)%nat →
  poll fuel (iSTS + 0x1F0) again m = Done (tt, m, []).
Proof.
  intros Hm Hr Ha Hf. destruct fuel as [|fuel]; [lia|]. cbn [guest.poll].
  erewrite bind_quiet by (apply status_read; assumption). by rewrite Ha.
Qed.

(** The loop on the words of an array, against the words one by one. *)
Lemma words_loop vetto o k ws d rs d' ev :
  0 ≤ o + k → Forall is_u16 ws →
  (∀ j, (j < length ws)%nat → vetto !! Z.to_nat (o + k + Z.of_nat j) = ws !! j) →
  run HardDisk.step (map (HardDisk.WriteW HardDisk.BR_addr) ws) d = Done (rs, d', ev) →
  for_each (seqZ k (Z.of_nat (length ws))) (λ j,
      w ← array_get vetto (o + j); HardDisk.write_reg_word HardDisk.BR_addr (u16 w)) d =
    Done (tt, d', ev).
Proof.
  intros Hk Hws. revert k d rs ev Hk. induction Hws as [|w ws Hw _ IH];
    intros k d rs ev Hk Hv Hrun.
  { injection Hrun as _ <- <-. done. }
  cbn [map] in Hrun. rewrite run_cons in Hrun. cbn [HardDisk.step] in Hrun.
  cbn [length]. rewrite seqZ_cons by lia. cbn [for_each].
  assert (array_get vetto (o + k) d = Done (w, d, [])) as Hget.
  { apply array_get_in; [lia|]. specialize (Hv 0%nat ltac:(cbn; lia)). cbn in Hv.
    by rewrite Z.add_0_r in Hv. }
  rewrite bind_assoc. erewrite bind_quiet by exact Hget. rewrite (u16_id w) by done.
  unfold mbind, io_bind in Hrun.
  destruct (HardDisk.write_reg_word HardDisk.BR_addr w d) as [[[[] d1] ev1]|] eqn:Hw1; [|done].
  cbn [mret io_ret] in Hrun. rewrite app_nil_r in Hrun.
  destruct (run HardDisk.step _ d1) as [[[rs1 d2] ev2]|] eqn:Hrest; [|done].
  injection Hrun as <- <- <-. erewrite bind_done by exact Hw1.
  replace (Z.pred (Z.of_nat (S (length ws)))) with (Z.of_nat (length ws)) by lia.
  rewrite (IH (Z.succ k) d1 rs1 ev2); [done|lia| |exact Hrest].
  intros j Hj. specialize (Hv (S j) ltac:(cbn; lia)). cbn [lookup list_lookup] in Hv.
  etrans; [|exact Hv]. f_equal. lia.
Qed.

(** The words of the array from a sector on. *)
Definition holds (vetto : list Z) (i : Z) (ss : list (list Z)) : Prop :=
  ∀ k ws, ss !! k = Some ws → length ws = 256%nat ∧ Forall is_u16 ws ∧
    ∀ j, (j < 256)%nat → vetto !! Z.to_nat (256 * (i + Z.of_nat k) + Z.of_nat j) = ws !! j.

Lemma scrivi_run n m i vetto ws :
  presented (kvm.pci m) → HardDisk.wf n (kvm.hdd m) → quiet_drive (kvm.hdd m) →
  HardDisk.current_position (kvm.hdd m) = 0 →
  HardDisk.current_sector_number (kvm.hdd m) < INT_MAX →
  0 ≤ i → holds vetto i [ws] →
  ∃ d, scrivi 0x1F0 vetto i m = Done (tt, m <| kvm.hdd := d |>, []) ∧
    HardDisk.wf n d ∧ quiet_drive d ∧ HardDisk.same_transfer (kvm.hdd m) d ∧
    HardDisk.current_position d = 0 ∧
    HardDisk.current_sector_number d = HardDisk.current_sector_number (kvm.hdd m) + 1 ∧
    HardDisk.STS d = HardDisk.final_status (kvm.hdd m)
      (HardDisk.current_sector_number (kvm.hdd m) + 1) ∧
    ∀ j, 0 ≤ j < n → DiskManager.block j (HardDisk.disk_manager d) =
      if j =? HardDisk.next_block (kvm.hdd m) then HardDisk.words_bytes ws
      else DiskManager.block j (HardDisk.disk_manager (kvm.hdd m)).
Proof.
  intros Hm Hd [Hen Hra] Hp Hc Hi Hh. destruct (Hh 0%nat ws eq_refl) as (Hlen & Hws & Hv).
  destruct (HardDisk.write_sector_run n ws (kvm.hdd m) Hd Hp Hc Hlen)
    as (d & Hrun & Hwf & Hsame & Hp' & Hc' & Hst & Hb).
  assert (HardDisk.raised_events (kvm.hdd m) = []) as Hev by (unfold HardDisk.raised_events; by rewrite Hen).
  rewrite Hev in Hrun. exists d. split; [|split; [done|split; [|done]]].
  - unfold guest.scrivi. rewrite (lifts_for_each _ _ (λ j, w ← array_get vetto (i * 512 / 2 + j);
      HardDisk.write_reg_word HardDisk.BR_addr (u16 w))); [| |exact Hm].
    + unfold kvm.on_hdd, zoom.
      pose proof (words_loop vetto (i * 512 / 2) 0 ws (kvm.hdd m) (replicate 256 0) d []) as Hloop.
      rewrite Hlen in Hloop. change (Z.of_nat 256) with 256 in Hloop.
      assert (i * 512 / 2 = 256 * i) as Hdiv by (Z.div_mod_to_equations; lia).
      rewrite Hloop; [done|lia|done| |exact Hrun].
      intros j Hj. rewrite <- Hv by lia. f_equal. lia.
    + intros j. apply lifts_bind; [apply lifts_get_array|intros w; apply outputw_lifts].
  - destruct Hsame as [_ _ He Hr]. split; [by rewrite He|]. by rewrite Hr.
Qed.

(** All the sectors of a command. *)
Lemma scrivi_all fuel n ss m i vetto :
  (0 < fuel)%nat → presented (kvm.pci m) → HardDisk.wf n (kvm.hdd m) → quiet_drive (kvm.hdd m) →
  HardDisk.current_position (kvm.hdd m) = 0 → 0 ≤ i → holds vetto i ss →
  let c := HardDisk.current_sector_number (kvm.hdd m) in
  HardDisk.sector_numbers_cmd (kvm.hdd m) = c + Z.of_nat (length ss) →
  (ss ≠ [] → HardDisk.STS (kvm.hdd m) = 0x08) →
  c + Z.of_nat (length ss) ≤ INT_MAX → HardDisk.lba (kvm.hdd m) + c + Z.of_nat (length ss) ≤ n →
  ∃ d, for_each (seqZ i (Z.of_nat (length ss))) (λ i,
        poll fuel (iSTS + 0x1F0) no_data;; scrivi 0x1F0 vetto i) m =
      Done (tt, m <| kvm.hdd := d |>, []) ∧
    HardDisk.wf n d ∧ quiet_drive d ∧ HardDisk.current_position d = 0 ∧
    HardDisk.current_sector_number d = c + Z.of_nat (length ss) ∧
    (ss ≠ [] → HardDisk.STS d = 0) ∧
    ∀ j, 0 ≤ j < n → DiskManager.block j (HardDisk.disk_manager d) =
      HardDisk.written (HardDisk.lba (kvm.hdd m) + c) ss
        (λ j, DiskManager.block j (HardDisk.disk_manager (kvm.hdd m))) j.
Proof.
  intros Hf. revert m i. induction ss as [|ws ss IH]; intros m i Hm Hd Hq Hp Hi Hh c Hcmd Hst Hmax Hn.
  { exists (kvm.hdd m). cbn [length] in *. split; [by destruct m|]. split_and!; try done; [lia|].
    intros j _. unfold HardDisk.written. by rewrite decide_False by (cbn; lia). }
  cbn [length] in *. rewrite seqZ_cons by lia. cbn [for_each].
  destruct (scrivi_run n m i vetto ws) as (d & Hrun & Hwf & Hq' & Hsame & Hp' & Hc' & Hst' & Hb);
    [done..|fold c; lia|done| |].
  { intros k ws' Hk. destruct k as [|k]; [|done]. apply Hh. exact Hk. }
  rewrite bind_assoc. erewrite bind_quiet
    by (apply poll_run; [done|apply Hq|by rewrite Hst|done]).
  erewrite bind_quiet by exact Hrun.
  destruct Hsame as [Hlba Hcount _ _]. fold c in Hc', Hst'.
  destruct (IH (m <| kvm.hdd := d |>) (Z.succ i)) as (d' & Hrun' & Hrest);
    cbn [kvm.hdd kvm.pci upd kvm.eta_t] in *; rewrite ?Hc', ?Hlba, ?Hcount; try done; try lia.
  { intros k ws' Hk. destruct (Hh (S k) ws' Hk) as (? & ? & Hv). split_and!; [done..|].
    intros j Hj. rewrite <- Hv by done. f_equal. lia. }
  { intros Hne. rewrite Hst'. unfold HardDisk.final_status. rewrite Hcmd.
    destruct ss; [done|]. cbn [length]. rewrite (proj2 (Z.eqb_neq _ _)) by lia. done. }
  exists d'. replace (Z.pred (Z.of_nat (S (length ss)))) with (Z.of_nat (length ss)) by lia.
  split; [exact Hrun'|]. destruct Hrest as (H1 & H2 & H3 & H4 & H5 & H6).
  split_and!; try done; [rewrite H4, Hc'; lia| |].
  - intros _. destruct ss as [|ws' ss]; [|by apply H5].
    injection Hrun' as <-. rewrite Hst'. unfold HardDisk.final_status. rewrite Hcmd. cbn [length].
    by rewrite (proj2 (Z.eqb_eq _ _)) by lia.
  - intros j Hj. rewrite H6, Hc', Hlba, HardDisk.written_cons by done.
    replace (HardDisk.lba (kvm.hdd m) + (c + 1)) with (HardDisk.lba (kvm.hdd m) + c + 1) by lia.
    apply HardDisk.written_ext. rewrite Hb by done. unfold HardDisk.next_block, DiskManager.block_of.
    fold c. rewrite Z.mod_small; [done|]. pose proof (HardDisk.wf_lba _ _ Hd).
    pose proof (HardDisk.wf_sector _ _ Hd).
    pose proof (DiskManager.wf_blocks _ _ (HardDisk.wf_disk _ _ Hd)). subst c. lia.
Qed.

(** The drive before its first command. *)
Record fresh (n : Z) (d : HardDisk.t) : Prop := {
  fresh_wf : HardDisk.wf n d;
  fresh_quiet : quiet_drive d;
  fresh_position : HardDisk.current_position d = 0;
  fresh_sector : HardDisk.current_sector_number d = 0;
}.

(** The command as the drive latches it. *)
Lemma program_fresh n m a q cmd :
  presented (kvm.pci m) → fresh n (kvm.hdd m) → cmd = 0x30 ∨ cmd = 0x20 →
  1 ≤ q < 256 → 0 ≤ a < 268435456 →
  ∃ d, program 0x1F0 0x3F6 a q cmd m = Done (tt, m <| kvm.hdd := d |>, []) ∧
    HardDisk.wf n d ∧ quiet_drive d ∧ HardDisk.current_position d = 0 ∧
    HardDisk.sector_numbers_cmd d = q ∧ HardDisk.STS d = 0x08 ∧ HardDisk.lba d = a ∧
    HardDisk.disk_manager d = HardDisk.disk_manager (kvm.hdd m) ∧
    (cmd = 0x30 → HardDisk.current_sector_number d = 0) ∧
    (cmd = 0x20 → HardDisk.current_sector_number d = 1 ∧
      HardDisk.internal_buffer d = HardDisk.loaded n (kvm.hdd m)).
Proof.
  intros Hm [Hd Hq Hp Hc] Hcmd Hqr Ha.
  exists (HardDisk.commanded n (programmed a q cmd (kvm.hdd m))).
  assert (HardDisk.current_sector_number (kvm.hdd m) < INT_MAX) as Hmax by (rewrite Hc; done).
  split; [apply command_programmed; unfold is_u8; by destruct Hcmd; subst; try lia|].
  split; [apply HardDisk.commanded_wf; [apply registers_wf; unfold is_u8; lia || done|done]|].
  rewrite HardDisk.commanded_lba, registers_lba by done.
  destruct Hcmd as [-> | ->]; (split_and!; try done); (split; [cbn; by rewrite Hc|done]).
Qed.

Lemma scrivisett_run fuel n m a q vetto ss :
  (0 < fuel)%nat → busy (le_val (take 1 page)) = false →
  presented (kvm.pci m) → fresh n (kvm.hdd m) →
  1 ≤ q < 256 → Z.of_nat (length ss) = q → holds vetto 0 ss → 0 ≤ a → a + q ≤ n →
  ∃ d, scrivisett fuel 0x1F0 0x3F6 a q vetto m = Done (tt, m <| kvm.hdd := d |>, []) ∧
    HardDisk.wf n d ∧ HardDisk.STS d = 0 ∧
    ∀ j, 0 ≤ j < n → DiskManager.block j (HardDisk.disk_manager d) =
      HardDisk.written a ss (λ j, DiskManager.block j (HardDisk.disk_manager (kvm.hdd m))) j.
Proof.
  intros Hf Hb Hm Hd Hq Hss Hh Ha Hn.
  pose proof (DiskManager.wf_blocks _ _ (HardDisk.wf_disk _ _ (fresh_wf _ _ Hd))) as Hblocks.
  destruct (program_fresh n m a q 0x30 Hm Hd) as
    (d & Hrun & Hwf & Hquiet & Hp & Hcount & Hsts & Hlba & Hdisk & Hc & _); [by left|lia|lia|].
  specialize (Hc eq_refl).
  destruct (scrivi_all fuel n ss (m <| kvm.hdd := d |>) 0 vetto) as
    (d' & Hrun' & Hwf' & _ & _ & _ & Hsts' & Hblk);
    cbn [kvm.hdd kvm.pci upd kvm.eta_t] in *; rewrite ?Hc, ?Hlba in *; try done;
    [lia|unfold INT_MAX; lia|lia|].
  exists d'. split.
  - unfold guest.scrivisett.
    erewrite bind_quiet by (rewrite stray_poll by done; destruct fuel; [lia|]; by rewrite Hb).
    erewrite bind_quiet by exact Hrun. rewrite <- Hss. exact Hrun'.
  - split; [done|]. split; [apply Hsts'; by destruct ss; [cbn in Hss; lia|]|].
    intros j Hj. rewrite Hblk by done. rewrite Z.add_0_r. by rewrite Hdisk.
Qed.

(** ** A second command *)

Lemma for_each_app {S} idx idx' (f : Z → io S unit) s :
  for_each (idx ++ idx') f s = (for_each idx f;; for_each idx' f) s.
Proof.
  revert s. induction idx as [|i idx IH]; intros s; cbn [app for_each].
  - by erewrite bind_quiet by reflexivity.
  - rewrite bind_assoc. unfold mbind, io_bind. destruct (f i s) as [[[u s1] ev]|]; [|done].
    rewrite IH. done.
Qed.

(** The poll for data, when the drive has none to take. *)
Lemma poll_waits fuel m :
  presented (kvm.pci m) → quiet_drive (kvm.hdd m) → HardDisk.STS (kvm.hdd m) = 0 →
  poll fuel (iSTS + 0x1F0) no_data m = Halt NeedInput.
Proof.
  intros Hm Hq Hst. induction fuel as [|fuel IH]; [done|]. cbn [guest.poll].
  erewrite bind_quiet by (apply status_read; [exact Hm|apply Hq]). rewrite Hst. exact IH.
Qed.

(** A drive that has served a command of fewer sectors than the next does not get all of
    them: the counter of the sectors is not reset, so the drive reports the end early and
    the program waits for ever for room. *)
Theorem second_command_waits (fuel : nat) (n : Z) (m : kvm.t) (a q : Z) (vetto : list Z)
    (ss : list (list Z)) :
  let c := HardDisk.current_sector_number (kvm.hdd m) in
  presented (kvm.pci m) → HardDisk.wf n (kvm.hdd m) → HardDisk.current_position (kvm.hdd m) = 0 →
  0 < c < q → q < 256 → Z.of_nat (length ss) = q - c → holds vetto 0 ss → 0 ≤ a → a + q ≤ n →
  scrivisett fuel 0x1F0 0x3F6 a q vetto m = Halt NeedInput.
Proof.
  intros c Hm Hd Hp Hc Hq Hss Hh Ha Hn.
  pose proof (DiskManager.wf_blocks _ _ (HardDisk.wf_disk _ _ Hd)) as Hblocks.
  unfold guest.scrivisett. pose proof (stray_poll fuel m busy Hm) as Hpoll.
  destruct fuel as [|fuel]; [by apply bind_halt|].
  destruct (busy (le_val (take 1 page))); [by apply bind_halt|].
  erewrite bind_quiet by exact Hpoll.
  erewrite bind_quiet by (apply (command_programmed n); unfold is_u8, INT_MAX; done || lia).
  set (d := HardDisk.commanded n (programmed a q 0x30 (kvm.hdd m))).
  assert (HardDisk.wf n d) as Hwf.
  { apply HardDisk.commanded_wf; [apply registers_wf; unfold is_u8; done || lia|].
    intros _. change (c < INT_MAX). unfold INT_MAX. lia. }
  assert (HardDisk.lba d = a) as Hlba.
  { unfold d. by rewrite HardDisk.commanded_lba, registers_lba by lia. }
  assert (HardDisk.sector_numbers_cmd d = q ∧ HardDisk.current_sector_number d = c ∧
    HardDisk.STS d = 0x08 ∧ quiet_drive d) as (Hcmd & Hcd & Hst & Hquiet) by by repeat split.
  assert (HardDisk.current_position d = 0) as Hpd by exact Hp.
  clearbody d. set (m1 := m <| kvm.hdd := d |>).
  destruct (scrivi_all (S fuel) n ss m1 0 vetto) as (d' & Hrun & _ & Hq' & _ & _ & Hsts & _);
    try change (kvm.hdd m1) with d; rewrite ?Hcd, ?Hcmd, ?Hlba; try done; unfold INT_MAX; try lia.
  replace q with (Z.of_nat (length ss) + c) at 1 by lia.
  rewrite seqZ_app, for_each_app by lia. erewrite bind_quiet by exact Hrun.
  rewrite seqZ_cons by lia. cbn [for_each]. do 2 apply bind_halt.
  apply poll_waits; [done|done|]. apply Hsts. destruct ss; [cbn in Hss; lia|done].
Qed.

(** ** The configuration space *)

(** The state of the bridge after an address is selected is a bus as before. *)
Lemma select_presented off b :
  is_u8 off → presented b → presented (pci_host.select 0 0 0 off b) ∧
    pci_host.selected (pci_host.select 0 0 0 off b).
Proof.
  intros Ho [Hw Hobj Hdev].
  destruct (pci_host.select_wf 0 0 0 off b) as [Hs Hsel]; [first [done|unfold is_u8; lia]..|].
  split; [|done]. by split.
Qed.

Lemma data_read_presented a off b v :
  presented b → PCIDevice.config_spec
    (PCI_ATA.at_port a (off + (PCIDevice.access_offset a - 0xCFC)))
    (nth 0 pci_host.started_objects []) = (v, nth 0 pci_host.started_objects []) →
  pci_host.data_spec a (pci_host.select 0 0 0 off b) = (v, pci_host.select 0 0 0 off b).
Proof.
  intros [_ Hobj Hdev] Hspec. unfold pci_host.data_spec.
  assert (pci_host.current (pci_host.select 0 0 0 off b) = Some 0%nat) as ->.
  { unfold pci_host.current. cbn [pci_host.select pci_host.host upd pci_host.device_number
      pci_host.function_number pci_host.devices]. rewrite Hdev. by vm_compute. }
  change (pci_host.bus_number (pci_host.host (pci_host.select 0 0 0 off b))) with 0.
  change (negb (0 =? 0)) with false. rewrite andb_false_r.
  change (pci_host.objects (pci_host.select 0 0 0 off b)) with (pci_host.objects b).
  change (pci_host.offset_number (pci_host.host (pci_host.select 0 0 0 off b))) with off.
  rewrite Hobj. change (pci_host.started_objects !! 0%nat) with
    (Some (nth 0 pci_host.started_objects [])). cbv zeta match.
  rewrite Hspec. cbn [fst snd].
  destruct b as [h objs]. cbn in Hobj. subst objs. reflexivity.
Qed.

Lemma conf_run w off v m :
  presented (kvm.pci m) → (w, off, v) ∈ [(2%nat, 10, 0x0101); (4%nat, 16, 0x01F0); (4%nat, 20, 0x03F6)] →
  ∃ b, conf_read w 0 0 0 off m = Done (v, m <| kvm.pci := b |>, []) ∧ presented b.
Proof.
  intros Hm Hin. set (base := off - off mod 4). set (b := pci_host.select 0 0 0 base (kvm.pci m)).
  set (a := if (w =? 2)%nat then ReadWord (0xCFC + off mod 4) else ReadLong (0xCFC + off mod 4)).
  assert (is_u8 base) as Hbase.
  { unfold is_u8, base. repeat (apply elem_of_cons in Hin as [[= -> -> ->]|Hin]);
      [by vm_compute..|by apply elem_of_nil in Hin]. }
  destruct (select_presented base (kvm.pci m) Hbase Hm) as [Hb Hsel]. fold b in Hb, Hsel.
  assert (PCIDevice.config_spec
    (PCI_ATA.at_port a (base + (PCIDevice.access_offset a - 0xCFC)))
    (nth 0 pci_host.started_objects []) = (v, nth 0 pci_host.started_objects [])) as Hspec.
  { subst a base. repeat (apply elem_of_cons in Hin as [[= -> -> ->]|Hin]);
      [vm_compute; reflexivity..|by apply elem_of_nil in Hin]. }
  assert (pci_host.data_port (PCIDevice.access_offset a)) as Hport.
  { subst a. unfold pci_host.data_port.
    pose proof (Z.mod_pos_bound off 4 ltac:(lia)).
    destruct (w =? 2)%nat; cbn [PCIDevice.access_offset]; lia. }
  set (x := kvm.mk_io kvm.KVM_EXIT_IO_IN (Z.of_nat w) (0xCFC + off mod 4) 1 page).
  assert (kvm.find_port kvm.byte_ports x = None ∧ kvm.find_port kvm.pci_ports x = Some kvm.ToPci ∧
    kvm.pci_width x = Some w ∧ kvm.access_of w x = Some a ∧ (w ≤ 4)%nat ∧
    v mod 256 ^ Z.of_nat w = v) as (H1 & H2 & H3 & H4 & H5 & H6).
  { subst a x. repeat (apply elem_of_cons in Hin as [[= -> -> ->]|Hin]);
      [split_and!; first [lia|by vm_compute]..|by apply elem_of_nil in Hin]. }
  pose proof (pci_host.data_access_run a b (pr_wf _ Hb) Hsel Hport) as Hread.
  unfold b in Hread at 2 3. rewrite (data_read_presented a base (kvm.pci m) v Hm Hspec) in Hread.
  fold b in Hread. cbn [fst snd] in Hread.
  exists b. split; [|done]. unfold guest.conf_read. fold base.
  erewrite bind_quiet.
  2: { rewrite (kvm.pci_exit_run m _ 4 (WriteLong 0xCF8 (pci_host.address 0 0 0 base)));
         [|by vm_compute..|]; last first.
       { unfold kvm.access_of. by rewrite kvm.operand_le_bytes by
           (unfold pci_host.address, is_u32, is_u8 in *; lia). }
       change (dev_access (WriteLong 0xCF8 (pci_host.address 0 0 0 base)) (kvm.pci m)) with
         ((pci_host.write_reg_long pci_host.CAP_addr (pci_host.address 0 0 0 base);; mret 0) (kvm.pci m)).
       erewrite bind_quiet by (apply pci_host.select_run; unfold is_u8 in *; lia).
       reflexivity. }
  fold b x. erewrite bind_quiet.
  2: { rewrite (kvm.pci_exit_run _ x w a) by done. cbn [kvm.pci upd kvm.eta_t].
       rewrite Hread. reflexivity. }
  rewrite page_operand, H6 by done. reflexivity.
Qed.

(** ** The reads, on the drive *)

Lemma words_u16 buf : Forall is_u8 buf → Forall is_u16 (HardDisk.words_of buf).
Proof.
  intros Hb. unfold HardDisk.words_of. apply Forall_fmap, Forall_forall. intros i _.
  unfold compose, HardDisk.word_at.
  assert (Forall is_u8 (slice (Z.to_nat (2 * i)) 2 buf)) as Hs by by apply Forall_take, Forall_drop.
  pose proof (le_val_bound _ Hs) as Hv.
  assert (length (slice (Z.to_nat (2 * i)) 2 buf) ≤ 2)%nat as Hl
    by (unfold slice; rewrite length_take; lia).
  assert (256 ^ Z.of_nat (length (slice (Z.to_nat (2 * i)) 2 buf)) ≤ 256 ^ 2)
    by (apply Z.pow_le_mono_r; lia).
  unfold is_u16. lia.
Qed.

(** Bytes taken as words and written as bytes again. *)
Lemma words_bytes_of n buf :
  Forall is_u8 buf → (2 * n ≤ length buf)%nat →
  HardDisk.words_bytes (map (HardDisk.word_at buf) (seqZ 0 (Z.of_nat n))) = take (2 * n) buf.
Proof.
  intros Hb. induction n as [|n IH]; intros Hn; [done|].
  replace (Z.of_nat (S n)) with (Z.of_nat n + 1) by lia.
  rewrite seqZ_app, map_app, Z.add_0_l by lia. 
  assert (seqZ (Z.of_nat n) 1 = [Z.of_nat n]) as -> by (by rewrite seqZ_cons by lia). unfold HardDisk.words_bytes in *.
  rewrite map_app, concat_app, IH by lia. cbn [map concat]. rewrite app_nil_r.
  unfold HardDisk.word_at.
  assert (length (slice (Z.to_nat (2 * Z.of_nat n)) 2 buf) = 2%nat) as Hl
    by (apply length_slice; lia).
  rewrite <- Hl at 2. rewrite le_bytes_val by by apply Forall_take, Forall_drop.
  replace (Z.to_nat (2 * Z.of_nat n)) with (2 * n)%nat by lia.
  replace (2 * S n)%nat with (2 * n + 2)%nat by lia.
  change (take ?k buf) with (slice 0 k buf). by rewrite slice_split.
Qed.

Definition disk_bytes (n : Z) (d : HardDisk.t) : Prop :=
  ∀ i, 0 ≤ i < n → Forall is_u8 (DiskManager.block i (HardDisk.disk_manager d)).

Lemma leggi_run k ws m d ev :
  presented (kvm.pci m) → Forall is_u16 ws →
  run HardDisk.step (replicate k (HardDisk.ReadW HardDisk.BR_addr)) (kvm.hdd m) = Done (ws, d, ev) →
  leggi k 0x1F0 m = Done (ws, m <| kvm.hdd := d |>, ev).
Proof.
  revert ws m d ev. induction k as [|k IH]; intros ws m d ev Hm Hws Hrun.
  { injection Hrun as <- <- <-. by destruct m. }
  cbn [replicate] in Hrun. rewrite run_cons in Hrun. cbn [HardDisk.step] in Hrun.
  destruct (HardDisk.read_reg_word HardDisk.BR_addr (kvm.hdd m)) as [[[w d1] ev1]|] eqn:H1; [|done].
  destruct (run HardDisk.step (replicate k _) d1) as [[[ws1 d2] ev2]|] eqn:H2; [|done].
  injection Hrun as <- <- <-. apply Forall_cons in Hws as [Hw Hws].
  assert (inputw (iBR + 0x1F0) m = Done (w, m <| kvm.hdd := d1 |>, ev1)) as Hin.
  { rewrite inputw_lifts by done. unfold kvm.on_hdd, zoom. erewrite bind_done by exact H1.
    cbn [mret io_ret]. by rewrite app_nil_r, u16_id. }
  cbn [guest.leggi]. erewrite bind_done by exact Hin.
  set (m1 := m <| kvm.hdd := d1 |>). specialize (IH ws1 m1 d2 ev2 Hm Hws H2).
  erewrite bind_done by exact IH. cbn [mret io_ret]. by rewrite app_nil_r.
Qed.

Lemma leggi_all fuel n k m :
  (0 < fuel)%nat → presented (kvm.pci m) → HardDisk.wf n (kvm.hdd m) → quiet_drive (kvm.hdd m) →
  HardDisk.current_position (kvm.hdd m) = 0 → HardDisk.STS (kvm.hdd m) = 0x08 →
  disk_bytes n (kvm.hdd m) → Forall is_u8 (HardDisk.internal_buffer (kvm.hdd m)) →
  HardDisk.current_sector_number (kvm.hdd m) + Z.of_nat k =
    HardDisk.sector_numbers_cmd (kvm.hdd m) →
  HardDisk.sector_numbers_cmd (kvm.hdd m) < INT_MAX →
  HardDisk.lba (kvm.hdd m) + HardDisk.sector_numbers_cmd (kvm.hdd m) ≤ n →
  ∃ d ev, leggi_settori fuel (S k) 0x1F0 m =
      Done (HardDisk.words_of (HardDisk.internal_buffer (kvm.hdd m)) ++
            HardDisk.blocks_words (HardDisk.lba (kvm.hdd m) +
              HardDisk.current_sector_number (kvm.hdd m)) k (HardDisk.disk_manager (kvm.hdd m)),
            m <| kvm.hdd := d |>, ev) ∧
    HardDisk.wf n d ∧ HardDisk.STS d = 0 ∧
    HardDisk.disk_manager d = HardDisk.disk_manager (kvm.hdd m).
Proof.
  intros Hf. revert m. induction k as [|k IH]; intros m Hm Hd Hq Hp Hst Hbytes Hbuf Hk Hmax Hn;
    (destruct (HardDisk.read_sector_run n (kvm.hdd m)) as (d & ev & Hrun & Hdone);
      [done|done|lia|]);
    cbn [Nat.add] in Hrun;
    pose proof (leggi_run 256 _ m d ev Hm (words_u16 _ Hbuf) Hrun) as Hsec;
    (assert (poll fuel (iSTS + 0x1F0) no_data m = Done (tt, m, [])) as Hpoll
      by (apply poll_run; [done|apply Hq|by rewrite Hst|done]));
    cbn [guest.leggi_settori]; erewrite bind_quiet by exact Hpoll; erewrite bind_done by exact Hsec.
  - destruct (HardDisk.done_last _ _ _ Hdone) as [_ Hsts]; [lia|].
    exists d, (ev ++ []). split; [|by destruct Hdone].
    cbn [mret io_ret mbind io_bind]. unfold HardDisk.blocks_words. cbn [seqZ map concat].
    by rewrite app_nil_r.
  - destruct (HardDisk.done_next _ _ _ Hdone) as (Hc & Hb & Hsts); [lia|].
    destruct Hdone as [Hwf [Hlba Hcount Hen Hra] Hp' Hdisk _ _].
    assert (HardDisk.loaded n (kvm.hdd m) = DiskManager.block
      (HardDisk.lba (kvm.hdd m) + HardDisk.current_sector_number (kvm.hdd m))
      (HardDisk.disk_manager (kvm.hdd m))) as Hload.
    { unfold HardDisk.loaded, HardDisk.next_block, DiskManager.block_of.
      pose proof (HardDisk.wf_lba _ _ Hd). pose proof (HardDisk.wf_sector _ _ Hd).
      pose proof (DiskManager.wf_blocks _ _ (HardDisk.wf_disk _ _ Hd)).
      rewrite Z.mod_small by lia. by rewrite (proj2 (Z.ltb_lt _ _)) by lia. }
    destruct (IH (m <| kvm.hdd := d |>)) as (d' & ev' & Hrun' & Hwf' & Hst' & Hdisk');
      cbn [kvm.hdd kvm.pci upd kvm.eta_t] in *; rewrite ?Hc, ?Hcount, ?Hlba; try done; try lia.
    { destruct Hq as [Hq1 Hq2]. split; [by rewrite Hen|by rewrite Hra]. }
    { unfold disk_bytes. by rewrite Hdisk. }
    { rewrite Hb, Hload. apply Hbytes. pose proof (HardDisk.wf_lba _ _ Hd).
      pose proof (HardDisk.wf_sector _ _ Hd). lia. }
    exists d', (ev ++ ev' ++ []). split; [|by rewrite <- Hdisk].
    erewrite bind_done by exact Hrun'. cbn [mret io_ret].
    rewrite Hb, Hload, Hlba, Hc, Hdisk. unfold HardDisk.blocks_words.
    rewrite (seqZ_cons _ (Z.of_nat (S k))) by lia. cbn [map concat].
    replace (Z.pred (Z.of_nat (S k))) with (Z.of_nat k) by lia.
    replace (Z.succ (HardDisk.lba (kvm.hdd m) + HardDisk.current_sector_number (kvm.hdd m))) with
      (HardDisk.lba (kvm.hdd m) + (HardDisk.current_sector_number (kvm.hdd m) + 1)) by lia.
    reflexivity.
Qed.

(** A command that reads: the first sector is the block at the address that the drive had
    before it. *)
Lemma leggisett_run fuel n m a q :
  (0 < fuel)%nat → presented (kvm.pci m) → fresh n (kvm.hdd m) →
  busy (u8 (HardDisk.STS (kvm.hdd m))) = false → disk_bytes n (kvm.hdd m) →
  1 ≤ q < 256 → 0 ≤ a → a + q ≤ n → HardDisk.lba (kvm.hdd m) < n →
  ∃ d ev, leggisett fuel 0x1F0 0x3F6 a q m =
      Done (HardDisk.words_of (DiskManager.block (HardDisk.lba (kvm.hdd m))
              (HardDisk.disk_manager (kvm.hdd m))) ++
            HardDisk.blocks_words (a + 1) (Z.to_nat q - 1) (HardDisk.disk_manager (kvm.hdd m)),
            m <| kvm.hdd := d |>, ev) ∧
    HardDisk.wf n d ∧ HardDisk.STS d = 0 ∧
    HardDisk.disk_manager d = HardDisk.disk_manager (kvm.hdd m).
Proof.
  intros Hf Hm Hd Hbusy Hbytes Hq Ha Hn Hold. pose proof (fresh_wf _ _ Hd) as Hwf0.
  pose proof (DiskManager.wf_blocks _ _ (HardDisk.wf_disk _ _ Hwf0)) as Hblocks.
  destruct (program_fresh n m a q 0x20 Hm Hd) as
    (d & Hrun & Hwf & Hquiet & Hp & Hcount & Hsts & Hlba & Hdisk & _ & Hc); [by right|lia|lia|].
  destruct (Hc eq_refl) as [Hc1 Hbuf].
  assert (HardDisk.loaded n (kvm.hdd m) = DiskManager.block (HardDisk.lba (kvm.hdd m))
    (HardDisk.disk_manager (kvm.hdd m))) as Hload.
  { unfold HardDisk.loaded, HardDisk.next_block, DiskManager.block_of.
    pose proof (HardDisk.wf_lba _ _ Hwf0). rewrite (fresh_sector _ _ Hd), Z.add_0_r.
    rewrite Z.mod_small by lia. by rewrite (proj2 (Z.ltb_lt _ _)) by lia. }
  destruct (leggi_all fuel n (Z.to_nat q - 1) (m <| kvm.hdd := d |>)) as
    (d' & ev & Hrun' & Hwf' & Hsts' & Hdisk');
    cbn [kvm.hdd kvm.pci upd kvm.eta_t] in *; rewrite ?Hc1, ?Hcount, ?Hlba; try done; try lia.
  { unfold disk_bytes. by rewrite Hdisk. }
  { rewrite Hbuf, Hload. apply Hbytes. pose proof (HardDisk.wf_lba _ _ Hwf0). lia. }
  { unfold INT_MAX. lia. }
  rewrite Hbuf, Hload, Hlba, Hc1, Hdisk in Hrun'.
  exists d', ev. split; [|by rewrite <- Hdisk].
  unfold guest.leggisett. erewrite bind_quiet by (apply poll_run; [done|apply Hd|done|done]).
  erewrite bind_quiet by exact Hrun. assert (Z.to_nat q = S (Z.to_nat q - 1)) as Hk by lia.
  rewrite Hk at 1. exact Hrun'.
Qed.

(** ** The two programs *)

(** What the documentation of libce says of its two functions: they go through the
    configuration mechanism of the bus. *)
Hypothesis confw_spec : ∀ bus dev fun_ off m,
  pci_read_confw bus dev fun_ off m = conf_read 2 bus dev fun_ off m.
Hypothesis confl_spec : ∀ bus dev fun_ off m,
  pci_read_confl bus dev fun_ off m = conf_read 4 bus dev fun_ off m.

Lemma base_registers_run m :
  presented (kvm.pci m) →
  ∃ b, base_registers m = Done ((0x01F0, 0x03F6), m <| kvm.pci := b |>, []) ∧ presented b.
Proof.
  intros Hm. destruct (conf_run 2 10 0x0101 m Hm) as (b1 & Hrun1 & Hb1); [rewrite !elem_of_cons; auto|].
  set (m1 := m <| kvm.pci := b1 |>). destruct (conf_run 4 16 0x01F0 m1 Hb1) as (b2 & Hrun2 & Hb2); [rewrite !elem_of_cons; auto|].
  set (m2 := m1 <| kvm.pci := b2 |>). destruct (conf_run 4 20 0x03F6 m2 Hb2) as (b3 & Hrun3 & Hb3); [rewrite !elem_of_cons; auto|].
  exists b3. split; [|done]. unfold guest.base_registers.
  assert (cerca_bm m = Done ((0, 0), m <| kvm.pci := b1 |>, [])) as Hc.
  { unfold guest.cerca_bm. assert (∃ ps, functions = (0, 0) :: ps) as (ps & ->) by by eexists.
    cbn [guest.cerca]. erewrite bind_quiet by (rewrite confw_spec; exact Hrun1). reflexivity. }
  erewrite bind_quiet by exact Hc. cbn [fst snd].
  erewrite bind_quiet by (rewrite confl_spec; exact Hrun2).
  erewrite bind_quiet by (rewrite confl_spec; exact Hrun3). reflexivity.
Qed.

(** The sectors that the first program writes. *)
Definition letters : list Z := replicate 256 25443.
Definition letters_buff : list Z := replicate (2 * 512) 99 ++ replicate (6 * 512) 0.

Lemma letters_hold : holds (as_words 2048 letters_buff) 0 [letters; letters].
Proof.
  assert (take 512 (as_words 2048 letters_buff) = letters ++ letters) as Htake
    by (vm_compute; reflexivity).
  assert (length letters = 256%nat) as Hl by apply length_replicate.
  intros k w Hk. assert (w = letters ∧ (k < 2)%nat) as [-> Hk2].
  { destruct k as [|[|k]]; [injection Hk as <-|injection Hk as <-|done]; split; lia || done. }
  split; [done|]. split; [apply Forall_replicate; unfold is_u16; lia|]. intros j Hj.
  rewrite <- (lookup_take_lt (as_words 2048 letters_buff) 512) by lia. rewrite Htake.
  destruct k as [|[|k]]; [| |lia].
  - rewrite lookup_app_l by lia. f_equal. lia.
  - rewrite lookup_app_r by lia. f_equal. lia.
Qed.

Lemma letters_written j old :
  HardDisk.written 1 [letters; letters] old j =
    if decide (1 ≤ j ≤ 2) then replicate 512 99 else old j.
Proof.
  unfold HardDisk.written. change (Z.of_nat (length [letters; letters])) with 2.
  destruct (decide (1 ≤ j < 1 + 2)), (decide (1 ≤ j ≤ 2)); try lia; [|done].
  assert (HardDisk.words_bytes letters = replicate 512 99) as <- by (vm_compute; reflexivity).
  assert (j = 1 ∨ j = 2) as [-> | ->] by lia; done.
Qed.

(** What the programs call at their ends. *)
Context (str_write : list Z → io kvm.t unit) (char_write : Z → io kvm.t unit) (pause : io kvm.t unit).

#[local] Notation main_write := (guest.main_write kvm.handle_io page pci_read_confw pci_read_confl
  str_write pause).
#[local] Notation main_read := (guest.main_read kvm.handle_io page pci_read_confw pci_read_confl
  char_write pause).
#[local] Notation shows := (guest.shows char_write pause).

Lemma before_write_run (fuel : nat) (n : Z) (m : kvm.t)
    (Hf : (0 < fuel)%nat) (Hm : presented (kvm.pci m)) (Hd : fresh n (kvm.hdd m)) (Hn : 3 ≤ n) :
  busy (le_val (take 1 page)) = false →
  ∃ m', before_write fuel m = Done (tt, m', []) ∧ presented (kvm.pci m') ∧
    HardDisk.wf n (kvm.hdd m') ∧ HardDisk.STS (kvm.hdd m') = 0 ∧
    ∀ j, 0 ≤ j < n → DiskManager.block j (HardDisk.disk_manager (kvm.hdd m')) =
      if decide (1 ≤ j ≤ 2) then replicate 512 99
      else DiskManager.block j (HardDisk.disk_manager (kvm.hdd m)).
Proof.
  intros Hbusy. destruct (base_registers_run m Hm) as (b & Hbars & Hb).
  unfold guest.before_write. fold letters_buff. set (m1 := m <| kvm.pci := b |>) in *.
  destruct (scrivisett_run fuel n m1 1 2 (as_words 2048 letters_buff) [letters; letters]
    Hf Hbusy Hb Hd ltac:(lia) eq_refl letters_hold ltac:(lia) ltac:(lia)) as
    (d & Hrun & Hwf & Hsts & Hblk).
  exists (m1 <| kvm.hdd := d |>). split.
  - erewrite bind_quiet by exact Hbars. exact Hrun.
  - split; [done|]. split; [done|]. split; [done|]. intros j Hj.
    change (kvm.hdd (m1 <| kvm.hdd := d |>)) with d. rewrite Hblk by done. apply letters_written.
Qed.

Lemma main_write_waits (fuel : nat) (m : kvm.t) :
  presented (kvm.pci m) → busy (le_val (take 1 page)) = true →
  main_write fuel m = Halt NeedInput.
Proof.
  intros Hm Hbusy. destruct (base_registers_run m Hm) as (b & Hbars & Hb).
  unfold guest.main_write. erewrite bind_quiet by exact Hbars. cbn [fst snd]. apply bind_halt.
  unfold guest.scrivisett. apply bind_halt. rewrite stray_poll by done. rewrite Hbusy.
  by destruct fuel.
Qed.

(** C11. The first disk program of the repository on a machine whose drive, of three blocks
    or more, has served no command, up to its last two calls of the library: the scan of the
    bus finds the drive, the two sectors it writes are the blocks 1 and 2 of the image,
    filled with the letter c, every other block keeps its bytes, the drive ends idle, and
    what is left of the program is to write OK and to call pause; its first poll reads a
    port that the machine does not know, so it waits for ever exactly when the shared page
    holds a byte with bit 7 set. *)
Theorem disk_write_program (fuel : nat) (n : Z) (m : kvm.t)
    (Hf : (0 < fuel)%nat) (Hm : presented (kvm.pci m)) (Hd : fresh n (kvm.hdd m)) (Hn : 3 ≤ n) :
  if busy (le_val (take 1 page)) then main_write fuel m = Halt NeedInput
  else ∃ m', main_write fuel m = (str_write (chars "OK" ++ [10]);; pause;; mret 0) m' ∧
    presented (kvm.pci m') ∧
    HardDisk.wf n (kvm.hdd m') ∧ HardDisk.STS (kvm.hdd m') = 0 ∧
    ∀ j, 0 ≤ j < n → DiskManager.block j (HardDisk.disk_manager (kvm.hdd m')) =
      if decide (1 ≤ j ≤ 2) then replicate 512 99
      else DiskManager.block j (HardDisk.disk_manager (kvm.hdd m)).
Proof.
  destruct (busy (le_val (take 1 page))) eqn:Hbusy; [by apply main_write_waits|].
  destruct (before_write_run fuel n m Hf Hm Hd Hn Hbusy) as (m' & Hrun & Hrest).
  exists m'. split; [|exact Hrest]. rewrite (guest.main_write_ends _ _ _ _ _ _ _ _ _ _ Hrun).
  apply emitting_quiet.
Qed.

Lemma before_read_run (fuel : nat) (n : Z) (m : kvm.t)
    (Hf : (0 < fuel)%nat) (Hm : presented (kvm.pci m)) (Hd : fresh n (kvm.hdd m))
    (Hbusy : busy (u8 (HardDisk.STS (kvm.hdd m))) = false) (Hbytes : disk_bytes n (kvm.hdd m))
    (Hold : HardDisk.lba (kvm.hdd m) < n) (Hn : 3 ≤ n) :
  let block j := DiskManager.block j (HardDisk.disk_manager (kvm.hdd m)) in
  let text := block (HardDisk.lba (kvm.hdd m)) ++ block 2 in
  ∃ vetti m' ev, before_read fuel m = Done (vetti, m', ev) ∧
    HardDisk.words_bytes vetti = text ∧ Z.of_nat (length text) = 2 * 512 ∧
    HardDisk.wf n (kvm.hdd m') ∧
    HardDisk.disk_manager (kvm.hdd m') = HardDisk.disk_manager (kvm.hdd m).
Proof.
  intros block text. destruct (base_registers_run m Hm) as (b & Hbars & Hb).
  set (m1 := m <| kvm.pci := b |>) in *.
  destruct (leggisett_run fuel n m1 1 2 Hf Hb Hd Hbusy Hbytes ltac:(lia) ltac:(lia) ltac:(lia) Hold)
    as (d & ev & Hrun & Hwf & _ & Hdisk).
  pose proof (DiskManager.wf_blocks _ _ (HardDisk.wf_disk _ _ (fresh_wf _ _ Hd))).
  assert (∀ j, 0 ≤ j < n → HardDisk.words_bytes (HardDisk.words_of (block j)) = block j ∧
    length (block j) = 512%nat) as Hw.
  { intros j Hj. assert (length (block j) = 512%nat) as Hl.
    { apply (DiskManager.length_block n); [apply Hd|done]. }
    split; [|done]. unfold HardDisk.words_of. change 256 with (Z.of_nat 256).
    rewrite words_bytes_of by (by apply Hbytes || lia). by rewrite take_ge by lia. }
  pose proof (HardDisk.wf_lba _ _ (fresh_wf _ _ Hd)).
  destruct (Hw (HardDisk.lba (kvm.hdd m))) as [Hw1 Hl1]; [lia|]. destruct (Hw 2) as [Hw2 Hl2]; [lia|].
  exists (HardDisk.words_of (block (HardDisk.lba (kvm.hdd m))) ++ HardDisk.words_of (block 2)),
    (m1 <| kvm.hdd := d |>), ev.
  split; [|split; [|split; [unfold text; rewrite length_app; lia|by split]]].
  - unfold guest.before_read. erewrite bind_quiet by exact Hbars. cbn [fst snd]. rewrite Hrun.
    change (HardDisk.blocks_words (1 + 1) (Z.to_nat 2 - 1) _) with
      (HardDisk.words_of (block 2) ++ []). by rewrite app_nil_r.
  - unfold HardDisk.words_bytes in *. by rewrite map_app, concat_app, Hw1, Hw2.
Qed.

(** A new start of the supervisor on the disk image that a drive leaves. *)
Definition restarted (n : Z) (d : HardDisk.t) : HardDisk.t :=
  HardDisk.make n (HardDisk.disk_manager d).

Lemma restarted_fresh n d : HardDisk.wf n d → fresh n (restarted n d).
Proof. intros Hd. split; [apply HardDisk.make_wf, Hd|by split|done|done]. Qed.

(** The second program on what the first leaves: block 0, the block at the address the drive
    starts with, where block 1 is asked for, and the letters. *)
Lemma read_written (fuel : nat) (n : Z) (m1' m2 : kvm.t) (block : Z → list Z) :
  (0 < fuel)%nat → 3 ≤ n → HardDisk.wf n (kvm.hdd m1') →
  (∀ j, 0 ≤ j < n → Forall is_u8 (block j)) →
  (∀ j, 0 ≤ j < n → DiskManager.block j (HardDisk.disk_manager (kvm.hdd m1')) =
    if decide (1 ≤ j ≤ 2) then replicate 512 99 else block j) →
  presented (kvm.pci m2) → kvm.hdd m2 = restarted n (kvm.hdd m1') →
  let text := block 0 ++ replicate 512 99 in
  ∃ vetti m2' ev, before_read fuel m2 = Done (vetti, m2', ev) ∧
    HardDisk.words_bytes vetti = text ∧ Z.of_nat (length text) = 2 * 512 ∧
    HardDisk.disk_manager (kvm.hdd m2') = HardDisk.disk_manager (kvm.hdd m1').
Proof.
  intros Hf Hn Hwf Hbytes Hblk Hm2 Hh text.
  assert (∀ j, DiskManager.block j (HardDisk.disk_manager (kvm.hdd m2)) =
    DiskManager.block j (HardDisk.disk_manager (kvm.hdd m1'))) as Heq by by rewrite Hh.
  destruct (before_read_run fuel n m2 Hf Hm2) as (vetti & m2' & ev & Hread & Ht & Hl & _ & Hsame).
  - rewrite Hh. by apply restarted_fresh.
  - by rewrite Hh.
  - intros j Hj. rewrite Heq, Hblk by done. case_decide; [|by apply Hbytes].
    apply Forall_replicate. unfold is_u8. lia.
  - rewrite Hh. cbn. lia.
  - done.
  - exists vetti, m2', ev. rewrite Hread, Hsame, Ht. split; [done|].
    replace (HardDisk.lba (kvm.hdd m2)) with 0 in * by by rewrite Hh.
    rewrite !Heq, !Hblk in * by lia. split; [done|]. split; [exact Hl|]. by rewrite Hh.
Qed.

(** The two disk programs one after the other, with a new start of the supervisor between
    them: the second reads without waiting, leaves the image as it is, and shows the block 2
    that the first has written after block 0, the block at the address the drive starts
    with, where block 1 is asked for. *)
Theorem disk_programs (fuel : nat) (n : Z) (m1 : kvm.t)
    (Hf : (0 < fuel)%nat) (Hpage : busy (le_val (take 1 page)) = false) (Hn : 3 ≤ n)
    (Hm1 : presented (kvm.pci m1)) (Hd1 : fresh n (kvm.hdd m1)) (Hbytes : disk_bytes n (kvm.hdd m1)) :
  ∃ m1', main_write fuel m1 = (str_write (chars "OK" ++ [10]);; pause;; mret 0) m1' ∧
    (∀ m2, presented (kvm.pci m2) → kvm.hdd m2 = restarted n (kvm.hdd m1') →
     ∃ m2' ev, main_read fuel m2 =
       emitting ev (shows
         ((DiskManager.block 0 (HardDisk.disk_manager (kvm.hdd m1)) ++ replicate 512 99) ++ [10]) m2') ∧
       HardDisk.disk_manager (kvm.hdd m2') = HardDisk.disk_manager (kvm.hdd m1')).
Proof.
  destruct (before_write_run fuel n m1 Hf Hm1 Hd1 Hn Hpage) as (m1' & Hrun & _ & Hwf & _ & Hblk).
  exists m1'. split.
  { rewrite (guest.main_write_ends _ _ _ _ _ _ _ _ _ _ Hrun). apply emitting_quiet. }
  intros m2 Hm2 Hh.
  destruct (read_written fuel n m1' m2 _ Hf Hn Hwf Hbytes Hblk Hm2 Hh)
    as (vetti & m2' & ev & Hread & Ht & Hl & Hsame).
  exists m2', ev. split; [|done]. by rewrite (guest.main_read_ends _ _ _ _ _ _ _ _ _ _ _ _ Hread Ht Hl).
Qed.

End libce.

(** ** Witnesses *)

(** A machine whose disk has four blocks of different bytes. *)
Definition image : list Z := concat (map (λ b, replicate 512 b) [1; 2; 3; 4]).
Definition machine (image : list Z) : kvm.t :=
  kvm.machine0 <| kvm.hdd := HardDisk.make 4 (DiskManager.mk 2048 (Some image)) |>.

Lemma machine_presented image : presented (kvm.pci (machine image)).
Proof. split; [apply pci_host.constructed_wf|vm_compute; reflexivity|vm_compute; reflexivity]. Qed.

Lemma machine_fresh image : length image = 2048%nat → fresh 4 (kvm.hdd (machine image)).
Proof.
  intros Hl. split; [|by split|done|done]. apply HardDisk.make_wf. split; [lia|done|].
  exists image. split; [done|]. rewrite Hl. done.
Qed.

Definition page0 : list Z := replicate 4 0.

(** A library that finds the registers with the configuration mechanism, writes on the first
    serial port and does not wait. *)
Definition char_serial {St} (serve : kvm.io_exit → io St (list Z)) (c : Z) : io St unit :=
  guest.outputb serve c 0x3F8.
Definition str_serial {St} (serve : kvm.io_exit → io St (list Z)) (cs : list Z) : io St unit :=
  for_each cs (char_serial serve).

Definition pause0 {St} : io St unit := mret tt.

#[local] Notation confw0 := (guest.conf_read kvm.handle_io page0 2).
#[local] Notation confl0 := (guest.conf_read kvm.handle_io page0 4).
#[local] Notation str0 := (str_serial kvm.handle_io).
#[local] Notation char0 := (char_serial kvm.handle_io).
#[local] Notation main_write0 :=
  (guest.main_write kvm.handle_io page0 confw0 confl0 str0 pause0).
#[local] Notation main_read0 :=
  (guest.main_read kvm.handle_io page0 confw0 confl0 char0 pause0).

Lemma disk_write_program_witness :
  ∃ m' m'', main_write0 1 (machine image) = (str0 (chars "OK" ++ [10]);; pause0;; mret 0) m' ∧
    main_write0 1 (machine image) = Done (0, m'', [SerialChar 79; SerialChar 75; SerialChar 10]) ∧
    DiskManager.block 1 (HardDisk.disk_manager (kvm.hdd m')) = replicate 512 99 ∧
    DiskManager.block 3 (HardDisk.disk_manager (kvm.hdd m')) = replicate 512 4.
Proof.
  destruct (disk_write_program page0 confw0 confl0 ltac:(cbn; lia)
    ltac:(done) ltac:(done) str0 pause0 1 4 (machine image) ltac:(lia) (machine_presented image)
    (machine_fresh image eq_refl) ltac:(lia)) as (m' & Hrun & _ & _ & _ & Hb).
  assert (match main_write0 1 (machine image) with
    | Done (r, _, ev) => r = 0 ∧ ev = [SerialChar 79; SerialChar 75; SerialChar 10]
    | Halt _ => False end) as Hend by (vm_compute; by split).
  destruct (main_write0 1 (machine image)) as [[[r m''] ev]|]; [|done]. destruct Hend as [-> ->].
  exists m', m''. split; [exact Hrun|]. split; [reflexivity|].
  rewrite !Hb by lia. by split; vm_compute.
Defined.

Lemma disk_programs_witness :
  ∃ m1' m2' ev, main_write0 1 (machine image) =
      (str0 (chars "OK" ++ [10]);; pause0;; mret 0) m1' ∧
    main_read0 1 ((machine image) <| kvm.hdd := restarted 4 (kvm.hdd m1') |>) =
      emitting ev (guest.shows char0 pause0 ((replicate 512 1 ++ replicate 512 99) ++ [10]) m2').
Proof.
  assert (disk_bytes 4 (kvm.hdd (machine image))) as Hb.
  { intros i Hi. assert (i = 0 ∨ i = 1 ∨ i = 2 ∨ i = 3) as [->|[->|[->| ->]]] by lia;
      apply (bool_decide_unpack _); vm_compute; exact I. }
  destruct (disk_programs page0 confw0 confl0 ltac:(cbn; lia)
    ltac:(done) ltac:(done) str0 char0 pause0 1 4 (machine image) ltac:(lia) ltac:(done) ltac:(lia)
    (machine_presented image) (machine_fresh image eq_refl) Hb) as (m1 & Hrun & Hread).
  destruct (Hread ((machine image) <| kvm.hdd := restarted 4 (kvm.hdd m1) |>)) as (m2' & ev & Hrun2 & _).
  { split; [apply pci_host.constructed_wf|reflexivity|reflexivity]. }
  { reflexivity. }
  exists m1, m2', ev. split; [exact Hrun|exact Hrun2].
Defined.

(** After the first program, a command of three sectors at block 0 waits for the second. *)
Lemma second_command_waits_witness :
  ∃ m', guest.before_write kvm.handle_io page0 confw0 confl0 1 (machine image) =
      Done (tt, m', []) ∧
    ∀ fuel, guest.scrivisett kvm.handle_io page0 fuel 0x1F0 0x3F6 0 3 (as_words 2048 letters_buff) m' =
      Halt NeedInput.
Proof.
  destruct (before_write_run page0 confw0 confl0 ltac:(cbn; lia)
    ltac:(done) ltac:(done) 1 4 (machine image) ltac:(lia) (machine_presented image)
    (machine_fresh image eq_refl) ltac:(lia) eq_refl) as (m' & Hrun & Hm & Hwf & _).
  assert (match guest.before_write kvm.handle_io page0 confw0 confl0 1 (machine image) with
    | Done (_, m', _) => HardDisk.current_position (kvm.hdd m') = 0 ∧
        HardDisk.current_sector_number (kvm.hdd m') = 2
    | Halt _ => False end) as Hend by (vm_compute; by split).
  rewrite Hrun in Hend. destruct Hend as [Hp Hc]. exists m'. split; [exact Hrun|]. intros fuel.
  assert (4 ≤ length page0)%nat as Hsize by (cbn; lia).
  assert (holds (as_words 2048 letters_buff) 0 [letters]) as Hh.
  { intros k w Hk. destruct k as [|k]; [|done]. exact (letters_hold page0 Hsize 0%nat w Hk). }
  assert (0 < HardDisk.current_sector_number (kvm.hdd m') < 3) as Hlt by (rewrite Hc; lia).
  assert (Z.of_nat (length [letters]) = 3 - HardDisk.current_sector_number (kvm.hdd m')) as Hl
    by (rewrite Hc; reflexivity).
  exact (second_command_waits page0 confw0 confl0 Hsize fuel 4 m' 0 3
    (as_words 2048 letters_buff) [letters] Hm Hwf Hp Hlt eq_refl Hl Hh ltac:(lia) ltac:(lia)).
Defined.

End pci_hdd.
