(* ===== verification/Startup.v ===== *)
(** * The start of the supervisor (kvm.cpp, the function main)

From the command line to the first entry of the virtual CPU: the configuration,
the memory, the requests to KVM in their order with the codes [main] returns,
the program and the start code. *)

From S2P Require Import Prelude Elf Bootloader IniReader Machine.

Module startup.

(** What the command line, the files and the system calls give. *)
Record host : Type := mk_host {
  argc : Z;
  logfile : bool;                  (* the second argument is the option -logfile *)
  elf_file : option (list Z);      (* the executable, if it opens *)
  config : option (list Z);        (* config.ini, if it opens *)
  allocated : bool;
  kvm_opened : bool;
  vm_created : bool;
  memory_set : bool;
  irqchip_created : bool;
  vcpu_created : bool;
  irqchip_read : bool;
  lapic_set : bool;
  mmap_size_read : bool;
  mapped : bool;
  sregs_read : bool;
  sregs_set : bool;
  regs_set : bool;
  vcpu_sregs : Bootloader.kvm_sregs; (* as KVM_GET_SREGS gives them *)
  boot64 : option (list Z);        (* build/boot64, if it opens *)
}.

(** ** The configuration *)

(** The object [reader], and what [main] asks it. *)
Definition reader (h : host) : INIReader.t := INIReader.init (config h).

Definition ini_parsed (h : host) : bool := negb (INIReader.ParseError (reader h) <? 0).

Definition memsize (h : host) : Z :=
  INIReader.GetInteger (reader h) (chars "vm-spec") (chars "memsize") 8.

Definition serv_port (h : host) : Z :=
  u16 (INIReader.GetInteger (reader h) (chars "debug-server") (chars "port") (-1)).

Definition debug_server_enable (h : host) : bool :=
  INIReader.GetBoolean (reader h) (chars "debug-server") (chars "enable") false.

Definition gdb_enable (h : host) : bool :=
  INIReader.GetBoolean (reader h) (chars "gdb-server") (chars "enable") false.

Definition gdb_address (h : host) : list Z :=
  INIReader.Get (reader h) (chars "gdb-server") (chars "address") (chars "127.0.0.1").

Definition gdb_port (h : host) : Z :=
  u16 (INIReader.GetInteger (reader h) (chars "gdb-server") (chars "port") (-1)).

(** ** The function main *)

(** [main] returns a code, or the virtual CPU starts with its registers. *)
Definition result : Type := Z + Bootloader.kvm_sregs * Bootloader.kvm_regs.

(** A request whose failure makes [main] return [code]. *)
Definition require (ok : bool) (code : Z) (k : io mem result) : io mem result :=
  if ok then k else mret (inl code).

Definition enter (r : Bootloader.kvm_sregs * Bootloader.kvm_regs) : result := inr r.

(** From the opening of /dev/kvm to the start code. *)
Definition create_vm (h : host) (l : Elf.lista) (file : list Z) (size : Z) : io mem result :=
  require (kvm_opened h) 4 (
  require (vm_created h) 5 (
  require (memory_set h) 1 (
  require (irqchip_created h) 1 (
  entry_point ← Elf.estrai_segmento l (Some file) size;
  require (vcpu_created h) 1 (
  require (irqchip_read h) 1 (
  require (lapic_set h) 1 (
  require (mmap_size_read h) 1 (
  require (mapped h) 1 (
  r ← Bootloader.run_long_mode (sregs_read h) (sregs_set h) (regs_set h) (vcpu_sregs h)
        size entry_point l (boot64 h);
  mret (enter r)))))))))).

(** [garbage] is what the allocated memory holds. *)
Definition main (h : host) (l : Elf.lista) (garbage : Z → Z)
    : outcome (result * mem * list event) :=
  match kvm.check_arguments (argc h) (logfile h) with
  | Some code => Done (inl code, mk_mem 0 garbage, [])
  | None =>
      match elf_file h with
      | None => Done (inl 1, mk_mem 0 garbage, [])
      | Some file =>
          if negb (ini_parsed h) then Done (inl 2, mk_mem 0 garbage, [])
          else
            let size := kvm.guest_memory_size (memsize h) in
            if negb (allocated h) then Done (inl 3, mk_mem 0 garbage, [])
            else create_vm h l file size (mk_mem size garbage)
      end
  end.

(** ** What the configuration decides *)

Section configuration.
Context (h : host) (items : list grammar.item).
Context (Hc : config h = Some (grammar.print_file items)).
Context (Hv : Forall grammar.valid items) (Hf : Forall grammar.fits items).

(** The value that the file gives to a name of a section. *)
Definition setting (sec name : string) : option (list Z) :=
  grammar.value_of (INIReader.MakeKey (chars sec) (chars name)) (grammar.entries [] [] items).

(** A setting that starts with a number, in decimal. *)
Definition sets_number (sec name : string) (n : Z) : Prop :=
  ∃ k tl, setting sec name = Some (grammar.numeral 10 k n ++ tl) ∧ grammar.minimal k n ∧
    10 ≤ INIReader.digit_value (ini.char_at tl) ∧ n < 2 ^ 32.

Definition truths : list (list Z) := map chars ["true"; "yes"; "on"; "1"].

(** A switch is on when its value is one of the four words, in any case. *)
Definition switched_on (sec name : string) : bool :=
  match setting sec name with
  | Some v => bool_decide (map INIReader.tolower v ∈ truths)
  | None => false
  end.

Lemma get_setting sec name d :
  INIReader.Get (reader h) (chars sec) (chars name) d = default d (setting sec name).
Proof.
  unfold reader. rewrite Hc. destruct (grammar.config_reading items Hv Hf) as (_ & _ & H). apply H.
Qed.

Lemma integer_setting sec name n d :
  sets_number sec name n → INIReader.GetInteger (reader h) (chars sec) (chars name) d = n.
Proof.
  intros (k & tl & Hs & Hk & Htl & Hn). unfold INIReader.GetInteger. rewrite get_setting, Hs.
  pose proof (grammar.strtol_decimal false k n tl Hk Htl) as E. cbn [grammar.sign app] in E.
  change (default [] (Some (grammar.numeral 10 k n ++ tl))) with (grammar.numeral 10 k n ++ tl).
  rewrite E.
  unfold grammar.clamp, INIReader.LONG_MAX. lia.
Qed.

Lemma integer_unset sec name d :
  setting sec name = None → INIReader.GetInteger (reader h) (chars sec) (chars name) d = d.
Proof. intros Hs. unfold INIReader.GetInteger. by rewrite get_setting, Hs. Qed.

Lemma switch_setting sec name :
  INIReader.GetBoolean (reader h) (chars sec) (chars name) false = switched_on sec name.
Proof.
  unfold INIReader.GetBoolean, switched_on. rewrite get_setting. fold truths.
  destruct (setting sec name) as [v|]; cbn [default]; [|vm_compute; reflexivity].
  destruct (bool_decide (_ ∈ truths)); [done|]. by case_match.
Qed.

Lemma number_nonneg sec name n : sets_number sec name n → 0 ≤ n.
Proof. intros (k & tl & _ & [Hk Hn] & _). pose proof (Z.pow_nonneg 10 (Z.of_nat k - 1)). lia. Qed.

(** C14. What the text of the configuration file decides, for every file of the grammar
    whose numbers are below 2^32: the size of the guest's memory in bytes, an odd number of
    mebibytes rounded up and one out of range replaced by the default, whether the debugger
    and the debug server are started, by the four words that mean true in any case, and the
    address and the ports on which they listen, taken modulo 65536, and 65535 when none is
    given. *)
Theorem configuration :
  ini_parsed h = true ∧
  (∀ n, sets_number "vm-spec" "memsize" n →
    kvm.guest_memory_size (memsize h) =
      if (8 <=? n) && (n <? 1024) then (n + n mod 2) * 2 ^ 20 else kvm.default_memory_size) ∧
  (setting "vm-spec" "memsize" = None → kvm.guest_memory_size (memsize h) = 8 * 2 ^ 20) ∧
  gdb_enable h = switched_on "gdb-server" "enable" ∧
  debug_server_enable h = switched_on "debug-server" "enable" ∧
  gdb_address h = default (chars "127.0.0.1") (setting "gdb-server" "address") ∧
  (∀ n, sets_number "gdb-server" "port" n → gdb_port h = n mod 65536) ∧
  (∀ n, sets_number "debug-server" "port" n → serv_port h = n mod 65536) ∧
  (setting "gdb-server" "port" = None → gdb_port h = 65535) ∧
  (setting "debug-server" "port" = None → serv_port h = 65535).
Proof.
  split; [|split; [|split; [|split; [|split; [|split; [|split; [|split; [|split]]]]]]]].
  - unfold ini_parsed, reader. rewrite Hc.
    destruct (grammar.reading_typed (Some (grammar.print_file items))) as [_ He].
    apply negb_true_iff, Z.ltb_ge. apply He.
  - intros n Hn. unfold memsize. rewrite (integer_setting _ _ n) by done.
    pose proof (number_nonneg _ _ _ Hn). destruct Hn as (_ & _ & _ & _ & _ & Hmax).
    destruct (kvm.memory_size_bounds n) as (_ & _ & H1 & H2).
    destruct (Z.leb_spec 8 n), (Z.ltb_spec n 1024); cbn [andb]; [apply H1|apply H2..]; lia.
  - intros Hs. unfold memsize. by rewrite integer_unset.
  - apply switch_setting.
  - apply switch_setting.
  - apply get_setting.
  - intros n Hn. unfold gdb_port. by rewrite (integer_setting _ _ n).
  - intros n Hn. unfold serv_port. by rewrite (integer_setting _ _ n).
  - intros Hs. unfold gdb_port. by rewrite integer_unset.
  - intros Hs. unfold serv_port. by rewrite integer_unset.
Qed.

End configuration.

(** ** Executables *)

(** An executable that the interpreters accept with the format [F], whose table is
    complete and whose segments lie in their destination. *)
Record executable (l : Elf.lista) (file : list Z) (F : Elf.format) (e : Elf.eseguibile) : Prop := {
  ex_bytes : Forall is_u8 file;
  ex_format : Elf.fields_fit F;
  ex_found : ∀ m, Elf.find_interpreter (S (length (Elf.testa l))) (Elf.rewind l) file m =
    Done (Some (F, e), m, []);
  ex_table : Elf.sizeof_phdr F ≤ Elf.phentsize F e;
  ex_segments : Forall Elf.segment_ok (Elf.loads F (Z.to_nat (Elf.phnum F e)) e 0);
}.

(** The memory with the program in it. *)
Definition loaded (file : list Z) (F : Elf.format) (e : Elf.eseguibile) (size : Z) (m : mem) : mem :=
  foldl (Elf.place file size) m (Elf.loads F (Z.to_nat (Elf.phnum F e)) e 0).

(** The tables that the boot loader leaves, with the boot code on top. *)
Definition booted (size : Z) (boot : list Z) (F : Elf.format) (e : Elf.eseguibile)
    (sregs : Bootloader.kvm_sregs) (m : mem) : Prop :=
  Bootloader.tables size m ∧ Bootloader.cr3 sregs = Bootloader.pml4_addr ∧
  ∃ m2, m = loaded boot F e 0x10000 m2.

(** Every request succeeds. *)
Definition all_succeed (h : host) : Prop :=
  kvm.check_arguments (argc h) (logfile h) = None ∧ ini_parsed h = true ∧ allocated h = true ∧
  kvm_opened h = true ∧ vm_created h = true ∧ memory_set h = true ∧ irqchip_created h = true ∧
  vcpu_created h = true ∧ irqchip_read h = true ∧ lapic_set h = true ∧ mmap_size_read h = true ∧
  mapped h = true ∧ sregs_read h = true ∧ sregs_set h = true ∧ regs_set h = true.

(** ** The virtual CPU at its first entry *)

Lemma loaded_size file F e size m : msize (loaded file F e size m) = msize m.
Proof. apply Elf.places_size. Qed.

(** The whole sequence when nothing fails. *)
Lemma create_vm_run h l file F e boot F' e' size m :
  all_succeed h → boot64 h = Some boot →
  executable l file F e → executable l boot F' e' →
  8388608 ≤ size < 3 * 2 ^ 30 → msize m = size → mem_wf (loaded file F e size m) →
  ∃ sregs m', create_vm h l file size m =
      Done (inr (sregs, Bootloader.mk_regs (Elf.entry_point F' e') 0 (Elf.entry_point F e) 2), m', []) ∧
    Bootloader.flat_registers sregs ∧
    (∀ va, 0 ≤ va < size / 2 ^ 21 * 2 ^ 21 →
      Bootloader.walk m' (Bootloader.cr3 sregs) va = Some va) ∧
    (∀ va, 0xfec00000 ≤ va < 0xff000000 →
      Bootloader.walk m' (Bootloader.cr3 sregs) va = Some va) ∧
    (∀ x, 0x80000 ≤ x → mget m' x = mget (loaded file F e size m) x) ∧
    mem_wf m' ∧ msize m' = msize m ∧ booted size boot F' e' sregs m'.
Proof.
  intros (_ & _ & _ & H1 & H2 & H3 & H4 & H5 & H6 & H7 & H8 & H9 & H10 & H11 & H12) Hboot
    [Hb Hf Hfind Ht Hs] [Hb' Hf' Hfind' Ht' Hs'] Hsize Hm Hwf.
  destruct (Elf.estrai_run l file F e size m) as (m1 & Hrun1 & -> & Hs1 & _);
    [done|done|lia|apply Hfind|done|done|].
  fold (loaded file F e size m) in Hrun1.
  destruct (Bootloader.long_mode_start size (Elf.entry_point F e) (vcpu_sregs h) l boot F' e'
    (loaded file F e size m)) as (sregs & m2 & Hrun2 & Hflat & Hw & Ha & _ & _ & Hout & Hwf2 & Hs2 & Hboot2);
    [lia|rewrite loaded_size; lia|done..|].
  exists sregs, m2. rewrite loaded_size in Hs2. split; [|done].
  unfold create_vm, require. rewrite H1, H2, H3, H4, H5, H6, H7, H8, H9, H10, H11, H12, Hboot.
  erewrite bind_quiet by exact Hrun1. erewrite bind_quiet by exact Hrun2. reflexivity.
Qed.

Lemma loaded_wf file F e size m :
  Forall is_u8 file → mem_wf m → mem_wf (loaded file F e size m).
Proof. intros Hb. by apply Elf.places_wf. Qed.

(** The whole of [main] when nothing fails. *)
Lemma start_run (h : host) (l : Elf.lista) (file boot : list Z) (F F' : Elf.format)
    (e e' : Elf.eseguibile) (garbage : Z → Z)
    (Hall : all_succeed h) (Hfile : elf_file h = Some file) (Hboot : boot64 h = Some boot)
    (Hex : executable l file F e) (Hex' : executable l boot F' e')
    (Hg : ∀ a, is_u8 (garbage a)) :
  let size := kvm.guest_memory_size (memsize h) in
  let m0 := loaded file F e size (mk_mem size garbage) in
  ∃ sregs m', main h l garbage =
      Done (inr (sregs, Bootloader.mk_regs (Elf.entry_point F' e') 0 (Elf.entry_point F e) 2), m', []) ∧
    Bootloader.flat_registers sregs ∧
    (∀ va, 0 ≤ va < size ∨ 0xfec00000 ≤ va < 0xff000000 →
      Bootloader.walk m' (Bootloader.cr3 sregs) va = Some va) ∧
    (∀ x, 0x80000 ≤ x → mget m' x = mget m0 x) ∧ mem_wf m' ∧ msize m' = size ∧
    booted size boot F' e' sregs m'.
Proof.
  intros size m0. destruct (kvm.memory_size_bounds (memsize h)) as (Hmod & Hsize & _).
  fold size in Hmod, Hsize.
  destruct (create_vm_run h l file F e boot F' e' size (mk_mem size garbage))
    as (sregs & m' & Hrun & Hflat & Hw & Ha & Hout & Hwf & Hms & Hb2); [done..|lia|done| |].
  { apply loaded_wf; [apply Hex|]. split; [cbn; lia|done]. }
  exists sregs, m'. destruct Hall as (Harg & Hini & Halloc & _). split_and!; [|done| |done..].
  - unfold main. rewrite Harg, Hfile, Hini, Halloc. exact Hrun.
  - intros va [Hva|Hva]; [|by apply Ha]. apply Hw. Z.div_mod_to_equations. lia.
Qed.

(** When every request to the host succeeds and both executables are well formed, the
    supervisor starts the virtual CPU at the entry point of the boot code with the entry
    point of the program as its argument, in a flat protected-mode environment, with page
    tables that map every address of the guest's memory and of the interrupt controllers to
    itself, and with the program's segments in memory above the tables. *)
Theorem start_program (h : host) (l : Elf.lista) (file boot : list Z) (F F' : Elf.format)
    (e e' : Elf.eseguibile) (garbage : Z → Z)
    (Hall : all_succeed h) (Hfile : elf_file h = Some file) (Hboot : boot64 h = Some boot)
    (Hex : executable l file F e) (Hex' : executable l boot F' e')
    (Hg : ∀ a, is_u8 (garbage a)) :
  let size := kvm.guest_memory_size (memsize h) in
  let m0 := loaded file F e size (mk_mem size garbage) in
  ∃ sregs m', main h l garbage =
      Done (inr (sregs, Bootloader.mk_regs (Elf.entry_point F' e') 0 (Elf.entry_point F e) 2), m', []) ∧
    Bootloader.flat_registers sregs ∧
    (∀ va, 0 ≤ va < size ∨ 0xfec00000 ≤ va < 0xff000000 →
      Bootloader.walk m' (Bootloader.cr3 sregs) va = Some va) ∧
    (∀ x, 0x80000 ≤ x → mget m' x = mget m0 x).
Proof.
  intros size m0. destruct (start_run h l file boot F F' e e' garbage Hall Hfile Hboot Hex Hex' Hg)
    as (sregs & m' & Hrun & Hflat & Hw & Hout & _). eauto 6.
Qed.

(** ** Failures *)

(** The requests that make [main] return, in their order, each with its code and with what the
    guest's memory holds when it fails: nothing before the memory is allocated, nothing of the
    program before the virtual CPU is created, and the program afterwards. *)
Definition requests (h : host) (garbage : Z → Z) (program : mem → mem) : list (bool * (Z * mem)) :=
  let m0 := mk_mem 0 garbage in
  let m1 := mk_mem (kvm.guest_memory_size (memsize h)) garbage in
  [ (bool_decide (kvm.check_arguments (argc h) (logfile h) = None), (1, m0));
    (bool_decide (is_Some (elf_file h)), (1, m0)); (ini_parsed h, (2, m0));
    (allocated h, (3, m0)); (kvm_opened h, (4, m1)); (vm_created h, (5, m1));
    (memory_set h, (1, m1)); (irqchip_created h, (1, m1)); (vcpu_created h, (1, program m1));
    (irqchip_read h, (1, program m1)); (lapic_set h, (1, program m1));
    (mmap_size_read h, (1, program m1)); (mapped h, (1, program m1)) ].

Fixpoint first_failure {A} (rs : list (bool * A)) : option A :=
  match rs with
  | [] => None
  | (ok, a) :: rs => if ok then first_failure rs else Some a
  end.

(** C39. The first thing that fails on the way to the virtual processor decides how the
    supervisor ends, in the order of the source, from the arguments, the opening of the
    executable and of the configuration to the mapping of the shared page, when the
    executables that open are well formed: [main] returns the code of that request and
    nothing after it runs, since the memory is what it was when the request was made,
    nothing before its allocation, what it was allocated with before the program is loaded,
    and exactly the program afterwards, with no table and no code of the boot loader; if
    only a request of the boot loader fails the process exits with 1. *)
Theorem start_failures (h : host) (l : Elf.lista) (F F' : Elf.format) (e e' : Elf.eseguibile)
    (garbage : Z → Z) (boot : list Z)
    (Hex : ∀ file, elf_file h = Some file → executable l file F e)
    (Hboot : boot64 h = Some boot) (Hex' : executable l boot F' e')
    (Hg : ∀ a, is_u8 (garbage a)) :
  let size := kvm.guest_memory_size (memsize h) in
  match first_failure (requests h garbage (loaded (default [] (elf_file h)) F e size)) with
  | Some (code, m) => main h l garbage = Done (inl code, m, [])
  | None =>
      sregs_read h && sregs_set h && regs_set h = false → main h l garbage = Halt (ExitProcess 1)
  end.
Proof.
  intros size. destruct (kvm.memory_size_bounds (memsize h)) as (Hmod & Hsize & _).
  fold size in Hmod, Hsize. unfold main, requests. fold size. cbn [first_failure].
  destruct (kvm.check_arguments (argc h) (logfile h)) as [code|] eqn:Harg.
  { rewrite bool_decide_false by done. revert Harg. unfold kvm.check_arguments.
    by case_match; intros [= <-]. }
  rewrite bool_decide_true by done.
  destruct (elf_file h) as [file|] eqn:Hfile; [|by rewrite bool_decide_false by by intros []].
  rewrite bool_decide_true by by eexists. cbn [default].
  destruct (Hex file eq_refl) as [Hb Hf Hfind Ht Hs].
  destruct (ini_parsed h); [|done]. destruct (allocated h); [|done]. cbn [negb].
  unfold create_vm, require.
  destruct (kvm_opened h); [|done]. destruct (vm_created h); [|done].
  destruct (memory_set h); [|done]. destruct (irqchip_created h); [|done].
  destruct (Elf.estrai_run l file F e size (mk_mem size garbage)) as (m1 & Hrun & Hm1 & Hs1 & _);
    [done|done|done|apply Hfind|done|done|].
  fold (loaded file F e size (mk_mem size garbage)) in Hm1. subst m1.
  erewrite bind_quiet by exact Hrun.
  destruct (vcpu_created h); [|done]. destruct (irqchip_read h); [|done].
  destruct (lapic_set h); [|done]. destruct (mmap_size_read h); [|done].
  destruct (mapped h); [|done]. intros Hok. rewrite Hboot. apply bind_halt.
  apply (Bootloader.long_mode_fails _ _ _ _ _ _ _ _ F' e'); try apply Hex'; [| | |done].
  - change (2 ^ 30) with 1073741824 in *. lia.
  - rewrite loaded_size. change (8388608 ≤ size). lia.
  - apply loaded_wf; [done|]. split; [cbn; lia|done].
Qed.

(** ** Witnesses *)

Definition flat_sregs : Bootloader.kvm_sregs :=
  Bootloader.mk_sregs 0 0 0 0 Bootloader.zero_segment Bootloader.zero_segment
    Bootloader.zero_segment Bootloader.zero_segment Bootloader.zero_segment Bootloader.zero_segment.

(** A host with the configuration of the repository, the debugger enabled or not, on which
    the request to map the shared page succeeds or fails. *)
Definition host0 (gdb : string) (mapped : bool) : host :=
  mk_host 2 false (Some (estrattore.elf64_file 0x200000 2 4 [0xf4; 0x90]))
    (Some (grammar.print_file (grammar.shipped gdb))) true true true
    true true true true true true mapped true true true flat_sregs (Some estrattore.program).

Definition exe0 : Elf.eseguibile :=
  match Elf64.init (estrattore.elf64_file 0x200000 2 4 [0xf4; 0x90]) (estrattore.blank 0x300000) with
  | Done (Some e, _, _) => e
  | _ => estrattore.program_exe
  end.

Lemma executable0 :
  executable (estrattore.interpreti false) (estrattore.elf64_file 0x200000 2 4 [0xf4; 0x90])
    Elf64.elf64 exe0 ∧
  executable (estrattore.interpreti false) estrattore.program Elf64.elf64 estrattore.program_exe.
Proof.
  split; (split;
    [apply (bool_decide_unpack _); vm_compute; exact I|exact Elf64.elf64_fits
    |intros m; vm_compute; reflexivity|vm_compute; congruence
    |vm_compute; apply Forall_cons_2; [split; cbn; lia|by apply Forall_nil_2]]).
Qed.

Lemma start_program_witness :
  ∃ sregs m', main (host0 "no" true) (estrattore.interpreti false) (λ _, 0xff) =
      Done (inr (sregs, Bootloader.mk_regs 0x1000 0 0x1000 2), m', []) ∧
    Bootloader.walk m' (Bootloader.cr3 sregs) 0x9fffff = Some 0x9fffff ∧
    mget m' 0x200000 = 0xf4.
Proof.
  destruct executable0 as [He Hp].
  destruct (start_program (host0 "no" true) (estrattore.interpreti false) _ _ _ _ _ _ (λ _, 0xff)
    ltac:(by repeat split) eq_refl eq_refl He Hp ltac:(done)) as (sregs & m' & Hrun & _ & Hw & Hm).
  exists sregs, m'. split; [exact Hrun|]. split.
  - apply Hw. left. vm_compute. intuition congruence.
  - rewrite Hm by lia. vm_compute. reflexivity.
Defined.

(** The last request of [main] fails with the program loaded. *)
Lemma start_failures_witness :
  ∃ m, main (host0 "no" false) (estrattore.interpreti false) (λ _, 0xff) = Done (inl 1, m, []) ∧
    mget m 0x200000 = 0xf4 ∧ mget m 0x1000 = 0xff.
Proof.
  destruct executable0 as [He Hp].
  pose proof (start_failures (host0 "no" false) (estrattore.interpreti false) _ _ exe0 _
    (λ _, 0xff) _ ltac:(by intros file [= <-]) eq_refl Hp ltac:(done)) as Hrun.
  exists (loaded (estrattore.elf64_file 0x200000 2 4 [0xf4; 0x90]) Elf64.elf64 exe0 0xa00000
    (mk_mem 0xa00000 (λ _, 0xff))).
  split; [|split; vm_compute; reflexivity].
  assert (kvm.guest_memory_size (memsize (host0 "no" false)) = 0xa00000) as Hsize
    by (vm_compute; reflexivity).
  assert (ini_parsed (host0 "no" false) = true) as Hini by (vm_compute; reflexivity).
  cbv zeta in Hrun. unfold requests in Hrun. rewrite Hsize, Hini in Hrun. exact Hrun.
Defined.

Lemma configuration_witness :
  memsize (host0 "yes" true) = 10 ∧ gdb_enable (host0 "yes" true) = true ∧
  gdb_enable (host0 "no" true) = false ∧ gdb_port (host0 "yes" true) = 1234 ∧
  kvm.guest_memory_size (memsize (host0 "yes" true)) = 10 * 2 ^ 20.
Proof.
  destruct (grammar.shipped_ok "yes" ltac:(by right)) as [Hv Hf].
  destruct (configuration (host0 "yes" true) (grammar.shipped "yes") eq_refl Hv Hf)
    as (_ & Hm & _ & Hg & _ & _ & Hp & _).
  destruct (grammar.shipped_ok "no" ltac:(by left)) as [Hv' Hf'].
  destruct (configuration (host0 "no" true) (grammar.shipped "no") eq_refl Hv' Hf')
    as (_ & _ & _ & Hg' & _).
  split; [vm_compute; reflexivity|]. rewrite Hg, Hg'. split; [vm_compute; reflexivity|].
  split; [vm_compute; reflexivity|]. split.
  - apply (Hp 1234). exists 4%nat, []. split; [vm_compute; reflexivity|].
    split; [apply (bool_decide_unpack _); exact I|]. split; [vm_compute; congruence|lia].
  - apply (Hm 10). exists 2%nat, []. split; [vm_compute; reflexivity|].
    split; [apply (bool_decide_unpack _); exact I|]. split; [vm_compute; congruence|lia].
Defined.

End startup.
