(* ===== verification/GuestBoot.v ===== *)
(** * The boot sequence of the guest (bootloader/boot64.S)

What the virtual processor runs first: the instructions of boot64.S on the registers, the
tables and the memory with which the supervisor starts it, up to the entry point of the
program in 64-bit mode.  The first part gives the instructions their meaning on the state of
the processor that they use, with the faults that the processor would raise; the second is
the listing; the theorem composes them with the start of the supervisor (Startup.v). *)

From S2P Require Import Prelude Elf Bootloader Machine IniReader Startup.

Module boot64.

(** ** Control bits, as Bootloader.cpp names them *)
Definition CR0_PG : Z := Z.shiftl 1 31.
Definition CR4_PAE : Z := Z.shiftl 1 5.
(** Five-level paging, which Bootloader.cpp does not name. *)
Definition CR4_LA57 : Z := Z.shiftl 1 12.
Definition EFER_LME : Z := Z.shiftl 1 8.
Definition EFER_LMA : Z := Z.shiftl 1 10.

(** The model-specific register that holds EFER. *)
Definition MSR_EFER : Z := 0xC0000080.
(** The flags that [popfq] loads at privilege 0, and the one that is always set. *)
Definition POPF_MASK : Z := 0x247fd5.
Definition FLAG_IF : Z := Z.shiftl 1 9.

(** ** The processor *)

(** An instruction of the listing, or an address outside it. *)
Definition place : Type := (nat + Z)%type.

(** The registers that the sequence reads or writes: of the segments the selectors, and for
    the code segment the descriptor that the processor has cached. *)
Record cpu : Type := mk_cpu {
  ip : place;
  rax : Z; rcx : Z; rdx : Z; rsp : Z; rdi : Z; rflags : Z;
  cr0 : Z; cr3 : Z; cr4 : Z; efer : Z; gdtr_base : Z; gdtr_limit : Z;
  cs : Z; cs_desc : Z; ds : Z; es : Z; fs : Z; gs : Z; ss : Z;
}.

#[export] Instance eta_cpu : Eta cpu := λ c,
  mk_cpu (ip c) (rax c) (rcx c) (rdx c) (rsp c) (rdi c) (rflags c) (cr0 c) (cr3 c) (cr4 c)
    (efer c) (gdtr_base c) (gdtr_limit c) (cs c) (cs_desc c) (ds c) (es c) (fs c) (gs c) (ss c).

Definition paging (c : cpu) : bool := has_bits (cr0 c) CR0_PG.
Definition long_mode (c : cpu) : bool := has_bits (efer c) EFER_LMA.
(** 64-bit code: long mode, with the L bit of the code segment. *)
Definition code64 (c : cpu) : bool := long_mode c && Z.testbit (cs_desc c) 53.

(** The physical address of a linear one.  Paging outside long mode, or with five levels,
    does not occur. *)
Definition translate (c : cpu) (m : mem) (va : Z) : option Z :=
  if negb (paging c) then Some va
  else if long_mode c && negb (has_bits (cr4 c) CR4_LA57)
  then Bootloader.walk m (cr3 c) va else None.

(** An access to [n] bytes that are adjacent in the guest's memory; the segments are flat. *)
Definition access (n : nat) (va : Z) (c : cpu) (m : mem) : option Z :=
  match translate c m va, translate c m (va + Z.of_nat n - 1) with
  | Some p, Some q =>
      if decide (q = p + Z.of_nat n - 1 ∧ in_mem p n m) then Some p else None
  | _, _ => None
  end.

Definition load (n : nat) (va : Z) (c : cpu) (m : mem) : option Z :=
  p ← access n va c m; Some (le_val (mem_slice p n m)).

Definition store (n : nat) (va v : Z) (c : cpu) (m : mem) : option mem :=
  p ← access n va c m; Some (mem_put p (le_bytes n v) m).

(** ** Instructions *)

Inductive sreg : Type := DS | ES | FS | GS | SS.

Inductive instr : Type :=
  | cli
  | movl_esp (v : Z)
  | movl_cr4_eax
  | movl_eax_cr4
  | movl_cr0_eax
  | movl_eax_cr0
  | orl_eax (v : Z)
  | movl_ecx (v : Z)
  | rdmsr
  | wrmsr
  | lgdt (addr : Z)
  | ljmp (sel : Z) (target : nat)
  | pushq (v : Z)
  | popfq
  | movw_ax (v : Z)
  | movw_seg (s : sreg)
  | jmp_rdi.

(** A write to CR0 that turns paging on activates long mode when EFER asks for it. *)
Definition set_cr0 (v : Z) (c : cpu) : option cpu :=
  if negb (has_bits v CR0_PG) || paging c then Some (c <| cr0 := v |>)
  else if negb (has_bits v Bootloader.CR0_PE) then None
  else if negb (has_bits (efer c) EFER_LME) then Some (c <| cr0 := v |>)
  else if negb (has_bits (cr4 c) CR4_PAE) || Z.testbit (cs_desc c) 53 then None
  else Some (c <| cr0 := v |> <| efer := Z.lor (efer c) EFER_LMA |>).

Definition set_cr4 (v : Z) (c : cpu) : option cpu :=
  if long_mode c && negb (has_bits v CR4_PAE) then None else Some (c <| cr4 := v |>).

(** Long mode is enabled with paging off only; its active bit is read-only. *)
Definition set_efer (v : Z) (c : cpu) : option cpu :=
  if paging c && negb (Bool.eqb (has_bits v EFER_LME) (has_bits (efer c) EFER_LME)) then None
  else Some (c <| efer := Z.lor (Z.land v (Z.lnot EFER_LMA)) (Z.land (efer c) EFER_LMA) |>).

Definition set_seg (s : sreg) (sel : Z) (c : cpu) : cpu :=
  match s with
  | DS => c <| ds := sel |>
  | ES => c <| es := sel |>
  | FS => c <| fs := sel |>
  | GS => c <| gs := sel |>
  | SS => c <| ss := sel |>
  end.

(** A descriptor of a present code segment that privilege 0 may jump to, not both 64-bit
    and with 32-bit operands by default. *)
Definition code_segment (c : cpu) (sel d : Z) : bool :=
  Z.testbit d 44 && Z.testbit d 43 && Z.testbit d 47 &&
  (Bootloader.field d 45 2 =? 0) && (Z.testbit d 42 || (sel mod 4 =? 0)) &&
  negb (long_mode c && Z.testbit d 53 && Z.testbit d 54).

Section listing.

(** The addresses the linker gives to the instructions and to [gdt64]. *)
Variables (address : nat → Z) (gdt64 : Z).

(** A far jump in the same privilege: the selector is in the descriptor table, its
    descriptor is loaded and marked as accessed in memory. *)
Definition far_jump (sel : Z) (target : nat) (c : cpu) (m : mem) : option (cpu * mem) :=
  if (sel <? 4) || Z.testbit sel 2 || (gdtr_limit c <? Z.lor sel 7) then None else
  let entry := gdtr_base c + Z.land sel (Z.lnot 7) in
  d ← load 8 entry c m;
  if negb (code_segment c sel d) then None else
  let d' := Z.lor d (Z.shiftl 1 40) in
  m' ← store 8 entry d' c m;
  Some (c <| cs := Z.land sel (Z.lnot 3) |> <| cs_desc := d' |> <| ip := inl target |>, m').

(** One instruction, after the fetch; [None] is a fault.  The arithmetic flags of [orl],
    which nothing reads before [popfq] loads them, are left out. *)
Definition exec (i : instr) (c : cpu) (m : mem) : option (cpu * mem) :=
  match i with
  | cli => Some (c <| rflags := Z.land (rflags c) (Z.lnot FLAG_IF) |>, m)
  | movl_esp v => Some (c <| rsp := u32 v |>, m)
  | movl_cr4_eax => Some (c <| rax := u32 (cr4 c) |>, m)
  | movl_eax_cr4 => c ← set_cr4 (u32 (rax c)) c; Some (c, m)
  | movl_cr0_eax => Some (c <| rax := u32 (cr0 c) |>, m)
  | movl_eax_cr0 => c ← set_cr0 (u32 (rax c)) c; Some (c, m)
  | orl_eax v => Some (c <| rax := Z.lor (u32 (rax c)) v |>, m)
  | movl_ecx v => Some (c <| rcx := u32 v |>, m)
  | rdmsr =>
      if negb (u32 (rcx c) =? MSR_EFER) then None else
      Some (c <| rax := u32 (efer c) |> <| rdx := Z.shiftr (efer c) 32 |>, m)
  | wrmsr =>
      if negb (u32 (rcx c) =? MSR_EFER) then None else
      c ← set_efer (Z.lor (u32 (rax c)) (Z.shiftl (u32 (rdx c)) 32)) c; Some (c, m)
  | lgdt addr =>
      limit ← load 2 addr c m;
      base ← load 4 (addr + 2) c m;
      Some (c <| gdtr_limit := limit |> <| gdtr_base := base |>, m)
  | ljmp sel target => far_jump sel target c m
  | pushq v =>
      let sp := u64 (rsp c - 8) in
      m ← store 8 sp v c m; Some (c <| rsp := sp |>, m)
  | popfq =>
      v ← load 8 (rsp c) c m;
      Some (c <| rflags := Z.lor (Z.land v POPF_MASK) 2 |> <| rsp := u64 (rsp c + 8) |>, m)
  | movw_ax v => Some (c <| rax := Z.lor (Z.land (rax c) (Z.lnot 0xffff)) (u16 v) |>, m)
  | movw_seg s =>
      (* the null selector, which 64-bit code of privilege 0 may load everywhere *)
      if u16 (rax c) =? 0 then Some (set_seg s 0 c, m) else None
  | jmp_rdi =>
      (* a canonical address of the lower half *)
      if (0 <=? rdi c) && (rdi c <? 2 ^ 47) then Some (c <| ip := inr (rdi c) |>, m) else None
  end.

(** ** The listing *)

(** The section of data: the table, its pointer, and the stack after them. *)
Definition STACK_SIZE : Z := 0x1000.
Definition gdt64_end : Z := gdt64 + 16.
Definition gdt64_ptr : Z := gdt64_end.
Definition stack : Z := gdt64_ptr + 6.
Definition data : list Z :=
  le_bytes 8 0 ++ le_bytes 8 0x209c0000000000 ++
  le_bytes 2 (gdt64_end - gdt64) ++ le_bytes 4 gdt64.

(** The index of [long_mode], after the 14 instructions from [_start]. *)
Definition long_mode_label : nat := 14.

Definition start : list instr :=
  [ cli; movl_esp (stack + STACK_SIZE);
    movl_cr4_eax; orl_eax 0x00000020; movl_eax_cr4;
    movl_ecx 0xC0000080; rdmsr; orl_eax 0x00000100; wrmsr;
    movl_cr0_eax; orl_eax 0x80000000; movl_eax_cr0;
    lgdt gdt64_ptr; ljmp 8 long_mode_label ].

Definition long_mode_code : list instr :=
  [ pushq 0; popfq; movw_ax 0;
    movw_seg DS; movw_seg ES; movw_seg FS; movw_seg GS; movw_seg SS;
    jmp_rdi ].

(** Each instruction with the mode that it is assembled for. *)
Definition program : list (bool * instr) :=
  map (pair false) start ++ map (pair true) long_mode_code.

(** The fetch of an instruction, at its address and in its mode. *)
Definition turn (c : cpu) (m : mem) : option (cpu * mem) :=
  match ip c with
  | inr _ => None
  | inl i =>
      '(mode, ins) ← program !! i;
      p ← translate c m (address i);
      if (p =? address i) && Bool.eqb mode (code64 c)
      then exec ins (c <| ip := inl (S i) |>) m else None
  end.

(** The processor runs until it leaves the listing. *)
Fixpoint run (fuel : nat) (c : cpu) (m : mem) : option (cpu * mem) :=
  match ip c, fuel with
  | inr _, _ => Some (c, m)
  | inl _, O => None
  | inl _, S fuel => '(c, m) ← turn c m; run fuel c m
  end.

(** The processor as the supervisor leaves it: [cr4] and [efer] are as they were at the
    reset. *)
Definition enter (sregs : Bootloader.kvm_sregs) (regs : Bootloader.kvm_regs) (cr4 efer : Z) : cpu :=
  mk_cpu (if Bootloader.rip regs =? address 0 then inl 0%nat else inr (Bootloader.rip regs))
    0 0 0 (Bootloader.rsp regs) (Bootloader.rdi regs) (Bootloader.rflags regs)
    (Bootloader.cr0 sregs) (Bootloader.cr3 sregs) cr4 efer
    (Bootloader.gdt_base sregs) (Bootloader.gdt_limit sregs)
    (Bootloader.selector (Bootloader.cs sregs)) (Bootloader.descriptor (Bootloader.cs sregs))
    (Bootloader.selector (Bootloader.ds sregs)) (Bootloader.selector (Bootloader.es sregs))
    (Bootloader.selector (Bootloader.fs sregs)) (Bootloader.selector (Bootloader.gs sregs))
    (Bootloader.selector (Bootloader.ss sregs)).

(** ** Accesses through the identity mapping *)

Lemma has_bits_pow x k : 0 ≤ k → has_bits x (Z.shiftl 1 k) = Z.testbit x k.
Proof.
  intros Hk. unfold has_bits. rewrite Z.shiftl_1_l.
  destruct (Z.testbit x k) eqn:Hb.
  - apply negb_true_iff, Z.eqb_neq. intros H0.
    assert (Z.testbit (Z.land x (2 ^ k)) k = true) as H
      by by rewrite Z.land_spec, Hb, Z.pow2_bits_true by lia.
    by rewrite H0, Z.bits_0 in H.
  - apply negb_false_iff, Z.eqb_eq. apply Z.bits_inj'. intros n Hn.
    rewrite Z.land_spec, Z.bits_0. destruct (Z.eq_dec n k) as [->|Hne]; [by rewrite Hb|].
    by rewrite Z.pow2_bits_false, andb_false_r by lia.
Qed.

(** Every address of a memory of [size] bytes is translated to itself. *)
Definition identity (size : Z) (c : cpu) (m : mem) : Prop :=
  size ≤ msize m ∧ ∀ va, 0 ≤ va < size → translate c m va = Some va.

Lemma access_identity size c m n va :
  identity size c m → (0 < n)%nat → 0 ≤ va → va + Z.of_nat n ≤ size → access n va c m = Some va.
Proof.
  intros [Hs Hid] Hn Hva Hend. unfold access. rewrite !Hid by lia.
  rewrite decide_True by (unfold in_mem; lia). done.
Qed.

Lemma load_identity size c m n va :
  identity size c m → (0 < n)%nat → 0 ≤ va → va + Z.of_nat n ≤ size →
  load n va c m = Some (le_val (mem_slice va n m)).
Proof. intros. unfold load. by rewrite (access_identity size). Qed.

Lemma store_identity size c m n va v :
  identity size c m → (0 < n)%nat → 0 ≤ va → va + Z.of_nat n ≤ size →
  store n va v c m = Some (mem_put va (le_bytes n v) m).
Proof. intros. unfold store. by rewrite (access_identity size). Qed.

Lemma slice_mem_slice a N k n m :
  (k + n ≤ N)%nat → mem_slice (a + Z.of_nat k) n m = slice k n (mem_slice a N m).
Proof.
  intros H. apply list_eq. intros i. destruct (decide (i < n)%nat).
  - rewrite lookup_slice, !lookup_mem_slice by lia. do 2 f_equal. lia.
  - rewrite lookup_ge_None_2 by (rewrite length_mem_slice; lia).
    symmetry. apply lookup_ge_None_2.
    rewrite length_slice; [lia|rewrite length_mem_slice; lia].
Qed.

(** The words of the data section, in a memory that holds it. *)
Lemma data_words m :
  is_u32 gdt64 → mem_slice gdt64 22 m = data →
  le_val (mem_slice (gdt64 + 8) 8 m) = 0x209c0000000000 ∧
  le_val (mem_slice gdt64_ptr 2 m) = 16 ∧ le_val (mem_slice (gdt64_ptr + 2) 4 m) = gdt64.
Proof.
  intros Hg Hd. unfold gdt64_ptr, gdt64_end.
  replace (gdt64 + 16 + 2) with (gdt64 + 18) by lia.
  change 8 with (Z.of_nat 8) at 1. change 16 with (Z.of_nat 16) at 1.
  change 18 with (Z.of_nat 18).
  rewrite !(slice_mem_slice gdt64 22) by lia. rewrite Hd. unfold data, gdt64_end.
  replace (gdt64 + 16 - gdt64) with 16 by lia.
  split; [reflexivity|]. split; [reflexivity|].
  change (slice 18 4 _) with (le_bytes 4 gdt64). rewrite le_val_bytes.
  apply Z.mod_small. exact Hg.
Qed.

(** ** Steps *)

Lemma run_turn fuel c m i mode ins :
  ip c = inl i → program !! i = Some (mode, ins) →
  translate c m (address i) = Some (address i) → code64 c = mode →
  run (S fuel) c m = '(c, m) ← exec ins (c <| ip := inl (S i) |>) m; run fuel c m.
Proof.
  intros Hip Hi Ht Hm. cbn [run]. unfold turn. rewrite Hip, Hi. cbn [mbind option_bind].
  rewrite Ht. cbn [mbind option_bind]. by rewrite Z.eqb_refl, Hm, eqb_reflx.
Qed.

(** The control registers that the first part computes. *)
Definition cr4_pae (cr4 : Z) : Z := u32 (Z.lor (u32 (u32 cr4)) 0x20).
Definition efer_lme (efer : Z) : Z :=
  Z.lor (Z.land (Z.lor (u32 (Z.lor (u32 (u32 efer)) 0x100)) (Z.shiftl (u32 (Z.shiftr efer 32)) 32))
    (Z.lnot EFER_LMA)) (Z.land efer EFER_LMA).

Lemma u32_bit x k : 0 ≤ k < 32 → Z.testbit (u32 x) k = Z.testbit x k.
Proof.
  intros Hk. unfold u32. change 4294967296 with (2 ^ 32). by rewrite Z.mod_pow2_bits_low by lia.
Qed.

Lemma cr4_pae_set cr4 : has_bits (cr4_pae cr4) CR4_PAE = true.
Proof.
  unfold CR4_PAE, cr4_pae. rewrite has_bits_pow, u32_bit, Z.lor_spec by lia.
  apply orb_true_r.
Qed.

Lemma cr4_pae_levels cr4 :
  has_bits cr4 CR4_LA57 = false → has_bits (cr4_pae cr4) CR4_LA57 = false.
Proof.
  unfold CR4_LA57, cr4_pae. rewrite !has_bits_pow, u32_bit, Z.lor_spec, !u32_bit by lia.
  by intros ->.
Qed.

Lemma efer_lme_bits efer k :
  0 ≤ k < 32 → k ≠ 10 → Z.testbit (efer_lme efer) k = Z.testbit efer k || (k =? 8).
Proof.
  intros Hk Hne. unfold efer_lme, EFER_LMA.
  rewrite Z.lor_spec, !Z.land_spec, Z.lnot_spec, Z.lor_spec, Z.shiftl_1_l by lia.
  rewrite Z.pow2_bits_false, Z.shiftl_spec_low, !u32_bit, Z.lor_spec, !u32_bit by lia.
  change 0x100 with (2 ^ 8). rewrite Z.pow2_bits_eqb, Z.eqb_sym by lia.
  by destruct (Z.testbit efer k), (k =? 8).
Qed.

Lemma efer_lme_inactive efer :
  has_bits efer EFER_LMA = false → has_bits (efer_lme efer) EFER_LMA = false.
Proof.
  unfold EFER_LMA at 1 2. rewrite !has_bits_pow by lia. intros H. unfold efer_lme, EFER_LMA.
  rewrite Z.lor_spec, !Z.land_spec, H, Z.lnot_spec, Z.shiftl_1_l, Z.pow2_bits_true by lia.
  by rewrite andb_false_r.
Qed.

(** The instructions before paging, on a processor in protected mode. *)
Lemma set_cr4_off v c : long_mode c = false → set_cr4 v c = Some (c <| cr4 := v |>).
Proof. intros H. unfold set_cr4. by rewrite H. Qed.

Lemma set_efer_off v c : paging c = false →
  set_efer v c = Some (c <| efer := Z.lor (Z.land v (Z.lnot EFER_LMA)) (Z.land (efer c) EFER_LMA) |>).
Proof. intros H. unfold set_efer. by rewrite H. Qed.

Lemma set_cr0_long v c :
  has_bits v CR0_PG = true → has_bits v Bootloader.CR0_PE = true → paging c = false →
  has_bits (efer c) EFER_LME = true → has_bits (cr4 c) CR4_PAE = true →
  Z.testbit (cs_desc c) 53 = false →
  set_cr0 v c = Some (c <| cr0 := v |> <| efer := Z.lor (efer c) EFER_LMA |>).
Proof. intros H1 H2 H3 H4 H5 H6. unfold set_cr0. by rewrite H1, H2, H3, H4, H5, H6. Qed.

Ltac cpu_cbn :=
  cbn [mbind option_bind upd eta eta_cpu ip rax rcx rdx rsp rdi rflags cr0 cr3 cr4
    efer gdtr_base gdtr_limit cs cs_desc ds es fs gs ss].

(** One turn in the given mode, its fetch proved by [fetch] and its mode by [mode]. *)
Ltac turn_with fetch mode :=
  erewrite run_turn; [|reflexivity|reflexivity|fetch|mode]; unfold exec; cpu_cbn.

Ltac turn_unpaged :=
  turn_with ltac:(reflexivity)
    ltac:(unfold code64, long_mode; cpu_cbn;
      match goal with H : has_bits _ EFER_LMA = false |- _ => rewrite H; reflexivity end).

Lemma paging_enabled fuel sp di fl c3 r4 ef gb gl sel d s1 s2 s3 s4 s5 m :
  has_bits ef EFER_LMA = false → Z.testbit d 53 = false →
  run (12 + fuel) (mk_cpu (inl 0%nat) 0 0 0 sp di fl 0x11 c3 r4 ef gb gl sel d s1 s2 s3 s4 s5) m =
  run fuel (mk_cpu (inl 12%nat) 0x80000011 MSR_EFER (Z.shiftr ef 32) (u32 (stack + STACK_SIZE)) di
    (Z.land fl (Z.lnot FLAG_IF)) 0x80000011 c3 (cr4_pae r4) (Z.lor (efer_lme ef) EFER_LMA)
    gb gl sel d s1 s2 s3 s4 s5) m.
Proof.
  intros Hef Hd. cbn [Nat.add]. pose proof (efer_lme_inactive ef Hef) as Hef'.
  do 5 turn_unpaged. rewrite set_cr4_off by exact Hef. cpu_cbn. fold (cr4_pae r4).
  do 2 turn_unpaged. change (u32 0xC0000080) with MSR_EFER.
  change (negb (u32 MSR_EFER =? MSR_EFER)) with false. cpu_cbn.
  do 2 turn_unpaged. change (negb (u32 MSR_EFER =? MSR_EFER)) with false. cbv match.
  rewrite set_efer_off by reflexivity. cpu_cbn. fold (efer_lme ef).
  do 3 turn_unpaged. rewrite set_cr0_long; [cpu_cbn; reflexivity|reflexivity..| | |exact Hd].
  - unfold EFER_LME. cpu_cbn. rewrite has_bits_pow, efer_lme_bits by lia. apply orb_true_r.
  - apply cr4_pae_set.
Qed.

(** ** The jump to 64-bit code *)

(** Paging is on, in long mode, with the tables of the boot loader. *)
Definition mapped (c : cpu) : Prop :=
  paging c = true ∧ long_mode c = true ∧ has_bits (cr4 c) CR4_LA57 = false ∧
  cr3 c = Bootloader.pml4_addr.

Lemma identity_tables size c m :
  mapped c → Bootloader.tables size m → 0 ≤ size < 3 * 2 ^ 30 → size mod 2 ^ 21 = 0 →
  size ≤ msize m → identity size c m.
Proof.
  intros (Hp & Hl & H5 & H3) Ht Hs Hmod Hm. split; [done|]. intros va Hva. unfold translate.
  rewrite Hp, Hl, H5, H3. cbn [negb andb]. rewrite (Bootloader.walk_memory size).
  - rewrite decide_True; [done|]. revert Hva Hmod. generalize (2 ^ 21), (Z.pow_pos_nonneg 2 21).
    intros. Z.div_mod_to_equations. nia.
  - done.
  - done.
  - unfold Bootloader.last_index_lev3. Z.div_mod_to_equations. lia.
Qed.

(** The tables stay when memory below them is written. *)
Lemma tables_put size m a bs :
  0 ≤ size < 3 * 2 ^ 30 → a + Z.of_nat (length bs) ≤ 0x20000 →
  Bootloader.tables size m → Bootloader.tables size (mem_put a bs m).
Proof.
  intros Hs Ha. apply Bootloader.tables_ext; [done|]. intros x Hx.
  apply Bootloader.entry_ext. intros y Hy. apply mget_put_out. lia.
Qed.

(** The descriptor of [gdt64] after the jump. *)
Definition accessed_code : Z := 0x209d0000000000.

Definition memory_after (m : mem) : mem :=
  mem_put (stack + STACK_SIZE - 8) (le_bytes 8 0)
    (mem_put (gdt64 + 8) (le_bytes 8 accessed_code) m).

(** The layout: the code and the data in the first 64 KiB, below the tables. *)
Record layout : Prop := {
  lo_code : ∀ i, (i < 23)%nat → 0 ≤ address i < 0x10000;
  lo_data : 0 ≤ gdt64 ∧ stack + STACK_SIZE ≤ 0x10000;
}.

Lemma far_jump_run size c m :
  identity size c m → long_mode c = true → gdtr_base c = gdt64 → gdtr_limit c = 16 →
  0 ≤ gdt64 → gdt64 + 16 ≤ size → le_val (mem_slice (gdt64 + 8) 8 m) = 0x209c0000000000 →
  far_jump 8 long_mode_label c m =
    Some (c <| cs := 8 |> <| cs_desc := accessed_code |> <| ip := inl long_mode_label |>,
      mem_put (gdt64 + 8) (le_bytes 8 accessed_code) m).
Proof.
  intros Hid Hl Hb Hlim Hg Hs Hw. unfold far_jump. rewrite Hlim, Hb.
  change ((8 <? 4) || Z.testbit 8 2 || (16 <? Z.lor 8 7)) with false.
  change (Z.land 8 (Z.lnot 7)) with 8. cbv match zeta.
  rewrite (load_identity size) by (done || lia). rewrite Hw. cpu_cbn.
  unfold code_segment. rewrite Hl.
  match goal with |- context [negb ?b] => change (negb b) with false end. cbv match.
  rewrite (store_identity size) by (done || lia). reflexivity.
Qed.

Lemma null_selector a : u16 (Z.lor (Z.land a (Z.lnot 0xffff)) 0) = 0.
Proof.
  rewrite Z.lor_0_r. unfold u16. change 65536 with (2 ^ 16). rewrite <- Z.land_ones by lia.
  rewrite <- Z.land_assoc. change (Z.land (Z.lnot 65535) (Z.ones 16)) with 0. apply Z.land_0_r.
Qed.

Ltac next64 Hid Hf Hef :=
  turn_with ltac:(apply Hf; [lia|apply Hid])
    ltac:(unfold code64, long_mode; cpu_cbn; rewrite Hef; reflexivity).

(** The instructions after paging is on. *)
Lemma code64_reached fuel size a mx hi sp di fl c3 r4 ef gb gl sel d s1 s2 s3 s4 s5 m :
  layout → has_bits r4 CR4_LA57 = false → has_bits ef EFER_LMA = true → Z.testbit d 53 = false → c3 = Bootloader.pml4_addr →
  Bootloader.tables size m → 8388608 ≤ size < 3 * 2 ^ 30 → size mod 2 ^ 21 = 0 → size ≤ msize m →
  mem_slice gdt64 22 m = data → 0 ≤ di < 2 ^ 47 → sp = stack + STACK_SIZE →
  run (11 + fuel) (mk_cpu (inl 12%nat) a mx hi sp di fl 0x80000011 c3 r4 ef gb gl sel d
    s1 s2 s3 s4 s5) m =
  Some (mk_cpu (inr di) (Z.lor (Z.land a (Z.lnot 0xffff)) 0) mx hi (stack + STACK_SIZE) di 2
    0x80000011 c3 r4 ef gdt64 16 8 accessed_code 0 0 0 0 0, memory_after m).
Proof.
  intros Hlay H5 Hef Hd -> Ht Hsize Hmod Hm Hdata Hdi ->. cbn [Nat.add].
  pose proof Hlay as [_ [Hg Hst]].
  assert (is_u32 gdt64) as Hg32 by (unfold is_u32, stack, gdt64_ptr, gdt64_end, STACK_SIZE in *; lia).
  assert (gdt64 + 0x1016 = stack + STACK_SIZE) as Hstack
    by (unfold stack, gdt64_ptr, gdt64_end, STACK_SIZE; lia).
  destruct (data_words m Hg32 Hdata) as (Hw & Hlim & Hbase).
  set (m1 := mem_put (gdt64 + 8) (le_bytes 8 accessed_code) m).
  assert (Bootloader.tables size m1) as Ht1
    by (apply tables_put; [lia|rewrite length_le_bytes; lia|done]).
  set (m2 := memory_after m).
  assert (Bootloader.tables size m2) as Ht2
    by (apply tables_put; [lia|rewrite length_le_bytes; lia|done]).
  assert (∀ i a mx hi sp di fl gb gl sel d s1 s2 s3 s4 s5,
    let c := mk_cpu i a mx hi sp di fl 0x80000011 Bootloader.pml4_addr r4 ef gb gl sel d
      s1 s2 s3 s4 s5 in
    identity size c m ∧ identity size c m1 ∧ identity size c m2) as Hid.
  { intros. assert (mapped c) as Hc by exact (conj eq_refl (conj Hef (conj H5 eq_refl))).
    split; [|split]; (apply identity_tables; [exact Hc|assumption|lia|exact Hmod|exact Hm]). }
  assert (∀ i c m, (i < 23)%nat → identity size c m → translate c m (address i) = Some (address i)) as Hf.
  { intros i c m' Hi [_ Hc]. apply Hc. destruct Hlay as [Hcode _]. specialize (Hcode i Hi). lia. }
  turn_with ltac:(apply Hf; [lia|apply Hid])
    ltac:(unfold code64, long_mode; cpu_cbn; rewrite Hef; exact Hd).
  unfold gdt64_ptr, gdt64_end in *.
  rewrite !(load_identity size) by (apply Hid || lia). rewrite Hlim, Hbase. cpu_cbn.
  turn_with ltac:(apply Hf; [lia|apply Hid])
    ltac:(unfold code64, long_mode; cpu_cbn; rewrite Hef; exact Hd).
  rewrite (far_jump_run size) by (apply Hid || assumption || reflexivity || lia). cpu_cbn. fold m1.
  change long_mode_label with 14%nat. next64 Hid Hf Hef.
  rewrite (u64_id (_ - 8)) by (unfold is_u64; lia).
  rewrite (store_identity size) by (apply Hid || lia). cpu_cbn.
  change (mem_put (stack + STACK_SIZE - 8) (le_bytes 8 0) m1) with m2.
  assert (le_val (mem_slice (stack + STACK_SIZE - 8) 8 m2) = 0) as Hzero.
  { unfold m2, memory_after. change 8%nat with (length (le_bytes 8 0)) at 1.
    rewrite mem_slice_put_eq. reflexivity. }
  next64 Hid Hf Hef. rewrite (load_identity size) by (apply Hid || lia). rewrite Hzero. cpu_cbn.
  rewrite (u64_id (_ + 8)) by (unfold is_u64; lia).
  replace (stack + STACK_SIZE - 8 + 8) with (stack + STACK_SIZE) by lia.
  next64 Hid Hf Hef. change (u16 0) with 0.
  do 5 (next64 Hid Hf Hef; rewrite null_selector; cbn [Z.eqb set_seg]; cpu_cbn).
  next64 Hid Hf Hef. rewrite (proj2 (Z.leb_le 0 di)), (proj2 (Z.ltb_lt di (2 ^ 47))) by lia.
  cbn [andb]. cpu_cbn. by destruct fuel.
Qed.

(** The whole listing, on the registers that the supervisor sets. *)
Lemma sequence_run sregs regs r4 ef size m :
  layout → Bootloader.rip regs = address 0%nat → Bootloader.flat_registers sregs →
  Bootloader.cr3 sregs = Bootloader.pml4_addr →
  has_bits r4 CR4_LA57 = false → has_bits ef EFER_LMA = false →
  Bootloader.tables size m → 8388608 ≤ size < 3 * 2 ^ 30 → size mod 2 ^ 21 = 0 → size ≤ msize m →
  mem_slice gdt64 22 m = data → 0 ≤ Bootloader.rdi regs < 2 ^ 47 →
  ∃ c, run 23 (enter sregs regs r4 ef) m = Some (c, memory_after m) ∧
    mapped c ∧ code64 c = true ∧ ip c = inr (Bootloader.rdi regs) ∧ rflags c = 2 ∧
    rsp c = stack + STACK_SIZE.
Proof.
  intros Hlay Hrip (H0 & _ & _ & _ & Hcs & _) H3 H5 Hef Ht Hsize Hmod Hm Hdata Hdi.
  unfold enter. rewrite Hrip, Z.eqb_refl, H0, Hcs.
  assert (has_bits (Z.lor (efer_lme ef) EFER_LMA) EFER_LMA = true) as Hlma.
  { unfold EFER_LMA. rewrite has_bits_pow, Z.lor_spec by lia. apply orb_true_r. }
  eexists. split.
  - change 23%nat with (12 + (11 + 0))%nat. rewrite paging_enabled by done.
    apply (code64_reached _ size); try assumption.
    + by apply cr4_pae_levels.
    + done.
    + apply u32_id. destruct Hlay as [_ [Hg Hs]].
      unfold is_u32, stack, gdt64_ptr, gdt64_end, STACK_SIZE in *. lia.
  - split; [|split; [|done]].
    + split; [done|]. split; [exact Hlma|]. split; [by apply cr4_pae_levels|done].
    + unfold code64, long_mode. cbn [efer cs_desc]. by rewrite Hlma.
Qed.

Lemma memory_after_above m x : stack + STACK_SIZE ≤ x → mget (memory_after m) x = mget m x.
Proof.
  unfold memory_after, stack, gdt64_ptr, gdt64_end, STACK_SIZE. intros Hx.
  rewrite !mget_put_out by (rewrite length_le_bytes; lia). done.
Qed.

End listing.
(** C13. From the command line to the program of the guest: when every request to the host
    succeeds, both executables are well formed, the boot executable holds the boot sequence
    and its data where it is linked, and the processor starts without five-level paging and
    out of long mode, the supervisor starts it on the boot sequence, and the 23 instructions
    of the sequence, each fetched through the page tables of the boot loader from the moment
    they are in force, take it without a fault to the entry point of the program, below
    2^47, in 64-bit mode, with interrupts off, a stack of its own, every address of the
    guest's memory and of the interrupt controllers mapped to itself, and the program's
    segments in memory above the tables. *)
Theorem program_entered (h : startup.host) (l : Elf.lista) (file boot : list Z)
    (F F' : Elf.format) (e e' : Elf.eseguibile) (garbage : Z → Z)
    (address : nat → Z) (gdt64 cr4 efer : Z)
    (Hall : startup.all_succeed h) (Hfile : startup.elf_file h = Some file)
    (Hboot : startup.boot64 h = Some boot)
    (Hex : startup.executable l file F e) (Hex' : startup.executable l boot F' e')
    (Hg : ∀ a, is_u8 (garbage a)) (Hlay : layout address gdt64)
    (Hstart : Elf.entry_point F' e' = address 0%nat)
    (Hdata : ∀ m, mem_slice gdt64 22 (startup.loaded boot F' e' 0x10000 m) = data gdt64)
    (H5 : has_bits cr4 CR4_LA57 = false) (Hlma : has_bits efer EFER_LMA = false)
    (Hentry : 0 ≤ Elf.entry_point F e < 2 ^ 47) :
  let size := kvm.guest_memory_size (startup.memsize h) in
  let m0 := startup.loaded file F e size (mk_mem size garbage) in
  ∃ sregs regs m c m', startup.main h l garbage = Done (inr (sregs, regs), m, []) ∧
    run address gdt64 23 (enter address sregs regs cr4 efer) m = Some (c, m') ∧
    ip c = inr (Elf.entry_point F e) ∧ code64 c = true ∧ has_bits (rflags c) FLAG_IF = false ∧
    rsp c = stack gdt64 + STACK_SIZE ∧
    (∀ va, 0 ≤ va < size ∨ 0xfec00000 ≤ va < 0xff000000 → translate c m' va = Some va) ∧
    (∀ x, 0x80000 ≤ x → mget m' x = mget m0 x).
Proof.
  intros size m0. destruct (kvm.memory_size_bounds (startup.memsize h)) as (Hmod & Hsize & _).
  fold size in Hmod, Hsize.
  destruct (startup.start_run h l file boot F F' e e' garbage Hall Hfile Hboot Hex Hex' Hg)
    as (sregs & m & Hrun & Hflat & _ & Hout & _ & Hms & Ht & H3 & m2 & Hm2).
  fold size m0 in Hrun, Hout, Hms, Ht, Hm2.
  destruct (sequence_run address gdt64 sregs
    (Bootloader.mk_regs (Elf.entry_point F' e') 0 (Elf.entry_point F e) 2) cr4 efer size m)
    as (c & Hc & Hmap & H64 & Hip & Hfl & Hsp); try assumption; [lia..|rewrite Hm2; apply Hdata|].
  assert (Bootloader.tables size (memory_after gdt64 m)) as Ht'.
  { destruct Hlay as [_ [Hg0 Hs]]. unfold memory_after.
    apply tables_put; [lia|rewrite length_le_bytes; lia|].
    apply tables_put; [lia| |done]. rewrite length_le_bytes.
    unfold stack, gdt64_ptr, gdt64_end, STACK_SIZE in Hs. lia. }
  eexists _, _, m, c, _. split; [exact Hrun|]. split; [exact Hc|].
  split; [done|]. split; [done|]. split; [by rewrite Hfl|]. split; [done|]. split.
  - intros va [Hva|Hva].
    + apply (identity_tables size); [done|done|lia|lia|cbn; lia|done].
    + destruct Hmap as (Hp & Hl & Hn & Hr). unfold translate. rewrite Hp, Hl, Hn, Hr.
      cbn [negb andb]. apply (Bootloader.walk_apic size); [lia|done|done].
  - intros x Hx. rewrite memory_after_above; [by apply Hout|]. destruct Hlay as [_ [_ Hs]]. lia.
Qed.

(** ** A concrete start *)

(** A boot file with the data section at 0x3000, and instructions of one byte from 0x1000. *)
Definition boot_file : list Z := estrattore.elf64_file 0x3000 22 0x1016 (data 0x3000).
Definition boot_exe : Elf.eseguibile :=
  match Elf64.init boot_file (estrattore.blank 0x20000) with
  | Done (Some e, _, _) => e
  | _ => estrattore.program_exe
  end.
Definition host_boot : startup.host :=
  startup.mk_host 2 false (Some (estrattore.elf64_file 0x200000 2 4 [0xf4; 0x90]))
    (Some (grammar.print_file (grammar.shipped "no"))) true true true
    true true true true true true true true true true startup.flat_sregs (Some boot_file).

Lemma boot_executable :
  startup.executable (estrattore.interpreti false) boot_file Elf64.elf64 boot_exe.
Proof.
  split.
  - apply (bool_decide_unpack _). vm_compute. exact I.
  - exact Elf64.elf64_fits.
  - intros m. vm_compute. reflexivity.
  - vm_compute. congruence.
  - vm_compute. apply Forall_cons_2; [split; cbn; lia|by apply Forall_nil_2].
Qed.

Lemma program_entered_witness :
  ∃ sregs regs m c m',
    startup.main host_boot (estrattore.interpreti false) (λ _, 0xff) =
      Done (inr (sregs, regs), m, []) ∧
    run (λ i, 0x1000 + Z.of_nat i) 0x3000 23
      (enter (λ i, 0x1000 + Z.of_nat i) sregs regs 0 0) m = Some (c, m') ∧
    ip c = inr 0x1000 ∧ code64 c = true ∧ mget m' 0x200000 = 0xf4.
Proof.
  destruct startup.executable0 as [He _].
  destruct (program_entered host_boot (estrattore.interpreti false) _ boot_file _ _ _ _ (λ _, 0xff)
    (λ i, 0x1000 + Z.of_nat i) 0x3000 0 0 ltac:(by repeat split) eq_refl eq_refl He boot_executable
    ltac:(done)) as (sregs & regs & m & c & m' & Hrun & Hc & Hip & H64 & _ & _ & _ & Hm).
  - split; [intros i Hi; cbn; lia|vm_compute; split; congruence].
  - reflexivity.
  - intros m. vm_compute. reflexivity.
  - reflexivity.
  - reflexivity.
  - vm_compute. split; congruence.
  - exists sregs, regs, m, c, m'. split; [exact Hrun|]. split; [exact Hc|].
    split; [exact Hip|]. split; [exact H64|]. rewrite Hm by lia. vm_compute. reflexivity.
Defined.

End boot64.
