(* ===== verification/Debugging.v ===== *)
(** * Stopping at a breakpoint (kvm.cpp, gdbserver/gdbserver.cpp)

The requests of a debugger against an abstract target: the registers, the privileged
registers and the memory that it sees.  Each request of the protocol has an answer and an
effect on the target; the stub of GdbServer.v refines this, request by request, and an
exit of the virtual CPU at a breakpoint is a whole session. *)

From S2P Require Import Prelude SerialPort HardDisk GdbServer Machine.
Import gdbserver.

Module debugging.

(** ** The abstract target *)

Record target : Type := mk_target {
  t_registers : list Z;
  t_privileged : list Z;
  t_memory : mem;
  t_toggle : bool;
  t_requests : list bool;            (* what the next requests to KVM return *)
}.

Definition view (s : gdbserver.t) : target :=
  mk_target (registers s) (extended_registers s) (memory s) (remote_debug s) (requests s).

(** The requests; a number comes with the digits that it is written in. *)
Inductive request : Type :=
  | Why
  | Toggle
  | GetRegisters
  | SetRegisters (rs : list Z)
  | GetRegister (n : nat) (regno : Z)
  | SetRegister (n : nat) (regno v : Z)
  | ReadMemory (n : nat) (addr : Z) (k : nat) (len : Z)
  | WriteMemory (n : nat) (addr : Z) (k : nat) (bs : list Z)
  | Monitor
  | Unsupported (cs : list Z).

Definition qRcmd : list Z := chars "qRcmd,".

Definition packet (q : request) : list Z :=
  match q with
  | Why => [63]
  | Toggle => [100]
  | GetRegisters => [103]
  | SetRegisters rs => G_packet rs
  | GetRegister n regno => 112 :: hex_digits n regno
  | SetRegister n regno v => 80 :: hex_digits n regno ++ equals :: hex_bytes (le_bytes 8 v)
  | ReadMemory n addr k len => m_packet n addr k len
  | WriteMemory n addr k bs =>
      77 :: hex_digits n addr ++ comma :: hex_digits k (Z.of_nat (length bs)) ++
      colon :: hex_bytes bs
  | Monitor => qRcmd ++ hex_bytes (chars "regs")
  | Unsupported cs => cs
  end.

Definition error (lit : string) : list Z := chars lit.

Definition known (regno : Z) : bool := (0 <=? regno) && (regno <? Z.of_nat NUMREGS).

(** What the stub answers. *)
Definition answer (sigval : Z) (q : request) (tg : target) : list Z :=
  match q with
  | Why => [83; hexchar (Z.shiftr sigval 4); hexchar (sigval mod 16)]
  | Toggle | Unsupported _ => []
  | GetRegisters => hex_bytes (register_bytes (t_registers tg))
  | SetRegisters _ | WriteMemory _ _ _ _ => chars "OK"
  | GetRegister _ r => if known r then hex_bytes (register (t_registers tg) r) else chars "E01"
  | SetRegister _ r _ => if known r then chars "OK" else chars "E01"
  | ReadMemory _ addr _ len => hex_bytes (mem_slice addr (Z.to_nat len) (t_memory tg))
  | Monitor => hex_bytes (regs_response (t_privileged tg))
  end.

(** What the target becomes: a request that sets registers makes the two requests to KVM that
    load them. *)
Definition effect (q : request) (tg : target) : target :=
  let '(mk_target rs ps m b rq) := tg in
  match q with
  | Toggle => mk_target rs ps m (negb b) rq
  | SetRegisters rs' => mk_target rs' ps m b (load_result rq).2
  | SetRegister _ r v =>
      if known r then mk_target (<[Z.to_nat r := v]> rs) ps m b (load_result rq).2 else tg
  | WriteMemory _ addr _ bs => mk_target rs ps (mem_put addr bs m) b rq
  | _ => tg
  end.

(** Whether registers are set. *)
Definition loads (q : request) : bool :=
  match q with SetRegisters _ => true | SetRegister _ r _ => known r | _ => false end.

(** The virtual CPU gets the general registers, if the requests to KVM succeed. *)
Definition loaded (q : request) (tg : target) : list event :=
  if loads q then load_events (t_requests tg) (t_registers (effect q tg)) else [].

(** The characters that select a request. *)
Definition commands : list Z := chars "?dgGpPmMsck".

Definition number (n : nat) (x : Z) : Prop :=
  (1 ≤ n)%nat ∧ 0 ≤ x < 16 ^ Z.of_nat n ∧ x < 2147483648.

(** The requests that the buffers and the memory can hold. *)
Definition valid (q : request) (tg : target) : Prop :=
  match q with
  | SetRegisters rs => length rs = NUMREGS ∧ Forall is_u64 rs
  | GetRegister n r => number n r ∧ (n ≤ 397)%nat
  | SetRegister n r v => number n r ∧ (n ≤ 380)%nat ∧ is_u64 v
  | ReadMemory n addr k len =>
      number n addr ∧ number k len ∧ (n + k ≤ 396)%nat ∧ len < 200 ∧
      addr + len ≤ msize (t_memory tg)
  | WriteMemory n addr k bs =>
      number n addr ∧ number k (Z.of_nat (length bs)) ∧ (n + k + 2 * length bs ≤ 395)%nat ∧
      Forall is_u8 bs ∧ addr + Z.of_nat (length bs) ≤ msize (t_memory tg)
  | Unsupported cs =>
      Forall plain cs ∧ (length cs ≤ 398)%nat ∧ cs !! 2%nat ≠ Some colon ∧
      ¬ qRcmd `prefix_of` cs ∧ hd 0 cs ∉ commands
  | _ => True
  end.

(** ** One command *)

(** The stub after a packet [cs]: its target, and its answer buffer. *)
Definition after (s : gdbserver.t) (cs rest : list Z) (tg : target) (buf : list Z)
    : gdbserver.t :=
  gdbserver.mk rest (received cs (remcomInBuffer s)) buf (t_toggle tg) (t_registers tg)
    (t_privileged tg) (t_memory tg) (guest_debug s) (t_requests tg).

Lemma view_after s cs rest tg buf : view (after s cs rest tg buf) = tg.
Proof. by destruct tg. Qed.

Record performs (sigval : Z) (q : request) (s : gdbserver.t) (rest : list Z) : Prop := {
  performs_run : ∃ buf, length buf = 400%nat ∧
    c_string buf = Some (answer sigval q (view s)) ∧
    handle_command sigval 0 (opened s (packet q) rest) =
      Done (Reply, after s (packet q) rest (effect q (view s)) buf, loaded q (view s));
}.

Lemma in_prefix_run lit s ptr cs :
  at_ptr s ptr (cs ++ [0]) → Forall (λ c, c ≠ 0) lit →
  in_prefix ptr lit s = Done (bool_decide (lit `prefix_of` cs), s, []).
Proof.
  intros Hat Hl. revert ptr cs Hat. induction Hl as [|l lit Hl _ IH]; intros ptr cs Hat.
  { by rewrite bool_decide_true by apply prefix_nil. }
  cbn [in_prefix]. destruct cs as [|c cs].
  - apply at_ptr_cons in Hat as [Hc _]. erewrite bind_quiet by exact Hc.
    rewrite (proj2 (Z.eqb_neq 0 l)) by done.
    by rewrite bool_decide_false by apply prefix_nil_not.
  - apply at_ptr_cons in Hat as [Hc Hat]. erewrite bind_quiet by exact Hc.
    destruct (Z.eqb_spec c l) as [->|Hn].
    + rewrite (IH _ cs Hat). do 3 f_equal. apply bool_decide_ext.
      split; [apply prefix_cons|apply prefix_cons_inv_2].
    + rewrite bool_decide_false; [done|]. intros H. by apply prefix_cons_inv_1 in H.
Qed.

(** The test for the monitor request, and the character that selects another. *)
Lemma command_start s c cs rest :
  wf s → (length (c :: cs) ≤ 398)%nat → c ≠ 113 →
  let s0 := opened s (c :: cs) rest in
  in_prefix 0 qRcmd s0 = Done (false, s0, []) ∧ in_get 0 s0 = Done (c, s0, []) ∧
  at_ptr s0 1 (cs ++ [0]).
Proof.
  intros Hs Hl Hc s0. pose proof (opened_at s (c :: cs) rest Hs Hl) as Hat. fold s0 in Hat.
  split; [|by apply at_ptr_cons in Hat].
  rewrite (in_prefix_run _ _ _ _ Hat) by by repeat constructor.
  rewrite bool_decide_false; [done|]. intros H. by apply prefix_cons_inv_1 in H.
Qed.

(** Open a command whose first character is a constant. *)
Ltac command Hs Hat rest :=
  lazymatch goal with
  | |- context [handle_command _ 0 (opened ?s (?c :: ?cs) rest)] =>
      let H := fresh in let Hg := fresh in
      destruct (command_start s c cs rest Hs) as (H & Hg & Hat); [cbn; lia|done|];
      unfold handle_command; erewrite bind_quiet by exact H; cbv iota;
      erewrite bind_quiet by exact Hg; cbn [Z.eqb Pos.eqb]
  end.

Lemma out_opened s cs rest : wf s → length (remcomOutBuffer (opened s cs rest)) = 400%nat.
Proof. intros Hs. cbn. rewrite length_insert. apply Hs. Qed.

(** An answer that fits the buffer, written from its start. *)
Lemma out_put_answer s cs :
  length (remcomOutBuffer s) = 400%nat → Forall plain cs → (length cs < 400)%nat →
  ∃ buf, length buf = 400%nat ∧ c_string buf = Some cs ∧
    out_put 0 (cs ++ [0]) s = Done (tt, s <| remcomOutBuffer := buf |>, []).
Proof.
  intros Hs Hcs Hl. exists (list_inserts 0 (cs ++ [0]) (remcomOutBuffer s)). split_and!.
  - by rewrite length_inserts.
  - apply c_string_received; [|lia]. eapply Forall_impl; [exact Hcs|].
    by intros c (_ & _ & _ & H).
  - apply out_put_run; [done|lia|rewrite length_app; cbn; lia].
Qed.

Lemma mem2hex_answer s bs :
  length (remcomOutBuffer s) = 400%nat → Forall is_u8 bs → (2 * length bs < 400)%nat →
  ∃ buf, length buf = 400%nat ∧ c_string buf = Some (hex_bytes bs) ∧
    mem2hex bs 0 s = Done (2 * Z.of_nat (length bs), s <| remcomOutBuffer := buf |>, []).
Proof.
  intros Hs Hbs Hl. destruct (out_put_answer s (hex_bytes bs)) as (buf & Hb & Hc & Hrun);
    [done|by apply hex_bytes_plain|rewrite hex_bytes_length; lia|].
  exists buf. split_and!; [done..|]. unfold mem2hex. by erewrite bind_quiet by exact Hrun.
Qed.

Ltac plain_chars :=
  repeat (apply Forall_cons_2; [vm_compute; intuition congruence|]); apply Forall_nil_2.

(** ** The requests *)

Lemma performs_why sigval s rest :
  wf s → 0 ≤ sigval < 256 → performs sigval Why s rest.
Proof.
  intros Hs Hsig. split. cbn [packet]. command Hs Hat rest.
  destruct (out_put_answer (opened s [63] rest) (answer sigval Why (view s)))
    as (buf & Hb & Hc & Hrun); [by apply out_opened| |cbn; lia|].
  { assert (0 ≤ Z.shiftr sigval 4 < 16) by (rewrite Z.shiftr_div_pow2 by lia; width_lia).
    assert (0 ≤ sigval mod 16 < 16) by (apply Z.mod_pos_bound; lia).
    apply Forall_cons_2; [vm_compute; intuition congruence|].
    repeat (apply Forall_cons_2; [by apply hexchar_plain|]). by apply Forall_nil_2. }
  exists buf. split_and!; [done..|]. by erewrite bind_quiet by exact Hrun.
Qed.

Lemma performs_toggle sigval s rest : wf s → performs sigval Toggle s rest.
Proof.
  intros Hs. split. cbn [packet]. command Hs Hat rest.
  exists (list_inserts 0 [0] (remcomOutBuffer s)). split_and!.
  - rewrite length_inserts. apply Hs.
  - by apply (c_string_received []); [|rewrite (wf_out s Hs); cbn; lia].
  - done.
Qed.

Lemma performs_get_registers sigval s rest : wf s → performs sigval GetRegisters s rest.
Proof.
  intros Hs. split. cbn [packet]. command Hs Hat rest.
  destruct (mem2hex_answer (opened s [103] rest) (register_bytes (registers s)))
    as (buf & Hb & Hc & Hrun); [by apply out_opened|apply register_bytes_u8| |].
  { rewrite length_register_bytes, (wf_registers s Hs). unfold NUMREGS. lia. }
  exists buf. split_and!; [done..|].
  erewrite bind_quiet by reflexivity. by erewrite bind_quiet by exact Hrun.
Qed.

Lemma performs_set_registers sigval rs s rest :
  wf s → valid (SetRegisters rs) (view s) → performs sigval (SetRegisters rs) s rest.
Proof.
  intros Hs [Hl Hrs]. split.
  exists (list_inserts 0 (chars "OK" ++ [0]) (list_inserts 0 [0] (remcomOutBuffer s))).
  split_and!; [| |by apply G_command].
  - rewrite !length_inserts. apply Hs.
  - apply c_string_received; [repeat constructor; done|rewrite length_inserts, (wf_out s Hs); cbn; lia].
Qed.

(** A number that the packet holds, up to the character after it. *)
Lemma number_run s ptr n x e cs :
  at_ptr s ptr (hex_digits n x ++ e :: cs) → number n x → (n ≤ 400)%nat → e = 0 ∨ hex e < 0 →
  hexToInt ptr s = Done (Z.of_nat n, x, ptr + Z.of_nat n, s, []) ∧
  in_get (ptr + Z.of_nat n) s = Done (e, s, []) ∧ at_ptr s (ptr + Z.of_nat n + 1) cs.
Proof.
  intros Hat (Hn & Hx & Hmax) Hl He. destruct (hex_digits_ok n x) as [_ Hlen].
  split.
  - apply (hexToInt_run s ptr n x e); try done.
    replace (hex_digits n x ++ e :: cs) with ((hex_digits n x ++ [e]) ++ cs) in Hat
      by by rewrite <- app_assoc.
    by apply at_ptr_app in Hat as [? _].
  - apply at_ptr_app in Hat as [_ Hat]. rewrite Hlen in Hat. by apply at_ptr_cons.
Qed.

Lemma number_test {A} n x (a b : A) : number n x → (if Z.of_nat n =? 0 then a else b) = b.
Proof. intros [Hn _]. by rewrite (proj2 (Z.eqb_neq _ _)) by lia. Qed.

Lemma register_u8 rs r : Forall is_u8 (register rs r).
Proof. apply le_bytes_u8. Qed.

Lemma performs_get_register sigval n r s rest :
  wf s → valid (GetRegister n r) (view s) → performs sigval (GetRegister n r) s rest.
Proof.
  intros Hs [Hnum Hn]. split. cbn [packet answer].
  destruct (hex_digits_ok n r) as [_ Hl]. 
  set (s0 := opened s (112 :: hex_digits n r) rest).
  assert (∃ buf, length buf = 400%nat ∧
    c_string buf = Some (if known r then hex_bytes (register (registers s) r) else chars "E01") ∧
    handle_p 1 s0 = Done (tt, s0 <| remcomOutBuffer := buf |>, [])) as (buf & Hb & Hc & Hrun).
  { destruct (command_start s 112 (hex_digits n r) rest Hs) as (_ & _ & Hat); [cbn; lia|done|].
    destruct (number_run s0 1 n r 0 [] Hat Hnum) as (Hi & _); [lia|by left|].
    unfold handle_p. setoid_rewrite (bind_quiet _ _ _ _ _ Hi). cbv iota zeta.
    rewrite (proj2 (Z.eqb_neq _ _)) by (destruct Hnum; lia). cbn [negb andb].
    fold (known r). destruct (known r).
    - destruct (mem2hex_answer s0 (register (registers s) r)) as (buf & Hb & Hc & Hm);
        [by apply out_opened|apply register_u8|cbn; lia|].
      exists buf. split_and!; [done..|]. erewrite bind_quiet by reflexivity.
      by erewrite bind_quiet by exact Hm.
    - destruct (out_put_answer s0 (chars "E01")) as (buf & Hb & Hc & Hm);
        [by apply out_opened|plain_chars|cbn; lia|].
      by exists buf. }
  exists buf. split_and!; [done..|]. unfold s0. command Hs Hat rest.
  by erewrite bind_quiet by exact Hrun.
Qed.

Lemma performs_set_register sigval n r v s rest :
  wf s → valid (SetRegister n r v) (view s) → performs sigval (SetRegister n r v) s rest.
Proof.
  intros Hs (Hnum & Hn & Hv). split. cbn [packet answer].
  destruct (hex_digits_ok n r) as [_ Hl].
  set (cs := hex_digits n r ++ equals :: hex_bytes (le_bytes 8 v)).
  assert (length cs = (n + 17)%nat) as Hlen.
  { unfold cs. rewrite length_app. cbn [length]. rewrite hex_bytes_length, length_le_bytes. lia. }
  set (s0 := opened s (80 :: cs) rest).
  set (tg := effect (SetRegister n r v) (view s)).
  assert (∃ buf, length buf = 400%nat ∧
    c_string buf = Some (if known r then chars "OK" else chars "E01") ∧
    handle_P 1 s0 = Done (tt, after s (80 :: cs) rest tg buf, loaded (SetRegister n r v) (view s)))
    as (buf & Hb & Hc & Hrun).
  { destruct (command_start s 80 cs rest Hs) as (_ & _ & Hat); [cbn; lia|done|].
    unfold cs in Hat. rewrite <- app_assoc in Hat. cbn [app] in Hat.
    destruct (number_run _ 1 n r equals _ Hat Hnum) as (Hi & He & Hat'); [lia|by right|].
    fold cs s0 in Hi, He, Hat'.
    unfold handle_P. erewrite bind_quiet by exact Hi. cbv iota zeta.
    rewrite (number_test n r _ _ Hnum). erewrite bind_quiet by exact He.
    rewrite Z.eqb_refl. cbn [andb]. fold (known r). unfold loaded, tg. cbn [loads effect].
    destruct (known r) eqn:Hk.
    - apply at_ptr_app in Hat' as [Hat' _].
      pose proof (hex2mem_run s0 _ (le_bytes 8 v) (le_bytes_u8 8 v) Hat') as Hhex.
      rewrite length_le_bytes in Hhex. erewrite bind_quiet by exact Hhex.
      rewrite le_val_bytes, Z.mod_small by exact Hv.
      set (s1 := s0 <| registers := <[Z.to_nat r := v]> (registers s0) |>).
      assert (gdbserver_set_register r v s0 = Done (tt, s1, [])) as Hset.
      { unfold gdbserver_set_register. erewrite bind_quiet by reflexivity.
        erewrite bind_quiet; [reflexivity|]. apply array_set_in. cbn.
        rewrite (wf_registers s Hs). unfold known in Hk. lia. }
      erewrite bind_quiet by exact Hset.
      assert (length (registers s1) = NUMREGS) as Hregs
        by (cbn; by rewrite length_insert, (wf_registers s Hs)).
      erewrite bind_done by by apply load_registers_run.
      set (s2 := s1 <| requests := (load_result (requests s1)).2 |>).
      destruct (out_put_answer s2 (chars "OK")) as (buf & Hb & Hc & Hm);
        [by apply (out_opened s (80 :: cs) rest)|plain_chars|cbn; lia|].
      exists buf. split_and!; [done..|].
      unfold out_strcpy. rewrite Hm, app_nil_r. cbn [effect view]. by rewrite Hk.
    - destruct (out_put_answer s0 (chars "E01")) as (buf & Hb & Hc & Hm);
        [by apply out_opened|plain_chars|cbn; lia|].
      exists buf. split_and!; [done..|]. cbn [effect view]. by rewrite Hk. }
  exists buf. split_and!; [done..|]. unfold s0. command Hs Hat rest.
  erewrite bind_done by exact Hrun. cbn [mret io_ret]. by rewrite app_nil_r.
Qed.

Lemma performs_read_memory sigval n a k l s rest :
  wf s → mem_wf (memory s) → valid (ReadMemory n a k l) (view s) →
  performs sigval (ReadMemory n a k l) s rest.
Proof.
  intros Hs Hm ((Hn & Ha & Hamax) & (Hk & Hl & Hlmax) & Hnk & H200 & Hin). split.
  cbn [packet]. set (s0 := opened s (m_packet n a k l) rest).
  set (bs := mem_slice a (Z.to_nat l) (memory s)).
  destruct (mem2hex_answer s0 bs) as (buf & Hb & Hc & Hrun);
    [by apply out_opened|by apply mem_slice_u8|unfold bs; rewrite length_mem_slice; lia|].
  exists buf. split_and!; [done..|]. unfold s0. rewrite m_command by done. fold s0.
  assert (mem_read a (Z.to_nat l) s0 = Done (bs, s0, [])) as Hread.
  { unfold mem_read. erewrite bind_quiet by reflexivity.
    rewrite decide_True; [done|]. right. unfold in_mem. cbn in *. lia. }
  erewrite bind_quiet; [reflexivity|]. erewrite bind_quiet by exact Hread.
  by erewrite bind_quiet by exact Hrun.
Qed.

Lemma performs_write_memory sigval n a k bs s rest :
  wf s → valid (WriteMemory n a k bs) (view s) → performs sigval (WriteMemory n a k bs) s rest.
Proof.
  intros Hs (Hna & Hnl & Hnk & Hbs & Hin). split. cbn [packet answer].
  destruct (hex_digits_ok n a) as [_ Hl1].
  destruct (hex_digits_ok k (Z.of_nat (length bs))) as [_ Hl2].
  set (cs := hex_digits n a ++ comma :: hex_digits k (Z.of_nat (length bs)) ++
             colon :: hex_bytes bs).
  assert (length cs = (n + k + 2 * length bs + 2)%nat) as Hlen.
  { unfold cs. rewrite length_app. cbn [length]. rewrite length_app. cbn [length].
    rewrite hex_bytes_length. lia. }
  set (s0 := opened s (77 :: cs) rest).
  set (s1 := s0 <| memory := mem_put a bs (memory s0) |>).
  destruct (out_put_answer s1 (chars "OK")) as (buf & Hb & Hc & Hm);
    [by apply (out_opened s (77 :: cs) rest)|plain_chars|cbn; lia|].
  assert (handle_M 1 s0 = Done (tt, s1 <| remcomOutBuffer := buf |>, [])) as Hrun.
  { destruct (command_start s 77 cs rest Hs) as (_ & _ & Hat); [cbn; lia|done|].
    unfold cs in Hat. rewrite <- app_assoc in Hat. cbn [app] in Hat.
    rewrite <- app_assoc in Hat. cbn [app] in Hat.
    destruct (number_run _ 1 n a comma _ Hat Hna) as (Hi1 & He1 & Hat1); [lia|by right|].
    destruct (number_run _ _ k _ colon _ Hat1 Hnl) as (Hi2 & He2 & Hat2); [lia|by right|].
    fold cs s0 in Hi1, He1, Hi2, He2, Hat2. apply at_ptr_app in Hat2 as [Hat2 _].
    pose proof (hex2mem_run s0 _ bs Hbs Hat2) as Hhex.
    unfold handle_M. erewrite bind_quiet by exact Hi1. cbv iota zeta.
    rewrite (number_test n a _ _ Hna). erewrite bind_quiet by exact He1.
    rewrite Z.eqb_refl. cbn [negb]. erewrite bind_quiet by exact Hi2. cbv iota zeta.
    rewrite (number_test k _ _ _ Hnl). erewrite bind_quiet by exact He2.
    rewrite Z.eqb_refl, Nat2Z.id. cbn [negb]. erewrite bind_quiet by exact Hhex.
    assert (mem_write a bs s0 = Done (tt, s1, [])) as Hw.
    { unfold mem_write. erewrite bind_quiet by reflexivity.
      rewrite decide_True; [done|]. right. unfold in_mem.
      destruct Hna as (_ & [Ha _] & _). split; [exact Ha|exact Hin]. }
    by erewrite bind_quiet by exact Hw. }
  exists buf. split_and!; [done..|]. unfold s0. command Hs Hat rest.
  by erewrite bind_quiet by exact Hrun.
Qed.

Lemma regs_response_u8 ps : Forall is_u8 (regs_response ps).
Proof.
  assert (∀ n x, Forall is_u8 (hex_digits n x)) as Hd.
  { intros n x. eapply Forall_impl; [apply hex_digits_plain|]. by intros c (H & _). }
  unfold regs_response. rewrite !Forall_app. split_and!;
    lazymatch goal with
    | |- Forall _ (hex_digits _ _) => apply Hd
    | |- _ => apply (bool_decide_unpack _); vm_compute; exact I
    end.
Qed.

Lemma length_regs_response ps : length (regs_response ps) = 155%nat.
Proof.
  unfold regs_response. rewrite !length_app.
  assert (∀ i, length (hex_digits 16 (nth i ps 0)) = 16%nat) as Hd
    by (intros i; apply hex_digits_ok).
  by rewrite !Hd.
Qed.

Lemma performs_monitor sigval s rest : wf s → performs sigval Monitor s rest.
Proof.
  intros Hs. split. cbn [answer]. set (s0 := opened s (packet Monitor) rest).
  destruct (mem2hex_answer s0 (regs_response (extended_registers s))) as (buf & Hb & Hc & Hm);
    [by apply out_opened|apply regs_response_u8|rewrite length_regs_response; lia|].
  exists buf. split_and!; [done..|].
  assert (at_ptr s0 0 (packet Monitor ++ [0])) as Hat by (apply opened_at; [done|cbn; lia]).
  unfold handle_command. erewrite bind_quiet.
  2: { apply (in_prefix_run _ _ _ _ Hat). by repeat constructor. }
  rewrite bool_decide_true by by exists (hex_bytes (chars "regs")). cbv iota.
  assert (hex2mem (0 + 6) 4 s0 = Done (chars "regs", s0, [])) as Hhex.
  { apply (hex2mem_run s0 (0 + 6) (chars "regs")).
    - apply (bool_decide_unpack _). vm_compute. exact I.
    - change (packet Monitor ++ [0]) with (qRcmd ++ hex_bytes (chars "regs") ++ [0]) in Hat.
      apply at_ptr_app in Hat as [_ Hat]. by apply at_ptr_app in Hat as [Hat _]. }
  assert (handle_qRcmd 0 s0 = Done (tt, s0 <| remcomOutBuffer := buf |>, [])) as Hrun.
  { unfold handle_qRcmd. erewrite bind_quiet by exact Hhex.
    rewrite bool_decide_true by done. erewrite bind_quiet by reflexivity.
    by erewrite bind_quiet by exact Hm. }
  by erewrite bind_quiet by exact Hrun.
Qed.

Lemma performs_unsupported sigval cs s rest :
  wf s → valid (Unsupported cs) (view s) → performs sigval (Unsupported cs) s rest.
Proof.
  intros Hs (Hcs & Hl & _ & Hq & Hno). split. cbn [packet answer].
  set (s0 := opened s cs rest). exists (list_inserts 0 [0] (remcomOutBuffer s)). split_and!.
  - rewrite length_inserts. apply Hs.
  - by apply (c_string_received []); [|rewrite (wf_out s Hs); cbn; lia].
  - assert (at_ptr s0 0 (cs ++ [0])) as Hat by by apply opened_at.
    unfold handle_command. erewrite bind_quiet.
    2: { apply (in_prefix_run _ _ _ _ Hat). by repeat constructor. }
    rewrite bool_decide_false by done. cbv iota.
    assert (in_get 0 s0 = Done (hd 0 cs, s0, [])) as Hc
      by (destruct cs; by apply at_ptr_cons in Hat as [? _]).
    erewrite bind_quiet by exact Hc. unfold commands in Hno.
    rewrite list_elem_of_In in Hno. cbn [chars In] in Hno.
    repeat (rewrite (proj2 (Z.eqb_neq (hd 0 cs) _)) by (intros E; apply Hno; rewrite E; vm_compute; tauto)).
    done.
Qed.

Lemma performs_request sigval q s rest :
  wf s → mem_wf (memory s) → 0 ≤ sigval < 256 → valid q (view s) → performs sigval q s rest.
Proof.
  intros Hs Hm Hsig Hq. destruct q.
  - by apply performs_why.
  - by apply performs_toggle.
  - by apply performs_get_registers.
  - by apply performs_set_registers.
  - by apply performs_get_register.
  - by apply performs_set_register.
  - by apply performs_read_memory.
  - by apply performs_write_memory.
  - by apply performs_monitor.
  - by apply performs_unsupported.
Qed.

(** ** A request and its answer *)

Lemma no_colon i cs : Forall (λ c, c ≠ colon) cs → cs !! i ≠ Some colon.
Proof. intros H E. by apply (Forall_lookup_1 _ _ _ _ H E). Qed.

(** What the stub accepts of a packet, whatever its buffer held. *)
Record acceptable (cs : list Z) : Prop := {
  acc_plain : Forall plain cs;
  acc_length : (length cs ≤ 398)%nat;
  acc_third : cs !! 2%nat ≠ Some colon;
}.

Lemma acceptable_hex c cs :
  plain c → Forall plain cs → Forall (λ c, c ≠ colon) cs → (length cs ≤ 397)%nat →
  acceptable (c :: cs).
Proof.
  intros Hc Hcs Hn Hl. split; [by constructor|cbn; lia|].
  by apply (no_colon 1).
Qed.

Ltac plain_char := vm_compute; intuition congruence.

Lemma packet_acceptable q tg : valid q tg → acceptable (packet q).
Proof.
  pose proof hex_digits_plain as Hp. pose proof hex_digits_no_colon as Hn.
  assert (∀ n x, length (hex_digits n x) = n) as Hl by (intros; apply hex_digits_ok).
  destruct q; cbn [valid packet];
    try (intros _; split; [plain_chars|cbn; lia|done]).
  - intros [Hrs _]. split; [apply G_packet_plain|rewrite length_G_packet by done; lia|].
    apply no_colon. constructor; [done|]. apply hex_bytes_no_colon, register_bytes_u8.
  - intros [_ H]. apply acceptable_hex; [plain_char|done..|by rewrite Hl].
  - intros (_ & H & _). apply acceptable_hex; [plain_char| | |].
    + apply Forall_app. split; [done|]. constructor; [plain_char|].
      apply hex_bytes_plain, le_bytes_u8.
    + apply Forall_app. split; [done|]. constructor; [done|].
      apply hex_bytes_no_colon, le_bytes_u8.
    + rewrite length_app. cbn [length]. rewrite Hl, hex_bytes_length, length_le_bytes. lia.
  - intros (_ & _ & H & _). apply acceptable_hex; [plain_char| | |].
    + apply Forall_app. split; [done|]. by constructor; [plain_char|].
    + apply Forall_app. split; [done|]. by constructor.
    + rewrite length_app. cbn [length]. rewrite !Hl. lia.
  - intros ((Hn1 & _) & (Hk1 & _) & H & Hbs & _).
    set (h := hex_digits n addr ++ comma :: hex_digits k (Z.of_nat (length bs))).
    replace (hex_digits n addr ++ _) with (h ++ colon :: hex_bytes bs)
      by (unfold h; by rewrite <- app_assoc).
    assert (length h = (n + k + 1)%nat) as Hh
      by (unfold h; rewrite length_app; cbn [length]; rewrite !Hl; lia).
    split.
    + constructor; [plain_char|]. unfold h. rewrite !Forall_app.
      split_and!; [done|by constructor; [plain_char|]|].
      constructor; [plain_char|by apply hex_bytes_plain].
    + cbn [length]. rewrite length_app. cbn [length]. rewrite hex_bytes_length. lia.
    + change ((h ++ colon :: hex_bytes bs) !! 1%nat ≠ Some colon).
      rewrite lookup_app_l by lia. apply no_colon.
      unfold h. rewrite Forall_app. split; [done|]. by constructor.
  - by intros (H1 & H2 & H3 & _).
Qed.

(** The stub between two packets. *)
Record idle (s : gdbserver.t) : Prop := {
  idle_wf : wf s;
  idle_memory : mem_wf (memory s);
  idle_third : remcomInBuffer s !! 2%nat ≠ Some colon;
}.

Lemma effect_wf q s :
  wf s → mem_wf (memory s) → valid q (view s) →
  length (t_registers (effect q (view s))) = NUMREGS ∧ mem_wf (t_memory (effect q (view s))).
Proof.
  intros Hs Hm. pose proof (wf_registers s Hs) as Hr.
  destruct q; cbn [valid effect view t_registers t_memory]; try done.
  - by intros [? _].
  - intros _. destruct (known regno); cbn [t_registers t_memory]; [|done].
    by rewrite length_insert.
  - intros (_ & _ & _ & Hbs & _). split; [done|]. by apply mem_put_wf.
Qed.

Lemma request_run sigval q s rest :
  idle s → 0 ≤ sigval < 256 → valid q (view s) →
  input s = frame (packet q) ++ plus :: rest →
  ∃ s', handle_packet sigval s =
      Done (Reply, s', DebugChar plus :: loaded q (view s) ++
                       map DebugChar (frame (answer sigval q (view s)))) ∧
    idle s' ∧ view s' = effect q (view s) ∧ guest_debug s' = guest_debug s ∧ input s' = rest.
Proof.
  intros [Hs Hm H2] Hsig Hq Hin. destruct (packet_acceptable q _ Hq) as [Hp Hl H3].
  assert (received (packet q) (remcomInBuffer s) !! 2%nat ≠ Some colon) as Hthird.
  { pose proof (wf_in s Hs) as Hib. unfold received.
    destruct (decide (2 < length (packet q ++ [0%Z]))%nat) as [Hlt|Hge].
    - rewrite list_lookup_inserts by lia. rewrite length_app in Hlt. cbn in Hlt.
      rewrite Nat.sub_0_r. destruct (decide (2 < length (packet q))%nat);
        [by rewrite lookup_app_l by lia|].
      rewrite lookup_app_r by lia. by replace (2 - length (packet q))%nat with 0%nat by lia.
    - by rewrite list_lookup_inserts_ge by lia. }
  destruct (performs_run _ _ _ _ (performs_request sigval q s (plus :: rest) Hs Hm Hsig Hq))
    as (buf & Hb & Hc & Hrun).
  destruct (effect_wf q s Hs Hm Hq) as [Hregs Hmem].
  eexists. split; [|split].
  - eapply handle_packet_done; [exact Hs|exact Hin|exact Hp|exact Hl|exact Hthird|exact Hrun| |].
    + exact Hc.
    + reflexivity.
  - split; [split| |]; cbn; [by rewrite length_received, (wf_in s Hs)|done..].
  - split; [exact (view_after s (packet q) rest (effect q (view s)) buf)|done].
Qed.

(** ** A session *)

(** What the debugger sends: each request, and the acknowledgement of its answer. *)
Fixpoint conversation (qs : list request) : list Z :=
  match qs with
  | [] => []
  | q :: qs => frame (packet q) ++ plus :: conversation qs
  end.

(** The requests that the debugger makes while the target changes. *)
Fixpoint all_valid (qs : list request) (tg : target) : Prop :=
  match qs with
  | [] => True
  | q :: qs => valid q tg ∧ all_valid qs (effect q tg)
  end.

Fixpoint final (qs : list request) (tg : target) : target :=
  match qs with
  | [] => tg
  | q :: qs => final qs (effect q tg)
  end.

(** What the stub does: it acknowledges each request, gives the virtual CPU the registers
    if they were set, and answers. *)
Fixpoint trace (sigval : Z) (qs : list request) (tg : target) : list event :=
  match qs with
  | [] => []
  | q :: qs =>
      (DebugChar plus :: loaded q tg ++ map DebugChar (frame (answer sigval q tg))) ++
      trace sigval qs (effect q tg)
  end.

(** The request that ends the session: a single step, or the rest of the program. *)
Definition resume (step : bool) : list Z := if step then [115] else [99].

(** Before it goes on, KVM is asked to step or not: the target is left with the results of
    the requests that follow. *)
Definition resumed (tg : target) : target :=
  mk_target (t_registers tg) (t_privileged tg) (t_memory tg) (t_toggle tg) (tail (t_requests tg)).

(** How a session ends that leaves the target [tg] and has done [ev]: if the request fails, so
    does the process. *)
Definition ends {A} (a : A) (step : bool) (s : gdbserver.t) (tg : target) (ev : list event)
    (rest : list Z) (o : outcome (A * gdbserver.t * list event)) : Prop :=
  if hd true (t_requests tg) then
    ∃ s', o = Done (a, s', ev ++ [DebugChar plus; VcpuStep step]) ∧
      idle s' ∧ view s' = resumed tg ∧ guest_debug s' = set_step step (guest_debug s) ∧
      input s' = rest
  else o = Halt (ExitProcess 1).

(** What comes before the end of the session. *)
Lemma ends_after {A} (a : A) step s s1 tg ev ev0 rest
    (o o' : outcome (A * gdbserver.t * list event)) :
  ends a step s1 tg ev rest o → guest_debug s1 = guest_debug s →
  o' = match o with Done (a, s', ev') => Done (a, s', ev0 ++ ev') | Halt h => Halt h end →
  ends a step s tg (ev0 ++ ev) rest o'.
Proof.
  unfold ends. intros Ho Hg ->. destruct (hd true (t_requests tg)); [|by rewrite Ho].
  destruct Ho as (s' & -> & Hs' & Hv & Hd & Hin). exists s'.
  rewrite <- app_assoc. by rewrite <- Hg.
Qed.

Lemma step_run step s :
  kvm_debug_set_step step s =
  if hd true (requests s)
  then Done (tt, s <| guest_debug := set_step step (guest_debug s) |>
                   <| requests := tail (requests s) |>, [VcpuStep step])
  else Halt (ExitProcess 1).
Proof.
  unfold kvm_debug_set_step, set_guest_debug, ioctl. erewrite bind_quiet by reflexivity.
  rewrite !bind_assoc. erewrite bind_quiet by reflexivity.
  rewrite !bind_assoc. erewrite bind_quiet by reflexivity.
  destruct s as [inp ib ob rd rs ext m gd rq]. cbn [requests upd eta_t].
  by destruct (hd true rq).
Qed.

(** So is it asked for the breakpoints. *)
Lemma enable_run s :
  hd true (requests s) = true →
  kvm_enable_guest_debug s =
  Done (tt, s <| guest_debug := breakpoints (guest_debug s) |>
              <| requests := tail (requests s) |>, []).
Proof.
  intros H. unfold kvm_enable_guest_debug, set_guest_debug, ioctl.
  erewrite bind_quiet by reflexivity. rewrite !bind_assoc. erewrite bind_quiet by reflexivity.
  rewrite !bind_assoc. erewrite bind_quiet by reflexivity.
  destruct s as [inp ib ob rd rs ext m gd rq]. cbn [requests upd eta_t] in *. by rewrite H.
Qed.

Lemma resume_run sigval step s rest :
  idle s → input s = frame (resume step) ++ rest →
  ends Resume step s (view s) [] rest (handle_packet sigval s).
Proof.
  intros [Hs Hm H2] Hin. set (s0 := s <| remcomOutBuffer := list_inserts 0 [0] (remcomOutBuffer s) |>).
  assert (received (resume step) (remcomInBuffer s) !! 2%nat ≠ Some colon) as Hthird.
  { unfold received. rewrite list_lookup_inserts_ge; [done|]. destruct step; cbn; lia. }
  assert (getpacket s0 = Done (0, opened s (resume step) rest, [DebugChar plus])) as Hget.
  { apply (getpacket_run s0 [] (resume step) rest); try done.
    - destruct step; plain_chars.
    - destruct step; cbn; lia.
    - apply Hs. }
  set (s1 := opened s (resume step) rest).
  assert (handle_command sigval 0 s1 = (kvm_debug_set_step step;; mret Resume) s1) as Hcmd.
  { unfold s1. destruct step; cbn [resume]; command Hs Hat rest; done. }
  unfold ends, handle_packet.
  erewrite bind_quiet by (apply out_put_run; [apply Hs|lia|cbn; lia]). fold s0.
  erewrite bind_done by exact Hget. fold s1.
  assert (handle_command sigval 0 s1 =
    if hd true (t_requests (view s))
    then Done (Resume, s1 <| guest_debug := set_step step (guest_debug s) |>
                          <| requests := tail (requests s) |>, [VcpuStep step])
    else Halt (ExitProcess 1)) as Hrun.
  { rewrite Hcmd. unfold mbind, io_bind. rewrite step_run. cbn [s1 opened upd eta_t requests].
    change (requests s1) with (t_requests (view s)). by destruct (hd true _). }
  destruct (hd true (t_requests (view s))); [|by erewrite bind_halt by exact Hrun].
  eexists. split; [by erewrite bind_done by exact Hrun|]. split; [|done]. split; [split| |]; cbn;
    [by rewrite length_received, (wf_in s Hs)|by rewrite length_insert, (wf_out s Hs)
    |apply Hs|done..].
Qed.

Lemma session_run sigval qs step s rest fuel :
  idle s → 0 ≤ sigval < 256 → all_valid qs (view s) → (length qs < fuel)%nat →
  input s = conversation qs ++ frame (resume step) ++ rest →
  ends tt step s (final qs (view s)) (trace sigval qs (view s)) rest
    (command_loop fuel sigval s).
Proof.
  revert s fuel. induction qs as [|q qs IH]; intros s fuel Hs Hsig Hv Hf Hin;
    (destruct fuel as [|fuel]; [cbn in Hf; lia|]); cbn [command_loop].
  - pose proof (resume_run sigval step s rest Hs Hin) as Hrun. unfold ends in *. cbn [final trace].
    destruct (hd true (t_requests (view s))); [|by erewrite bind_halt by exact Hrun].
    destruct Hrun as (s' & Hrun & Hs'). exists s'. split; [|exact Hs'].
    by erewrite bind_done by exact Hrun.
  - cbn [conversation] in Hin. rewrite <- app_assoc in Hin. cbn [app] in Hin.
    destruct Hv as [Hq Hv].
    destruct (request_run sigval q s _ Hs Hsig Hq Hin) as (s1 & Hrun & Hs1 & Hview & Hd & Hin1).
    pose proof (IH s1 fuel Hs1 Hsig) as Hrest. rewrite Hview in Hrest.
    cbn [final trace]. eapply (ends_after tt); [apply Hrest; [done|cbn in Hf; lia|done]|done|].
    erewrite bind_done by exact Hrun. reflexivity.
Qed.

(** The notification that the program stopped. *)
Definition stopped (sigval : Z) (naks : list Z) (rs : list Z) : list event :=
  map DebugChar (concat (replicate (S (length naks)) (frame (stop_reply sigval rs)))).

Lemma stop_reply_run sigval rs :
  0 ≤ sigval < 256 → Forall plain (stop_reply sigval rs) ∧ length (stop_reply sigval rs) = 61%nat.
Proof.
  intros Hsig. unfold stop_reply. rewrite !Forall_app, !length_app, !hex_bytes_length.
  unfold register. rewrite !length_le_bytes. split; [|reflexivity].
  assert (0 ≤ Z.shiftr sigval 4 < 16) by (rewrite Z.shiftr_div_pow2 by lia; width_lia).
  assert (0 ≤ Z.land sigval 0xf < 16).
  { change 0xf with (Z.ones 4). rewrite Z.land_ones by lia. apply Z.mod_pos_bound. lia. }
  split_and!; try (apply hex_bytes_plain, le_bytes_u8); [|plain_chars..].
  apply Forall_cons_2; [plain_char|].
  repeat (apply Forall_cons_2; [by apply hexchar_plain|]). by apply Forall_nil_2.
Qed.

Lemma exception_run sigval naks qs step s rest :
  idle s → 0 ≤ sigval < 256 → (sigval =? SIGILL) || (sigval =? SIGTERM) = false →
  Forall (λ c, c ≠ plus) naks → all_valid qs (view s) →
  input s = naks ++ plus :: conversation qs ++ frame (resume step) ++ rest →
  ends tt step s (final qs (view s)) (stopped sigval naks (registers s) ++ trace sigval qs (view s))
    rest (gdbserver_handle_exception sigval s).
Proof.
  intros Hs Hsig Hend Hn Hv Hin. destruct (stop_reply_run sigval (registers s) Hsig) as [Hp Hl].
  pose proof (idle_wf s Hs) as Hwf.
  destruct (out_put_answer s (stop_reply sigval (registers s))) as (buf & Hb & Hc & Hput);
    [apply Hwf|done|lia|].
  set (s1 := s <| remcomOutBuffer := buf |>) in Hput.
  pose proof (putpacket_run s1 _ naks _ Hc Hin Hn) as Hput'.
  set (s2 := s1 <| input := conversation qs ++ frame (resume step) ++ rest |>) in Hput'.
  assert (idle s2) as Hs2.
  { destruct Hs as [Hw Hm H2]. by split; [split; [apply Hw|done|apply Hw]|..]. }
  assert (length qs < S (length (input s2)))%nat as Hfuel.
  { change (input s2) with (conversation qs ++ frame (resume step) ++ rest).
    rewrite length_app. assert (length qs ≤ length (conversation qs))%nat; [|lia].
    clear. induction qs as [|q qs IH]; [done|]. cbn [conversation length].
    rewrite length_app. cbn [length]. lia. }
  eapply (ends_after tt); [by apply (session_run sigval qs step s2 rest _ Hs2 Hsig Hv Hfuel)|done|].
  unfold gdbserver_handle_exception. rewrite Hend.
  erewrite bind_quiet by reflexivity. erewrite bind_quiet by exact Hput.
  erewrite bind_done by exact Hput'. by erewrite bind_quiet by reflexivity.
Qed.

(** ** The machine at a breakpoint *)

(** The target that the stub presents for the registers of the virtual CPU. *)
Definition presented (r : kvm.kvm_regs) (sr : kvm.kvm_sregs) (pc : Z) (s : gdbserver.t)
    : target :=
  mk_target (kvm.cached r sr pc) (kvm.cached_extended sr) (memory s) (remote_debug s) (requests s).

(** The stub with these registers in its caches. *)
Definition caching (r : kvm.kvm_regs) (sr : kvm.kvm_sregs) (pc : Z) (s : gdbserver.t)
    : gdbserver.t :=
  gdbserver.mk (input s) (remcomInBuffer s) (remcomOutBuffer s) (remote_debug s)
    (kvm.cached r sr pc) (kvm.cached_extended sr) (memory s) (guest_debug s) (requests s).

Lemma caching_idle r sr pc s : idle s → idle (caching r sr pc s).
Proof. intros [[H1 H2 _] Hm H3]. by split; [split|..]. Qed.

#[local] Existing Instance kvm.eta_t.

(** The first session, before the virtual CPU runs: the request for the breakpoints comes
    before it. *)
Lemma attach_run m r sr naks qs step rest :
  idle (kvm.gdb m) → length (extended_registers (kvm.gdb m)) = 5%nat →
  hd true (requests (kvm.gdb m)) = true → Forall (λ c, c ≠ plus) naks →
  let s0 := (kvm.gdb m) <| guest_debug := breakpoints (guest_debug (kvm.gdb m)) |>
                        <| requests := tail (requests (kvm.gdb m)) |> in
  let tg := presented r sr (kvm.rip r) s0 in
  all_valid qs tg →
  input (kvm.gdb m) = naks ++ plus :: conversation qs ++ frame (resume step) ++ rest →
  if hd true (t_requests (final qs tg)) then
    ∃ s', kvm.start_debugger true true (Some r) (Some sr) m =
        Done (tt, m <| kvm.debug_mode := true |> <| kvm.gdb := s' |>,
          (stopped SIGTRAP naks (t_registers tg) ++ trace SIGTRAP qs tg) ++
          [DebugChar plus; VcpuStep step]) ∧
      idle s' ∧ view s' = resumed (final qs tg) ∧
      guest_debug s' = set_step step (breakpoints (guest_debug (kvm.gdb m))) ∧ input s' = rest
  else kvm.start_debugger true true (Some r) (Some sr) m = Halt (ExitProcess 1).
Proof.
  intros Hidle Hext Hreq Hnaks s0 tg Hvalid Hin.
  assert (idle s0) as Hs0 by (destruct Hidle as [[H1 H2 H4] Hm H3]; by split; [split|..]).
  pose proof (exception_run SIGTRAP naks qs step (caching r sr (kvm.rip r) s0) rest
    (caching_idle _ _ _ _ Hs0) ltac:(unfold SIGTRAP; lia) eq_refl Hnaks Hvalid Hin) as Hrun.
  unfold kvm.start_debugger. cbn [when]. erewrite bind_quiet by reflexivity.
  set (m1 := m <| kvm.debug_mode := true |>).
  assert (kvm.on_gdb kvm_enable_guest_debug m1 = Done (tt, m1 <| kvm.gdb := s0 |>, [])) as Henable.
  { erewrite kvm.on_gdb_run; [reflexivity|]. change (kvm.gdb m1) with (kvm.gdb m).
    by apply enable_run. }
  erewrite bind_quiet by exact Henable. set (m2 := m1 <| kvm.gdb := s0 |>).
  assert (kvm.on_gdb (kvm.gdb_submit_registers (Some r) (Some sr)) m2 =
    Done (tt, m2 <| kvm.gdb := caching r sr (kvm.rip r) s0 |>, [])) as Hsub.
  { erewrite kvm.on_gdb_run; [reflexivity|]. apply kvm.submit_run; [apply Hs0|done]. }
  erewrite bind_quiet by exact Hsub. unfold ends in Hrun. unfold gdbserver_start.
  change (registers (caching r sr (kvm.rip r) s0)) with (t_registers tg) in Hrun.
  change (final qs (view (caching r sr (kvm.rip r) s0))) with (final qs tg) in Hrun.
  destruct (hd true (t_requests (final qs tg))).
  - destruct Hrun as (s' & Hrun & Hs' & Hv & Hd & Hi). exists s'. split; [|done].
    by erewrite kvm.on_gdb_run by exact Hrun.
  - by apply kvm.on_gdb_halt.
Qed.

(** C4. A stop at a breakpoint refines the abstract target, when the stub is between two
    packets, with no colon at the third place of its buffer, and KVM gives the registers of
    the virtual CPU: the debugger is told them, every sequence of valid requests, those that
    the buffers and the memory can hold, of the ten kinds of the protocol and the
    unsupported ones, is acknowledged, performed and answered exactly as the target does; a
    request that sets registers gives the virtual CPU the 18 general ones of the 24 if both
    of its requests to KVM succeed, and none otherwise, and is answered OK in either case;
    then the guest goes on by a step or freely, as the control word that KVM is given says,
    with the rest of the machine untouched, or the process ends with 1 if KVM refuses that
    word. *)
Theorem breakpoint_session (m : kvm.t) (pc : Z) (r : kvm.kvm_regs) (sr : kvm.kvm_sregs)
    (tr : kvm.trace_requests) (naks : list Z) (qs : list request) (step : bool) (rest : list Z)
    (Hdebug : kvm.debug_mode m = true) (Hidle : idle (kvm.gdb m))
    (Hext : length (extended_registers (kvm.gdb m)) = 5%nat)
    (Hnaks : Forall (λ c, c ≠ plus) naks)
    (Hvalid : all_valid qs (presented r sr pc (kvm.gdb m)))
    (Hin : input (kvm.gdb m) = naks ++ plus :: conversation qs ++ frame (resume step) ++ rest) :
  let tg := presented r sr pc (kvm.gdb m) in
  if hd true (t_requests (final qs tg)) then
    ∃ s', kvm.handle_exit (kvm.ExitDebug pc (Some r) (Some sr) tr) m =
        Done (kvm.Continue [], m <| kvm.gdb := s' |>,
          (stopped SIGTRAP naks (t_registers tg) ++ trace SIGTRAP qs tg) ++
          [DebugChar plus; VcpuStep step]) ∧
      idle s' ∧ view s' = resumed (final qs tg) ∧
      guest_debug s' = set_step step (guest_debug (kvm.gdb m)) ∧ input s' = rest
  else kvm.handle_exit (kvm.ExitDebug pc (Some r) (Some sr) tr) m = Halt (ExitProcess 1).
Proof.
  intros tg. set (s := kvm.gdb m) in *. set (s1 := caching r sr pc s).
  pose proof (exception_run SIGTRAP naks qs step s1 rest (caching_idle _ _ _ _ Hidle)
    ltac:(unfold SIGTRAP; lia) eq_refl Hnaks Hvalid Hin) as Hrun.
  assert (kvm.kvm_handle_debug_exit (Some r) (Some sr) pc s =
          gdbserver_handle_exception SIGTRAP s1) as Hexit.
  { unfold kvm.kvm_handle_debug_exit. erewrite bind_quiet.
    2: { apply kvm.submit_run; [apply Hidle|done]. }
    by erewrite bind_quiet by reflexivity. }
  cbn [kvm.handle_exit]. erewrite bind_quiet by reflexivity. rewrite Hdebug. cbn [negb].
  unfold ends in Hrun. change (registers s1) with (t_registers tg) in Hrun.
  change (final qs (view s1)) with (final qs tg) in Hrun. rewrite <- Hexit in Hrun.
  destruct (hd true (t_requests (final qs tg))).
  - destruct Hrun as (s' & Hrun & Hs' & Hv & Hd & Hi). exists s'. split; [|done].
    erewrite bind_done by (apply kvm.on_gdb_run; exact Hrun).
    unfold mret, io_ret. by rewrite app_nil_r.
  - by erewrite bind_halt by (apply kvm.on_gdb_halt; exact Hrun).
Qed.

(** ** Witness *)

Definition regs0 : kvm.kvm_regs := kvm.mk_regs 1 2 3 4 5 6 0x9000 8 9 10 11 12 13 14 15 16 0x1000 2.
Definition sregs0 : kvm.kvm_sregs := kvm.mk_sregs 8 16 16 16 16 16 17 0 0x1000 0x20 0x500.

(** The debugger asks why the program stopped, reads the registers and the privileged ones,
    changes a register and the memory, reads it back, and asks for what the stub does not
    have. *)
Definition requests0 : list request :=
  [Unsupported (chars "qSupported"); Why; GetRegisters; Monitor; SetRegister 1 0 0xdeadbeef;
   WriteMemory 6 0x200000 1 [0xcc; 0x90]; ReadMemory 6 0x200000 1 4; GetRegister 1 0;
   GetRegister 2 0x30].

Lemma number_dec n x :
  bool_decide ((1 ≤ n)%nat ∧ 0 ≤ x < 16 ^ Z.of_nat n ∧ x < 2147483648) = true → number n x.
Proof. intros H. by apply bool_decide_eq_true in H. Qed.

Lemma requests0_valid rs ps m b rq :
  0x200004 ≤ msize m → all_valid requests0 (mk_target rs ps m b rq).
Proof.
  intros Hm. unfold requests0. cbn [all_valid valid effect t_memory]. split_and!; try done;
    try (apply number_dec; vm_compute; reflexivity); try (cbn; lia).
  - plain_chars.
  - intros [l H]. discriminate.
  - apply (bool_decide_unpack _). vm_compute. exact I.
  - apply (bool_decide_unpack _). vm_compute. exact I.
  - change (0x200002 ≤ msize m). lia.
Qed.

Definition debugger0 (qs : list request) : list Z :=
  minus :: plus :: conversation qs ++ frame (resume false) ++ [plus].

Definition machine1 : kvm.t :=
  kvm.power_on (serial_port.init 0) HardDisk.hdd4
    (gdbserver.init (debugger0 requests0) (mk_mem 0x800000 (λ _, 0)) []) true.

Lemma breakpoint_session_witness :
  ∃ m' ev, kvm.handle_exit (kvm.ExitDebug 0x1234 (Some regs0) (Some sregs0) (kvm.mk_trace true true true))
      machine1 = Done (kvm.Continue [], m', ev) ∧
    mget (memory (kvm.gdb m')) 0x200000 = 0xcc ∧
    nth 0 (registers (kvm.gdb m')) 0 = 0xdeadbeef ∧ input (kvm.gdb m') = [plus].
Proof.
  destruct (breakpoint_session machine1 0x1234 regs0 sregs0 (kvm.mk_trace true true true) [minus]
    requests0 false [plus]) as (s' & Hrun & _ & Hview & _ & Hin).
  - reflexivity.
  - split; [split; reflexivity|split; [vm_compute; congruence|intros a; vm_compute; intuition congruence]|done].
  - reflexivity.
  - constructor; [done|constructor].
  - apply requests0_valid. vm_compute. congruence.
  - reflexivity.
  - do 2 eexists. split; [exact Hrun|].
    change (memory (kvm.gdb _)) with (t_memory (view s')).
    change (registers (kvm.gdb _)) with (t_registers (view s')).
    rewrite Hview. split; [vm_compute; reflexivity|]. split; [vm_compute; reflexivity|exact Hin].
Defined.

End debugging.
