(* ===== verification/Supervisor.v ===== *)
(** * The whole program (kvm.cpp)

The composition of [main]: the global objects are constructed, the start of Startup.v
leaves the virtual CPU ready, the debugger is attached if the configuration asks for it,
the devices start, and the exit loop of Machine.v serves what the virtual CPU reports
until it returns. *)

From S2P Require Import Prelude DiskManager HardDisk SerialPort PciHost GdbServer Elf Bootloader.
From S2P Require Import IniReader ConsoleInput Machine Startup Debugging.
Import kvm debugging.

Module supervisor.

(** What the program finds: the host and the files of [main], the uninitialised values
    that it reads, and the debugger. *)
Record world : Type := mk_world {
  host : startup.host;
  interpreters : Elf.lista;
  garbage : Z → Z;                  (* the memory that is allocated *)
  disk_garbage : list Z;            (* the block that builds a disk image *)
  disk_file : option (list Z);
  uninitialised : Z * Z * Z * Z;    (* the members of the PCI bridge *)
  no_port : serial_port.t;          (* before the serial ports exist *)
  kvm_requests : list bool;         (* the results of the debugger's requests to KVM *)
  gdb_socket : list Z → Z → bool;   (* whether the stub can listen, at an address and a port *)
  vcpu_regs : option kvm_regs;
  vcpu_sregs : option kvm_sregs;
  debugger : list Z;                (* the characters the debugger sends *)
}.

(** The debugger, as the configuration has it. *)
Definition gdb_enable (w : world) : bool := startup.gdb_enable (host w).
Definition listening (w : world) : bool :=
  gdb_socket w (startup.gdb_address (host w)) (startup.gdb_port (host w)).

(** The global objects: [hdd] is a disk of four blocks. *)
Definition global_hdd (w : world) : outcome HardDisk.t :=
  HardDisk.init (disk_garbage w) 4 (disk_file w).

(** From the boot loader to the end of [main]. *)
Definition start_machine (w : world) (es : list kvm_exit) : io kvm.t (option Z) :=
  let '(dev, nbus, fn, off) := uninitialised w in
  start_debugger (gdb_enable w) (listening w) (vcpu_regs w) (vcpu_sregs w);;
  initIO dev nbus fn off;;
  exit_loop es.

(** The machine that the boot loader leaves. *)
Definition booted (w : world) (hdd : HardDisk.t) (m : mem) : kvm.t :=
  power_on (no_port w) hdd (gdbserver.init (debugger w) m (kvm_requests w)) false.

(** The code that [main] returns, if it does, and the machine, if it was started. *)
Definition supervise (w : world) (es : list kvm_exit)
    : outcome (option Z * option kvm.t * list event) :=
  match global_hdd w with
  | Halt h => Halt h
  | Done hdd =>
      match startup.main (host w) (interpreters w) (garbage w) with
      | Halt h => Halt h
      | Done (inl code, _, ev) => Done (Some code, None, ev)
      | Done (inr _, m, ev) =>
          match start_machine w es (booted w hdd m) with
          | Halt h => Halt h
          | Done (code, k, ev') => Done (code, Some k, ev ++ ev')
          end
      end
  end.

(** ** The exit loop *)

Lemma exit_loop_io xs es m pages m' ev :
  run handle_io xs m = Done (pages, m', ev) →
  exit_loop (map ExitIo xs ++ es) m =
    match exit_loop es m' with
    | Done (r, m'', ev') => Done (r, m'', ev ++ ev')
    | Halt h => Halt h
    end.
Proof.
  revert m pages m' ev. induction xs as [|x xs IH]; intros m pages m' ev.
  { intros [= <- <- <-]. cbn [map app]. by destruct (exit_loop es m) as [[[r m2] ev2]|]. }
  rewrite run_cons. destruct (handle_io x m) as [[[page m1] ev1]|] eqn:Hx; [|done].
  destruct (run handle_io xs m1) as [[[pgs m2] ev2]|] eqn:Hrun; [|done]. intros [= <- <- <-].
  cbn [map app exit_loop handle_exit]. unfold mbind, io_bind. rewrite Hx. cbn [mret io_ret].
  rewrite (IH m1 pgs m2 ev2 Hrun). destruct (exit_loop es m2) as [[[r m3] ev3]|]; [|done].
  by rewrite app_nil_r, <- app_assoc.
Qed.

Lemma exit_loop_fault xs x es m pages m1 ev h :
  run handle_io xs m = Done (pages, m1, ev) → handle_io x m1 = Halt h →
  exit_loop (map ExitIo (xs ++ [x]) ++ es) m = Halt h.
Proof.
  intros Hrun Hx. rewrite map_app, <- app_assoc. rewrite (exit_loop_io _ _ _ _ _ _ Hrun).
  cbn [map app exit_loop handle_exit]. unfold mbind, io_bind. by rewrite Hx.
Qed.

(** Served without a fault, or up to the access that faults in the disk. *)
Record served (n : Z) (m : kvm.t) (xs : list io_exit) (m' : kvm.t) : Prop := {
  served_run : ∃ pages ev, run handle_io xs m = Done (pages, m', ev);
  served_wf : wf n m';
  served_gdb : gdb m' = gdb m;
  served_debug : debug_mode m' = debug_mode m;
}.

Record faulted (n : Z) (m : kvm.t) (xs : list io_exit) (h : halt) : Prop := {
  faulted_at : ∃ ys y zs m1, xs = ys ++ y :: zs ∧ served n m ys m1 ∧ disk_fault m1 y = Some h ∧
                             handle_io y m1 = Halt h;
}.

Lemma serve n xs m :
  wf n m → Forall valid_io xs →
  (∃ m', served n m xs m') ∨ (∃ h, faulted n m xs h).
Proof.
  intros Hm Hxs. revert m Hm. induction Hxs as [|x xs Hx _ IH]; intros m Hm.
  { left. exists m. split; [by do 2 eexists|done..]. }
  pose proof (io_total n m x Hm Hx) as Ht.
  destruct (disk_fault m x) as [h|] eqn:Hf.
  { right. exists h. split. exists [], x, xs, m. split_and!; [done| |done..].
    split; [by do 2 eexists|done..]. }
  destruct Ht as (page & m1 & ev & Hrun & Hm1 & _).
  destruct (handle_io_frame m x page m1 ev Hrun) as [Hg Hd].
  assert (∀ ys m', served n m1 ys m' → served n m (x :: ys) m') as Hcons.
  { intros ys m' [(pages & ev' & Hr) Hw Hg' Hd']. split; [|done|congruence|congruence].
    exists (page :: pages), (ev ++ ev'). by rewrite run_cons, Hrun, Hr. }
  destruct (IH m1 Hm1) as [[m' Hs]|[h [(ys & y & zs & m2 & -> & Hs & Hfy & Hy)]]].
  - left. exists m'. by apply Hcons.
  - right. exists h. split. exists (x :: ys), y, zs, m2. split_and!; [done|by apply Hcons|done..].
Qed.

(** ** From the power on to the end *)

Lemma global_hdd_run w :
  length (disk_garbage w) = 512%nat →
  ∃ d, global_hdd w = Done d ∧ HardDisk.wf 4 d.
Proof.
  intros Hg. unfold global_hdd, HardDisk.init.
  destruct (DiskManager.init_total (disk_garbage w) 4 (disk_file w) ltac:(lia) Hg)
    as (dm & -> & Hwf & _).
  exists (HardDisk.make 4 dm). split; [done|]. by apply HardDisk.make_wf.
Qed.

(** The accesses that follow the first one, up to the halt of the virtual CPU: what is left
    is to tell the debugger. *)
Lemma run_to_halt n m xs rest :
  wf n m → Forall valid_io xs →
  (∃ m' pages ev, served n m xs m' ∧ run handle_io xs m = Done (pages, m', ev) ∧
     exit_loop (map ExitIo xs ++ ExitHlt :: rest) m =
       match tell_gdb gdbserver.SIGTERM m' with
       | Done (_, m'', ev') => Done (Some 1, m'', ev ++ ev')
       | Halt h => Halt h
       end) ∨
  (∃ h, exit_loop (map ExitIo xs ++ ExitHlt :: rest) m = Halt h ∧ faulted n m xs h).
Proof.
  intros Hm Hxs. destruct (serve n xs m Hm Hxs) as [[m' Hs]|[h Hf]].
  - left. destruct (served_run _ _ _ _ Hs) as (pages & ev & Hrun). exists m', pages, ev.
    split; [done|]. split; [done|]. rewrite (exit_loop_io _ _ _ _ _ _ Hrun).
    cbn [exit_loop handle_exit]. unfold mbind, io_bind.
    destruct (tell_gdb gdbserver.SIGTERM m') as [[[u m''] ev']|]; [|done].
    unfold mret, io_ret. by rewrite !app_nil_r.
  - right. exists h. split; [|done].
    destruct (faulted_at _ _ _ _ Hf) as (ys & y & zs & m1 & -> & Hs & _ & Hy).
    destruct (served_run _ _ _ _ Hs) as (pages & ev & Hrun).
    replace (ys ++ y :: zs) with ((ys ++ [y]) ++ zs) by by rewrite <- app_assoc.
    rewrite map_app, <- app_assoc. by eapply exit_loop_fault.
Qed.

Lemma tell_no_gdb sig m : debug_mode m = false → tell_gdb sig m = Done (tt, m, []).
Proof. intros H. unfold tell_gdb. erewrite bind_quiet by reflexivity. by rewrite H. Qed.

(** The devices start, and the guest makes its first access. *)
Lemma start_devices d g debug dev nbus fn off x es :
  HardDisk.wf 4 d → address_write x →
  ∃ m1 : kvm.t, wf 4 m1 ∧ gdb m1 = g ∧ hdd m1 = d ∧ debug_mode m1 = debug ∧
    ∀ c, (initIO dev nbus fn off;; exit_loop (ExitIo x :: es)) (power_on c d g debug) =
         exit_loop es m1.
Proof.
  intros Hd Hx. destruct (first_address_write 4 d g debug dev nbus fn off x Hd Hx)
    as (b & Hrun & Hwf).
  eexists. split; [exact Hwf|]. split_and!; [done..|]. intros c.
  erewrite bind_quiet by apply initIO_run. cbn [exit_loop handle_exit].
  by erewrite bind_quiet by (erewrite bind_quiet by exact Hrun; reflexivity).
Qed.

(** The part of [main] after the boot loader, without a debugger. *)
Lemma start_machine_run w d m x es :
  gdb_enable w = false → HardDisk.wf 4 d → address_write x →
  ∃ m1 : kvm.t, wf 4 m1 ∧ gdb m1 = gdbserver.init (debugger w) m (kvm_requests w) ∧ hdd m1 = d ∧
    debug_mode m1 = false ∧
    start_machine w (ExitIo x :: es) (booted w d m) = exit_loop es m1.
Proof.
  intros Hg Hd Hx. unfold start_machine. destruct (uninitialised w) as [[[dev nbus] fn] off].
  destruct (start_devices d (gdbserver.init (debugger w) m (kvm_requests w)) false dev nbus fn off
    x es Hd Hx) as (m1 & Hwf & H1 & H2 & H3 & Hrun).
  exists m1. split_and!; [done..|]. rewrite Hg. unfold start_debugger. cbn [when].
  erewrite bind_quiet by reflexivity. exact (Hrun (no_port w)).
Qed.

(** The target of the first session: the registers of the virtual CPU, the memory, and the
    requests that follow the one for the breakpoints. *)
Definition first_target (w : world) (r : kvm_regs) (sr : kvm_sregs) (m : mem) : target :=
  mk_target (cached r sr (rip r)) (cached_extended sr) m false (tail (kvm_requests w)).

(** What the first session does. *)
Definition first_session (naks : list Z) (qs : list request) (step : bool) (tg : target)
    : list event :=
  (stopped gdbserver.SIGTRAP naks (t_registers tg) ++ trace gdbserver.SIGTRAP qs tg) ++
  [DebugChar gdbserver.plus; VcpuStep step].

(** With a debugger: the session comes first, and it ends the process if the request for a
    step fails. *)
Lemma start_machine_debugged w d m x es r sr naks qs step rest :
  gdb_enable w = true → hd true (kvm_requests w) = true → listening w = true →
  vcpu_regs w = Some r → vcpu_sregs w = Some sr → mem_wf m →
  HardDisk.wf 4 d → address_write x → Forall (λ c, c ≠ gdbserver.plus) naks →
  let tg := first_target w r sr m in
  all_valid qs tg →
  debugger w = naks ++ gdbserver.plus :: conversation qs ++ gdbserver.frame (resume step) ++ rest →
  if hd true (t_requests (final qs tg)) then
    ∃ m1 : kvm.t, wf 4 m1 ∧ idle (gdb m1) ∧ view (gdb m1) = resumed (final qs tg) ∧
      gdbserver.input (gdb m1) = rest ∧ hdd m1 = d ∧ debug_mode m1 = true ∧
      gdbserver.guest_debug (gdb m1) =
        gdbserver.set_step step (gdbserver.breakpoints gdbserver.guest_debug0) ∧
      start_machine w (ExitIo x :: es) (booted w d m) =
        match exit_loop es m1 with
        | Done (code, m', ev) => Done (code, m', first_session naks qs step tg ++ ev)
        | Halt h => Halt h
        end
  else start_machine w (ExitIo x :: es) (booted w d m) = Halt (ExitProcess 1).
Proof.
  intros Hg Hok Hl Hr Hsr Hm Hd Hx Hn tg Hv Hin.
  assert (idle (gdb (booted w d m))) as Hidle by by split; [split|..].
  pose proof (attach_run (booted w d m) r sr naks qs step rest Hidle eq_refl Hok Hn Hv Hin) as Hrun.
  unfold start_machine. destruct (uninitialised w) as [[[dev nbus] fn] off].
  rewrite Hg, Hl, Hr, Hsr. cbv zeta in Hrun.
  match type of Hrun with if ?b then _ else _ =>
    change b with (hd true (t_requests (final qs tg))) in Hrun end.
  destruct (hd true (t_requests (final qs tg))); [|by erewrite bind_halt by exact Hrun].
  destruct Hrun as (s' & Hrun & Hs' & Hview & Hstep & Hrest).
  destruct (start_devices d s' true dev nbus fn off x es Hd Hx)
    as (m1 & Hwf & H1 & H2 & H3 & Hdev).
  exists m1. rewrite H1. split_and!; [done..|].
  erewrite bind_done by exact Hrun.
  match goal with |- match ?p ?k with _ => _ end = _ =>
    change k with (power_on (no_port w) d s' true) end.
  by rewrite Hdev.
Qed.

(** A world in which the program starts: the host grants every request, and both
    executables are well formed. *)
Record bootable (w : world) (file boot : list Z) (F F' : Elf.format) (e e' : Elf.eseguibile)
    : Prop := {
  bt_host : startup.all_succeed (host w);
  bt_file : startup.elf_file (host w) = Some file;
  bt_boot : startup.boot64 (host w) = Some boot;
  bt_program : startup.executable (interpreters w) file F e;
  bt_loader : startup.executable (interpreters w) boot F' e';
  bt_garbage : ∀ a, is_u8 (garbage w a);
  bt_disk : length (disk_garbage w) = 512%nat;
}.

(** The size of the guest's memory, and what the loader puts in it. *)
Definition memory_size (w : world) : Z := kvm.guest_memory_size (startup.memsize (host w)).
Definition program_memory (w : world) (file : list Z) (F : Elf.format) (e : Elf.eseguibile) : mem :=
  startup.loaded file F e (memory_size w) (mk_mem (memory_size w) (garbage w)).

Lemma boot_memory w file boot F F' e e' :
  bootable w file boot F F' e e' →
  ∃ m, (mem_wf m ∧ msize m = memory_size w ∧
      ∀ a, 0x80000 ≤ a → mget m a = mget (program_memory w file F e) a) ∧
    ∀ d es, global_hdd w = Done d → supervise w es =
      match start_machine w es (booted w d m) with
      | Halt h => Halt h
      | Done (code, k, ev) => Done (code, Some k, ev)
      end.
Proof.
  intros [Hall Hfile Hboot Hex Hex' Hgarbage Hdisk].
  destruct (startup.start_run (host w) (interpreters w) file boot F F' e e' (garbage w)
    Hall Hfile Hboot Hex Hex' Hgarbage) as (sregs & m & Hmain & _ & _ & Hm & Hwf & Hs & _).
  exists m. split; [done|]. intros d es Hhdd. unfold supervise. by rewrite Hhdd, Hmain.
Qed.

Lemma boot_run w file boot F F' e e' es :
  bootable w file boot F F' e e' →
  ∃ d m, HardDisk.wf 4 d ∧
    mem_wf m ∧ msize m = memory_size w ∧
    (∀ a, 0x80000 ≤ a → mget m a = mget (program_memory w file F e) a) ∧
    supervise w es =
      match start_machine w es (booted w d m) with
      | Halt h => Halt h
      | Done (code, k, ev) => Done (code, Some k, ev)
      end.
Proof.
  intros Hw. destruct (boot_memory w file boot F F' e e' Hw) as (m & (Hwf & Hs & Hm) & Hsup).
  destruct (global_hdd_run w (bt_disk _ _ _ _ _ _ _ Hw)) as (d & Hhdd & Hd).
  exists d, m. split_and!; [done..|]. by apply Hsup.
Qed.

(** C1. The whole program without a debugger, from the command line to the end of [main]:
    when the host grants the requests and both executables are well formed, a guest that
    first writes the PCI address register, then makes any valid accesses and halts, is
    served to the end by a well-formed machine with its program in memory, and [main]
    returns 1; the only other end is the fault of the disk that [disk_fault] names, at the
    access that meets it. *)
Theorem supervisor_serves (w : world) (file boot : list Z) (F F' : Elf.format)
    (e e' : Elf.eseguibile) (x : io_exit) (xs : list io_exit) (rest : list kvm_exit)
    (Hw : bootable w file boot F F' e e') (Hgdb : gdb_enable w = false)
    (Hx : address_write x) (Hxs : Forall valid_io xs) :
  let es := map ExitIo (x :: xs) ++ ExitHlt :: rest in
  ∃ m1, wf 4 m1 ∧
    (∀ a, 0x80000 ≤ a →
      mget (gdbserver.memory (gdb m1)) a = mget (program_memory w file F e) a) ∧
    ((∃ m' ev, supervise w es = Done (Some 1, Some m', ev) ∧ served 4 m1 xs m') ∨
     (∃ h, supervise w es = Halt h ∧ faulted 4 m1 xs h)).
Proof.
  intros es. destruct (boot_run w file boot F F' e e' es Hw)
    as (d & m & Hd & Hwfm & _ & Hm & Hsup).
  destruct (start_machine_run w d m x (map ExitIo xs ++ ExitHlt :: rest) Hgdb Hd Hx)
    as (m1 & Hwf & Hg & Hh & Hdebug & Hrun).
  exists m1. split; [done|]. split; [by rewrite Hg|].
  change es with (ExitIo x :: map ExitIo xs ++ ExitHlt :: rest) in Hsup |- *.
  rewrite Hsup, Hrun.
  destruct (run_to_halt 4 m1 xs rest Hwf Hxs)
    as [(m' & pages & ev & Hs & _ & ->)|(h & -> & Hf)]; [left|right; eauto].
  rewrite (tell_no_gdb gdbserver.SIGTERM m') by by rewrite (served_debug _ _ _ _ Hs). eauto.
Qed.

(** The end of a debugged program: the exit packet, repeated until it is acknowledged. *)
Definition farewell (naks : list Z) : list event :=
  map DebugChar (concat (replicate (S (length naks)) (gdbserver.frame (chars "X0f")))) ++
  [GdbClosed].

Lemma tell_gdb_run m naks rest :
  debug_mode m = true → idle (gdb m) → Forall (λ c, c ≠ gdbserver.plus) naks →
  gdbserver.input (gdb m) = naks ++ gdbserver.plus :: rest →
  ∃ m', tell_gdb gdbserver.SIGTERM m = Done (tt, m', farewell naks).
Proof.
  intros Hd [[_ Hout _] _ _] Hn Hin.
  destruct (gdbserver.terminates_run (gdb m) naks rest Hout Hin Hn) as (s' & Hrun).
  eexists. unfold tell_gdb. erewrite bind_quiet by reflexivity. rewrite Hd. cbn [when].
  by apply on_gdb_run.
Qed.

(** C5. The whole program with a debugger that reaches the stub, when the host grants the
    requests, that for the breakpoints and those that read the registers included, and both
    executables are well formed: it stops before the guest runs, with the breakpoints
    enabled, and answers any sequence of valid requests as the abstract target does; if KVM
    refuses the step mode that the debugger then asks for the process ends with 1, and else
    the guest starts by a step or freely, first writes the PCI address register, makes any
    valid accesses and halts: it is served to the end, the exit packet is sent until the
    debugger acknowledges it, the connection is closed and [main] returns 1; the only other
    end is the fault of the disk that [disk_fault] names, at the access that meets it. *)
Theorem supervisor_debugged (w : world) (file boot : list Z) (F F' : Elf.format)
    (e e' : Elf.eseguibile) (r : kvm_regs) (sr : kvm_sregs) (naks naks' : list Z)
    (qs : list request) (step : bool) (rest' : list Z)
    (x : io_exit) (xs : list io_exit) (rest : list kvm_exit)
    (Hw : bootable w file boot F F' e e') (Hgdb : gdb_enable w = true)
    (Hok : hd true (kvm_requests w) = true) (Hl : listening w = true)
    (Hr : vcpu_regs w = Some r) (Hsr : vcpu_sregs w = Some sr)
    (Hn : Forall (λ c, c ≠ gdbserver.plus) naks) (Hn' : Forall (λ c, c ≠ gdbserver.plus) naks')
    (Hin : debugger w = naks ++ gdbserver.plus :: conversation qs ++
      gdbserver.frame (resume step) ++ naks' ++ gdbserver.plus :: rest')
    (Hx : address_write x) (Hxs : Forall valid_io xs) :
  let es := map ExitIo (x :: xs) ++ ExitHlt :: rest in
  ∃ m, msize m = memory_size w ∧
    (∀ a, 0x80000 ≤ a → mget m a = mget (program_memory w file F e) a) ∧
    let tg := first_target w r sr m in
    all_valid qs tg →
    if hd true (t_requests (final qs tg)) then
      ∃ m1, wf 4 m1 ∧ view (gdb m1) = resumed (final qs tg) ∧
        gdbserver.guest_debug (gdb m1) =
          gdbserver.set_step step (gdbserver.breakpoints gdbserver.guest_debug0) ∧
        ((∃ m2 m3 pages ev, run handle_io xs m1 = Done (pages, m2, ev) ∧ served 4 m1 xs m2 ∧
           supervise w es = Done (Some 1, Some m3,
             first_session naks qs step tg ++ ev ++ farewell naks')) ∨
         (∃ h, supervise w es = Halt h ∧ faulted 4 m1 xs h))
    else supervise w es = Halt (ExitProcess 1).
Proof.
  intros es. destruct (boot_run w file boot F F' e e' es Hw)
    as (d & m & Hd & Hwfm & Hs & Hm & Hsup).
  exists m. split; [done|]. split; [done|]. intros tg Hv.
  pose proof (start_machine_debugged w d m x (map ExitIo xs ++ ExitHlt :: rest) r sr naks qs step _
    Hgdb Hok Hl Hr Hsr Hwfm Hd Hx Hn Hv Hin) as Hstart. fold tg in Hstart.
  change es with (ExitIo x :: map ExitIo xs ++ ExitHlt :: rest) in Hsup |- *. rewrite Hsup.
  destruct (hd true (t_requests (final qs tg))); [|by rewrite Hstart].
  destruct Hstart as (m1 & Hwf & Hidle & Hview & Hrest & Hh & Hdebug & Hstep & Hrun).
  exists m1. split; [done|]. split; [done|]. split; [done|]. rewrite Hrun.
  destruct (run_to_halt 4 m1 xs rest Hwf Hxs)
    as [(m' & pages & ev & Hsv & Hrun' & ->)|(h & -> & Hf)]; [left|right; eauto].
  pose proof (served_gdb _ _ _ _ Hsv) as Hg.
  destruct (tell_gdb_run m' naks' rest') as (m3 & ->);
    [by rewrite (served_debug _ _ _ _ Hsv)|by rewrite Hg..|done|by rewrite Hg|].
  exists m', m3, pages, ev. done.
Qed.

(** ** Witnesses *)

(** A machine with ten megabytes, without a disk image, with or without a debugger. *)
Definition world0 (gdb : bool) : world :=
  mk_world (startup.host0 (if gdb then "yes" else "no") true) (estrattore.interpreti false) (λ _, 0xff) DiskManager.garbage0 None
    (4000, 1, 2, 3) (serial_port.init 0) [] (λ _ port, port =? 1234) (Some regs0) (Some sregs0)
    (debugger0 requests0).

Lemma world0_bootable gdb :
  bootable (world0 gdb) (estrattore.elf64_file 0x200000 2 4 [0xf4; 0x90]) estrattore.program
    Elf64.elf64 Elf64.elf64 startup.exe0 estrattore.program_exe.
Proof.
  destruct startup.executable0 as [H1 H2].
  destruct gdb; (by split; [repeat split|..]).
Qed.

Definition address0 : io_exit := mk_io KVM_EXIT_IO_OUT 4 0xcf8 1 [0; 0; 0; 0x80].

(** A read of the keyboard's status is never a fault of the disk. *)
Lemma keyboard_read_served m h : ¬ faulted 4 m [in_byte 0x64] h.
Proof.
  intros [(ys & y & zs & m1 & Heq & _ & Hf & _)]. destruct ys as [|y0 ys].
  - injection Heq as <- _. discriminate.
  - injection Heq as _ Heq. by destruct ys.
Qed.

Lemma in_byte_valid p : is_u16 p → valid_io (in_byte p).
Proof. intros Hp. split; [done|cbn; byte_list|by left|cbn; lia]. Qed.

Lemma supervisor_serves_witness :
  ∃ m' ev, supervise (world0 false) [ExitIo address0; ExitIo (in_byte 0x64); ExitHlt; ExitMmio] =
      Done (Some 1, Some m', ev) ∧ wf 4 m' ∧
    mget (gdbserver.memory (gdb m')) 0x200000 = 0xf4.
Proof.
  pose proof (world0_bootable false) as Hw.
  destruct (supervisor_serves (world0 false) _ _ _ _ _ _ address0 [in_byte 0x64] [ExitMmio] Hw
    eq_refl ltac:(done) ltac:(by repeat constructor; apply in_byte_valid))
    as (m1 & _ & Hm & [(m' & ev & Hrun & Hs)|(h & _ & Hf)]); [|destruct (keyboard_read_served _ _ Hf)].
  exists m', ev. split; [exact Hrun|]. split; [apply Hs|].
  rewrite (served_gdb _ _ _ _ Hs), Hm by lia. vm_compute. reflexivity.
Defined.

Lemma supervisor_debugged_witness :
  ∃ m' ev ev', supervise (world0 true) [ExitIo address0; ExitIo (in_byte 0x64); ExitHlt] =
    Done (Some 1, Some m', ev ++ ev' ++ farewell []).
Proof.
  pose proof (world0_bootable true) as Hw.
  destruct (supervisor_debugged (world0 true) _ _ _ _ _ _ regs0 sregs0 [gdbserver.minus] []
    requests0 false [] address0 [in_byte 0x64] [] Hw eq_refl eq_refl eq_refl eq_refl eq_refl)
    as (m & Hs & _ & Hsession).
  - by constructor.
  - constructor.
  - reflexivity.
  - done.
  - by repeat constructor; apply in_byte_valid.
  - destruct Hsession as (m1 & _ & _ & _ & [(m2 & m3 & pages & ev & _ & _ & Hrun)|(h & _ & Hf)]).
    + apply requests0_valid. rewrite Hs. vm_compute. congruence.
    + do 3 eexists. exact Hrun.
    + destruct (keyboard_read_served _ _ Hf).
Defined.

End supervisor.
