(* ===== verification/Sessions.v ===== *)
(** * Whole sessions of the supervisor with a guest (kvm.cpp and target-sources)

The disk programs of GuestDisk.v as guests of [main] of Supervisor.v: a program is run with
a record of the exits that it makes, and the exit loop of the supervisor, given these exits
and the halt that follows, ends in the state and with the events of the program. *)

From S2P Require Import Prelude IODevice DiskManager HardDisk PCIDevice PciHost GdbServer.
From S2P Require Import Elf Bootloader IniReader ConsoleInput Machine GuestDisk Startup Supervisor.
Import kvm guest supervisor.

Module sessions.

(** ** The exits of a guest *)

(** The exits are served as before, and recorded. *)
Definition recorded : Type := (kvm.t * list io_exit)%type.

Definition reported (x : io_exit) : io recorded (list Z) := λ s,
  match handle_io x (fst s) with
  | Done (page, m, ev) => Done (page, (m, snd s ++ [x]), ev)
  | Halt h => Halt h
  end.

(** The program [q], recorded, is the program [p], and [p] is what serving the exits
    recorded does. *)
Definition records {A} (p : io kvm.t A) (q : io recorded A) : Prop := ∀ m xs,
  match p m with
  | Done (a, m', ev) => ∃ ys pages, q (m, xs) = Done (a, (m', xs ++ ys), ev) ∧
                        run handle_io ys m = Done (pages, m', ev)
  | Halt h => q (m, xs) = Halt h
  end.

Lemma records_exit x : records (handle_io x) (reported x).
Proof.
  intros m xs. unfold reported. cbn [fst snd].
  destruct (handle_io x m) as [[[page m'] ev]|h] eqn:Hx; [|done].
  exists [x], [page]. split; [done|]. rewrite run_cons, Hx. cbn. by rewrite app_nil_r.
Qed.

Lemma records_ret {A} (a : A) : records (mret a) (mret a).
Proof. intros m xs. exists [], []. cbn. by rewrite app_nil_r. Qed.

Lemma records_crash {A} h : records (crash h : io kvm.t A) (crash h).
Proof. done. Qed.

Lemma records_bind {A B} (p : io kvm.t A) q (f : A → io kvm.t B) g :
  records p q → (∀ a, records (f a) (g a)) → records (p ≫= f) (q ≫= g).
Proof.
  intros Hp Hf m xs. specialize (Hp m xs). unfold mbind, io_bind.
  destruct (p m) as [[[a m1] ev1]|h]; [|by rewrite Hp].
  destruct Hp as (ys & pages & -> & Hys). specialize (Hf a m1 (xs ++ ys)).
  destruct (f a m1) as [[[b m2] ev2]|h]; [|by rewrite Hf].
  destruct Hf as (zs & pages' & -> & Hzs). exists (ys ++ zs), (pages ++ pages').
  rewrite app_assoc. split; [done|]. by rewrite run_app, Hys, Hzs.
Qed.

Create HintDb records.
#[local] Hint Resolve records_exit records_ret records_crash : records.

Lemma records_array l i : records (array_get l i : io kvm.t Z) (array_get l i).
Proof. unfold array_get. case_decide; [case_match|]; auto with records. Qed.

Lemma records_for_each idx f g :
  (∀ i, records (f i) (g i)) → records (for_each idx f) (for_each idx g).
Proof.
  intros H. induction idx as [|i idx IH]; [apply records_ret|]. cbn [for_each].
  apply records_bind; [apply H|by intros []].
Qed.

Lemma records_ext {A} (p p' : io kvm.t A) q q' :
  (∀ m, p m = p' m) → (∀ s, q s = q' s) → records p' q' → records p q.
Proof. intros Hp Hq H m xs. rewrite Hp, Hq. apply H. Qed.

Lemma records_choice {A} (b : bool) (p p' : io kvm.t A) q q' :
  records p q → records p' q' → records (if b then p else p') (if b then q else q').
Proof. by destruct b. Qed.

(** ** The start of a session *)

(** The supervisor, whatever the virtual CPU reports, is its exit loop on the machine [m]. *)
Definition starts (w : world) (m : kvm.t) : Prop := ∀ es,
  supervise w es =
    match exit_loop es m with
    | Halt h => Halt h
    | Done (code, m', ev) => Done (code, Some m', ev)
    end.

(** The disk image that the drive is built on. *)
Definition initial_image (w : world) : list Z :=
  match disk_file w with
  | Some bs =>
      if Z.of_nat (length bs) =? 4 * 512 then bs else DiskManager.fresh_file (disk_garbage w) 4
  | None => DiskManager.fresh_file (disk_garbage w) 4
  end.

Lemma starts_ready w file boot F F' e e' :
  bootable w file boot F F' e e' → gdb_enable w = false →
  ∃ m dm, starts w m ∧ pci_hdd.presented (pci m) ∧ debug_mode m = false ∧
    hdd m = HardDisk.make 4 dm ∧ DiskManager.wf 4 dm ∧
    DiskManager.disk_file dm = Some (initial_image w) ∧
    ∀ a, 0x80000 ≤ a → mget (gdbserver.memory (gdb m)) a = mget (program_memory w file F e) a.
Proof.
  intros Hw Hgdb.
  destruct (DiskManager.init_total (disk_garbage w) 4 (disk_file w)) as (dm & Hdm & Hwf & Hfile);
    [lia|apply Hw|].
  assert (global_hdd w = Done (HardDisk.make 4 dm)) as Hhdd
    by (unfold global_hdd, HardDisk.init; by rewrite Hdm).
  destruct (boot_memory w file boot F F' e e' Hw) as (m0 & (_ & _ & Hmem) & Hsup).
  destruct (uninitialised w) as [[[dev nbus] fn] off] eqn:Hu.
  exists (ready (HardDisk.make 4 dm) (gdbserver.init (debugger w) m0 (kvm_requests w)) false dev nbus fn off), dm.
  split.
  - intros es. rewrite (Hsup (HardDisk.make 4 dm)) by done. unfold start_machine. rewrite Hu, Hgdb.
    unfold start_debugger. cbn [when]. erewrite bind_quiet by reflexivity.
    by erewrite bind_quiet by apply initIO_run.
  - split.
    { split; [apply pci_host.constructed_wf|apply pci_host.constructed_objects
        |apply pci_host.constructed_devices]. }
    split; [done|]. split; [done|]. split; [done|]. split; [|done].
    rewrite Hfile. unfold initial_image. by destruct (disk_file w) as [bs|]; [case_match|].
Qed.

(** Exits leave the attachment of the debugger as it is. *)
Lemma exits_debug xs m pages m' ev :
  run handle_io xs m = Done (pages, m', ev) → debug_mode m' = debug_mode m.
Proof.
  revert m pages m' ev. induction xs as [|x xs IH]; intros m pages m' ev; [by intros [= <- <- <-]|].
  rewrite run_cons. destruct (handle_io x m) as [[[page m1] ev1]|] eqn:Hx; [|done].
  destruct (run handle_io xs m1) as [[[pgs m2] ev2]|] eqn:Hrun; [|done]. intros [= <- <- <-].
  rewrite (IH _ _ _ _ Hrun). by destruct (handle_io_frame m x page m1 ev1 Hx).
Qed.

(** A guest up to a point of its run: its exits so far are served, and whatever exits follow
    them, [main] returns 1 at the halt, in the state and with the events of all of them. *)
Lemma guest_served {A} w m (p : io kvm.t A) q a m' ev :
  starts w m → debug_mode m = false → records p q → p m = Done (a, m', ev) →
  ∃ xs, q (m, []) = Done (a, (m', xs), ev) ∧
    ∀ ys pages m'' ev', run handle_io ys m' = Done (pages, m'', ev') →
    ∀ rest, supervise w (map ExitIo (xs ++ ys) ++ ExitHlt :: rest) =
            Done (Some 1, Some m'', ev ++ ev').
Proof.
  intros Hst Hd Hr Hp. specialize (Hr m []). rewrite Hp in Hr.
  destruct Hr as (xs & pages & Hq & Hrun). exists xs. split; [exact Hq|].
  intros ys pages' m'' ev' Hys rest.
  assert (run handle_io (xs ++ ys) m = Done (pages ++ pages', m'', ev ++ ev')) as Hall
    by by rewrite run_app, Hrun, Hys.
  rewrite Hst, (exit_loop_io _ _ _ _ _ _ Hall). cbn [exit_loop handle_exit].
  rewrite bind_assoc. erewrite bind_quiet
    by (apply tell_no_gdb; by rewrite (exits_debug _ _ _ _ _ Hall)).
  unfold mret, io_ret, mbind, io_bind. by rewrite !app_nil_r.
Qed.

(** The structure of a program, with what [tac] adds. *)
Ltac recorded tac :=
  repeat first
    [ apply records_ret | apply records_exit | apply records_crash | apply records_array
    | tac | apply records_for_each; intros ? | apply records_choice
    | apply records_bind; [|intros ?] ].

Section libce.
Context (page : list Z).

(** The two functions of libce make their own exits, served by whatever serves them. *)
Context (pci_read_confw pci_read_confl :
  ∀ St, (io_exit → io St (list Z)) → Z → Z → Z → Z → io St Z).
Hypothesis confw_spec : ∀ St serve bus dev fun_ off s,
  pci_read_confw St serve bus dev fun_ off s = conf_read serve page 2 bus dev fun_ off s.
Hypothesis confl_spec : ∀ St serve bus dev fun_ off s,
  pci_read_confl St serve bus dev fun_ off s = conf_read serve page 4 bus dev fun_ off s.

Notation wm := (pci_read_confw kvm.t handle_io).
Notation lm := (pci_read_confl kvm.t handle_io).
Notation wr := (pci_read_confw recorded reported).
Notation lr := (pci_read_confl recorded reported).

Lemma conf_records w bus dev fun_ off :
  records (conf_read handle_io page w bus dev fun_ off) (conf_read reported page w bus dev fun_ off).
Proof. unfold conf_read. recorded fail. Qed.

Lemma confw_records bus dev fun_ off : records (wm bus dev fun_ off) (wr bus dev fun_ off).
Proof. eapply records_ext; [intros; apply confw_spec..|apply conf_records]. Qed.

Lemma confl_records bus dev fun_ off : records (lm bus dev fun_ off) (lr bus dev fun_ off).
Proof. eapply records_ext; [intros; apply confl_spec..|apply conf_records]. Qed.

Lemma inputb_records p : records (inputb handle_io page p) (inputb reported page p).
Proof. unfold inputb. recorded fail. Qed.

Lemma inputw_records p : records (inputw handle_io page p) (inputw reported page p).
Proof. unfold inputw. recorded fail. Qed.

Lemma outputb_records v p : records (outputb handle_io v p) (outputb reported v p).
Proof. unfold outputb. recorded fail. Qed.

Lemma outputw_records v p : records (outputw handle_io v p) (outputw reported v p).
Proof. unfold outputw. recorded fail. Qed.

Lemma poll_records fuel port again :
  records (poll handle_io page fuel port again) (poll reported page fuel port again).
Proof.
  induction fuel as [|fuel IH]; cbn [poll]; [recorded fail|].
  recorded ltac:(first [apply inputb_records|apply IH]).
Qed.

Lemma cerca_records ps : records (cerca wm ps) (cerca wr ps).
Proof.
  induction ps as [|[dev fun_] ps IH]; cbn [cerca]; [recorded fail|].
  recorded ltac:(first [apply confw_records|apply IH]).
Qed.

Lemma bars_records : records (base_registers wm lm) (base_registers wr lr).
Proof.
  unfold base_registers, cerca_bm.
  recorded ltac:(first [apply confl_records|apply cerca_records]).
Qed.

Lemma program_records bar0 bar1 lba quanti cmd :
  records (program handle_io bar0 bar1 lba quanti cmd) (program reported bar0 bar1 lba quanti cmd).
Proof. unfold program. recorded ltac:(apply outputb_records). Qed.

Lemma before_write_records fuel :
  records (before_write handle_io page wm lm fuel) (before_write reported page wr lr fuel).
Proof.
  unfold before_write, scrivisett, scrivi.
  recorded ltac:(first [apply bars_records|apply poll_records|apply program_records
    |apply outputw_records]).
Qed.

Lemma leggi_records n bar0 : records (leggi handle_io page n bar0) (leggi reported page n bar0).
Proof.
  induction n as [|n IH]; cbn [leggi]; [recorded fail|].
  recorded ltac:(first [apply inputw_records|apply IH]).
Qed.

Lemma leggi_settori_records fuel n bar0 :
  records (leggi_settori handle_io page fuel n bar0) (leggi_settori reported page fuel n bar0).
Proof.
  induction n as [|n IH]; cbn [leggi_settori]; [recorded fail|].
  recorded ltac:(first [apply poll_records|apply leggi_records|apply IH]).
Qed.

Lemma before_read_records fuel :
  records (before_read handle_io page wm lm fuel) (before_read reported page wr lr fuel).
Proof.
  unfold before_read, leggisett.
  recorded ltac:(first [apply bars_records|apply poll_records|apply program_records
    |apply leggi_settori_records]).
Qed.

(** ** The two programs *)

Hypothesis page_size : (4 ≤ length page)%nat.

Lemma image_blocks w dm :
  DiskManager.disk_file dm = Some (initial_image w) → Forall is_u8 (initial_image w) →
  pci_hdd.disk_bytes 4 (HardDisk.make 4 dm) ∧
  DiskManager.block 0 dm = take 512 (initial_image w).
Proof.
  intros Hf Hb. unfold pci_hdd.disk_bytes, DiskManager.block. cbn [HardDisk.make HardDisk.disk_manager].
  rewrite Hf. cbn [default]. split; [|done].
  intros i _. unfold slice. by apply Forall_take, Forall_drop.
Qed.

(** A drive built on the image that another one leaves. *)
Lemma drive_restarted w dm d :
  DiskManager.wf 4 dm → DiskManager.disk_file dm = Some (initial_image w) →
  HardDisk.wf 4 d → disk_file w = DiskManager.disk_file (HardDisk.disk_manager d) →
  HardDisk.make 4 dm = pci_hdd.restarted 4 d.
Proof.
  intros Hdm Hf Hd Hw. destruct (HardDisk.wf_disk _ _ Hd) as [_ Hsize (bs & Hbs & Hlen)].
  unfold pci_hdd.restarted. f_equal.
  assert (initial_image w = bs) as Hi.
  { unfold initial_image. rewrite Hw, Hbs. rewrite Hsize in Hlen.
    destruct (Z.eqb_spec (Z.of_nat (length bs)) (4 * 512)); [done|lia]. }
  destruct dm as [size file], (HardDisk.disk_manager d) as [size' file']. cbn in *.
  rewrite Hf, Hi, <- Hbs. f_equal. rewrite Hsize. apply (DiskManager.wf_size _ _ Hdm).
Qed.

(** What the programs call at their ends: anything, on the machine and the record. *)
Context (str_write : list Z → io recorded unit) (char_write : Z → io recorded unit)
  (pause : io recorded unit).

(** C10. The two disk programs of the repository as guests of two whole runs of the
    supervisor from the command line, the second on the disk file that the first leaves,
    when the shared page holds a byte with bit 7 clear: up to the calls with which a program
    shows its result, the exits that it makes, recorded, are served by the exit loop; what
    is left of the first is to write OK and to call pause, and what is left of the second to
    show block 0 of the first image, where block 1 is asked for, and then the letters that
    the first has written in block 2, with the file as it was; and whatever exits those
    calls of the library make, if they leave the drive of the first alone, main returns 1 at
    the halt that follows, in the state and with the events of all the exits. *)
Theorem disk_sessions (w1 : world) (file1 boot1 : list Z) (F1 F1' : Elf.format)
    (e1 e1' : Elf.eseguibile) (fuel : nat)
    (Hw1 : bootable w1 file1 boot1 F1 F1' e1 e1') (Hgdb1 : gdb_enable w1 = false)
    (Hbytes : Forall is_u8 (initial_image w1)) (Hf : (0 < fuel)%nat)
    (Hpage : busy (le_val (take 1 page)) = false) :
  ∃ m1 m1' xs1, starts w1 m1 ∧
    main_write reported page wr lr str_write pause fuel (m1, []) =
      (str_write (chars "OK" ++ [10]);; pause;; mret 0) (m1', xs1) ∧
    ∀ ys1 pages1 n1 ev1, run handle_io ys1 m1' = Done (pages1, n1, ev1) →
      (∀ rest, supervise w1 (map ExitIo (xs1 ++ ys1) ++ ExitHlt :: rest) =
               Done (Some 1, Some n1, ev1)) ∧
      (HardDisk.disk_manager (hdd n1) = HardDisk.disk_manager (hdd m1') →
       ∀ w2 file2 boot2 F2 F2' e2 e2', bootable w2 file2 boot2 F2 F2' e2 e2' →
       gdb_enable w2 = false →
       disk_file w2 = DiskManager.disk_file (HardDisk.disk_manager (hdd n1)) →
       ∃ m2 m2' xs2 ev, starts w2 m2 ∧
         main_read reported page wr lr char_write pause fuel (m2, []) =
           emitting ev (shows char_write pause
             ((take 512 (initial_image w1) ++ replicate 512 99) ++ [10]) (m2', xs2)) ∧
         DiskManager.disk_file (HardDisk.disk_manager (hdd m2')) = disk_file w2 ∧
         ∀ ys2 pages2 n2 ev2, run handle_io ys2 m2' = Done (pages2, n2, ev2) →
         ∀ rest, supervise w2 (map ExitIo (xs2 ++ ys2) ++ ExitHlt :: rest) =
                 Done (Some 1, Some n2, ev ++ ev2)).
Proof.
  destruct (starts_ready w1 _ _ _ _ _ _ Hw1 Hgdb1) as (m1 & dm1 & Hs1 & Hp1 & Hd1 & Hh1 & Hwf1 & Hf1 & _).
  destruct (image_blocks w1 dm1 Hf1 Hbytes) as [Hb1 Hblock].
  assert (pci_hdd.fresh 4 (hdd m1)) as Hfresh.
  { rewrite Hh1. split; [by apply HardDisk.make_wf|by split|done|done]. }
  destruct (pci_hdd.before_write_run page wm lm page_size (confw_spec _ _) (confl_spec _ _)
    fuel 4 m1 Hf Hp1 Hfresh ltac:(lia) Hpage) as (m1' & Hwrite & _ & Hwf1' & _ & Hblk).
  destruct (guest_served w1 m1 _ _ _ _ _ Hs1 Hd1 (before_write_records fuel) Hwrite)
    as (xs1 & Hq1 & Hend1).
  exists m1, m1', xs1. split; [done|]. split.
  { rewrite (main_write_ends _ _ _ _ _ _ _ _ _ _ Hq1). apply emitting_quiet. }
  intros ys1 pages1 n1 ev1 Hys1. split; [exact (Hend1 _ _ _ _ Hys1)|].
  intros Hsame1 w2 file2 boot2 F2 F2' e2 e2' Hw2 Hgdb2 Hfile. rewrite Hsame1 in Hfile.
  destruct (starts_ready w2 _ _ _ _ _ _ Hw2 Hgdb2) as (m2 & dm2 & Hs2 & Hp2 & Hd2 & Hh2 & Hwf2 & Hf2 & _).
  destruct (pci_hdd.read_written page wm lm page_size (confw_spec _ _) (confl_spec _ _)
    fuel 4 m1' m2 (λ j, DiskManager.block j (HardDisk.disk_manager (hdd m1))) Hf ltac:(lia) Hwf1')
    as (vetti & m2' & ev & Hread & Htext & Hlen & Hsame);
    [by rewrite Hh1|done|done|rewrite Hh2; by apply (drive_restarted w2)|].
  destruct (guest_served w2 m2 _ _ _ _ _ Hs2 Hd2 (before_read_records fuel) Hread)
    as (xs2 & Hq2 & Hend2).
  exists m2, m2', xs2, ev. split; [done|]. split; [|split; [by rewrite Hsame|done]].
  rewrite (main_read_ends _ _ _ _ _ _ _ _ _ _ _ _ Hq2 Htext Hlen), Hh1.
  cbn [HardDisk.make HardDisk.disk_manager]. by rewrite Hblock.
Qed.

End libce.

(** ** A concrete pair of sessions *)

(** The second session finds the disk file [f]. *)
Definition world_with (f : option (list Z)) : world :=
  mk_world (host (world0 false)) (interpreters (world0 false)) (garbage (world0 false))
    (disk_garbage (world0 false)) f (uninitialised (world0 false)) (no_port (world0 false))
    (kvm_requests (world0 false)) (gdb_socket (world0 false)) (vcpu_regs (world0 false))
    (vcpu_sregs (world0 false)) (debugger (world0 false)).

Lemma world_with_bootable f :
  bootable (world_with f) (estrattore.elf64_file 0x200000 2 4 [0xf4; 0x90]) estrattore.program
    Elf64.elf64 Elf64.elf64 startup.exe0 estrattore.program_exe.
Proof. destruct (world0_bootable false). by split. Qed.

Lemma world_with_gdb {f} : gdb_enable (world_with f) = false.
Proof. vm_compute. reflexivity. Qed.

(** The first serial port gets the characters, and no key is waited for. *)
Lemma disk_sessions_witness :
  ∃ m1' xs1 m2' xs2 ev text,
    supervise (world_with (Some pci_hdd.image)) (map ExitIo (xs1 ++ []) ++ [ExitHlt]) =
      Done (Some 1, Some m1', []) ∧
    supervise (world_with (DiskManager.disk_file (HardDisk.disk_manager (hdd m1'))))
      (map ExitIo (xs2 ++ []) ++ [ExitHlt]) = Done (Some 1, Some m2', ev ++ []) ∧
    text = (replicate 512 1 ++ replicate 512 99) ++ [10] ∧
    ∃ m2, main_read reported pci_hdd.page0 (conf_read reported pci_hdd.page0 2)
      (conf_read reported pci_hdd.page0 4) (pci_hdd.char_serial reported) pci_hdd.pause0 1 (m2, []) =
      emitting ev (shows (pci_hdd.char_serial reported) pci_hdd.pause0 text (m2', xs2)).
Proof.
  destruct (disk_sessions pci_hdd.page0 (λ St serve, conf_read serve pci_hdd.page0 2)
    (λ St serve, conf_read serve pci_hdd.page0 4) ltac:(done) ltac:(done) ltac:(cbn; lia)
    (pci_hdd.str_serial reported) (pci_hdd.char_serial reported) pci_hdd.pause0
    (world_with (Some pci_hdd.image)) _ _ _ _ _ _ 1 (world_with_bootable _) world_with_gdb)
    as (m1 & m1' & xs1 & _ & _ & H1).
  - apply (bool_decide_unpack _). vm_compute. exact I.
  - lia.
  - done.
  - destruct (H1 [] [] m1' [] eq_refl) as [Hend1 H2].
    destruct (H2 eq_refl _ _ _ _ _ _ _ (world_with_bootable _) world_with_gdb eq_refl)
      as (m2 & m2' & xs2 & ev & _ & Hread & _ & Hend2).
    exists m1', xs1, m2', xs2, ev. eexists. split; [exact (Hend1 [])|].
    split; [exact (Hend2 [] [] m2' [] eq_refl [])|]. split; [|exists m2; exact Hread].
    vm_compute. reflexivity.
Defined.

End sessions.
