(* ===== verification/DebugServer.v ===== *)
(** * The debug server (debug-server/messages.h, messages.c, net_wrapper.h,
    net_wrapper.cpp, DebugServer.h, DebugServer.cpp)

    Messages in the byte order of the network, their framing on a TCP stream, and the
    thread that serves a client.  A stream is the list of the segments
    that arrive: a [recv] returns bytes of one segment only, which is how a stream may
    cut a message. *)

From S2P Require Import Prelude.

(** ** Messages *)
Module messages.

Definition WELCOME_MESS : Z := 0.
Definition GENERIC_ERR : Z := 1.
Definition REQ_INFO : Z := 2.
Definition SEND_INFO : Z := 3.
Definition REQ_DUMP_MEM : Z := 4.
Definition SERVER_QUIT : Z := 5.

(** A packed message is its bytes; these are the offsets of its members. *)
Definition t_off : nat := 0.
Definition timestamp_off : nat := 4.
Definition mem_size_off : nat := 12.
Definition start_addr_off : nat := 12.
Definition end_addr_off : nat := 20.

Section accesses.
Context {St : Type}.

Definition load (msg : list Z) (off n : nat) : io St Z :=
  if decide (off + n ≤ length msg)%nat then mret (le_val (slice off n msg))
  else crash OutOfBounds.
Definition store (msg : list Z) (off n : nat) (v : Z) : io St (list Z) :=
  if decide (off + n ≤ length msg)%nat then mret (list_inserts off (le_bytes n v) msg)
  else crash OutOfBounds.

(** [htonl] and [ntohl] on a little-endian host: the argument is cut to 32 bits. *)
Definition htonl (x : Z) : Z := le_val (rev (le_bytes 4 x)).
Definition ntohl (x : Z) : Z := htonl x.

Definition HTONLL (x : Z) : Z :=
  if 1 =? htonl 1 then x
  else Z.lor (Z.shiftl (htonl (Z.land x 0xFFFFFFFF)) 32) (htonl (u32 (Z.shiftr x 32))).
Definition NTOHLL (x : Z) : Z :=
  if 1 =? ntohl 1 then x
  else Z.lor (Z.shiftl (ntohl (Z.land x 0xFFFFFFFF)) 32) (ntohl (u32 (Z.shiftr x 32))).

(** [m->f = conv(m->f)]. *)
Definition convert (conv : Z → Z) (off n : nat) (msg : list Z) : io St (list Z) :=
  v ← load msg off n; store msg off n (conv v).

Definition is_simple (t : Z) : bool :=
  (t =? WELCOME_MESS) || (t =? GENERIC_ERR) || (t =? SERVER_QUIT) || (t =? REQ_INFO).

Definition convert_to_network_order (msg : list Z) : io St (list Z) :=
  t ← load msg t_off 4;
  if is_simple t then
    msg ← convert htonl t_off 4 msg;
    convert htonl timestamp_off 8 msg
  else if t =? SEND_INFO then
    msg ← convert htonl t_off 4 msg;
    msg ← convert htonl timestamp_off 8 msg;
    convert HTONLL mem_size_off 8 msg
  else if t =? REQ_DUMP_MEM then
    msg ← convert htonl t_off 4 msg;
    msg ← convert htonl timestamp_off 8 msg;
    msg ← convert HTONLL start_addr_off 8 msg;
    convert HTONLL end_addr_off 8 msg
  else mret msg.

Definition convert_to_host_order (msg : list Z) : io St (list Z) :=
  msg ← convert ntohl t_off 4 msg;
  t ← load msg t_off 4;
  if is_simple t then convert ntohl timestamp_off 8 msg
  else if t =? SEND_INFO then
    msg ← convert ntohl timestamp_off 8 msg;
    convert NTOHLL mem_size_off 8 msg
  else if t =? REQ_DUMP_MEM then
    msg ← convert ntohl timestamp_off 8 msg;
    msg ← convert NTOHLL start_addr_off 8 msg;
    convert NTOHLL end_addr_off 8 msg
  else mret msg.
End accesses.

(** [now] is what [time(NULL)] returns. *)
Definition init_simple_msg (t now : Z) : list Z := le_bytes 4 t ++ le_bytes 8 now.
Definition init_info_msg (mem_size now : Z) : list Z :=
  le_bytes 4 SEND_INFO ++ le_bytes 8 now ++ le_bytes 8 mem_size.
Definition init_req_dump_mem (start_addr end_addr now : Z) : list Z :=
  le_bytes 4 REQ_DUMP_MEM ++ le_bytes 8 now ++ le_bytes 8 start_addr ++ le_bytes 8 end_addr.

(** *** Byte order *)

Lemma le_bytes_take n bs :
  Forall is_u8 bs → (n ≤ length bs)%nat → le_bytes n (le_val bs) = take n bs.
Proof.
  intros Hbs. revert n. induction Hbs as [|b bs Hb _ IH]; intros [|n] Hn; try done.
  { cbn in Hn. lia. }
  cbn in *. rewrite <- (IH n) by lia. f_equal; [width_lia|]. f_equal. width_lia.
Qed.

Lemma le_val_zeros m : le_val (replicate m 0) = 0.
Proof. induction m as [|m IH]; [done|]. cbn. by rewrite IH. Qed.

Lemma le_val_pad bs m : le_val (bs ++ replicate m 0) = le_val bs.
Proof. rewrite le_val_app, le_val_zeros. lia. Qed.

(** The bytes of a value, the most significant first. *)
Definition be (n : nat) (x : Z) : list Z := rev (le_bytes n x).

Lemma length_be n x : length (be n x) = n.
Proof. unfold be. by rewrite length_rev, length_le_bytes. Qed.

Lemma be_u8 n x : Forall is_u8 (be n x).
Proof. apply Forall_rev, le_bytes_u8. Qed.

Lemma htonl_bytes bs :
  Forall is_u8 bs → (4 ≤ length bs)%nat → htonl (le_val bs) = le_val (rev (take 4 bs)).
Proof. intros. unfold htonl. by rewrite le_bytes_take. Qed.

Lemma HTONLL_bytes bs :
  Forall is_u8 bs → length bs = 8%nat → HTONLL (le_val bs) = le_val (rev bs).
Proof.
  intros Hbs Hlen. rewrite <- (take_drop 4 bs) at 1 2.
  rewrite <- (take_drop 4 bs), Forall_app in Hbs. destruct Hbs as [Hlo Hhi].
  assert (length (take 4 bs) = 4%nat) as Hl4 by (rewrite length_take; lia).
  assert (length (drop 4 bs) = 4%nat) as Hh4 by (rewrite length_drop; lia).
  rewrite rev_app_distr, !le_val_app, length_rev, Hl4, Hh4.
  unfold HTONLL. change (1 =? htonl 1) with false.
  change (256 ^ Z.of_nat 4) with (2 ^ 32). cbv iota.
  set (lo := take 4 bs) in *. set (hi := drop 4 bs) in *.
  pose proof (le_val_bound lo Hlo) as Hb1. pose proof (le_val_bound hi Hhi) as Hb2.
  rewrite Hl4 in Hb1. rewrite Hh4 in Hb2. change (256 ^ Z.of_nat 4) with (2 ^ 32) in *.
  change 0xFFFFFFFF with (2 ^ 32 - 1). rewrite land_ones_mod by lia.
  rewrite Z.shiftr_div_pow2 by lia.
  change (2 ^ 32) with 4294967296 in *.
  replace ((le_val lo + 4294967296 * le_val hi) mod 4294967296) with (le_val lo) by width_lia.
  replace (u32 ((le_val lo + 4294967296 * le_val hi) / 4294967296)) with (le_val hi)
    by width_lia.
  rewrite (htonl_bytes lo), (htonl_bytes hi), (take_ge lo), (take_ge hi) by (done || lia).
  assert (Forall is_u8 (rev hi)) as Hr by by apply Forall_rev.
  pose proof (le_val_bound (rev hi) Hr) as Hb. rewrite length_rev, Hh4 in Hb.
  rewrite Z.lor_comm, lor_shiftl_add by (done || lia). lia.
Qed.

(** *** Messages on the network *)

(** A member between the members before and after it. *)
Lemma load_at {St} (pre mid post : list Z) (s : St) :
  load (pre ++ mid ++ post) (length pre) (length mid) s = Done (le_val mid, s, []).
Proof.
  unfold load. rewrite decide_True by (rewrite !length_app; lia). by rewrite slice_app.
Qed.

Lemma convert_at {St} conv (pre mid post : list Z) (s : St) :
  convert conv (length pre) (length mid) (pre ++ mid ++ post) s =
    Done (pre ++ le_bytes (length mid) (conv (le_val mid)) ++ post, s, []).
Proof.
  unfold convert. erewrite bind_quiet by apply load_at.
  unfold store. rewrite decide_True by (rewrite !length_app; lia).
  rewrite <- overwrite_inserts by (rewrite length_le_bytes, !length_app; lia).
  unfold overwrite, mret, io_ret. rewrite take_app_length, length_le_bytes.
  by rewrite <- drop_drop, !drop_app_length.
Qed.

(** A conversion that turns the bytes [a] of a member of [n] bytes into [b]. *)
Record swaps (conv : Z → Z) (n : nat) (a b : list Z) : Prop := {
  swaps_length : length a = n;
  swaps_bytes : le_bytes n (conv (le_val a)) = b;
}.

Definition zeros4 : list Z := replicate 4 0.

Lemma swaps_4 bs : Forall is_u8 bs → length bs = 4%nat → swaps htonl 4 bs (rev bs).
Proof.
  intros Hbs Hlen. split; [done|]. rewrite htonl_bytes, take_ge by (done || lia).
  rewrite <- Hlen, <- (length_rev bs). by apply le_bytes_val, Forall_rev.
Qed.

Lemma swaps_time bs hi :
  Forall is_u8 (bs ++ hi) → length bs = 4%nat → length hi = 4%nat →
  swaps htonl 8 (bs ++ hi) (rev bs ++ zeros4).
Proof.
  intros Hbs Hlen Hhi. split; [rewrite length_app; lia|].
  rewrite htonl_bytes by (rewrite ?length_app; done || lia).
  rewrite <- Hlen at 2. rewrite take_app_length, <- (le_val_pad (rev bs) 4).
  rewrite Forall_app in Hbs. destruct Hbs as [Hbs _].
  assert (length (rev bs ++ zeros4) = 8%nat) as <- by (rewrite length_app, length_rev; cbn; lia).
  apply le_bytes_val, Forall_app_2; [by apply Forall_rev|].
  repeat constructor; unfold is_u8; lia.
Qed.

Lemma swaps_8 bs : Forall is_u8 bs → length bs = 8%nat → swaps HTONLL 8 bs (rev bs).
Proof.
  intros Hbs Hlen. split; [done|]. rewrite HTONLL_bytes by done.
  rewrite <- Hlen, <- (length_rev bs). by apply le_bytes_val, Forall_rev.
Qed.

(** The layouts: of the host, with the timestamp as it was given, and of the network,
    where the timestamp has lost its upper half. *)
Definition be_time (now : Z) : list Z := be 4 now ++ zeros4.
Definition wire_simple (t now : Z) : list Z := be 4 t ++ be_time now.
Definition wire_info (mem_size now : Z) : list Z :=
  be 4 SEND_INFO ++ be_time now ++ be 8 mem_size.
Definition wire_req_dump_mem (start_addr end_addr now : Z) : list Z :=
  be 4 REQ_DUMP_MEM ++ be_time now ++ be 8 start_addr ++ be 8 end_addr.

Lemma convert_swap {St} conv off n msg pre a b post (s : St) :
  msg = pre ++ a ++ post → length pre = off → swaps conv n a b →
  convert conv off n msg s = Done (pre ++ b ++ post, s, []).
Proof. intros -> <- [<- <-]. apply convert_at. Qed.

Lemma load_type {St} a post (s : St) :
  length a = 4%nat → load (a ++ post) t_off 4 s = Done (le_val a, s, []).
Proof. intros <-. apply (load_at []). Qed.

Lemma le_bytes_split x : le_bytes 8 x = le_bytes 4 x ++ le_bytes 4 (x / 256 / 256 / 256 / 256).
Proof. reflexivity. Qed.

Lemma swaps_to_network x :
  swaps htonl 4 (le_bytes 4 x) (be 4 x) ∧ swaps htonl 8 (le_bytes 8 x) (be_time x) ∧
  swaps HTONLL 8 (le_bytes 8 x) (be 8 x).
Proof.
  split_and!.
  - apply swaps_4; [apply le_bytes_u8|done].
  - rewrite le_bytes_split. apply swaps_time; [|done..].
    rewrite <- le_bytes_split. apply le_bytes_u8.
  - apply swaps_8; [apply le_bytes_u8|done].
Qed.

Lemma swaps_to_host x :
  swaps ntohl 4 (be 4 x) (le_bytes 4 x) ∧
  swaps ntohl 8 (be_time x) (le_bytes 8 (u32 x)) ∧
  swaps NTOHLL 8 (be 8 x) (le_bytes 8 x).
Proof.
  assert (∀ n, rev (be n x) = le_bytes n x) as Hrev by (intros; apply rev_involutive).
  split_and!.
  - rewrite <- (Hrev 4%nat). apply swaps_4; [apply be_u8|apply length_be].
  - assert (le_bytes 8 (u32 x) = rev (be 4 x) ++ zeros4) as ->.
    { rewrite Hrev. unfold u32.
      change 4294967296 with (256 ^ Z.of_nat 4). rewrite <- le_val_bytes, <- (le_val_pad _ 4).
      change 8%nat with (length (le_bytes 4 x ++ replicate 4 0)). apply le_bytes_val.
      apply Forall_app_2; [apply le_bytes_u8|]. repeat constructor; unfold is_u8; lia. }
    apply swaps_time; [|apply length_be|done].
    apply Forall_app_2; [apply be_u8|]. repeat constructor; unfold is_u8; lia.
  - rewrite <- (Hrev 8%nat). apply swaps_8; [apply be_u8|apply length_be].
Qed.

(** A conversion of the member after [pre], in a message that is a concatenation. *)
Ltac swap_member pre a b post :=
  erewrite bind_quiet by
    (apply (convert_swap _ _ _ _ pre a b post); [by rewrite <- ?app_assoc|done|]; done).
Ltac swap_last pre a b post :=
  erewrite (convert_swap _ _ _ _ pre a b post);
    [by rewrite <- ?app_assoc, ?app_nil_r|by rewrite <- ?app_assoc, ?app_nil_r|done|done].

(** The branch of a message whose type is a constant. *)
Ltac dispatch :=
  change (is_simple SEND_INFO) with false; change (is_simple REQ_DUMP_MEM) with false;
  change (SEND_INFO =? SEND_INFO) with true; change (REQ_DUMP_MEM =? SEND_INFO) with false;
  change (REQ_DUMP_MEM =? REQ_DUMP_MEM) with true; cbv iota.

Lemma simple_to_network {St} t now (s : St) :
  is_simple t = true → is_u32 t →
  convert_to_network_order (init_simple_msg t now) s = Done (wire_simple t now, s, []).
Proof.
  intros Ht Hr. destruct (swaps_to_network t) as (Ht4 & _ & _).
  destruct (swaps_to_network now) as (_ & Hn & _).
  unfold convert_to_network_order, init_simple_msg, wire_simple.
  erewrite bind_quiet by by apply load_type.
  rewrite le_val_bytes, Z.mod_small, Ht by (done || (unfold is_u32 in Hr; cbn; lia)).
  swap_member (@nil Z) (le_bytes 4 t) (be 4 t) (le_bytes 8 now).
  swap_last (be 4 t) (le_bytes 8 now) (be_time now) (@nil Z).
Qed.

Lemma info_to_network {St} mem_size now (s : St) :
  convert_to_network_order (init_info_msg mem_size now) s =
    Done (wire_info mem_size now, s, []).
Proof.
  destruct (swaps_to_network SEND_INFO) as (Ht4 & _ & _).
  destruct (swaps_to_network now) as (_ & Hn & _).
  destruct (swaps_to_network mem_size) as (_ & _ & Hm).
  unfold convert_to_network_order, init_info_msg, wire_info.
  erewrite bind_quiet by by apply load_type.
  change (le_val (le_bytes 4 SEND_INFO)) with SEND_INFO. dispatch.
  swap_member (@nil Z) (le_bytes 4 SEND_INFO) (be 4 SEND_INFO) (le_bytes 8 now ++ le_bytes 8 mem_size).
  swap_member (be 4 SEND_INFO) (le_bytes 8 now) (be_time now) (le_bytes 8 mem_size).
  swap_last (be 4 SEND_INFO ++ be_time now) (le_bytes 8 mem_size) (be 8 mem_size) (@nil Z).
Qed.

Lemma req_dump_mem_to_network {St} start_addr end_addr now (s : St) :
  convert_to_network_order (init_req_dump_mem start_addr end_addr now) s =
    Done (wire_req_dump_mem start_addr end_addr now, s, []).
Proof.
  destruct (swaps_to_network REQ_DUMP_MEM) as (Ht4 & _ & _).
  destruct (swaps_to_network now) as (_ & Hn & _).
  destruct (swaps_to_network start_addr) as (_ & _ & Hs).
  destruct (swaps_to_network end_addr) as (_ & _ & He).
  unfold convert_to_network_order, init_req_dump_mem, wire_req_dump_mem.
  erewrite bind_quiet by by apply load_type.
  change (le_val (le_bytes 4 REQ_DUMP_MEM)) with REQ_DUMP_MEM. dispatch.
  set (t4 := le_bytes 4 REQ_DUMP_MEM) in *. set (b4 := be 4 REQ_DUMP_MEM) in *.
  swap_member (@nil Z) t4 b4 (le_bytes 8 now ++ le_bytes 8 start_addr ++ le_bytes 8 end_addr).
  swap_member b4 (le_bytes 8 now) (be_time now) (le_bytes 8 start_addr ++ le_bytes 8 end_addr).
  swap_member (b4 ++ be_time now) (le_bytes 8 start_addr) (be 8 start_addr) (le_bytes 8 end_addr).
  swap_last (b4 ++ be_time now ++ be 8 start_addr) (le_bytes 8 end_addr) (be 8 end_addr) (@nil Z).
Qed.

(** The other direction; the buffer may be longer than the message. *)
Lemma simple_to_host {St} t now rest (s : St) :
  is_simple t = true → is_u32 t →
  convert_to_host_order (wire_simple t now ++ rest) s =
    Done (init_simple_msg t (u32 now) ++ rest, s, []).
Proof.
  intros Ht Hr. destruct (swaps_to_host t) as (Ht4 & _ & _).
  destruct (swaps_to_host now) as (_ & Hn & _).
  unfold convert_to_host_order, init_simple_msg, wire_simple. rewrite <- !app_assoc.
  swap_member (@nil Z) (be 4 t) (le_bytes 4 t) (be_time now ++ rest). cbn [app].
  erewrite bind_quiet by by apply load_type.
  rewrite le_val_bytes, Z.mod_small, Ht by (done || (unfold is_u32 in Hr; cbn; lia)).
  swap_last (le_bytes 4 t) (be_time now) (le_bytes 8 (u32 now)) rest.
Qed.

Lemma info_to_host {St} mem_size now rest (s : St) :
  convert_to_host_order (wire_info mem_size now ++ rest) s =
    Done (init_info_msg mem_size (u32 now) ++ rest, s, []).
Proof.
  destruct (swaps_to_host SEND_INFO) as (Ht4 & _ & _).
  destruct (swaps_to_host now) as (_ & Hn & _).
  destruct (swaps_to_host mem_size) as (_ & _ & Hm).
  unfold convert_to_host_order, init_info_msg, wire_info. rewrite <- !app_assoc.
  set (t4 := le_bytes 4 SEND_INFO) in *. set (b4 := be 4 SEND_INFO) in *.
  set (ts := le_bytes 8 (u32 now)) in *.
  swap_member (@nil Z) b4 t4 (be_time now ++ be 8 mem_size ++ rest).
  cbn [app]. erewrite bind_quiet by by apply load_type.
  change (le_val t4) with SEND_INFO. dispatch.
  swap_member t4 (be_time now) ts (be 8 mem_size ++ rest).
  swap_last (t4 ++ ts) (be 8 mem_size) (le_bytes 8 mem_size) rest.
Qed.

Lemma req_dump_mem_to_host {St} start_addr end_addr now rest (s : St) :
  convert_to_host_order (wire_req_dump_mem start_addr end_addr now ++ rest) s =
    Done (init_req_dump_mem start_addr end_addr (u32 now) ++ rest, s, []).
Proof.
  destruct (swaps_to_host REQ_DUMP_MEM) as (Ht4 & _ & _).
  destruct (swaps_to_host now) as (_ & Hn & _).
  destruct (swaps_to_host start_addr) as (_ & _ & Hs).
  destruct (swaps_to_host end_addr) as (_ & _ & He).
  unfold convert_to_host_order, init_req_dump_mem, wire_req_dump_mem. rewrite <- !app_assoc.
  set (t4 := le_bytes 4 REQ_DUMP_MEM) in *. set (b4 := be 4 REQ_DUMP_MEM) in *.
  set (ts := le_bytes 8 (u32 now)) in *.
  swap_member (@nil Z) b4 t4 (be_time now ++ be 8 start_addr ++ be 8 end_addr ++ rest).
  cbn [app]. erewrite bind_quiet by by apply load_type.
  change (le_val t4) with REQ_DUMP_MEM. dispatch.
  swap_member t4 (be_time now) ts (be 8 start_addr ++ be 8 end_addr ++ rest).
  swap_member (t4 ++ ts) (be 8 start_addr) (le_bytes 8 start_addr) (be 8 end_addr ++ rest).
  swap_last (t4 ++ ts ++ le_bytes 8 start_addr) (be 8 end_addr) (le_bytes 8 end_addr) rest.
Qed.

End messages.

(** ** Framing *)
Module net_wrapper.
Import messages.

(** A connected socket, and the clock of the process that uses it.  [outgoing] has
    one element for each [send]; a blocking [send] takes all it is given. *)
Record socket : Type := mk_socket {
  incoming : list (list Z);
  outgoing : list (list Z);
  times : nat → Z;
  calls : nat;
}.

#[export] Instance eta_socket : Eta socket := λ s,
  mk_socket (incoming s) (outgoing s) (times s) (calls s).

Definition time : io socket Z :=
  s ← get; modify (λ s, s <| calls := S (calls s) |>);; mret (times s (calls s)).

(** Up to [n] bytes of the first segment; none when the peer has closed. *)
Definition take_segment (n : nat) (segs : list (list Z)) : list Z * list (list Z) :=
  match segs with
  | [] => ([], [])
  | seg :: segs =>
      (take n seg, match drop n seg with [] => segs | rest => rest :: segs end)
  end.

Definition recv (n : Z) : io socket (list Z) :=
  s ← get;
  let '(bs, segs) := take_segment (Z.to_nat n) (incoming s) in
  modify (λ s, s <| incoming := segs |>);;
  mret bs.

Definition send (bs : list Z) : io socket Z :=
  modify (λ s, s <| outgoing := outgoing s ++ [bs] |>);; mret (Z.of_nat (length bs)).

Record my_buffer : Type := mk_buffer { buf : option (list Z); size : Z }.

Definition clear_my_buffer (b : my_buffer) : my_buffer :=
  if 0 <? size b then
    match buf b with
    | Some bs => mk_buffer (Some (replicate (length bs) 0)) (size b)
    | None => b
    end
  else b.

(** The result of the function, and the buffer.  What [malloc] returns is cleared
    before it is used. *)
Definition recv_data (b : my_buffer) : io socket (Z * my_buffer) :=
  hdr ← recv 4;
  if Z.of_nat (length hdr) <? 4 then mret (-1, b)
  else
    let nbytes := ntohl (le_val hdr) in
    let b := if size b <? nbytes then mk_buffer (Some (replicate (Z.to_nat nbytes) 0)) nbytes
             else b in
    let b := clear_my_buffer b in
    data ← recv nbytes;
    let b := mk_buffer (overwrite 0 data <$> buf b) (size b) in
    if negb (Z.of_nat (length data) =? nbytes) then mret (-1, b)
    else mret (i32 (Z.of_nat (length data)), b).

(** The first [buf_len] bytes at [buf], which the caller has found there. *)
Definition send_data (bs : list Z) : io socket Z :=
  send (le_bytes 4 (htonl (Z.of_nat (length bs))));;
  bsend ← send bs;
  mret (i32 bsend).

(** *** Streams *)

(** The segments that may arrive when the pieces [ps] are sent: some of them are
    joined, none is cut. *)
Inductive coalesced : list (list Z) → list (list Z) → Prop :=
  | coalesced_nil : coalesced [] []
  | coalesced_piece p ps segs : p ≠ [] → coalesced ps segs → coalesced (p :: ps) (p :: segs)
  | coalesced_join p ps seg segs :
      p ≠ [] → coalesced ps (seg :: segs) → coalesced (p :: ps) ((p ++ seg) :: segs).

Lemma coalesced_nonempty ps seg segs : coalesced ps (seg :: segs) → seg ≠ [].
Proof. inversion 1; subst; [done|]. by destruct p. Qed.

Lemma take_piece p ps segs :
  coalesced (p :: ps) segs →
  ∃ segs', take_segment (length p) segs = (p, segs') ∧ coalesced ps segs'.
Proof.
  inversion 1; subst; cbn.
  - exists segs0. by rewrite take_ge, drop_ge by done.
  - exists (seg :: segs0). rewrite take_app_length, drop_app_length. split; [|done].
    destruct seg; [|done]. by apply coalesced_nonempty in H4.
Qed.

Lemma coalesced_concat ps segs : coalesced ps segs → concat segs = concat ps.
Proof.
  induction 1 as [|p ps segs _ _ IH|p ps seg segs _ _ IH]; [done|..]; cbn in *.
  - by rewrite IH.
  - by rewrite <- IH, app_assoc.
Qed.

(** What [send_data] puts on the stream. *)
Definition frame (bs : list Z) : list (list Z) := [be 4 (Z.of_nat (length bs)); bs].

Definition sendable (bs : list Z) : Prop := (0 < length bs)%nat ∧ Z.of_nat (length bs) < 4294967296.

Lemma send_data_run bs s :
  send_data bs s =
    Done (i32 (Z.of_nat (length bs)), s <| outgoing := outgoing s ++ frame bs |>, []).
Proof.
  unfold send_data, send. assert (le_bytes 4 (htonl (Z.of_nat (length bs))) =
    be 4 (Z.of_nat (length bs))) as ->.
  { unfold htonl. rewrite <- (length_be 4 (Z.of_nat (length bs))) at 1.
    apply le_bytes_val, be_u8. }
  unfold mbind, io_bind, modify, mret, io_ret. cbn. by rewrite <- app_assoc.
Qed.

(** The receiver reads the length the sender wrote. *)
Lemma ntohl_be n : Z.of_nat n < 4294967296 → ntohl (le_val (be 4 (Z.of_nat n))) = Z.of_nat n.
Proof.
  intros Hn. unfold ntohl, htonl. rewrite <- (length_be 4 (Z.of_nat n)) at 1.
  rewrite le_bytes_val by apply be_u8. unfold be. rewrite rev_involutive, le_val_bytes.
  apply Z.mod_small. cbn. lia.
Qed.

(** The buffer after a message of [bs]. *)
Definition buffer_ok (b : my_buffer) : Prop :=
  match buf b with None => size b = 0 | Some l => size b = Z.of_nat (length l) end.
Definition fill (b : my_buffer) (bs : list Z) : my_buffer :=
  mk_buffer (Some (bs ++ replicate (Z.to_nat (size b) - length bs) 0))
    (Z.max (size b) (Z.of_nat (length bs))).

Lemma fill_ok b bs : 0 ≤ size b → buffer_ok (fill b bs).
Proof. intros. unfold buffer_ok, fill. cbn. rewrite length_app, length_replicate. lia. Qed.

Lemma recv_run p ps s :
  coalesced (p :: ps) (incoming s) →
  ∃ segs, coalesced ps segs ∧
    recv (Z.of_nat (length p)) s = Done (p, s <| incoming := segs |>, []).
Proof.
  intros Hs. destruct (take_piece _ _ _ Hs) as (segs & Ht & Hc). exists segs. split; [done|].
  unfold recv, mbind, io_bind, get. rewrite Nat2Z.id, Ht. done.
Qed.

Lemma clear_fill b bs :
  buffer_ok b → 0 ≤ size b → (0 < length bs)%nat →
  let b1 := clear_my_buffer (if size b <? Z.of_nat (length bs)
    then mk_buffer (Some (replicate (Z.to_nat (Z.of_nat (length bs))) 0)) (Z.of_nat (length bs))
    else b) in
  mk_buffer (overwrite 0 bs <$> buf b1) (size b1) = fill b bs.
Proof.
  intros Hb Hs Hlen. unfold overwrite, fill. rewrite Nat2Z.id.
  destruct (Z.ltb_spec (size b) (Z.of_nat (length bs))).
  - unfold clear_my_buffer. cbn -[Z.ltb].
    destruct (0 <? Z.of_nat (length bs)) eqn:?; [|lia]. cbn.
    rewrite !length_replicate.
    rewrite take_0, drop_replicate, Nat.sub_diag. cbn [app].
    replace (Z.to_nat (size b) - length bs)%nat with 0%nat by lia. f_equal. lia.
  - destruct b as [[l|] sz]; unfold buffer_ok in Hb; cbn in *; [|lia].
    unfold clear_my_buffer. cbn -[Z.ltb]. destruct (0 <? sz) eqn:?; [|lia]. cbn.
    rewrite drop_replicate, take_0, Hb, Nat2Z.id. cbn [app]. f_equal. lia.
Qed.

Lemma recv_data_run b bs ps s :
  coalesced (frame bs ++ ps) (incoming s) → sendable bs → buffer_ok b → 0 ≤ size b →
  ∃ segs, coalesced ps segs ∧
    recv_data b s =
      Done ((i32 (Z.of_nat (length bs)), fill b bs), s <| incoming := segs |>, []).
Proof.
  intros Hs [Hlen Hmax] Hb Hsz. cbn [frame app] in Hs.
  destruct (recv_run _ _ _ Hs) as (segs & Hc & Hr). rewrite length_be in Hr.
  set (s1 := s <| incoming := segs |>) in *.
  destruct (recv_run bs ps s1 Hc) as (segs' & Hc' & Hr').
  exists segs'. split; [done|]. unfold recv_data. change (Z.of_nat 4) with 4 in Hr.
  erewrite bind_quiet by exact Hr. rewrite length_be. change (Z.of_nat 4 <? 4) with false.
  cbv iota. rewrite ntohl_be by done.
  cbv zeta. erewrite bind_quiet by exact Hr'. rewrite Z.eqb_refl. cbn [negb].
  unfold mret, io_ret. do 4 f_equal. by apply clear_fill.
Qed.

(** A message that the stream cuts in two is refused, and its rest is taken for the next
    header. *)
Theorem message_cut b bs rest segs s :
  incoming s = be 4 (Z.of_nat (length (bs ++ rest))) :: bs :: rest :: segs →
  rest ≠ [] → Z.of_nat (length (bs ++ rest)) < 4294967296 →
  ∃ b', recv_data b s = Done (-1, b', s <| incoming := rest :: segs |>, []).
Proof.
  intros Hs Hrest Hmax. set (n := Z.of_nat (length (bs ++ rest))) in *.
  set (s1 := s <| incoming := bs :: rest :: segs |>).
  assert (recv 4 s = Done (be 4 n, s1, [])) as Hr by (by unfold recv, mbind, io_bind, get; rewrite Hs).
  assert ((length bs < length (bs ++ rest))%nat) as Hlen.
  { rewrite length_app. destruct rest; [done|cbn; lia]. }
  assert (recv n s1 = Done (bs, s1 <| incoming := rest :: segs |>, [])) as Hr2.
  { unfold recv, mbind, io_bind, get. cbn [incoming s1 upd take_segment]. unfold n.
    rewrite Nat2Z.id, take_ge, drop_ge by lia. done. }
  unfold recv_data. erewrite bind_quiet by exact Hr. rewrite length_be.
  change (Z.of_nat 4 <? 4) with false. cbv iota.
  assert (ntohl (le_val (be 4 n)) = n) as -> by by apply ntohl_be.
  cbv zeta. erewrite bind_quiet by exact Hr2.
  rewrite (proj2 (Z.eqb_neq _ _)) by (unfold n; lia). by eexists.
Qed.

End net_wrapper.

(** ** The server *)
Module debug_server.
Import messages net_wrapper.

(** What the thread knows of the machine: where the guest's memory is in the process
    and what it holds, and the registers, as bytes, if KVM gives them. *)
Record machine_info : Type := mk_info {
  guest_mem_ptr : Z;
  mem_size : Z;
  guest : mem;
  vcpu_regs : option (list Z);
  vcpu_sregs : option (list Z);
}.

(** The bytes from an address of the process on; only the guest's memory is known. *)
Definition host_bytes (mi : machine_info) (addr n : Z) : io socket (list Z) :=
  let a := addr - guest_mem_ptr mi in
  if decide (n = 0 ∨ in_mem a (Z.to_nat n) (guest mi))
  then mret (mem_slice a (Z.to_nat n) (guest mi)) else crash OutOfBounds.

Definition send_dump_mem (mi : machine_info) (start_addr end_addr : Z) : io socket unit :=
  let start_guest_dump := u64 (guest_mem_ptr mi + start_addr) in
  let end_guest_dump := u64 (guest_mem_ptr mi + end_addr) in
  let dump_size := u64 (end_guest_dump - start_guest_dump) in
  if (u64 (guest_mem_ptr mi + mem_size mi) <? start_guest_dump) ||
     (u64 (guest_mem_ptr mi + mem_size mi) <? end_guest_dump)
  then
    now ← time;
    convert_to_network_order (init_simple_msg GENERIC_ERR now);;
    mret tt
  else
    bs ← host_bytes mi start_guest_dump (u32 dump_size);
    send_data bs;;
    mret tt.

Definition send_info (mi : machine_info) : io socket unit :=
  now ← time;
  msg ← convert_to_network_order (init_info_msg (mem_size mi) now);
  send_data msg;;
  match vcpu_regs mi with
  | None => mret tt
  | Some regs =>
      match vcpu_sregs mi with
      | None => mret tt
      | Some sregs => send_data regs;; send_data sregs;; mret tt
      end
  end.

Fixpoint worker_loop (fuel : nat) (mi : machine_info) (b : my_buffer) : io socket unit :=
  match fuel with
  | O => crash NeedInput
  | S fuel =>
      r ← recv_data b;
      let '(n, b) := r in
      if n =? 0 then mret tt
      else
        match buf b with
        | None => crash NullDeref
        | Some msg =>
            msg ← convert_to_host_order msg;
            t ← load msg t_off 4;
            if t =? REQ_DUMP_MEM then
              start_addr ← load msg start_addr_off 8;
              end_addr ← load msg end_addr_off 8;
              send_dump_mem mi start_addr end_addr;;
              worker_loop fuel mi (mk_buffer (Some msg) (size b))
            else if t =? REQ_INFO then send_info mi
            else mret tt
        end
  end.

(** Every turn but the last reads the four bytes of a header. *)
Definition worker_fun (mi : machine_info) : io socket unit :=
  s ← get; worker_loop (S (length (concat (incoming s)))) mi (mk_buffer None 0).

(** *** Memory dumps *)

(** The guest's memory lies in the address space of the process. *)
Record placed (mi : machine_info) : Prop := {
  placed_size : msize (guest mi) = mem_size mi;
  placed_32 : 0 < mem_size mi < 4294967296;
  placed_ptr : 0 ≤ guest_mem_ptr mi;
  placed_end : guest_mem_ptr mi + mem_size mi < 18446744073709551616;
}.

(** An address that the sum with the pointer does not wrap. *)
Definition unwrapped (mi : machine_info) (a : Z) : Prop :=
  0 ≤ a ∧ guest_mem_ptr mi + a < 18446744073709551616.

Lemma dump_memory_run mi start_addr end_addr s :
  placed mi → unwrapped mi start_addr → unwrapped mi end_addr →
  send_dump_mem mi start_addr end_addr s =
    if (mem_size mi <? start_addr) || (mem_size mi <? end_addr)
    then Done (tt, s <| calls := S (calls s) |>, [])
    else if start_addr <=? end_addr
    then Done (tt, s <| outgoing := outgoing s ++
           frame (mem_slice start_addr (Z.to_nat (end_addr - start_addr)) (guest mi)) |>, [])
    else Halt OutOfBounds.
Proof.
  intros [Hsz H32 Hp He] [Hs Hs'] [Hd Hd']. unfold send_dump_mem.
  rewrite !u64_id by (unfold is_u64; lia).
  set (p := guest_mem_ptr mi) in *. set (n := mem_size mi) in *.
  replace (p + n <? p + start_addr) with (n <? start_addr) by lia.
  replace (p + n <? p + end_addr) with (n <? end_addr) by lia.
  destruct ((n <? start_addr) || (n <? end_addr)) eqn:Hb.
  { erewrite bind_quiet by reflexivity.
    by erewrite bind_quiet by (apply simple_to_network; [done|unfold is_u32, GENERIC_ERR; lia]). }
  replace (p + end_addr - (p + start_addr)) with (end_addr - start_addr) by lia.
  unfold host_bytes. fold p. replace (p + start_addr - p) with start_addr by lia.
  destruct (Z.leb_spec start_addr end_addr).
  - rewrite u64_id, u32_id by (unfold is_u64, is_u32; lia).
    rewrite decide_True by (right; unfold in_mem; lia).
    erewrite bind_quiet by reflexivity. by erewrite bind_quiet by apply send_data_run.
  - replace (u32 (u64 (end_addr - start_addr))) with (4294967296 + end_addr - start_addr)
      by width_lia.
    rewrite decide_False by (unfold in_mem; lia). done.
Qed.

(** C34. For addresses that do not wrap when they are added to the address of the guest's
    memory in the process, a dump request is answered with exactly the bytes between them
    when both lie in the guest's memory in order, is dropped without an answer when one lies
    beyond it, and reads beyond it when they are in the wrong order. *)
Theorem dump_memory mi start_addr end_addr s :
  placed mi → unwrapped mi start_addr → unwrapped mi end_addr →
  send_dump_mem mi start_addr end_addr s =
    if (mem_size mi <? start_addr) || (mem_size mi <? end_addr)
    then Done (tt, s <| calls := S (calls s) |>, [])
    else if start_addr <=? end_addr
    then Done (tt, s <| outgoing := outgoing s ++
           frame (mem_slice start_addr (Z.to_nat (end_addr - start_addr)) (guest mi)) |>, [])
    else Halt OutOfBounds.
Proof. apply dump_memory_run. Qed.

(** A start address that wraps passes the test of the bounds, and the dump reads the memory
    of the process before the guest's. *)
Theorem dump_leaks mi back end_addr s :
  placed mi → 0 < back ≤ guest_mem_ptr mi → 0 ≤ end_addr ≤ mem_size mi →
  back + end_addr < 4294967296 →
  send_dump_mem mi (18446744073709551616 - back) end_addr s = Halt OutOfBounds.
Proof.
  intros [Hsz H32 Hp He] Hb Hend Hn. unfold send_dump_mem.
  set (p := guest_mem_ptr mi) in *. set (n := mem_size mi) in *.
  replace (u64 (p + (18446744073709551616 - back))) with (p - back) by width_lia.
  rewrite !u64_id by (unfold is_u64; lia).
  replace ((p + n <? p - back) || (p + n <? p + end_addr)) with false by lia.
  unfold host_bytes. fold p. rewrite u32_id by (unfold is_u32; lia).
  rewrite decide_False by (unfold in_mem; lia). done.
Qed.

(** *** The thread *)

(** The members of a received request. *)
Lemma request_fields {St} start_addr end_addr now rest (s : St) :
  is_u64 start_addr → is_u64 end_addr →
  let msg := init_req_dump_mem start_addr end_addr now ++ rest in
  load msg t_off 4 s = Done (REQ_DUMP_MEM, s, []) ∧
  load msg start_addr_off 8 s = Done (start_addr, s, []) ∧
  load msg end_addr_off 8 s = Done (end_addr, s, []).
Proof.
  intros Hs He msg.
  assert (∀ x, is_u64 x → le_val (le_bytes 8 x) = x) as Hval.
  { intros x Hx. rewrite le_val_bytes. by apply u64_id. }
  assert (msg = le_bytes 4 REQ_DUMP_MEM ++ le_bytes 8 now ++ le_bytes 8 start_addr ++
    le_bytes 8 end_addr ++ rest) as -> by (unfold msg, init_req_dump_mem; by rewrite <- !app_assoc).
  split_and!.
  - by rewrite load_type.
  - rewrite app_assoc. rewrite <- (Hval start_addr) at 2 by done. apply load_at.
  - rewrite 2!app_assoc. rewrite <- (Hval end_addr) at 2 by done. rewrite <- app_assoc.
    rewrite app_assoc. apply load_at.
Qed.

Lemma i32_sendable bs : sendable bs → (i32 (Z.of_nat (length bs)) =? 0) = false.
Proof. intros [H1 H2]. apply Z.eqb_neq. width_lia. Qed.

(** A turn on a request for a dump, when the dump is sent. *)
Lemma turn_dump fuel mi b start_addr end_addr now ps s :
  coalesced (frame (wire_req_dump_mem start_addr end_addr now) ++ ps) (incoming s) →
  buffer_ok b → 0 ≤ size b → placed mi → 0 ≤ start_addr ≤ end_addr → end_addr ≤ mem_size mi →
  ∃ segs b', coalesced ps segs ∧ buffer_ok b' ∧ 0 ≤ size b' ∧
    worker_loop (S fuel) mi b s = worker_loop fuel mi b'
      (mk_socket segs (outgoing s ++
         frame (mem_slice start_addr (Z.to_nat (end_addr - start_addr)) (guest mi)))
       (times s) (calls s)).
Proof.
  intros Hs Hb Hsz Hmi Hse Hend. pose proof Hmi as [_ H32 Hp He].
  set (wire := wire_req_dump_mem start_addr end_addr now) in *.
  assert (length wire = 28%nat) as Hlen by reflexivity.
  assert (sendable wire) as Hwire by (split; rewrite Hlen; lia).
  destruct (recv_data_run b wire ps s Hs Hwire Hb Hsz) as (segs & Hc & Hr).
  set (rest := replicate (Z.to_nat (size b) - length wire) 0) in *.
  set (msg := init_req_dump_mem start_addr end_addr (u32 now) ++ rest).
  exists segs, (mk_buffer (Some msg) (size (fill b wire))).
  split; [done|]. split; [|split; [cbn; lia|]].
  { unfold buffer_ok. cbn [buf size fill]. unfold msg. rewrite length_app. unfold rest.
    rewrite length_replicate, Hlen.
    change (length (init_req_dump_mem start_addr end_addr (u32 now))) with 28%nat. lia. }
  cbn [worker_loop]. erewrite bind_quiet by exact Hr. cbv beta iota zeta.
  rewrite i32_sendable by done. cbn [buf fill size]. fold rest.
  erewrite bind_quiet by apply req_dump_mem_to_host. fold msg.
  set (s1 := s <| incoming := segs |>).
  destruct (request_fields start_addr end_addr (u32 now) rest s1) as (Ht & Hs1 & He1);
    [unfold is_u64; lia..|]. fold msg in Ht, Hs1, He1.
  erewrite bind_quiet by exact Ht. change (REQ_DUMP_MEM =? REQ_DUMP_MEM) with true. cbv iota.
  erewrite bind_quiet by exact Hs1. erewrite bind_quiet by exact He1.
  pose proof (dump_memory_run mi start_addr end_addr s1 Hmi) as Hdump.
  rewrite (proj2 (orb_false_iff _ _)) in Hdump by lia.
  rewrite (proj2 (Z.leb_le _ _)) in Hdump by lia.
  erewrite bind_quiet by (apply Hdump; unfold unwrapped; lia). by destruct s.
Qed.

(** A request for information, the last of a connection. *)
Lemma turn_info fuel mi b now ps s regs sregs :
  coalesced (frame (wire_simple REQ_INFO now) ++ ps) (incoming s) →
  buffer_ok b → 0 ≤ size b → vcpu_regs mi = Some regs → vcpu_sregs mi = Some sregs →
  ∃ s', worker_loop (S fuel) mi b s = Done (tt, s', []) ∧
    outgoing s' = outgoing s ++ frame (wire_info (mem_size mi) (times s (calls s))) ++
                  frame regs ++ frame sregs.
Proof.
  intros Hs Hb Hsz Hregs Hsregs. set (wire := wire_simple REQ_INFO now) in *.
  assert (length wire = 12%nat) as Hlen by reflexivity.
  assert (sendable wire) as Hwire by (split; rewrite Hlen; lia).
  destruct (recv_data_run b wire ps s Hs Hwire Hb Hsz) as (segs & Hc & Hr).
  cbn [worker_loop].
  assert (∀ (k : my_buffer → io socket unit), (r ← recv_data b; let '(n, b) := r in
      if n =? 0 then mret tt else k b) s = k (fill b wire) (s <| incoming := segs |>)) as Hturn.
  { intros k. erewrite bind_quiet by exact Hr. cbv beta iota. by rewrite i32_sendable. }
  rewrite Hturn. cbn [buf fill]. set (s1 := s <| incoming := segs |>).
  erewrite bind_quiet by (apply simple_to_host; [done|unfold is_u32, REQ_INFO; lia]).
  unfold init_simple_msg. rewrite <- app_assoc. erewrite bind_quiet by by apply load_type.
  change (le_val (le_bytes 4 REQ_INFO)) with REQ_INFO.
  change (REQ_INFO =? REQ_DUMP_MEM) with false. change (REQ_INFO =? REQ_INFO) with true. cbv iota.
  unfold send_info. erewrite bind_quiet by reflexivity.
  erewrite bind_quiet by apply info_to_network. erewrite bind_quiet by apply send_data_run.
  rewrite Hregs, Hsregs. erewrite bind_quiet by apply send_data_run.
  erewrite bind_quiet by apply send_data_run. eexists. split; [reflexivity|].
  cbn. by rewrite <- !app_assoc.
Qed.

(** *** Termination

    The thread never waits for a segment that does not come. *)
Definition patient {A} (m : io socket A) : Prop := ∀ s, m s ≠ Halt NeedInput.

Lemma patient_bind {A B} (m : io socket A) (f : A → io socket B) :
  patient m → (∀ a, patient (f a)) → patient (m ≫= f).
Proof.
  intros Hm Hf s. unfold mbind, io_bind. specialize (Hm s).
  destruct (m s) as [[[a s'] ev]|h]; [|congruence]. specialize (Hf a s').
  destruct (f a s') as [[[b s''] ev']|h]; congruence.
Qed.

Lemma patient_load msg off n : patient (load msg off n).
Proof. intros s. unfold load. by case_decide. Qed.

Lemma patient_convert conv off n msg : patient (convert conv off n msg).
Proof.
  apply patient_bind; [apply patient_load|]. intros v s. unfold store. by case_decide.
Qed.

Lemma patient_to_host msg : patient (convert_to_host_order msg).
Proof.
  apply patient_bind; [apply patient_convert|]. intros msg1.
  apply patient_bind; [apply patient_load|]. intros t.
  destruct (is_simple t); [apply patient_convert|].
  destruct (t =? SEND_INFO).
  { apply patient_bind; intros; apply patient_convert. }
  destruct (t =? REQ_DUMP_MEM); [|done].
  repeat (apply patient_bind; [apply patient_convert|]; intros). apply patient_convert.
Qed.

Lemma patient_to_network msg : patient (convert_to_network_order msg).
Proof.
  apply patient_bind; [apply patient_load|]. intros t.
  destruct (is_simple t); [apply patient_bind; intros; apply patient_convert|].
  destruct (t =? SEND_INFO).
  { repeat (apply patient_bind; [apply patient_convert|]; intros). apply patient_convert. }
  destruct (t =? REQ_DUMP_MEM); [|done].
  repeat (apply patient_bind; [apply patient_convert|]; intros). apply patient_convert.
Qed.

Lemma patient_send_info mi : patient (send_info mi).
Proof.
  apply patient_bind; [done|]. intros now. apply patient_bind; [apply patient_to_network|].
  intros msg. apply patient_bind; [done|]. intros _. by destruct (vcpu_regs mi), (vcpu_sregs mi).
Qed.

(** Operations that leave the stream alone. *)
Definition keeps_incoming {A} (m : io socket A) : Prop :=
  ∀ s a s' ev, m s = Done (a, s', ev) → incoming s' = incoming s.

Lemma keeps_bind {A B} (m : io socket A) (f : A → io socket B) :
  keeps_incoming m → (∀ a, keeps_incoming (f a)) → keeps_incoming (m ≫= f).
Proof.
  intros Hm Hf s b s'' ev H. unfold mbind, io_bind in H.
  destruct (m s) as [[[a s'] ev1]|] eqn:H1; [|done].
  destruct (f a s') as [[[b' s2] ev2]|] eqn:H2; [|done]. injection H as <- <- <-.
  by rewrite (Hf _ _ _ _ _ H2), (Hm _ _ _ _ H1).
Qed.

Lemma keeps_load msg off n : keeps_incoming (load msg off n).
Proof. intros s a s' ev. unfold load. case_decide; [by intros [= <- <- <-]|done]. Qed.

Lemma keeps_convert conv off n msg : keeps_incoming (convert conv off n msg).
Proof.
  apply keeps_bind; [apply keeps_load|]. intros v s a s' ev. unfold store.
  case_decide; [by intros [= <- <- <-]|done].
Qed.

Lemma keeps_ret {A} (a : A) : keeps_incoming (mret a).
Proof. by intros s b s' ev [= <- <- <-]. Qed.

Lemma keeps_simple t now : keeps_incoming (convert_to_network_order (init_simple_msg t now)).
Proof.
  apply keeps_bind; [apply keeps_load|]. intros t'.
  destruct (is_simple t'); [|destruct (t' =? SEND_INFO); [|destruct (t' =? REQ_DUMP_MEM)]];
    repeat (apply keeps_bind; [apply keeps_convert|]; intros);
    first [apply keeps_convert|apply keeps_ret].
Qed.

Lemma keeps_to_host msg : keeps_incoming (convert_to_host_order msg).
Proof.
  apply keeps_bind; [apply keeps_convert|]. intros msg1.
  apply keeps_bind; [apply keeps_load|]. intros t.
  destruct (is_simple t); [|destruct (t =? SEND_INFO); [|destruct (t =? REQ_DUMP_MEM)]];
    repeat (apply keeps_bind; [apply keeps_convert|]; intros);
    first [apply keeps_convert|apply keeps_ret].
Qed.

Lemma send_dump_frame mi start_addr end_addr :
  patient (send_dump_mem mi start_addr end_addr) ∧
  keeps_incoming (send_dump_mem mi start_addr end_addr).
Proof.
  unfold send_dump_mem. destruct (_ || _).
  - split.
    + apply patient_bind; [done|]. intros now.
      apply patient_bind; [apply patient_to_network|done].
    + apply keeps_bind; [by intros s a s' ev [= <- <- <-]|]. intros now.
      apply keeps_bind; [apply keeps_simple|]. intros _. apply keeps_ret.
  - split.
    + apply patient_bind; [|done]. intros s. unfold host_bytes. by case_decide.
    + apply keeps_bind.
      { intros s a s' ev. unfold host_bytes. case_decide; [by intros [= <- <- <-]|done]. }
      intros bs. apply keeps_bind; [|intros _; apply keeps_ret].
      intros s a s' ev. rewrite send_data_run. by intros [= <- <- <-].
Qed.

Lemma take_segment_concat n segs :
  (take_segment n segs).1 ++ concat (take_segment n segs).2 = concat segs.
Proof.
  destruct segs as [|seg segs]; [done|]. cbn. rewrite <- (take_drop n seg) at 3.
  destruct (drop n seg); cbn; by rewrite <- ?app_assoc, ?app_nil_r.
Qed.

(** A receipt ends at the header, or it has read one. *)
Lemma recv_data_inv b s :
  ∃ n b' s', recv_data b s = Done (n, b', s', []) ∧
    (n = -1 ∧ b' = b ∨
     (length (concat (incoming s')) + 4 ≤ length (concat (incoming s)))%nat).
Proof.
  unfold recv_data. pose proof (take_segment_concat 4 (incoming s)) as H1.
  destruct (take_segment 4 (incoming s)) as [hdr segs] eqn:E1.
  assert (recv 4 s = Done (hdr, s <| incoming := segs |>, [])) as Hr.
  { unfold recv, mbind, io_bind, get. change (Z.to_nat 4) with 4%nat. by rewrite E1. }
  erewrite bind_quiet by exact Hr. destruct (Z.ltb_spec (Z.of_nat (length hdr)) 4).
  { do 3 eexists. split; [reflexivity|]. by left. }
  cbv zeta. set (n := ntohl (le_val hdr)). set (b0 := clear_my_buffer _).
  pose proof (take_segment_concat (Z.to_nat n) segs) as H2.
  destruct (take_segment (Z.to_nat n) segs) as [bs segs'] eqn:E2.
  set (s1 := s <| incoming := segs |>).
  assert (recv n s1 = Done (bs, s1 <| incoming := segs' |>, [])) as Hr2.
  { unfold recv, mbind, io_bind, get. cbn [incoming s1 upd]. by rewrite E2. }
  erewrite bind_quiet by exact Hr2. cbn in H1, H2.
  assert ((length (concat segs') + 4 ≤ length (concat (incoming s)))%nat) as Hlen.
  { rewrite <- H1, <- H2, !length_app. lia. }
  destruct (negb _); do 3 eexists; (split; [reflexivity|]); by right.
Qed.

(** A buffer that holds a request that has been served. *)
Definition served (b : my_buffer) : Prop :=
  ∀ msg, buf b = Some msg → (4 ≤ length msg)%nat ∧ le_val (slice 0 4 msg) = REQ_DUMP_MEM.

(** Converting it again does not give a request. *)
Lemma served_to_host msg (s : socket) :
  (4 ≤ length msg)%nat → le_val (slice 0 4 msg) = REQ_DUMP_MEM →
  ∃ msg', convert_to_host_order msg s = Done (msg', s, []) ∧
    load msg' t_off 4 s = Done (67108864, s, []).
Proof.
  intros Hlen Hv. set (msg' := le_bytes 4 67108864 ++ drop 4 msg). exists msg'.
  assert (load msg' t_off 4 s = Done (67108864, s, [])) as Hl by by apply load_type.
  split; [|exact Hl]. unfold convert_to_host_order.
  assert (length (take 4 msg) = 4%nat) as H4 by (rewrite length_take; lia).
  pose proof (convert_at ntohl [] (take 4 msg) (drop 4 msg) s) as Hc.
  rewrite H4 in Hc. cbn [app length] in Hc. rewrite take_drop in Hc.
  change (take 4 msg) with (slice 0 4 msg) in Hc. rewrite Hv in Hc.
  erewrite bind_quiet by exact Hc. by erewrite bind_quiet by exact Hl.
Qed.

Lemma load_bind {A} msg off n (k : Z → io socket A) s :
  (v ← load msg off n; k v) s =
    if decide (off + n ≤ length msg)%nat then k (le_val (slice off n msg)) s
    else Halt OutOfBounds.
Proof. unfold load. case_decide; [by erewrite bind_quiet by reflexivity|done]. Qed.

Lemma worker_loop_patient fuel mi b s :
  served b → (length (concat (incoming s)) < fuel)%nat →
  worker_loop fuel mi b s ≠ Halt NeedInput.
Proof.
  revert b s. induction fuel as [|fuel IH]; intros b s Hb Hf; [lia|].
  cbn [worker_loop]. destruct (recv_data_inv b s) as (n & b' & s1 & Hr & Hcase).
  erewrite bind_quiet by exact Hr. cbv beta iota. destruct (n =? 0); [done|].
  destruct (buf b') as [msg|] eqn:Hbuf; [|done].
  destruct Hcase as [[_ ->]|Hlen].
  { destruct (Hb msg Hbuf) as [H4 Hv]. destruct (served_to_host msg s1 H4 Hv) as (msg' & Hc & Hl).
    erewrite bind_quiet by exact Hc. by erewrite bind_quiet by exact Hl. }
  unfold mbind at 1, io_bind at 1. pose proof (patient_to_host msg s1) as Hp.
  destruct (convert_to_host_order msg s1) as [[[msg' s2] ev]|h] eqn:Hc; [|congruence].
  apply keeps_to_host in Hc.
  assert ((t ← load msg' t_off 4;
     if t =? REQ_DUMP_MEM
     then start_addr ← load msg' start_addr_off 8; end_addr ← load msg' end_addr_off 8;
          send_dump_mem mi start_addr end_addr;; worker_loop fuel mi (mk_buffer (Some msg') (size b'))
     else if t =? REQ_INFO then send_info mi else mret tt) s2 ≠ Halt NeedInput) as Hrest.
  { rewrite load_bind. case_decide as Hl; [|done].
    destruct (Z.eqb_spec (le_val (slice t_off 4 msg')) REQ_DUMP_MEM) as [Ht|].
    2:{ destruct (_ =? REQ_INFO); [apply patient_send_info|done]. }
    rewrite load_bind. case_decide; [|done]. rewrite load_bind. case_decide; [|done].
    set (st := le_val (slice start_addr_off 8 msg')). set (en := le_val (slice end_addr_off 8 msg')).
    destruct (send_dump_frame mi st en) as [Hpd Hk]. specialize (Hpd s2).
    unfold mbind, io_bind.
    destruct (send_dump_mem mi st en s2) as [[[u s3] ev3]|h] eqn:Hd; [|congruence].
    apply Hk in Hd. specialize (IH (mk_buffer (Some msg') (size b')) s3).
    destruct (worker_loop fuel mi _ s3) as [[[u' s4] ev4]|h]; [done|].
    enough (Halt h ≠ @Halt (unit * socket * list event) NeedInput) by congruence. apply IH.
    - intros m [= <-]. split; [unfold t_off in Hl; lia|done].
    - rewrite Hd, Hc. lia. }
  destruct ((t ← load msg' t_off 4; _) s2) as [[[u s3] ev3]|h]; congruence.
Qed.

(** C35. The thread that serves a client ends, or the process faults, on every stream,
    complete, cut or malformed: it never waits for more than the stream has, since a turn
    that reads no header finds in its buffer a request already converted, which it does not
    serve again. *)
Theorem worker_terminates mi s : worker_fun mi s ≠ Halt NeedInput.
Proof.
  unfold worker_fun. erewrite bind_quiet by reflexivity.
  apply worker_loop_patient; [by intros msg|lia].
Qed.

(** A client that closes the connection before it sends anything makes the thread
    dereference a null buffer. *)
Theorem client_vanishes mi clock : worker_fun mi (mk_socket [] [] clock 0) = Halt NullDeref.
Proof. reflexivity. Qed.

End debug_server.
