(* ===== verification/DebugClient.v ===== *)
(** * The debug client (debug-client/debug_client.cpp)

The program that asks the debug server of DebugServer.v for a page of the guest's memory and
for the registers, and prints them.  What the operating system answers about the address and
the connection is an argument; the layout of the registers is that of [linux/kvm.h]. *)

From S2P Require Import Prelude IniReader DebugServer.
Import messages net_wrapper debug_server.

Module debug_client.

(** [printf("%02x")] of a [char], which is signed: a negative one is printed as the
    32-bit number it is promoted to. *)
Definition hexdigits : list Z := chars "0123456789abcdef".
Definition hexdigit (d : Z) : Z := nth (Z.to_nat d) hexdigits 0.
Definition print_char (c : Z) : list Z :=
  (if 128 <=? c then chars "ffffff" else []) ++ [hexdigit (c / 16); hexdigit (c mod 16)].

(** [sizeof] of the structures of KVM. *)
Definition sizeof_regs : nat := 144.
Definition sizeof_sregs : nat := 312.
Definition sizeof_info_msg : nat := 20.

(** The dump the program prints, and, if it arrives, the size of the memory and the
    registers. *)
Record result : Type := mk_result { dump : list Z; info : option (Z * list Z * list Z) }.

(** [memcpy] out of the buffer, which is null before anything is received. *)
Definition copy (b : my_buffer) (n : nat) : io socket (list Z) :=
  match buf b with
  | None => crash NullDeref
  | Some bs => if decide (n ≤ length bs)%nat then mret (take n bs) else crash OutOfBounds
  end.

(** [main], once it is connected: what it receives, without the text around it. *)
Definition exchange : io socket result :=
  now ← time;
  mess ← convert_to_network_order (init_req_dump_mem 0xBF000 (0xBF000 + 2000) now);
  send_data mess;;
  r ← recv_data (mk_buffer None 0);
  let my_buff := r.2 in
  bytes ← (if size my_buff =? 0 then mret [] else copy my_buff (Z.to_nat (size my_buff)));
  now ← time;
  msg_req ← convert_to_network_order (init_simple_msg REQ_INFO now);
  send_data msg_req;;
  r ← recv_data my_buff;
  if r.1 =? -1 then mret (mk_result (concat (map print_char bytes)) None)
  else
    match buf r.2 with
    | None => crash NullDeref
    | Some msg =>
        msg ← convert_to_host_order msg;
        let my_buff := mk_buffer (Some msg) (size r.2) in
        msg_ans ← copy my_buff sizeof_info_msg;
        mem_size ← load msg_ans mem_size_off 8;
        r ← recv_data my_buff;
        regs ← copy r.2 sizeof_regs;
        r ← recv_data r.2;
        sregs ← copy r.2 sizeof_sregs;
        mret (mk_result (concat (map print_char bytes)) (Some (mem_size, regs, sregs)))
    end.

(** ** What is printed *)

(** The digits of a number in a base, as the stream and [printf] print them. *)
Fixpoint to_base (fuel : nat) (base n : Z) (acc : list Z) : list Z :=
  match fuel with
  | O => acc
  | S fuel =>
      let acc := hexdigit (n mod base) :: acc in
      if n / base =? 0 then acc else to_base fuel base (n / base) acc
  end.

(** An unsigned number of at most 64 bits, and a pointer: the null pointer has no prefix. *)
Definition decimal (n : Z) : list Z := to_base 20 10 n [].
Definition pointer (n : Z) : list Z := if n =? 0 then chars "0" else chars "0x" ++ to_base 16 16 n [].

Definition newline : list Z := [10].
Definition line (name value : list Z) : list Z := [9] ++ name ++ value ++ newline.

(** Members of [kvm_regs] and [kvm_sregs]. *)
Definition member (off n : nat) (bytes : list Z) : Z := le_val (slice off n bytes).
Definition rsp (regs : list Z) : Z := member 48 8 regs.
Definition rip (regs : list Z) : Z := member 128 8 regs.
Definition ds (off n : nat) (sregs : list Z) : Z := member (24 + off) n sregs.
Definition gdt (off n : nat) (sregs : list Z) : Z := member (192 + off) n sregs.
Definition idt (off n : nat) (sregs : list Z) : Z := member (208 + off) n sregs.
Definition cr0 (sregs : list Z) : Z := member 224 8 sregs.
Definition cr2 (sregs : list Z) : Z := member 232 8 sregs.
Definition cr3 (sregs : list Z) : Z := member 240 8 sregs.
Definition cr4 (sregs : list Z) : Z := member 248 8 sregs.
Definition efer (sregs : list Z) : Z := member 264 8 sregs.

(** The three groups of lines of [trace_user_program]. *)
Definition trace_general (regs sregs : list Z) : list Z :=
  (chars "Target program dump: " ++ newline) ++
  line (chars "RIP: ") (pointer (rip regs)) ++
  line (chars "RSP: ") (pointer (rsp regs)) ++
  line (chars "CR4: ") (pointer (cr4 sregs)) ++
  line (chars "CR3: ") (pointer (cr3 sregs)) ++
  line (chars "CR2: ") (pointer (cr2 sregs)) ++
  line (chars "CR0: ") (pointer (cr0 sregs)) ++
  line (chars "EFER: ") (pointer (efer sregs)).

Definition trace_data_segment (sregs : list Z) : list Z :=
  line (chars "SREGS base: ") (decimal (u32 (ds 0 8 sregs))) ++
  line (chars "SREGS limit: ") (decimal (u32 (ds 8 4 sregs))) ++
  line (chars "SREGS selector: ") (decimal (u32 (ds 12 2 sregs))) ++
  line (chars "SREGS present: ") (decimal (u32 (ds 15 1 sregs))) ++
  line (chars "SREGS type: ") (decimal (u32 (ds 14 1 sregs))) ++
  line (chars "SREGS dpl: ") (decimal (u32 (ds 16 1 sregs))) ++
  line (chars "SREGS db: ") (decimal (u32 (ds 17 1 sregs))) ++
  line (chars "SREGS s: ") (decimal (u32 (ds 18 1 sregs))) ++
  line (chars "SREGS l: ") (decimal (u32 (ds 19 1 sregs))) ++
  line (chars "SREGS g: ") (decimal (u32 (ds 20 1 sregs))) ++
  line (chars "SREGS type: ") (decimal (u32 (ds 14 1 sregs))) ++
  line (chars "SREGS selector: ") (decimal (u32 (ds 12 2 sregs))).

Definition trace_tables (sregs : list Z) : list Z :=
  line (chars "IDT base: ") (pointer (idt 0 8 sregs)) ++
  line (chars "IDT limit: ") (decimal (u32 (idt 8 2 sregs))) ++
  line (chars "GDT base: ") (pointer (gdt 0 8 sregs)) ++
  line (chars "GDT limit: ") (decimal (u32 (gdt 8 2 sregs))).

Definition trace_user_program (regs sregs : list Z) : list Z :=
  trace_general regs sregs ++ trace_data_segment sregs ++ trace_tables sregs.

(** The text of an exchange. *)
Definition printed (r : result) : list Z :=
  chars "req_dump_mem type:" ++ decimal REQ_DUMP_MEM ++ newline ++
  chars "-----------Memory dump------------" ++ newline ++
  dump r ++
  chars "----------------------------------" ++ newline ++
  match info r with
  | None => []
  | Some (mem_size, regs, sregs) =>
      chars "---------------Info---------------" ++ newline ++
      chars "Mem_size: " ++ decimal mem_size ++ chars " " ++ newline ++
      trace_user_program regs sregs
  end.

(** ** The program *)

Definition ULONG_MAX : Z := 18446744073709551615.

(** [sscanf("%hu")]: the value that it stores, if it finds a number. *)
Definition scan_hu (s : list Z) : option Z :=
  let s := ini.lskip s in
  let '(negative, s) :=
    match s with
    | c :: s' => if c =? 45 then (true, s') else if c =? 43 then (false, s') else (false, s)
    | [] => (false, [])
    end in
  match INIReader.digits 10 s with
  | [] => None
  | ds =>
      let n := INIReader.number 10 ds in
      Some (u16 (if ULONG_MAX <? n then ULONG_MAX else if negative then - n else n))
  end.

Definition htons (x : Z) : Z := le_val (rev (le_bytes 2 x)).

(** What the operating system answers: the address that a text denotes, whether there is a
    socket, and whether a connection to an address and a port succeeds. *)
Record host : Type := mk_host {
  inet_pton : list Z → option Z;
  socket_opens : bool;
  connects : Z → Z → bool;
}.

(** What is printed on the standard output, and what the process ends with. *)
Definition main (argv : list (list Z)) (h : host) : io socket (list Z * Z) :=
  if (length argv <? 3)%nat
  then mret (chars "use: ./debug-client <host remoto> <porta>" ++ newline, -1)
  else
    let host := nth 1 argv [] in
    match inet_pton h host with
    | None => mret (chars "Errore: server ip not valid." ++ newline, -1)
    | Some sin_addr =>
        let sin_port := htons (default 0 (scan_hu (nth 2 argv []))) in
        if negb (socket_opens h) then mret ([], -1)
        else if negb (connects h sin_addr sin_port) then mret ([], 1)
        else
          r ← exchange;
          mret (chars "Connesso correttamente al server " ++ host ++ newline ++ printed r, 0)
    end.

(** ** A session *)

Lemma copy_fill b bs n (s : socket) :
  length bs = n → copy (fill b bs) n s = Done (bs, s, []).
Proof.
  intros <-. unfold copy. cbn [buf fill]. rewrite decide_True by (rewrite length_app; lia).
  by rewrite take_app_length.
Qed.

Lemma copy_info mem_size now rest n (s : socket) :
  copy (mk_buffer (Some (init_info_msg mem_size now ++ rest)) n) sizeof_info_msg s =
    Done (init_info_msg mem_size now, s, []).
Proof.
  unfold copy. cbn [buf]. rewrite decide_True
    by (rewrite length_app; change (length (init_info_msg mem_size now)) with 20%nat;
        unfold sizeof_info_msg; lia).
  change sizeof_info_msg with (length (init_info_msg mem_size now)). by rewrite take_app_length.
Qed.

Lemma info_size {St} mem_size now (s : St) :
  is_u64 mem_size →
  load (init_info_msg mem_size now) mem_size_off 8 s = Done (mem_size, s, []).
Proof.
  intros Hm. assert (le_val (le_bytes 8 mem_size) = mem_size) as Hval
    by (rewrite le_val_bytes; by apply u64_id).
  unfold init_info_msg. rewrite app_assoc. rewrite <- Hval at 2.
  rewrite <- (app_nil_r (le_bytes 8 mem_size)). apply load_at.
Qed.

(** What each side sends. *)
Definition requests (times : nat → Z) : list (list Z) :=
  frame (wire_req_dump_mem 0xBF000 (0xBF000 + 2000) (times 0%nat)) ++
  frame (wire_simple REQ_INFO (times 1%nat)).
Definition page (mi : machine_info) : list Z := mem_slice 0xBF000 2000 (guest mi).
Definition replies (mi : machine_info) (regs sregs : list Z) (times : nat → Z) : list (list Z) :=
  frame (page mi) ++ frame (wire_info (mem_size mi) (times 0%nat)) ++ frame regs ++ frame sregs.

Lemma server_session mi regs sregs ts tc segs :
  placed mi → 0xBF000 + 2000 ≤ mem_size mi →
  vcpu_regs mi = Some regs → vcpu_sregs mi = Some sregs → coalesced (requests tc) segs →
  ∃ s, worker_fun mi (mk_socket segs [] ts 0) = Done (tt, s, []) ∧
    outgoing s = replies mi regs sregs ts.
Proof.
  intros Hmi Hsize Hr Hs Hc. unfold worker_fun. erewrite bind_quiet by reflexivity.
  assert (∃ fuel, S (length (concat segs)) = S (S fuel)) as [fuel Hfuel].
  { rewrite (coalesced_concat _ _ Hc). by eexists. }
  cbn [incoming]. rewrite Hfuel.
  destruct (turn_dump (S fuel) mi (mk_buffer None 0) 0xBF000 (0xBF000 + 2000) (tc 0%nat)
    (frame (wire_simple REQ_INFO (tc 1%nat))) (mk_socket segs [] ts 0)) as
    (segs' & b & Hc' & Hb & Hsz & Hrun); [done..|lia| lia|].
  replace (Z.to_nat (0xBF000 + 2000 - 0xBF000)) with 2000%nat in Hrun by lia.
  fold (page mi) in Hrun. rewrite Hrun. set (s1 := mk_socket _ _ _ _).
  destruct (turn_info fuel mi b (tc 1%nat) [] s1 regs sregs) as (s' & Hs' & Hout); [|done..|].
  - by rewrite app_nil_r.
  - exists s'. split; [exact Hs'|]. rewrite Hout. unfold s1, replies. cbn [outgoing times calls].
    by rewrite <- app_assoc.
Qed.

Lemma client_session mi regs sregs ts tc segs :
  placed mi → 0xBF000 + 2000 ≤ mem_size mi →
  length regs = sizeof_regs → length sregs = sizeof_sregs →
  coalesced (replies mi regs sregs ts) segs →
  ∃ s, exchange (mk_socket segs [] tc 0) =
      Done (mk_result (concat (map print_char (page mi))) (Some (mem_size mi, regs, sregs)), s, []) ∧
    outgoing s = requests tc.
Proof.
  intros Hmi Hsize Hr Hs Hc. unfold replies in Hc. set (s0 := mk_socket segs [] tc 0).
  assert (length (page mi) = 2000%nat) as Hpage by apply length_mem_slice.
  assert (sendable (page mi)) as Hp by (split; rewrite Hpage; lia).
  unfold exchange. erewrite bind_quiet by reflexivity. cbn [times calls].
  erewrite bind_quiet by apply req_dump_mem_to_network.
  erewrite bind_quiet by apply send_data_run. set (s1 := _ <| outgoing := _ |>).
  destruct (recv_data_run (mk_buffer None 0) (page mi) _ s1 Hc Hp eq_refl ltac:(done))
    as (segs1 & Hc1 & Hr1).
  erewrite bind_quiet by exact Hr1. cbn [snd].
  assert (size (fill (mk_buffer None 0) (page mi)) = 2000) as Hsz
    by (cbn [size fill]; rewrite Hpage; lia).
  rewrite Hsz. change (2000 =? 0) with false. cbv iota.
  erewrite bind_quiet by (apply copy_fill; rewrite Hpage; lia).
  erewrite bind_quiet by reflexivity.
  erewrite bind_quiet by (apply simple_to_network; [done|unfold is_u32, REQ_INFO; lia]).
  erewrite bind_quiet by apply send_data_run.
  set (b1 := fill (mk_buffer None 0) (page mi)) in *.
  assert (buffer_ok b1) as Hb1 by (apply fill_ok; done).
  set (s2 := _ <| outgoing := _ |>).
  set (wire := wire_info (mem_size mi) (ts 0%nat)) in *.
  assert (length wire = 20%nat) as Hlen by reflexivity.
  assert (sendable wire) as Hwire by (split; rewrite Hlen; lia).
  destruct (recv_data_run b1 wire _ s2 Hc1 Hwire Hb1 ltac:(lia)) as (segs2 & Hc2 & Hr2).
  erewrite bind_quiet by exact Hr2. cbn [fst snd]. rewrite Hlen.
  change (i32 (Z.of_nat 20) =? -1) with false. cbv iota. cbn [buf fill]. rewrite Hlen.
  set (rest := replicate _ 0). erewrite bind_quiet by apply info_to_host.
  set (msg := init_info_msg (mem_size mi) (u32 (ts 0%nat))).
  erewrite bind_quiet by (apply (copy_info (mem_size mi) (u32 (ts 0%nat)) rest)).
  erewrite bind_quiet by (apply info_size; pose proof (placed_32 _ Hmi); unfold is_u64; lia).
  set (b2 := mk_buffer (Some (msg ++ rest)) (size (fill b1 wire))).
  assert (buffer_ok b2 ∧ 0 ≤ size b2) as [Hb2 Hsz2].
  { unfold buffer_ok, b2. cbn [buf size fill]. rewrite Hlen, Hsz, length_app.
    unfold rest. rewrite length_replicate, Hsz.
    change (length msg) with 20%nat. lia. }
  assert (sendable regs ∧ sendable sregs) as [Hsr Hss]
    by (unfold sendable; rewrite Hr, Hs; unfold sizeof_regs, sizeof_sregs; lia).
  set (s3 := s2 <| incoming := segs2 |>).
  destruct (recv_data_run b2 regs _ s3 Hc2 Hsr Hb2 Hsz2) as (segs3 & Hc3 & Hr3).
  erewrite bind_quiet by exact Hr3. cbn [snd]. erewrite bind_quiet by by apply copy_fill.
  rewrite <- (app_nil_r (frame sregs)) in Hc3. set (s4 := s3 <| incoming := segs3 |>).
  destruct (recv_data_run (fill b2 regs) sregs [] s4 Hc3 Hss) as (segs4 & _ & Hr4);
    [by apply fill_ok|cbn [size fill]; lia|].
  erewrite bind_quiet by exact Hr4. cbn [snd]. erewrite bind_quiet by by apply copy_fill.
  eexists. split; [reflexivity|]. reflexivity.
Qed.

(** The program on a command line and a host for which the connection is made. *)
Definition connected (argv : list (list Z)) (h : host) : Prop :=
  (3 ≤ length argv)%nat ∧ ∃ sin_addr, inet_pton h (nth 1 argv []) = Some sin_addr ∧
    socket_opens h = true ∧
    connects h sin_addr (htons (default 0 (scan_hu (nth 2 argv [])))) = true.

Lemma main_connected argv h s r s' :
  connected argv h → exchange s = Done (r, s', []) →
  main argv h s = Done
    ((chars "Connesso correttamente al server " ++ nth 1 argv [] ++ newline ++ printed r, 0), s', []).
Proof.
  intros (Hl & a & Ha & Hs & Hc) Hr. unfold main. rewrite (proj2 (Nat.ltb_ge _ _)), Ha, Hs by lia.
  cbn [negb]. rewrite Hc. cbn [negb]. by erewrite bind_quiet by exact Hr.
Qed.

(** C15. A whole session of the debug client with the debug server, whose process has read
    the registers of the virtual CPU and holds the requested page in the guest's memory:
    however the stream joins the pieces that each side sends, the client prints the page,
    the size of the memory and the listing of the registers, exactly as the server's process
    holds them, and ends with 0. *)
Theorem debug_session mi regs sregs (server_clock client_clock : nat → Z) requested argv h :
  placed mi → 0xBF000 + 2000 ≤ mem_size mi →
  vcpu_regs mi = Some regs → vcpu_sregs mi = Some sregs →
  length regs = sizeof_regs → length sregs = sizeof_sregs →
  coalesced (requests client_clock) requested → connected argv h →
  ∃ server, worker_fun mi (mk_socket requested [] server_clock 0) = Done (tt, server, []) ∧
    ∀ replied, coalesced (outgoing server) replied →
      ∃ client, main argv h (mk_socket replied [] client_clock 0) =
          Done ((chars "Connesso correttamente al server " ++ nth 1 argv [] ++ newline ++
                 chars "req_dump_mem type:4" ++ newline ++
                 chars "-----------Memory dump------------" ++ newline ++
                 concat (map print_char (page mi)) ++
                 chars "----------------------------------" ++ newline ++
                 chars "---------------Info---------------" ++ newline ++
                 chars "Mem_size: " ++ decimal (mem_size mi) ++ chars " " ++ newline ++
                 trace_user_program regs sregs, 0),
                client, []) ∧
        outgoing client = requests client_clock.
Proof.
  intros Hmi Hsize Hr Hs Hlr Hls Hc Hconn.
  destruct (server_session mi regs sregs server_clock client_clock requested Hmi Hsize Hr Hs Hc)
    as (server & Hrun & Hout).
  exists server. split; [exact Hrun|]. intros replied Hrep. rewrite Hout in Hrep.
  destruct (client_session mi regs sregs server_clock client_clock replied Hmi Hsize Hlr Hls Hrep)
    as (client & Hcl & Hout'). exists client. split; [|exact Hout'].
  exact (main_connected argv h _ _ _ Hconn Hcl).
Qed.

(** Without a connection the client asks for nothing and ends with -1 or 1; it says why
    exactly for a missing argument and an invalid address. *)
Theorem client_gives_up (argv : list (list Z)) (h : host) (s : socket) :
  ¬ connected argv h →
  ∃ text code, main argv h s = Done ((text, code), s, []) ∧ (code = -1 ∨ code = 1) ∧
    (code = 1 ↔ (3 ≤ length argv)%nat ∧ is_Some (inet_pton h (nth 1 argv [])) ∧ socket_opens h = true) ∧
    (text ≠ [] ↔ (length argv < 3)%nat ∨ inet_pton h (nth 1 argv []) = None).
Proof.
  intros Hn. unfold main. destruct (Nat.ltb_spec (length argv) 3) as [Hl|Hl].
  { eexists _, _. split; [done|]. split; [by left|]. split; [|split; auto; done]. split; [done|lia]. }
  destruct (inet_pton h _) as [a|] eqn:Ha.
  2: { eexists _, _. split; [done|]. split; [by left|]. split; [|split; auto; done].
       split; [done|]. by intros (_ & [? ?] & _). }
  destruct (socket_opens h) eqn:Hs; cbn [negb].
  - destruct (connects h _ _) eqn:Hc; cbn [negb].
    { exfalso. apply Hn. split; [done|]. by exists a. }
    exists [], 1. split; [done|]. split; [by right|]. split; [by split; [|done]|].
    split; [done|]. intros [?|?]; [lia|done].
  - exists [], (-1). split; [done|]. split; [by left|]. split; [split; [done|by intros (_ & _ & ?)]|].
    split; [done|]. intros [?|?]; [lia|done].
Qed.

(** *** Numbers *)

Lemma hexdigit_digit d : 0 ≤ d < 16 → hexdigit d = grammar.digit d.
Proof.
  intros Hd. assert (d ∈ seqZ 0 16) as Hin by (apply elem_of_seqZ; lia). clear Hd. revert d Hin.
  apply Forall_forall. repeat constructor.
Qed.

Lemma to_base_S fuel base n acc :
  to_base (S fuel) base n acc =
  let acc := hexdigit (n mod base) :: acc in
  if n / base =? 0 then acc else to_base fuel base (n / base) acc.
Proof. done. Qed.

Lemma to_base_numeral fuel base n acc :
  1 < base ≤ 16 → 0 ≤ n < base ^ Z.of_nat (S fuel) →
  ∃ k, to_base (S fuel) base n acc = grammar.numeral base (S k) n ++ acc ∧ n < base ^ Z.of_nat (S k).
Proof.
  intros Hb. revert n acc. induction fuel as [|fuel IH]; intros n acc Hn;
    (pose proof (Z.mod_pos_bound n base ltac:(lia)) as Hm; rewrite to_base_S; cbn zeta;
     rewrite hexdigit_digit by lia; destruct (Z.eqb_spec (n / base) 0) as [Hz|Hz]).
  - exists 0%nat. split; [done|lia].
  - exfalso. apply Hz, Z.div_small. lia.
  - exists 0%nat. split; [done|]. apply Z.div_small_iff in Hz; lia.
  - rewrite (Nat2Z.inj_succ (S fuel)), Z.pow_succ_r in Hn by lia.
    assert (0 ≤ n / base < base ^ Z.of_nat (S fuel)) as Hq
      by (split; [apply Z.div_pos; lia|apply Z.div_lt_upper_bound; lia]).
    destruct (IH (n / base) (grammar.digit (n mod base) :: acc) Hq) as (k & Hk & Hlt).
    exists (S k). rewrite Hk. split.
    + unfold grammar.numeral. cbn [grammar.in_base]. rewrite (map_app grammar.digit _ [n mod base]).
      by rewrite <- app_assoc.
    + rewrite (Nat2Z.inj_succ (S k)), Z.pow_succ_r by lia.
      pose proof (Z.div_mod n base ltac:(lia)). nia.
Qed.

Lemma to_base_read fuel base n tl :
  1 < base ≤ 16 → 0 ≤ n < base ^ Z.of_nat (S fuel) → base ≤ INIReader.digit_value (ini.char_at tl) →
  INIReader.number base (INIReader.digits base (to_base (S fuel) base n [] ++ tl)) = n.
Proof.
  intros Hb Hn Htl. destruct (to_base_numeral fuel base n [] Hb Hn) as (k & -> & Hk).
  rewrite app_nil_r, grammar.digits_numeral by done. apply grammar.number_in_base; lia.
Qed.

Lemma decimal_read n tl :
  is_u64 n → 10 ≤ INIReader.digit_value (ini.char_at tl) →
  INIReader.number 10 (INIReader.digits 10 (decimal n ++ tl)) = n.
Proof. unfold is_u64. intros Hn Htl. apply to_base_read; lia. Qed.

(** The numbers that the client prints are read back: decimal ones in base 10, addresses in
    base 16 after their prefix, which only the null address lacks. *)
Theorem printed_numbers (n : Z) (tl : list Z) (Hn : is_u64 n)
    (Htl : 16 ≤ INIReader.digit_value (ini.char_at tl)) :
  INIReader.number 10 (INIReader.digits 10 (decimal n ++ tl)) = n ∧
  if n =? 0 then pointer n = chars "0"
  else ∃ s, pointer n = chars "0x" ++ s ∧ INIReader.number 16 (INIReader.digits 16 (s ++ tl)) = n.
Proof.
  unfold is_u64 in Hn. split; [apply to_base_read; lia|]. unfold pointer.
  destruct (Z.eqb_spec n 0) as [|Hz]; [done|]. eexists. split; [done|]. apply to_base_read; lia.
Qed.

(** ** Examples *)

Definition machine0 : machine_info :=
  mk_info 0x7f0000000000 8388608 (mk_mem 8388608 (λ a, a mod 256))
    (Some (replicate 144 1)) (Some (replicate 312 2)).

Lemma machine0_placed : placed machine0.
Proof. split; cbn; lia. Qed.

(** Two headers and their messages in two segments. *)
Definition requested0 : list (list Z) :=
  [concat (frame (wire_req_dump_mem 0xBF000 (0xBF000 + 2000) 1700000000));
   concat (frame (wire_simple REQ_INFO 1700000000))].

Lemma requested0_coalesced : coalesced (requests (λ _, 1700000000)) requested0.
Proof.
  apply coalesced_join; [done|]. change (concat [?x]) with (x ++ []). rewrite app_nil_r.
  apply coalesced_piece; [done|]. apply coalesced_join; [done|].
  apply coalesced_piece; [done|]. apply coalesced_nil.
Qed.

(** A host at which 127.0.0.1 listens on the port 2000. *)
Definition host0 : host := mk_host
  (λ a, if decide (a = chars "127.0.0.1") then Some 0x0100007f else None) true
  (λ a p, (a =? 0x0100007f) && (p =? 0xd007)).
Definition argv0 : list (list Z) := [chars "./debug-client"; chars "127.0.0.1"; chars "2000"].

Lemma connected0 : connected argv0 host0.
Proof. split; [cbn; lia|]. exists 0x0100007f. by vm_compute. Qed.

Lemma debug_session_witness :
  ∃ server, worker_fun machine0 (mk_socket requested0 [] (λ _, 1700000001) 0) = Done (tt, server, []) ∧
    ∀ replied, coalesced (outgoing server) replied →
      ∃ text client, main argv0 host0 (mk_socket replied [] (λ _, 1700000000) 0) =
        Done ((text, 0), client, []) ∧
        take 55 text = chars "Connesso correttamente al server 127.0.0.1" ++ newline ++ chars "req_dump_mem".
Proof.
  destruct (debug_session machine0 (replicate 144 1) (replicate 312 2) (λ _, 1700000001)
    (λ _, 1700000000) requested0 argv0 host0 machine0_placed) as (server & Hrun & Hrep).
  - cbn. lia.
  - reflexivity.
  - reflexivity.
  - reflexivity.
  - reflexivity.
  - exact requested0_coalesced.
  - exact connected0.
  - exists server. split; [exact Hrun|]. intros replied Hc.
    destruct (Hrep replied Hc) as (client & Hmain & _). eexists _, client. split; [exact Hmain|].
    reflexivity.
Defined.

Lemma dump_memory_witness :
  send_dump_mem machine0 0x1000 0x1003 (mk_socket [] [] (λ _, 0) 0) =
    Done (tt, mk_socket [] (frame [0; 1; 2]) (λ _, 0) 0, []) ∧
  send_dump_mem machine0 0x1000 0x900000 (mk_socket [] [] (λ _, 0) 0) =
    Done (tt, mk_socket [] [] (λ _, 0) 1, []) ∧
  send_dump_mem machine0 0x1003 0x1000 (mk_socket [] [] (λ _, 0) 0) = Halt OutOfBounds.
Proof.
  assert (∀ a, 0 ≤ a < 0x1000000 → unwrapped machine0 a) as Hu.
  { intros a Ha. unfold unwrapped. cbn. lia. }
  split; [|split]; rewrite (dump_memory machine0 _ _ _ machine0_placed);
    try (apply Hu; lia); reflexivity.
Defined.

End debug_client.
