(* ===== verification/ConsoleLog.v ===== *)
(** * The log (backend/ConsoleLog.h, backend/ConsoleLog.cpp, and what kvm.cpp writes to it)

One stream that every thread shares, with the format of the numbers as a part of its state,
and the functions of kvm.cpp that only log: the result of a program, the memory and the
registers.  Each [<<] locks the mutex of the object, so a run is a sequence of items. *)

From stdpp Require Import gmap.
From S2P Require Import Prelude IniReader GdbServer DebugClient.

Module ConsoleLog.

(** ** The stream *)

(** What an output stream remembers between two insertions. *)
Record format : Type := mk_format { hex : bool; fill : Z; width : Z }.
#[export] Instance eta_format : Eta format := λ f, mk_format (hex f) (fill f) (width f).

(** The argument of one [<<]: a text, an unsigned number, a pointer, a manipulator. *)
Inductive item : Type :=
  | Str (s : list Z)
  | Num (n : Z)
  | Ptr (n : Z)
  | Hex | Dec
  | Setfill (c : Z)
  | Setw (n : Z)
  | Endl.

Definition number (f : format) (n : Z) : list Z :=
  if hex f then debug_client.to_base 16 16 n [] else debug_client.decimal n.

Definition padded (f : format) (s : list Z) : list Z :=
  replicate (Z.to_nat (width f) - length s) (fill f) ++ s.

(** The characters of an item, and the format that follows it. *)
Definition put (i : item) (f : format) : list Z * format :=
  match i with
  | Str s => (padded f s, f <| width := 0 |>)
  | Num n => (padded f (number f n), f <| width := 0 |>)
  | Ptr n => (padded f (debug_client.pointer n), f <| width := 0 |>)
  | Hex => ([], f <| hex := true |>)
  | Dec => ([], f <| hex := false |>)
  | Setfill c => ([], f <| fill := c |>)
  | Setw n => ([], f <| width := n |>)
  | Endl => ([10], f)
  end.

Fixpoint render (its : list item) (f : format) : list Z * format :=
  match its with
  | [] => ([], f)
  | i :: its =>
      let '(s, f) := put i f in
      let '(s', f) := render its f in (s ++ s', f)
  end.

(** A new stream prints decimal numbers and pads with blanks. *)
Definition new_format : format := mk_format false 32 0.

(** ** The object *)

(** The open file with its format, or the null pointer, and the contents of the files. *)
Record t : Type := mk {
  logstream : option (list Z * format);
  files : gmap (list Z) (list Z);
}.

Definition ConsoleLog (fs : gmap (list Z) (list Z)) : t := mk None fs.

Definition setFilePath (path : list Z) : io t unit :=
  modify (λ l, mk (Some (path, new_format)) (<[path := []]> (files l))).

Definition insert (i : item) : io t unit :=
  l ← get;
  match logstream l with
  | None => crash NullDeref
  | Some (path, f) =>
      let '(s, f) := put i f in
      modify (λ l, mk (Some (path, f)) (<[path := default [] (files l !! path) ++ s]> (files l)))
  end.

Fixpoint log (its : list item) : io t unit :=
  match its with
  | [] => mret tt
  | i :: its => insert i;; log its
  end.

(** ** What the supervisor logs *)

Definition text (s : string) : item := Str (chars s).

(** [logg << name << (unsigned int)n << endl]. *)
Definition field (name : string) (n : Z) : list item := [Str (9 :: chars name); Num (u32 n); Endl].
Definition pointer_field (name : string) (n : Z) : list item := [Str (9 :: chars name); Ptr n; Endl].

(** The bytes of [kvm_regs], or the error of the request. *)
Definition rax (regs : list Z) : Z := debug_client.member 0 8 regs.

Definition fetch_application_result (regs : list Z + list Z) : list item :=
  match regs with
  | inl error => [text "get regs: "; Str error; Endl]
  | inr regs => [Dec; text "Program result (keycode): "; Num (rax regs); Endl]
  end.

(** A [kvm_segment] at an offset of [kvm_sregs]. *)
Definition trace_kvm_segment (at_ : nat) (sregs : list Z) : list item :=
  let seg off n := debug_client.member (at_ + off) n sregs in
  field "SREGS base: " (seg 0 8)%nat ++
  field "SREGS limit: " (seg 8 4)%nat ++
  field "SREGS selector: " (seg 12 2)%nat ++
  field "SREGS present: " (seg 15 1)%nat ++
  field "SREGS type: " (seg 14 1)%nat ++
  field "SREGS dpl: " (seg 16 1)%nat ++
  field "SREGS db: " (seg 17 1)%nat ++
  field "SREGS s: " (seg 18 1)%nat ++
  field "SREGS l: " (seg 19 1)%nat ++
  field "SREGS g: " (seg 20 1)%nat ++
  field "SREGS type: " (seg 14 1)%nat ++
  field "SREGS selector: " (seg 12 2)%nat.

(** The members of [kvm_vcpu_events] that are shown. *)
Record kvm_vcpu_events : Type := mk_events {
  has_error_code : Z; error_code : Z;
  int_injected : Z; int_nr : Z; int_soft : Z; int_shadow : Z;
  nmi_injected : Z; nmi_pending : Z; nmi_masked : Z; nmi_pad : Z;
}.

(** The registers, the tables, and the pending events. *)
Definition trace_general (regs sregs : list Z) : list item :=
  [text "Target program dump: "; Endl] ++
  pointer_field "RIP: " (debug_client.rip regs) ++
  pointer_field "RSP: " (debug_client.rsp regs) ++
  pointer_field "CR4: " (debug_client.cr4 sregs) ++
  pointer_field "CR3: " (debug_client.cr3 sregs) ++
  pointer_field "CR2: " (debug_client.cr2 sregs) ++
  pointer_field "CR0: " (debug_client.cr0 sregs) ++
  pointer_field "EFER: " (debug_client.efer sregs).

Definition trace_tables (sregs : list Z) : list item :=
  pointer_field "IDT base: " (debug_client.idt 0 8 sregs) ++
  field "IDT limit: " (debug_client.idt 8 2 sregs) ++
  pointer_field "GDT base: " (debug_client.gdt 0 8 sregs) ++
  field "GDT limit: " (debug_client.gdt 8 2 sregs).

Definition trace_events (events : kvm_vcpu_events) : list item :=
  [text "Exception:"; Endl] ++
  field "has_error_code: " (has_error_code events) ++
  field "error_code: " (error_code events) ++
  [text "Interrupt:"; Endl] ++
  field "injected: " (int_injected events) ++
  field "nr: " (int_nr events) ++
  field "soft: " (int_soft events) ++
  field "shadow: " (int_shadow events) ++
  [text "NMI:"; Endl] ++
  field "injected: " (nmi_injected events) ++
  field "pending: " (nmi_pending events) ++
  field "masked: " (nmi_masked events) ++
  field "pad: " (nmi_pad events).

(** The dump, when the three requests succeed. *)
Definition trace_user_program (regs sregs : list Z) (events : kvm_vcpu_events) : list item :=
  trace_general regs sregs ++ trace_tables sregs ++
  [Str (chars "Segment CS:" ++ [10])] ++ trace_kvm_segment 0 sregs ++
  [Str (chars "Segment DS:" ++ [10])] ++ trace_kvm_segment 24 sregs ++
  [Str (chars "Segment ES:" ++ [10])] ++ trace_kvm_segment 48 sregs ++
  [Str (chars "Segment FS:" ++ [10])] ++ trace_kvm_segment 72 sregs ++
  [Str (chars "Segment GS:" ++ [10])] ++ trace_kvm_segment 96 sregs ++
  [Str (chars "Segment SS:" ++ [10])] ++ trace_kvm_segment 120 sregs ++
  trace_events events.

(** The state of the interrupt controllers, as the bytes of [kvm_ioapic_state] and of
    [kvm_pic_state], or the error of the request. *)
Definition ioapic_head (chip : list Z) : list item :=
  [text "APIC state dump: "; Endl] ++
  [Str (9 :: chars "base_address: "); Num (debug_client.member 0 8 chip); Endl] ++
  [Str (9 :: chars "ioregsel: "); Num (debug_client.member 8 4 chip); Endl] ++
  [Str (9 :: chars "id: "); Num (debug_client.member 12 4 chip); Endl] ++
  [Str (9 :: chars "irr: "); Num (debug_client.member 16 4 chip); Endl] ++
  [Str (9 :: chars "pad: "); Num (debug_client.member 20 4 chip); Endl].

(** The entry of a line, of 64 bits, after the 24 bytes of the registers. *)
Definition redirtbl (line_id : Z) (chip : list Z) : Z :=
  debug_client.member (24 + 8 * Z.to_nat line_id) 8 chip.
Definition bits (entry lo w : Z) : Z := Z.shiftr entry lo mod 2 ^ w.

Definition ioapic_line (entry : Z) : list item :=
  field "vector: " (bits entry 0 8) ++
  field "delivery_mode: " (bits entry 8 3) ++
  field "dest_mode: " (bits entry 11 1) ++
  field "delivery_status: " (bits entry 12 1) ++
  field "polarity: " (bits entry 13 1) ++
  field "remote_irr: " (bits entry 14 1) ++
  field "trig_mode: " (bits entry 15 1) ++
  field "mask: " (bits entry 16 1).

Definition pic_members : list string :=
  ["last_irr: "; "irr: "; "imr: "; "isr: "; "priority_add: "; "irq_base: "; "read_reg_select: ";
   "poll: "; "special_mask: "; "init_state: "; "auto_eoi: "; "rotate_on_auto_eoi: ";
   "special_fully_nested_mode: "; "init4: "; "elcr: "; "elcr_mask: "].

Definition pic_state (i : Z) (chip : list Z) : list item :=
  [text "PIC"; Num i; Endl] ++
  concat (zip_with (λ name k, field name (debug_client.member k 1 chip)) pic_members (seq 0 16)).

Definition irqchip_error (error : list Z) : list item :=
  [text "KVM_GET_IRQCHIP error: "; Str error; Endl].

(** The loop over the two controllers, which a failure ends. *)
Fixpoint trace_pics (pic : Z → list Z + list Z) (is_ : list Z) : list item :=
  match is_ with
  | [] => []
  | i :: is_ =>
      match pic i with
      | inl error => irqchip_error error
      | inr chip => pic_state i chip ++ trace_pics pic is_
      end
  end.

Definition trace_ioapic (ioapic : list Z + list Z) (pic : Z → list Z + list Z) (line_id : Z)
    : io t unit :=
  match ioapic with
  | inl error => log (irqchip_error error)
  | inr chip =>
      log (ioapic_head chip);;
      (if line_id <? 24 then log (ioapic_line (redirtbl line_id chip)) else crash OutOfBounds);;
      log (trace_pics pic [0; 1])
  end.

(** Bytes of the guest's memory. *)
Definition dump_head (offset size : Z) : list item :=
  [Endl; text "================== Memory Dump (0x"; Hex; Num offset; text " size "; Dec; Num size;
   text " B) =================="; Endl].

Definition dumped (offset size : Z) (bytes : list Z) : list item :=
  dump_head offset size ++
  concat (map (λ b, [Setfill 48; Setw 2; Hex; Num b]) bytes) ++
  [Endl; text "======================================================================="; Endl].

Definition dump_memory (offset size : Z) (m : mem) : io t unit :=
  if decide (in_mem offset (Z.to_nat size) m)
  then log (dumped offset size (mem_slice offset (Z.to_nat size) m)) else crash OutOfBounds.

(** The exits of the virtual CPU that no device takes. *)
Definition unhandled_io (is_in : bool) (port : Z) : list item :=
  [text "kvm: Unhandled VM IO: "; text (if is_in then "IN" else "OUT");
   text " on kr->io.port "; Hex; Num port; Endl].

Definition unhandled_mmio (phys_addr len data is_write : Z) : list item :=
  [text "kvm: unhandled KVM_EXIT_MMIO"; text " address="; Hex; Num phys_addr; text " len="; Num len;
   text " data="; Num data; text " is_write="; Num is_write; Endl].

(** ** Rendering *)

Lemma render_app its its' f :
  render (its ++ its') f =
  let '(s, f1) := render its f in let '(s', f2) := render its' f1 in (s ++ s', f2).
Proof.
  revert f. induction its as [|i its IH]; intros f; cbn [app render].
  - by destruct (render its' f).
  - destruct (put i f) as [s f1]. rewrite IH. destruct (render its f1) as [s1 f2].
    destruct (render its' f2) as [s2 f3]. by rewrite app_assoc.
Qed.

(** What is logged goes to the end of the open file, and to no other. *)
Lemma log_run its path f s l :
  logstream l = Some (path, f) → files l !! path = Some s →
  log its l = Done (tt, mk (Some (path, (render its f).2))
    (<[path := s ++ (render its f).1]> (files l)), []).
Proof.
  revert f s l. induction its as [|i its IH]; intros f s l Hl Hs; cbn [log render].
  - destruct l as [st fs]. cbn in *. subst st. rewrite app_nil_r, insert_id by done. done.
  - destruct (put i f) as [s1 f1] eqn:Hp.
    erewrite bind_quiet with (a := tt) (s' := mk (Some (path, f1)) (<[path := s ++ s1]> (files l))).
    2: { unfold insert. erewrite bind_quiet by reflexivity. rewrite Hl, Hp. unfold modify. by rewrite Hs. }
    rewrite (IH f1 (s ++ s1)) by (done || apply lookup_insert_eq). cbn [files].
    destruct (render its f1) as [s2 f2]. cbn [fst snd]. by rewrite insert_insert_eq, app_assoc.
Qed.

(** A log before a file is chosen dereferences a null pointer; afterwards the file holds
    exactly what is logged, whatever it held before, and no other file changes. *)
Theorem log_file (its : list item) (path : list Z) (l : t) :
  (its ≠ [] → log its (ConsoleLog (files l)) = Halt NullDeref) ∧
  ∃ l', (setFilePath path;; log its) l = Done (tt, l', []) ∧
    files l' !! path = Some (render its new_format).1 ∧
    ∀ path', path' ≠ path → files l' !! path' = files l !! path'.
Proof.
  split; [by destruct its|]. unfold setFilePath. erewrite bind_quiet by reflexivity.
  erewrite log_run by (done || apply lookup_insert_eq). eexists. split; [done|].
  cbn [files]. split; [by rewrite lookup_insert_eq|].
  intros path' Hne. by rewrite !lookup_insert_ne by done.
Qed.

(** *** Memory *)

Lemma byte_logged b f :
  is_u8 b →
  render [Setfill 48; Setw 2; Hex; Num b] f = (gdbserver.hex_byte b, mk_format true 48 0).
Proof.
  intros Hb. destruct f as [h c w]. cbn [render put upd eta_format fst snd app].
  rewrite !app_nil_r. f_equal. unfold padded, number. cbn [hex fill width upd].
  assert (∀ b, b ∈ seqZ 0 256 →
    replicate (Z.to_nat 2 - length (debug_client.to_base 16 16 b [])) 48 ++
      debug_client.to_base 16 16 b [] = gdbserver.hex_byte b) as H.
  { apply Forall_forall. apply (bool_decide_unpack _). vm_compute. exact I. }
  apply H, elem_of_seqZ. unfold is_u8 in Hb. lia.
Qed.

Lemma bytes_logged bs f :
  Forall is_u8 bs →
  (render (concat (map (λ b, [Setfill 48; Setw 2; Hex; Num b]) bs)) f).1 = gdbserver.hex_bytes bs ∧
  (render (concat (map (λ b, [Setfill 48; Setw 2; Hex; Num b]) bs)) f).2 =
    match bs with [] => f | _ => mk_format true 48 0 end.
Proof.
  intros Hbs. revert f. induction Hbs as [|b bs Hb _ IH]; intros f; [done|].
  cbn [map concat]. rewrite render_app, (byte_logged b f Hb).
  destruct (IH (mk_format true 48 0)) as [H1 H2].
  destruct (render (concat _) _) as [s' f']. cbn [fst snd] in *. subst.
  split; [done|]. by destruct bs.
Qed.

(** The start of a dump, when no width is set. *)
Definition head_text (offset size : Z) : list Z :=
  [10] ++ chars "================== Memory Dump (0x" ++
  debug_client.to_base 16 16 offset [] ++ chars " size " ++ debug_client.decimal size ++
  chars " B) ==================" ++ [10].

Lemma head_logged offset size h c :
  render (dump_head offset size) (mk_format h c 0) = (head_text offset size, mk_format false c 0).
Proof.
  unfold dump_head, head_text, text.
  generalize (chars "================== Memory Dump (0x") (chars " size ") (chars " B) ==================").
  intros s1 s2 s3. cbn [render put upd eta_format hex fill width]. unfold padded, number.
  cbn [width hex Z.to_nat Nat.sub replicate app]. by rewrite <- ?app_assoc.
Qed.

(** The dump of a range of the memory is its header, two hexadecimal digits for each byte,
    and its footer, and leaves the log in base 16; a range beyond the memory is out of
    bounds. *)
Theorem memory_logged (offset size : Z) (m : mem) (path : list Z) (f : format) (s : list Z) (l : t)
    (Hl : logstream l = Some (path, f)) (Hs : files l !! path = Some s) (Hw : width f = 0)
    (Hm : mem_wf m) (Hsize : 0 < size) :
  if decide (in_mem offset (Z.to_nat size) m) then
    ∃ l', dump_memory offset size m l = Done (tt, l', []) ∧
      logstream l' = Some (path, mk_format true 48 0) ∧
      files l' !! path = Some (s ++ head_text offset size ++
        gdbserver.hex_bytes (mem_slice offset (Z.to_nat size) m) ++ [10] ++
        chars "=======================================================================" ++ [10])
  else dump_memory offset size m l = Halt OutOfBounds.
Proof.
  unfold dump_memory. case_decide as Hin; [|done].
  rewrite (log_run _ path f s l Hl Hs). eexists. split; [done|].
  cbn [logstream files]. rewrite lookup_insert_eq.
  assert (Forall is_u8 (mem_slice offset (Z.to_nat size) m)) as Hbs.
  { apply Forall_map, Forall_forall. intros i _. apply Hm. }
  assert (mem_slice offset (Z.to_nat size) m ≠ []) as Hne.
  { intros H%(f_equal length). rewrite length_mem_slice in H. cbn in H. lia. }
  set (bs := mem_slice _ _ _) in *. clearbody bs. unfold dumped. rewrite render_app.
  destruct f as [h c w]. cbn [width] in Hw. subst w. rewrite head_logged, render_app.
  destruct (bytes_logged bs (mk_format false c 0) Hbs) as [H1 H2].
  destruct (render (concat _) _) as [s' f']. cbn [fst snd] in H1, H2. subst s' f'.
  destruct bs as [|b bs]; [done|]. unfold text. generalize (chars "=======================================================================").
  intros line. cbn [render put upd eta_format hex fill width fst snd]. unfold padded.
  cbn [width Z.to_nat Nat.sub replicate app]. split; [done|]. by rewrite <- ?app_assoc.
Qed.

(** *** Registers *)

(** Items that print a text and leave the format as it is, when no width is set. *)
Definition renders (h : bool) (its : list item) (s : list Z) : Prop :=
  ∀ c, render its (mk_format h c 0) = (s, mk_format h c 0).

Lemma renders_app h its its' s s' :
  renders h its s → renders h its' s' → renders h (its ++ its') (s ++ s').
Proof. intros H H' c. by rewrite render_app, H, H'. Qed.

Lemma renders_str h s : renders h [Str s] s.
Proof. intros c. cbn. by rewrite app_nil_r. Qed.

Lemma renders_title h s : renders h [Str s; Endl] (s ++ [10]).
Proof. intros c. reflexivity. Qed.

Lemma renders_field name n :
  renders false (field name n) (debug_client.line (chars name) (debug_client.decimal (u32 n))).
Proof.
  intros c. unfold field. generalize (chars name). intros s. cbn [render put upd eta_format hex fill width].
  unfold padded, number, debug_client.line. cbn [width hex Z.to_nat Nat.sub replicate app].
  by rewrite <- ?app_assoc.
Qed.

Lemma renders_pointer h name n :
  renders h (pointer_field name n) (debug_client.line (chars name) (debug_client.pointer n)).
Proof.
  intros c. unfold pointer_field. generalize (chars name). intros s.
  cbn [render put upd eta_format hex fill width].
  unfold padded, debug_client.line. cbn [width hex Z.to_nat Nat.sub replicate app].
  by rewrite <- ?app_assoc.
Qed.

(** Whatever a sequence prints, if it keeps the format. *)
Definition keeps (h : bool) (its : list item) : Prop := ∃ s, renders h its s.

Lemma keeps_app h its its' : keeps h its → keeps h its' → keeps h (its ++ its').
Proof. intros [s H] [s' H']. exists (s ++ s'). by apply renders_app. Qed.

Ltac by_renders :=
  repeat (apply renders_app || apply keeps_app);
  first [ apply renders_field | apply renders_pointer | apply renders_str | apply renders_title
        | eexists; first [apply renders_field|apply renders_pointer|apply renders_str|apply renders_title] ].

(** The debug client prints the lines that the supervisor logs for the same registers, in
    another order and with the data segment only, as long as the log is in base 10. *)
Theorem listing_agrees (regs sregs : list Z) (events : kvm_vcpu_events) :
  ∃ general segment tables before after,
    debug_client.trace_user_program regs sregs = general ++ segment ++ tables ∧
    renders false (trace_user_program regs sregs events)
      (general ++ tables ++ before ++ (chars "Segment DS:" ++ [10]) ++ segment ++ after).
Proof.
  exists (debug_client.trace_general regs sregs), (debug_client.trace_data_segment sregs),
    (debug_client.trace_tables sregs).
  assert (∀ i, keeps false (trace_kvm_segment i sregs)) as Hseg by (intros i; by_renders).
  assert (keeps false ([Str (chars "Segment CS:" ++ [10])] ++ trace_kvm_segment 0 sregs)) as [before Hb].
  { apply keeps_app; [by_renders|done]. }
  assert (keeps false ([Str (chars "Segment ES:" ++ [10])] ++ trace_kvm_segment 48 sregs ++
    [Str (chars "Segment FS:" ++ [10])] ++ trace_kvm_segment 72 sregs ++
    [Str (chars "Segment GS:" ++ [10])] ++ trace_kvm_segment 96 sregs ++
    [Str (chars "Segment SS:" ++ [10])] ++ trace_kvm_segment 120 sregs ++ trace_events events))
    as [after Ha].
  { repeat (apply keeps_app; [by_renders || apply Hseg|]). by_renders. }
  exists before, after. split; [done|]. unfold trace_user_program.
  rewrite (app_assoc [Str (chars "Segment CS:" ++ [10])]).
  apply renders_app; [by_renders|]. apply renders_app; [by_renders|].
  apply renders_app; [exact Hb|]. apply renders_app; [by_renders|].
  apply renders_app; [by_renders|exact Ha].
Qed.

(** An access that no device takes leaves the log in base 16, unmarked: segments with
    different limits are then logged with the same characters as before and after it. *)
Theorem base_sticks (is_in : bool) (port : Z) (f : format) :
  hex (render (unhandled_io is_in port) f).2 = true ∧
  ∃ sregs sregs', sregs ≠ sregs' ∧
    (render (trace_kvm_segment 0 sregs) new_format).1 =
    (render (trace_kvm_segment 0 sregs') (render (unhandled_io is_in port) new_format).2).1.
Proof.
  split; [done|].
  exists (replicate 8 0 ++ [10] ++ replicate 303 0), (replicate 8 0 ++ [16] ++ replicate 303 0).
  split; [done|]. reflexivity.
Qed.

(** The numbers of a list of items. *)
Definition numbers (its : list item) : list Z :=
  omap (λ i, match i with Num n => Some n | _ => None end) its.

(** The line of the interrupt controller that is traced is shown field by field as it was
    packed, whatever the reserved bits and the destination hold. *)
Theorem ioapic_line_fields (vector delivery dest status polarity remote trig mask rest : Z)
    (Hv : is_u8 vector) (Hd : 0 ≤ delivery < 8)
    (Hb : Forall (λ b, 0 ≤ b < 2) [dest; status; polarity; remote; trig; mask]) :
  numbers (ioapic_line (vector + delivery * 2 ^ 8 + dest * 2 ^ 11 + status * 2 ^ 12 +
    polarity * 2 ^ 13 + remote * 2 ^ 14 + trig * 2 ^ 15 + mask * 2 ^ 16 + rest * 2 ^ 17)) =
  [vector; delivery; dest; status; polarity; remote; trig; mask].
Proof.
  set (e := _ + rest * 2 ^ 17).
  rewrite !Forall_cons in Hb. destruct Hb as (H1 & H2 & H3 & H4 & H5 & H6 & _).
  cbn [numbers ioapic_line field app omap list_omap]. unfold bits, u32.
  rewrite !Z.shiftr_div_pow2 by lia. subst e. unfold is_u8 in Hv.
  repeat f_equal; Z.div_mod_to_equations; lia.
Qed.

Lemma log_app its its' l : log (its ++ its') l = (log its;; log its') l.
Proof.
  revert l. induction its as [|i its IH]; intros l; cbn [app log].
  - unfold mbind, io_bind. cbn. by destruct (log its' l) as [[[[] l'] ev]|h].
  - rewrite bind_assoc. unfold mbind at 1 2, io_bind at 1 2.
    destruct (insert i l) as [[[[] l'] ev]|h]; [|done]. by rewrite IH.
Qed.

(** A controller whose state cannot be read ends the trace: nothing of the ones after it is
    logged. *)
Theorem trace_stops (pic : Z → list Z + list Z) (error chip : list Z) (line_id : Z) (l : t)
    (Hline : line_id < 24) (H0 : pic 0 = inl error) :
  trace_ioapic (inr chip) pic line_id l =
    log (ioapic_head chip ++ ioapic_line (redirtbl line_id chip) ++ irqchip_error error) l.
Proof.
  unfold trace_ioapic. rewrite (proj2 (Z.ltb_lt line_id 24)) by done. cbn [trace_pics].
  rewrite H0, log_app. unfold mbind at 1 3, io_bind at 1 3.
  destruct (log (ioapic_head chip) l) as [[[[] l'] ev]|h]; [|done]. by rewrite log_app.
Qed.

(** The result of a program is logged in base 10, whatever was logged before, and is read
    back from the log. *)
Theorem result_logged (regs : list Z) (path : list Z) (f : format) (s : list Z) (l : t)
    (Hl : logstream l = Some (path, f)) (Hs : files l !! path = Some s) (Hw : width f = 0)
    (Hr : Forall is_u8 regs) :
  ∃ l' digits, log (fetch_application_result (inr regs)) l = Done (tt, l', []) ∧
    files l' !! path = Some (s ++ chars "Program result (keycode): " ++ digits ++ [10]) ∧
    INIReader.number 10 (INIReader.digits 10 (digits ++ [10])) = rax regs.
Proof.
  rewrite (log_run _ path f s l Hl Hs). eexists _, (debug_client.decimal (rax regs)).
  split; [done|]. cbn [files]. rewrite lookup_insert_eq. split.
  - destruct f as [h c w]. cbn in Hw. subst w. reflexivity.
  - apply debug_client.decimal_read; [|done].
    unfold rax, debug_client.member.
    pose proof (le_val_bound (slice 0 8 regs)
      (Forall_take _ _ _ (Forall_drop _ _ _ Hr))) as H.
    assert (length (slice 0 8 regs) ≤ 8)%nat as Hlen by (unfold slice; rewrite length_take; lia).
    assert (256 ^ Z.of_nat (length (slice 0 8 regs)) ≤ 256 ^ 8) by (apply Z.pow_le_mono_r; lia).
    unfold is_u64. lia.
Qed.

End ConsoleLog.
