(* ===== verification/GuestPrograms.v ===== *)
(** * Test programs of the guest (target/lib.s, target/prog_prova.c, target/ricorsivo.c)

The library of the test programs, whose two routines for the ports are served by the machine
of Machine.v, and the two programs that end with a result, from the call of [main] to the
exit of the virtual processor and the line of the log that shows the result. *)

From stdpp Require Import gmap.
From S2P Require Import Prelude Bootloader Machine Startup GuestBoot DebugClient ConsoleLog.

Module lib.

(** ** The routines for the ports *)

(** The registers that the routines use, the stack as they grow it, the memory of the guest
    and the machine. *)
Record t : Type := mk {
  rax : Z; rdx : Z; rdi : Z; rsi : Z; stack : list Z; memory : mem; machine : kvm.t;
}.
#[export] Instance eta_t : Eta t := λ s,
  mk (rax s) (rdx s) (rdi s) (rsi s) (stack s) (memory s) (machine s).

Definition low_byte (r b : Z) : Z := Z.lor (Z.land r (Z.lnot 0xff)) (u8 b).
Definition low_word (r w : Z) : Z := Z.lor (Z.land r (Z.lnot 0xffff)) (u16 w).

Definition pushq (r : t → Z) : io t unit := modify (λ s, s <| stack := r s :: stack s |>).
Definition popq (set : Z → t → t) : io t unit :=
  s ← get;
  match stack s with
  | v :: rest => modify (λ s, set v (s <| stack := rest |>))
  | [] => crash OutOfBounds
  end.
Definition set_rax (v : Z) (s : t) : t := s <| rax := v |>.
Definition set_rdx (v : Z) (s : t) : t := s <| rdx := v |>.

Definition exit_io (x : kvm.io_exit) : io t (list Z) :=
  zoom machine (λ m s, s <| machine := m |>) (kvm.handle_io x).

Definition outputb : io t unit :=
  pushq rax;; pushq rdx;;
  modify (λ s, s <| rax := low_byte (rax s) (rdi s) |>);;
  modify (λ s, s <| rdx := low_word (rdx s) (rsi s) |>);;
  s ← get;
  exit_io (kvm.out_byte (u16 (rdx s)) (u8 (rax s)));;
  popq set_rdx;; popq set_rax.

Definition inputb : io t unit :=
  pushq rax;; pushq rdx;;
  modify (λ s, s <| rdx := low_word (rdx s) (rdi s) |>);;
  s ← get;
  page ← exit_io (kvm.in_byte (u16 (rdx s)));
  modify (λ s, s <| rax := low_byte (rax s) (hd 0 page) |>);;
  s ← get;
  (if decide (in_mem (rsi s) 1 (memory s))
   then modify (λ s, s <| memory := mem_put (rsi s) [u8 (rax s)] (memory s) |>)
   else crash OutOfBounds);;
  popq set_rdx;; popq set_rax.

(** ** The ends of a program *)

(** What [main] does: it ends in [exit], which leaves its argument in rax and halts, it
    returns, or it faults on an address. *)
Inductive ending : Type := Exits (rax : Z) | Returns (v : Z) | Faults (addr : Z).

(** What the supervisor sees: the processor halted with a result, or shut down by a fault,
    since the memory where the interrupt table is expected holds no gate. *)
Inductive exit_reason : Type := Hlt (rax : Z) | Shutdown.

Definition exit (result : Z) : ending := Exits (u32 result).

(** [shutdown] loads an interrupt table without entries and raises an interrupt. *)
Definition shutdown : exit_reason := Shutdown.

(** [_start] calls [main] and shuts down if it returns. *)
Definition start (main : ending) : exit_reason :=
  match main with
  | Exits v => Hlt v
  | Returns _ => shutdown
  | Faults _ => Shutdown
  end.

(** ** The routines for the ports, in one step *)

Lemma replaced_low r v n :
  0 ≤ n → 0 ≤ v < 2 ^ n → Z.lor (Z.land r (Z.lnot (2 ^ n - 1))) v mod 2 ^ n = v.
Proof.
  intros Hn Hv. rewrite <- Z.land_ones by done. rewrite Z.ones_equiv, Z.land_lor_distr_l.
  rewrite <- Z.land_assoc, (Z.land_comm (Z.lnot _)).
  change (Z.pred (2 ^ n)) with (2 ^ n - 1). rewrite Z.land_lnot_diag, Z.land_0_r.
  rewrite land_ones_mod, Z.mod_small by done. apply Z.lor_0_l.
Qed.

Lemma low_byte_read r b : u8 (low_byte r b) = u8 b.
Proof. apply (replaced_low r (u8 b) 8); [lia|apply u8_range]. Qed.

Lemma low_word_read r w : u16 (low_word r w) = u16 w.
Proof. apply (replaced_low r (u16 w) 16); [lia|apply u16_range]. Qed.

(** The epilogue of both routines. *)
Lemma registers_restored a d st s :
  stack s = d :: a :: st →
  (popq set_rdx;; popq set_rax) s =
    Done (tt, mk a d (rdi s) (rsi s) st (memory s) (machine s), []).
Proof. destruct s. cbn. by intros ->. Qed.

(** [outputb] is one exit with the two arguments cut to their widths; every register and the
    stack are kept. *)
Theorem outputb_exit (s : t) :
  outputb s =
    match kvm.handle_io (kvm.out_byte (u16 (rsi s)) (u8 (rdi s))) (machine s) with
    | Done (_, m, ev) => Done (tt, s <| machine := m |>, ev)
    | Halt h => Halt h
    end.
Proof.
  unfold outputb, pushq. do 5 (erewrite bind_quiet by reflexivity).
  cbn [upd eta eta_t rax rdx rdi rsi stack memory machine]. rewrite low_byte_read, low_word_read.
  unfold exit_io. destruct (kvm.handle_io _ _) as [[[page m] ev]|h] eqn:Hio.
  - erewrite zoom_bind_done by exact Hio. erewrite registers_restored by reflexivity.
    by destruct s; rewrite app_nil_r.
  - unfold zoom, mbind, io_bind. cbn [machine]. by rewrite Hio.
Qed.

(** [inputb] stores the byte that it reads at the address in rsi, or faults outside the
    memory; every register and the stack are kept. *)
Theorem inputb_exit (s : t) :
  inputb s =
    match kvm.handle_io (kvm.in_byte (u16 (rdi s))) (machine s) with
    | Done (page, m, ev) =>
        if decide (in_mem (rsi s) 1 (memory s))
        then Done (tt, s <| machine := m |> <| memory := mem_put (rsi s) [u8 (hd 0 page)] (memory s) |>, ev)
        else Halt OutOfBounds
    | Halt h => Halt h
    end.
Proof.
  unfold inputb, pushq. do 4 (erewrite bind_quiet by reflexivity).
  cbn [upd eta eta_t rax rdx rdi rsi stack memory machine]. rewrite low_word_read.
  unfold exit_io. destruct (kvm.handle_io _ _) as [[[page m] ev]|h] eqn:Hio.
  - erewrite zoom_bind_done by exact Hio. do 2 (erewrite bind_quiet by reflexivity).
    cbn [upd eta eta_t rax rdx rdi rsi stack memory machine].
    case_decide; [|done]. erewrite bind_quiet by reflexivity.
    erewrite registers_restored by reflexivity.
    cbn [rax rdi rsi memory machine]. by rewrite low_byte_read, app_nil_r.
  - unfold zoom, mbind, io_bind. cbn [machine]. by rewrite Hio.
Qed.

End lib.

Module prog_prova.

(** ** prog_prova.c *)

(** Reading through the pointer is an access by the processor. *)
Definition main (translate : Z → option Z) : lib.ending :=
  let a := 2 in
  let b := 10 in
  let c := u32 (a + b) in
  let d := u64 (100 * 1024 * 1024) in
  let ptr := d in
  match translate ptr with
  | None => lib.Faults ptr
  | Some _ => lib.exit c
  end.

(** The program reads at 100 MiB before it ends: with the tables that the boot loader leaves
    it exits with 12 when the memory is larger than that, and faults otherwise, as it does
    with the memory of the configuration of the repository. *)
Theorem prova_needs_memory (size : Z) (c : boot64.cpu) (m : mem)
    (Hc : boot64.mapped c) (Ht : Bootloader.tables size m) (Hsize : 0 ≤ size < 3 * 2 ^ 30)
    (Hmod : size mod 2 ^ 21 = 0) :
  lib.start (main (boot64.translate c m)) =
    if 100 * 2 ^ 20 <? size then lib.Hlt 12 else lib.Shutdown.
Proof.
  destruct Hc as (Hp & Hl & H5 & H3). unfold main, boot64.translate. rewrite Hp, Hl, H5, H3.
  change (u64 (100 * 1024 * 1024)) with (100 * 2 ^ 20). cbn [negb andb].
  rewrite (Bootloader.walk_memory size) by (done ||
    (unfold Bootloader.last_index_lev3; Z.div_mod_to_equations; lia)).
  replace (size / 2 ^ 21 * 2 ^ 21) with size by (Z.div_mod_to_equations; lia).
  destruct (Z.ltb_spec (100 * 2 ^ 20) size); [by rewrite decide_True|by rewrite decide_False by lia].
Qed.

End prog_prova.

Module ricorsivo.

(** ** ricorsivo.c *)

(** The operations on [int], undefined when they overflow. *)
Definition int (x : Z) : option Z := if decide (- 2147483648 ≤ x ≤ INT_MAX) then Some x else None.

(** The recursion, [None] when an operation overflows or the fuel runs out. *)
Fixpoint ricorsiva (fuel : nat) (a : Z) : option Z :=
  match fuel with
  | O => None
  | S fuel =>
      if a =? 1 then Some 0
      else
        a' ← int (a - 1);
        r ← ricorsiva fuel a';
        int (a + r)
  end.

Definition main (fuel : nat) : option lib.ending :=
  let a := 10 in
  let b := 9 in
  r ← ricorsiva fuel a;
  v ← int (b * r);
  Some (lib.exit (u32 v)).

Lemma int_in x : - 2147483648 ≤ x ≤ INT_MAX → int x = Some x.
Proof. intros H. unfold int. by case_decide. Qed.

Lemma int_value x y : int x = Some y → y = x.
Proof. unfold int. case_decide; [by intros [= ->]|done]. Qed.

Lemma half_sum a : 1 ≤ a → a * (a + 1) / 2 = a + (a - 1) * a / 2.
Proof.
  intros Ha. replace (a * (a + 1)) with ((a - 1) * a + a * 2) by lia.
  rewrite Z.div_add by lia. lia.
Qed.

Lemma half_sum_bound a : 1 ≤ a ≤ 65535 → 1 ≤ a * (a + 1) / 2 ≤ 2147450880.
Proof.
  intros Ha. split; [apply Z.div_le_lower_bound; nia|].
  apply Z.div_le_upper_bound; [lia|]. nia.
Qed.

Lemma ricorsiva_run a fuel :
  1 ≤ a ≤ 65535 → (Z.to_nat a ≤ fuel)%nat → ricorsiva fuel a = Some (a * (a + 1) / 2 - 1).
Proof.
  revert a. induction fuel as [|fuel IH]; intros a Ha Hf; [lia|]. cbn [ricorsiva].
  destruct (Z.eqb_spec a 1) as [->|Hne]; [done|].
  rewrite int_in by (unfold INT_MAX; lia). cbn [mbind option_bind].
  rewrite IH by lia. cbn [mbind option_bind]. rewrite (half_sum a) by lia.
  replace (a - 1 + 1) with a by lia. pose proof (half_sum_bound a Ha) as Hb.
  pose proof (half_sum_bound (a - 1) ltac:(lia)) as Hb'.
  rewrite half_sum in Hb by lia. replace (a - 1 + 1) with a in Hb' by lia.
  rewrite int_in by (unfold INT_MAX; lia). f_equal. lia.
Qed.

(** A result does not depend on the fuel. *)
Lemma ricorsiva_value fuel a r :
  1 ≤ a ≤ 65535 → ricorsiva fuel a = Some r → r = a * (a + 1) / 2 - 1.
Proof.
  intros Ha Hr. assert (∀ n m x v, (n ≤ m)%nat → ricorsiva n x = Some v → ricorsiva m x = Some v) as Hmono.
  { induction n as [|n IH]; intros [|m] x v Hm Hv; try done; [lia|]. cbn [ricorsiva] in *.
    destruct (x =? 1); [done|]. destruct (int (x - 1)) as [x'|]; [|done]. cbn [mbind option_bind] in *.
    destruct (ricorsiva n x') as [v'|] eqn:Hv'; [|done]. by rewrite (IH m x' v') by (done || lia). }
  pose proof (Hmono fuel (fuel `max` Z.to_nat a)%nat a r ltac:(lia) Hr) as H.
  rewrite ricorsiva_run in H by lia. by injection H.
Qed.

(** From 1 to 65535, the function returns the sum of the integers from 2 to [a], in [a]
    calls and without an overflow. *)
Theorem ricorsiva_sum (a : Z) (fuel : nat) (Ha : 1 ≤ a ≤ 65535) (Hf : (Z.to_nat a ≤ fuel)%nat) :
  ricorsiva fuel a = Some (a * (a + 1) / 2 - 1).
Proof.
  by apply ricorsiva_run.
Qed.

(** From 65536 on the sum overflows, and from 0 down the recursion only ends by an overflow. *)
Theorem ricorsiva_undefined (a : Z) (fuel : nat) (Ha : a ≤ 0 ∨ 65536 ≤ a) :
  ricorsiva fuel a = None.
Proof.
  destruct Ha as [Ha|Ha]; revert a Ha; induction fuel as [|fuel IH]; intros a Ha; try done;
    cbn [ricorsiva]; rewrite (proj2 (Z.eqb_neq a 1)) by lia;
    (destruct (int (a - 1)) as [a'|] eqn:Ha'; [|done]); apply int_value in Ha' as ->;
    cbn [mbind option_bind].
  - by rewrite IH by lia.
  - destruct (Z.eq_dec a 65536) as [->|Hne]; [|by rewrite IH by lia].
    change (65536 - 1) with 65535.
    destruct (ricorsiva fuel 65535) as [r|] eqn:Hr; [|done]. cbn [mbind option_bind].
    apply ricorsiva_value in Hr; [|lia]. subst r. done.
Qed.

(** The program halts with 486, which the supervisor shows in decimal at the end of the log. *)
Theorem ricorsivo_logged (fuel : nat) (regs : list Z) (path : list Z) (f : ConsoleLog.format)
    (s : list Z) (l : ConsoleLog.t) (Hfuel : (10 ≤ fuel)%nat)
    (Hl : ConsoleLog.logstream l = Some (path, f)) (Hs : ConsoleLog.files l !! path = Some s) (Hw : ConsoleLog.width f = 0)
    (Hregs : lib.start <$> main fuel = Some (lib.Hlt (ConsoleLog.rax regs))) :
  ∃ l', ConsoleLog.log (ConsoleLog.fetch_application_result (inr regs)) l = Done (tt, l', []) ∧
    ConsoleLog.files l' !! path = Some (s ++ chars "Program result (keycode): 486" ++ [10]).
Proof.
  assert (main fuel = Some (lib.exit 486)) as Hmain.
  { unfold main. rewrite ricorsiva_run by (done || lia). reflexivity. }
  rewrite Hmain in Hregs. injection Hregs as Hrax. change (u32 486) with 486 in Hrax.
  rewrite (ConsoleLog.log_run _ path f s l Hl Hs). eexists. split; [done|].
  cbn [ConsoleLog.files]. rewrite lookup_insert_eq. do 2 f_equal.
  unfold ConsoleLog.fetch_application_result. rewrite <- Hrax.
  destruct f as [h c w]. cbn in Hw. subst w. vm_compute. reflexivity.
Qed.

End ricorsivo.
