(* ===== verification/Listener.v ===== *)
(** * Listening for clients (debug-server/net_wrapper.cpp, DebugServer.cpp,
    gdbserver/gdbserver.cpp, kvm.cpp)

The sockets on which the debug server and the debug stub wait, as the set of descriptors
that the process holds, and the thread that accepts the clients of the debug server.  What
the requests to the operating system give is an argument. *)

From stdpp Require Import gmap.
From S2P Require Import Prelude Startup DebugServer DebugClient.
Import messages net_wrapper debug_server.

Module listener.

(** ** The sockets that listen *)

(** The descriptor that [socket] gives, whether [bind] succeeds at an address and a port
    ([None] is any address), and whether [listen] does. *)
Record requests : Type := mk_requests {
  new_socket : option Z;
  bound : option (list Z) → Z → bool;
  listens : bool;
}.

Definition descriptors : Type := gset Z.

Definition socket (r : requests) : io descriptors Z :=
  match new_socket r with
  | None => mret (-1)
  | Some fd => modify (λ fds, {[ fd ]} ∪ fds);; mret fd
  end.

(** [bind] and [listen] fail on what is not a descriptor. *)
Definition bind (r : requests) (fd : Z) (addr : option (list Z)) (port : Z) : bool :=
  (0 <=? fd) && bound r addr port.
Definition listen (r : requests) (fd : Z) : bool := (0 <=? fd) && listens r.

Definition close (fd : Z) : io descriptors unit := modify (λ fds, fds ∖ {[ fd ]}).

Definition open_serverTCP (port : Z) (r : requests) : io descriptors Z :=
  sock ← socket r;
  if sock =? -1 then mret (-1)
  else if negb (bind r sock None port) then close sock;; mret (-1)
  else if negb (listen r sock) then mret (-1)
  else mret sock.

Definition initialize_server_socket (bind_addr : list Z) (port : Z) (r : requests)
    : io descriptors Z :=
  ret_sock ← socket r;
  if negb (bind r ret_sock (Some bind_addr) port) then mret (-1)
  else if negb (listen r ret_sock) then mret (-2)
  else mret ret_sock.

(** What [accept] gives. *)
Definition accept (new : option Z) : io descriptors Z :=
  match new with
  | None => mret (-1)
  | Some fd => modify (λ fds, {[ fd ]} ∪ fds);; mret fd
  end.

Definition accept_serverTCP (new : option Z) : io descriptors Z :=
  sd ← accept new; if sd =? -1 then mret (-1) else mret sd.
Definition close_connection (conn : Z) : io descriptors unit := close conn.

(** The part of [gdbserver_start] before the debugger connects: [listening] of
    GdbServer.v. *)
Definition listening (server_socket : Z) : bool := negb (server_socket <? 0).

(** [gdbserver_start] opens the two descriptors of the stub, and ends the process when it
    cannot listen; [gdbserver_stop] closes them. *)
Definition gdbserver_start (bind_addr : list Z) (port : Z) (r : requests) (new : option Z)
    : io descriptors (Z * Z) :=
  server_socket ← initialize_server_socket bind_addr port r;
  if negb (listening server_socket) then crash (ExitProcess 1)
  else connected_client_fd ← accept new; mret (server_socket, connected_client_fd).
Definition gdbserver_stop (sockets : Z * Z) : io descriptors unit :=
  close (snd sockets);; close (fst sockets).

(** The constructor of [DebugServer]: [None] is the exception. *)
Definition construct (port : Z) (r : requests) : io descriptors (option Z) :=
  serv_socket_ ← open_serverTCP port r;
  if serv_socket_ =? -1 then mret None else mret (Some serv_socket_).

(** Its destructor, but for the thread. *)
Definition destroy (serv_socket_ : Z) : io descriptors unit := close serv_socket_.

(** The part of [main] that starts the debug server: the socket of the thread that
    accepts, if it was started; the exception is caught. *)
Definition start_debug_server (h : startup.host) (r : requests) : io descriptors (option Z) :=
  if startup.debug_server_enable h then construct (startup.serv_port h) r else mret None.

(** ** The thread that accepts *)

(** A connection, with the machine as its thread sees it; [None] is a failure. *)
Definition connection : Type := option (machine_info * net_wrapper.socket).

(** The threads share nothing that they write.  A fault in one of them is a fault of the
    process. *)
Fixpoint main_fun (cs : list connection) : outcome (list net_wrapper.socket) :=
  match cs with
  | [] => Done []
  | None :: cs => main_fun cs
  | Some (mi, s) :: cs =>
      match worker_fun mi s with
      | Halt h => Halt h
      | Done (_, s, _) =>
          match main_fun cs with
          | Halt h => Halt h
          | Done ss => Done (s :: ss)
          end
      end
  end.

(** ** Descriptors *)

(** What a process may expect of a function that opens a socket: a descriptor that it
    holds when it succeeds, and nothing new when it fails. *)
Definition opens (f : io descriptors Z) (fds : descriptors) : Prop :=
  ∃ fd fds', f fds = Done (fd, fds', []) ∧
    fds' = if 0 <=? fd then {[ fd ]} ∪ fds else fds.

Definition leaks (f : io descriptors Z) (fds : descriptors) : Prop :=
  ∃ fd fds' lost, f fds = Done (fd, fds', []) ∧ (fd < 0) ∧ (lost ∉ fds) ∧ (lost ∈ fds').

Section requests.
Context (r : requests) (fds : descriptors).
Context (Hnew : ∀ fd, new_socket r = Some fd → 0 ≤ fd ∧ fd ∉ fds).

Lemma socket_some fd :
  new_socket r = Some fd → socket r fds = Done (fd, {[ fd ]} ∪ fds, []).
Proof. intros H. unfold socket. rewrite H. reflexivity. Qed.

Lemma socket_none : new_socket r = None → socket r fds = Done (-1, fds, []).
Proof. intros H. unfold socket. by rewrite H. Qed.

(** Opening the socket of the debug server succeeds exactly when the three requests do, and
    then the descriptor is the new one; a failure leaves the descriptors as they were, but
    for the new one, which is kept when only [listen] fails. *)
Theorem open_server_sockets (port : Z) :
  if bool_decide (is_Some (new_socket r)) && bound r None port && negb (listens r)
  then leaks (open_serverTCP port r) fds else opens (open_serverTCP port r) fds.
Proof.
  unfold open_serverTCP. destruct (new_socket r) as [fd|] eqn:Hfd.
  - destruct (Hnew fd eq_refl) as [Hp Hn]. clear Hnew. rewrite bool_decide_true by done. cbn [andb].
    pose proof (socket_some fd Hfd) as Hs. unfold leaks, opens, bind, listen.
    erewrite bind_quiet by exact Hs.
    rewrite (proj2 (Z.eqb_neq fd (-1))), (proj2 (Z.leb_le 0 fd)) by lia. cbn [andb].
    destruct (bound r None port); cbn [negb andb].
    + destruct (listens r); cbn [negb].
      * exists fd, ({[ fd ]} ∪ fds). split; [done|]. by rewrite (proj2 (Z.leb_le 0 fd)).
      * exists (-1), ({[ fd ]} ∪ fds), fd. split_and!; [done|lia|done|set_solver].
    + exists (-1), fds. split; [|done].
      erewrite bind_quiet by reflexivity. assert (({[ fd ]} ∪ fds) ∖ {[ fd ]} = fds) as E by set_solver.
      unfold mret, io_ret. by rewrite E.
  - rewrite bool_decide_false by (by intros [? ?]). cbn [andb].
    exists (-1), fds. split; [|done]. by erewrite bind_quiet by by apply socket_none.
Qed.

(** The same for the debug stub, which keeps the new descriptor when [bind] fails too. *)
Theorem stub_server_sockets (addr : list Z) (port : Z) :
  if bool_decide (is_Some (new_socket r)) && negb (bound r (Some addr) port && listens r)
  then leaks (initialize_server_socket addr port r) fds
  else opens (initialize_server_socket addr port r) fds.
Proof.
  unfold initialize_server_socket. destruct (new_socket r) as [fd|] eqn:Hfd.
  - destruct (Hnew fd eq_refl) as [Hp Hn]. clear Hnew. rewrite bool_decide_true by done. cbn [andb].
    pose proof (socket_some fd Hfd) as Hs. unfold leaks, opens, bind, listen.
    erewrite bind_quiet by exact Hs. rewrite (proj2 (Z.leb_le 0 fd)) by lia. cbn [andb].
    destruct (bound r (Some addr) port), (listens r); cbn [negb andb];
      [|eexists _, ({[ fd ]} ∪ fds), fd; split_and!; [done|lia|done|set_solver]..].
    exists fd, ({[ fd ]} ∪ fds). split; [done|]. by rewrite (proj2 (Z.leb_le 0 fd)).
  - rewrite bool_decide_false by (by intros [? ?]). cbn [andb].
    exists (-1), fds. split; [|done]. by erewrite bind_quiet by by apply socket_none.
Qed.

(** Starting the stub and stopping it gives the descriptors back, whether or not the
    debugger connects; when it cannot listen the process ends. *)
Theorem stub_released (addr : list Z) (port : Z) (new : option Z)
    (Hfds : ∀ fd, fd ∈ fds → 0 ≤ fd)
    (Hconn : ∀ fd, new = Some fd → (fd ∉ fds) ∧ new_socket r ≠ Some fd) :
  (gdbserver_start addr port r new ≫= gdbserver_stop) fds =
    if bool_decide (is_Some (new_socket r)) && bound r (Some addr) port && listens r
    then Done (tt, fds, []) else Halt (ExitProcess 1).
Proof.
  unfold gdbserver_start. rewrite bind_assoc. unfold initialize_server_socket. rewrite bind_assoc.
  destruct (new_socket r) as [fd|] eqn:Hfd.
  - destruct (Hnew fd eq_refl) as [Hp Hn]. rewrite bool_decide_true by done.
    pose proof (socket_some fd Hfd) as Hs. clear Hnew. erewrite bind_quiet by exact Hs. unfold bind, listen.
    rewrite (proj2 (Z.leb_le 0 fd)) by done. cbn [andb].
    destruct (bound r (Some addr) port); cbn [negb andb]; [|by erewrite bind_quiet by reflexivity].
    destruct (listens r); cbn [negb]; (erewrite bind_quiet by reflexivity); [|done].
    unfold listening. rewrite (proj2 (Z.ltb_ge fd 0)) by done. cbn [negb]. rewrite bind_assoc.
    destruct new as [c|]; cbn [accept].
    + destruct (Hconn c eq_refl) as [Hc Hne]. assert (c ≠ fd) by congruence.
      rewrite bind_assoc. erewrite bind_quiet by reflexivity. do 2 erewrite bind_quiet by reflexivity.
      unfold gdbserver_stop, close. cbn [fst snd]. erewrite bind_quiet by reflexivity.
      unfold modify. do 3 f_equal. set_solver.
    + do 2 erewrite bind_quiet by reflexivity.
      unfold gdbserver_stop, close. cbn [fst snd]. erewrite bind_quiet by reflexivity.
      unfold modify. do 3 f_equal. assert ((-1)%Z ∉ fds) by (intros H%Hfds; lia). set_solver.
  - rewrite bool_decide_false by (by intros [? ?]).
    pose proof (socket_none Hfd) as Hs. erewrite bind_quiet by exact Hs. unfold bind. cbn [Z.leb Z.compare andb negb].
    by erewrite bind_quiet by reflexivity.
Qed.
End requests.

(** ** Clients *)

(** A client that makes the requests of the debug client of this repository, on whatever
    segments they arrive, to a machine that can answer them. *)
Definition well_behaved (mi : machine_info) (s : net_wrapper.socket) (reply : list (list Z))
    : Prop :=
  ∃ regs sregs clock segs ts,
    placed mi ∧ 0xBF000 + 2000 ≤ mem_size mi ∧ vcpu_regs mi = Some regs ∧
    vcpu_sregs mi = Some sregs ∧ coalesced (debug_client.requests clock) segs ∧
    s = mk_socket segs [] ts 0 ∧ reply = debug_client.replies mi regs sregs ts.

Definition accepted (cs : list connection) : list (machine_info * net_wrapper.socket) :=
  omap id cs.

(** C36. The debug server serves every client and outlives them: when each connection that
    is accepted is one of the debug client of this repository, in segments that join the
    pieces that it sends but cut none, and the registers of the virtual CPU can be read,
    every one gets the page of the memory, the size and the registers that its thread sees,
    and failed accepts change nothing. *)
Theorem clients_served (cs : list connection) (replies : list (list (list Z))) :
  Forall2 (λ c reply, well_behaved c.1 c.2 reply) (accepted cs) replies →
  ∃ ss, main_fun cs = Done ss ∧ outgoing <$> ss = replies.
Proof.
  revert replies. induction cs as [|[[mi s]|] cs IH]; intros replies H.
  - apply Forall2_nil_inv_l in H as ->. by exists [].
  - apply Forall2_cons_inv_l in H as (reply & replies' & Hc & Hrest & ->).
    cbn [fst snd] in Hc. destruct Hc as (regs & sregs & clock & segs & ts & Hmi & Hsz & Hr & Hs & Hseg & -> & ->).
    destruct (debug_client.server_session mi regs sregs ts clock segs Hmi Hsz Hr Hs Hseg)
      as (s' & Hrun & Hout).
    destruct (IH replies' Hrest) as (ss & Hss & Hreplies).
    exists (s' :: ss). cbn [main_fun fst snd] in *. rewrite Hrun, Hss.
    split; [done|]. rewrite fmap_cons. by rewrite Hout, Hreplies.
  - by apply IH.
Qed.

(** A client that closes its connection before it sends anything ends the process, and the
    virtual machine with it. *)
Theorem silent_client (cs : list connection) (mi : machine_info) (ts : nat → Z) rest :
  ∀ ss, main_fun cs = Done ss →
  main_fun (cs ++ Some (mi, mk_socket [] [] ts 0) :: rest) = Halt NullDeref.
Proof.
  induction cs as [|[[mi' s]|] cs IH]; intros ss H; [done| |by eapply IH].
  cbn [main_fun app] in *. destruct (worker_fun mi' s) as [[[u s'] ev]|]; [|done].
  destruct (main_fun cs) as [ss'|] eqn:Hcs; [|done]. by rewrite (IH _ eq_refl).
Qed.

(** ** Witnesses *)

Lemma clients_served_witness :
  ∃ ss, main_fun [None; Some (debug_client.machine0, mk_socket debug_client.requested0 [] (λ _, 5) 0);
                  Some (debug_client.machine0, mk_socket debug_client.requested0 [] (λ _, 6) 0)] = Done ss ∧
    length ss = 2%nat ∧
    nth_error (outgoing <$> ss) 1 = Some (debug_client.replies debug_client.machine0
      (replicate 144 1) (replicate 312 2) (λ _, 6)).
Proof.
  destruct (clients_served
    [None; Some (debug_client.machine0, mk_socket debug_client.requested0 [] (λ _, 5) 0);
     Some (debug_client.machine0, mk_socket debug_client.requested0 [] (λ _, 6) 0)]
    [debug_client.replies debug_client.machine0 (replicate 144 1) (replicate 312 2) (λ _, 5);
     debug_client.replies debug_client.machine0 (replicate 144 1) (replicate 312 2) (λ _, 6)])
    as (ss & Hrun & Hout).
  - assert (∀ t, well_behaved debug_client.machine0
      (mk_socket debug_client.requested0 [] (λ _, t) 0)
      (debug_client.replies debug_client.machine0 (replicate 144 1) (replicate 312 2) (λ _, t)))
      as Hw.
    { intros t. exists (replicate 144 1), (replicate 312 2), (λ _, 1700000000),
        debug_client.requested0, (λ _, t). split_and!; try reflexivity.
      - exact debug_client.machine0_placed.
      - cbn. lia.
      - exact debug_client.requested0_coalesced. }
    apply Forall2_cons. split; [apply Hw|]. apply Forall2_cons. split; [apply Hw|].
    apply Forall2_nil. done.
  - exists ss. split; [exact Hrun|]. rewrite Hout. split; [|reflexivity].
    by rewrite <- (length_fmap outgoing ss), Hout.
Defined.

Lemma silent_client_witness :
  main_fun [None; Some (debug_client.machine0, mk_socket [] [] (λ _, 0) 0)] = Halt NullDeref.
Proof. exact (silent_client [None] debug_client.machine0 (λ _, 0) [] [] eq_refl). Defined.

End listener.
